(* ===== verification/_CoqProject ===== *)
-Q . S2P
Prelude.v
Cashu.v
Toy.v
Amounts.v
Params.v
SwapCompletion.v
Deterministic.v
Channel.v
Mint.v
Storage.v
StorageSpec.v
StorageMemory.v
StorageSqlite.v
Host.v
Bridge.v
Close.v
CloseProofs.v
ClientStorage.v
ClientStorageSpec.v
Funding.v
Bindings.v
FundingProofs.v
ClientHost.v
Client.v
ClientProofs.v
ClientExamples.v
Refund.v
Recovery.v
RefundProofs.v
RecoveryProofs.v
RecoveryExamples.v
Networking.v
NetworkingProofs.v
Management.v
ManagementProofs.v
ServerExamples.v
Foreign.v
ForeignProofs.v
ForeignClients.v
ForeignClientProofs.v
ForeignExamples.v
Minting.v
