(* ===== verification/Prelude.v ===== *)
(** * Spilman payment channels for Cashu: verification library

    The repository implements unidirectional payment channels over Cashu ecash. A sender
    (Alice, the _client_) locks proofs of a mint to a 2-of-2 key with a refund after an
    expiry; she pays by signing, for growing balances, the swap that would split the locked
    value between her and the receiver (Charlie, the _server_); the receiver closes the
    channel by adding his signature and submitting the swap of the last balance; after the
    expiry the sender can take the funding back. This library models the Rust crate
    [crates/cdk-spilman] function by function, with the hosts that its Python, JavaScript and
    Go bindings provide, and proves what the two parties rely on.

    ** The parts and the files that model them (sources under [crates/cdk-spilman/src])

    - Shared code. This file: machine integers, the three-way [Result] (a value, an error, or
      [Diverge] for a loop that never leaves and, behind the C interface, for a panic that
      ends the process), the state-and-error monad [M], loops, lists,
      [BTreeMap]s as sorted lists, byte strings, and the tactics and lemmas all files use.
      [Cashu.v]: the external crates (secp256k1, hashes, the [cashu] types, [serde_json]) as
      classes of operations and classes of laws. [Toy.v]: an instance of them that can be
      run and satisfies the laws.
    - Amounts, fees and keysets ([keysets_and_amounts.rs]): [Amounts.v].
    - Channel parameters, identity and key derivation ([params.rs], parts of [bindings.rs]
      and [deterministic.rs]): [Params.v].
    - Swap completion and restores ([swap_completion.rs], [bindings.rs]):
      [SwapCompletion.v]. Deterministic outputs and commitments ([deterministic.rs]):
      [Deterministic.v].
    - Channel verification, established channels, balance updates
      ([sender_and_receiver.rs], [established_channel.rs], [balance_update.rs]): [Channel.v].
    - Mint answers, keyset selection and the retry rule ([mint_outcome.rs],
      [keyset_versions.rs], [keyset_retry.rs]): [Mint.v].
    - The receiver's storage ([configurable_host.rs]): [Storage.v] (the trait and both
      implementations), [StorageSpec.v] (the specification [spec_step] of one channel),
      [StorageMemory.v] and [StorageSqlite.v] (the two refinements and their agreement).
    - The receiver's host, pricing and policy ([configurable_host.rs], the trait of
      [bridge.rs]): [Host.v], with [HostSpec], the interface the bridge is verified against.
    - The receiver's bridge ([bridge.rs]): [Bridge.v] (funding and payments), [Close.v] and
      [CloseProofs.v] (closing).
    - The sender's storage ([client_storage.rs], [sqlite_client_storage.rs]):
      [ClientStorage.v] and [ClientStorageSpec.v] (specification [client_step], refinements).
    - Opening and signing functions ([bindings.rs]): [Funding.v], [Bindings.v],
      [FundingProofs.v].
    - The sender's host and bridge ([configurable_client_host.rs], [client_bridge.rs]):
      [ClientHost.v], [Client.v], [ClientProofs.v], [ClientExamples.v].
    - Refund after the expiry ([established_channel.rs]): [Refund.v], [RefundProofs.v].
      Recovery of unknown outcomes ([recovery.rs], the restore of
      [sender_and_receiver.rs]): [Recovery.v], [RecoveryProofs.v], [RecoveryExamples.v].
    - HTTP networking and the keyset cache ([configurable_networking.rs],
      [initialize_keysets] of [configurable_host.rs]): [Networking.v], [NetworkingProofs.v].
      The management routes ([axum.rs]): [Management.v], [ManagementProofs.v]. Both on
      concrete inputs: [ServerExamples.v].
    - Hosts in other languages ([crates/cdk-spilman-python], [crates/cdk-wasm],
      [crates/cdk-spilman-go]): [Foreign.v] and [ForeignProofs.v] for receivers,
      [ForeignClients.v] and [ForeignClientProofs.v] for senders, [ForeignExamples.v].
    - Tokens and the minting flow of the demos ([bindings.rs]): [Minting.v].

    A definition has the name of the Rust item it translates, with a prefix where two items
    share a name ([cmem_], [csql_], [sql_], [mem_] for the storages, the type for methods
    called [new]). Structs are records with prefixed fields, enums inductive types, traits
    classes ([SpilmanStorage], [SpilmanHost], [ClientStorage], [SpilmanClientHost],
    [SpilmanClientNetworking], [MintConnection]), and so are the outside parties a binding
    talks to ([HttpClient], [PyObject], [JsObject], [GoCallbacks]). A method that changes its object, or calls
    a host or a mint, is a function of the state ([M S E A] is [S → Result E A * S]); the
    mint, the network and the clock are part of the state, so theorems quantify over
    everything they may do. The randomness a call draws is an argument of it: [schnorr_sign]
    takes the auxiliary bytes of the signature, the hosts carry what their next signatures
    draw ([signing_aux], [client_aux]), and theorems hold for every choice; two signatures of
    the same message are never assumed equal.

    ** What is proved

    - Receiver safety: whatever requests arrive, every open channel holds a payment signed by
      the sender, within capacity, that covers all recorded usage
      ([receiver_always_covered]); accepted payments are sound and honest payments accepted;
      closing pays at least the balance ([unilateral_close_collects]) or exactly the amount
      due ([cooperative_close_exact]); a failed close at most marks its channel
      ([failed_close_loses_nothing]), and a close whose answer was lost is recovered, up to
      the fresh signatures on the receiver's proofs ([lost_close_is_recovered]).
    - The server: the same holds of the whole server, with its management routes and any
      answers of the mint ([server_keeps_receiver_covered]); a close is settled once
      ([close_settles_once]). The networking takes only whole, bounded, well-formed answers
      for evidence ([http_evidence_exact]), a refresh caches only keysets whose ids their keys
      derive, unless the mint lists an id twice ([refresh_is_authentic]), and what the close theorems assume of the networking
      holds of it ([reqwest_networking_is_quiet]).
    - Other languages: an application whose callbacks implement a sound host simulates it, so
      that the theorems about hosts apply ([python_receiver_covered], [wasm_simulates],
      [go_host_agrees], [python_opening_never_loses_inputs]); a price that Python cannot
      compute counts as zero ([python_failed_price_is_free]).
    - Sender safety: an opening never loses its inputs ([opening_never_loses_inputs]), an
      opened channel passes the receiver's verification, but for the keyset id, which the
      opening takes as it is given ([opened_channel_is_valid]), an interrupted opening is
      recovered ([recovery_restores_opening]), opening conserves value, and what the client signs the
      receiver accepts ([client_payment_accepted]). A refund is possible exactly after the
      expiry and returns the funding less the fee; the sender finds her share of an ordinary
      or rerandomized close without the receiver's help ([sender_recovers_share]).
    - Storage: specifications as partial functions on the view of one channel, refined by the
      in-memory and the SQLite implementations of both parties, restarts included; the life
      of a channel, races of two callers, frozen closes. Where the implementations differ, the
      class says on which side a storage is: [funding_kept] (a second [save_funding] is
      ignored: always in memory, in SQLite while the channel is cached) and [closed_final] (a
      close mark cannot reopen a closed channel: SQLite of the sender, not its memory).
    - Mathematics of amounts: the greedy split is exact, total and optimal for divisor
      chains; fees are monotone; the inverse search terminates with the least solution; a
      commitment exists for every balance within the capacity.
    - Identity and keys: the channel id commits to the parameters; both parties derive the
      same parameters and matching keys; the JSON form is read back.

    ** Bounds and fuel

    Loops of the source run at most [2 ^ 64] turns ([iter_until 64], computed by doubling, so
    that proofs and examples do not unfold it); a loop that does not leave by then is
    [Diverge], and theorems that promise a result show that it is not. Unchecked [u64]
    arithmetic wraps ([wrap64]). The theorems about commitments assume funding amounts below
    [2 ^ 54], for which products with fees of at most 1000 ppk fit a [u64]. SQLite integers
    are signed; the storage theorems cover values below [2 ^ 63].

    ** What is not modelled, and why

    The HTTP client, the web framework and the async runtime: requests and responses are
    values. The async variants of the bridges make the same calls as the synchronous ones and
    are not repeated. SQLite pragmas and file handling ([sqlite_durability.rs], opening a
    database) and YAML parsing of the configuration. The functions that the language bindings
    export, which convert their arguments, call a modelled function and convert its result;
    the runtimes they use are classes. Demos, test mints and printed test vectors. Mutex
    poisoning and SQLite I/O errors. Concurrency: calls are atomic at the storage, as the
    mutexes make them; other requests during a call to a mint are covered where the source
    allows them, in the close. *)

From stdpp Require Export prelude gmap strings list pretty sorting.
From Stdlib Require Import Ascii.
#[global] Open Scope Z_scope.

(** ** Machine integers

    Rust's [u64] and [usize] (64-bit targets) are integers of [Z]; the unchecked
    operators wrap as release builds do, the named operations are those of the
    standard library. *)

Definition u64_max : Z := 2 ^ 64 - 1.
Definition wrap64 (z : Z) : Z := z mod 2 ^ 64.
Definition is_u64 (z : Z) : Prop := 0 <= z < 2 ^ 64.
Definition checked_add (a b : Z) : option Z :=
  if a + b <=? u64_max then Some (a + b) else None.
Definition checked_sub (a b : Z) : option Z :=
  if b <=? a then Some (a - b) else None.
Definition checked_mul (a b : Z) : option Z :=
  if a * b <=? u64_max then Some (a * b) else None.
Definition saturating_add (a b : Z) : Z := Z.min (a + b) u64_max.
Definition saturating_sub (a b : Z) : Z := Z.max (a - b) 0.
Definition saturating_mul (a b : Z) : Z := Z.min (a * b) u64_max.
Definition div_ceil (a b : Z) : Z :=
  if a mod b =? 0 then a / b else a / b + 1.

#[global] Instance is_u64_dec z : Decision (is_u64 z).
Proof. unfold is_u64. apply _. Defined.

Lemma wrap64_id z : is_u64 z → wrap64 z = z.
Proof. unfold is_u64, wrap64. apply Z.mod_small. Qed.

Lemma wrap64_is_u64 z : is_u64 (wrap64 z).
Proof. unfold is_u64, wrap64. by apply Z.mod_pos_bound. Qed.

Lemma checked_add_Some a b c :
  checked_add a b = Some c ↔ c = a + b ∧ a + b <= u64_max.
Proof. unfold checked_add. case_match; naive_solver lia. Qed.

Lemma checked_mul_Some a b c : checked_mul a b = Some c ↔ c = a * b ∧ a * b <= u64_max.
Proof. unfold checked_mul. case_match; [|naive_solver lia]. naive_solver lia. Qed.
Lemma checked_sub_Some a b c : checked_sub a b = Some c ↔ c = a - b ∧ b <= a.
Proof. unfold checked_sub. case_match; [|naive_solver lia]. naive_solver lia. Qed.

(** [div_ceil] rounds up: it is the least [q] with [a <= q * b]. *)
Lemma div_ceil_bounds a b :
  0 < b → b * (div_ceil a b - 1) < a <= b * div_ceil a b.
Proof.
  intros Hb. unfold div_ceil.
  pose proof (Z.div_mod a b) as Hd. pose proof (Z.mod_pos_bound a b Hb).
  case_match; [rewrite Z.eqb_eq in *|rewrite Z.eqb_neq in *]; nia.
Qed.

Lemma div_ceil_le_iff a b q : 0 < b → div_ceil a b <= q ↔ a <= q * b.
Proof. intros Hb. pose proof (div_ceil_bounds a b Hb). split; nia. Qed.

Lemma div_ceil_nonneg a b : 0 < b → 0 <= a → 0 <= div_ceil a b.
Proof. intros. pose proof (div_ceil_bounds a b). nia. Qed.

Lemma div_ceil_mono a a' b : 0 < b → a <= a' → div_ceil a b <= div_ceil a' b.
Proof.
  intros Hb ?. apply div_ceil_le_iff; [done|].
  pose proof (div_ceil_bounds a' b Hb). nia.
Qed.

(** ** Results

    The outcome of a Rust call of type [Result<A, E>]: it returns [Ok] or [Err],
    or, for code with loops whose exit is not guaranteed, does not return. An
    [anyhow::Error] is its message, [E := string]. *)

Inductive Result (E A : Type) : Type :=
| Ok (a : A)
| Err (e : E)
| Diverge.
Arguments Ok {E A} a.
Arguments Err {E A} e.
Arguments Diverge {E A}.

#[global] Instance Result_eq_dec {E A} `{EqDecision E, EqDecision A} :
  EqDecision (Result E A).
Proof. solve_decision. Defined.

#[global] Instance Result_ret {E} : MRet (Result E) := λ A a, Ok a.
#[global] Instance Result_bind {E} : MBind (Result E) := λ A B f m,
  match m with Ok a => f a | Err e => Err e | Diverge => Diverge end.
#[global] Instance Result_fmap {E} : FMap (Result E) := λ A B f m,
  match m with Ok a => Ok (f a) | Err e => Err e | Diverge => Diverge end.

Definition map_err {E F A} (f : E → F) (m : Result E A) : Result F A :=
  match m with Ok a => Ok a | Err e => Err (f e) | Diverge => Diverge end.
(** [Option::ok_or]. *)
Definition ok_or {E A} (e : E) (o : option A) : Result E A :=
  match o with Some a => Ok a | None => Err e end.
(** [anyhow::ensure!]. *)
Definition ensure {E} (b : bool) (e : E) : Result E unit :=
  if b then Ok tt else Err e.
Definition is_ok {E A} (m : Result E A) : bool :=
  match m with Ok _ => true | _ => false end.
(** [Iterator::collect::<Result<Vec<_>, _>>] over mapped items. *)
Fixpoint try_map {E A B} (f : A → Result E B) (l : list A) : Result E (list B) :=
  match l with
  | [] => Ok []
  | x :: l => y ← f x; ys ← try_map f l; Ok (y :: ys)
  end.
(** [Iterator::try_fold]. *)
Fixpoint try_fold {E A B} (f : B → A → Result E B) (b : B) (l : list A) : Result E B :=
  match l with
  | [] => Ok b
  | x :: l => b' ← f b x; try_fold f b' l
  end.

Lemma bind_Ok {E A B} (f : A → Result E B) m b :
  m ≫= f = Ok b ↔ ∃ a, m = Ok a ∧ f a = Ok b.
Proof. destruct m; naive_solver. Qed.
Lemma bind_Err {E A B} (f : A → Result E B) m e :
  m ≫= f = Err e ↔ m = Err e ∨ ∃ a, m = Ok a ∧ f a = Err e.
Proof. destruct m; naive_solver. Qed.
Lemma fmap_Ok {E A B} (f : A → B) (m : Result E A) b :
  f <$> m = Ok b ↔ ∃ a, m = Ok a ∧ b = f a.
Proof. destruct m; naive_solver. Qed.
Lemma map_err_Ok {E F A} (f : E → F) (m : Result E A) a :
  map_err f m = Ok a ↔ m = Ok a.
Proof. destruct m; naive_solver. Qed.
Lemma ok_or_Ok {E A} (e : E) (o : option A) a : ok_or e o = Ok a ↔ o = Some a.
Proof. destruct o; naive_solver. Qed.
Lemma is_ok_Ok {E A} (r : Result E A) : is_ok r = true ↔ ∃ a, r = Ok a.
Proof. destruct r; cbn; naive_solver. Qed.
Lemma ensure_Ok {E} b (e : E) x : ensure b e = Ok x ↔ b = true.
Proof. destruct b, x; naive_solver. Qed.
Lemma try_map_Ok {E A B} (f : A → Result E B) l l' :
  try_map f l = Ok l' ↔ Forall2 (λ x y, f x = Ok y) l l'.
Proof.
  revert l'. induction l as [|x l IH]; intros l'; simpl.
  - split; [by intros [= <-]|by inversion_clear 1].
  - rewrite bind_Ok. setoid_rewrite bind_Ok. split.
    + intros (y & ? & ys & Hys & [= <-]). constructor; [done|by apply IH].
    + inversion_clear 1. eexists; split; [done|]. eexists; split; [by apply IH|done].
Qed.
Lemma length_try_map {E A B} (f : A → Result E B) l l' :
  try_map f l = Ok l' → length l' = length l.
Proof. rewrite try_map_Ok. intros H%Forall2_length. done. Qed.
Lemma try_map_ext_ok {E A B} (f : A → Result E B) (g : A → B) l :
  (∀ x, x ∈ l → f x = Ok (g x)) → try_map f l = Ok (g <$> l).
Proof.
  induction l as [|x l IH]; intros Hf; [done|]. simpl.
  rewrite Hf by left. simpl. rewrite IH; [done|]. intros. apply Hf. by right.
Qed.

(** The tactics that open a successful chain of [?]s. *)
Ltac result_inv_step :=
  match goal with
  | H : _ ≫= _ = Ok _ |- _ =>
      apply bind_Ok in H; let a := fresh "a" in let H1 := fresh "Hm" in
      destruct H as (a & H1 & H)
  | H : map_err _ _ = Ok _ |- _ => apply map_err_Ok in H
  | H : ok_or _ _ = Ok _ |- _ => apply ok_or_Ok in H
  | H : ensure _ _ = Ok _ |- _ => apply ensure_Ok in H
  | H : Ok _ = Ok _ |- _ => injection H as H
  | H : Err _ = Ok _ |- _ => discriminate H
  | H : Diverge = Ok _ |- _ => discriminate H
  | H : context [if ?b then _ else _] |- _ =>
      match type of H with
      | _ = Ok _ => let E := fresh "Hif" in destruct b eqn:E
      end
  end.
Ltac result_inv := repeat (result_inv_step; subst).

(** ** Stateful calls

    A call that reads and writes a state [S] shared by its caller and returns a
    [Result<A, E>]: the state is kept on the error paths too. *)

Definition M (S E A : Type) : Type := S → Result E A * S.
#[global] Instance M_ret {S E} : MRet (M S E) := λ A a s, (Ok a, s).
#[global] Instance M_bind {S E} : MBind (M S E) := λ A B f m s,
  match m s with
  | (Ok a, s') => f a s'
  | (Err e, s') => (Err e, s')
  | (Diverge, s') => (Diverge, s')
  end.
(** A call that does not touch the state, ones that only read it, one that cannot fail. *)
Definition lift {S E A} (r : Result E A) : M S E A := λ s, (r, s).
Definition reads {S E A} (f : S → A) : M S E A := λ s, (Ok (f s), s).
Definition asks {S E A} (f : S → Result E A) : M S E A := λ s, (f s, s).
Definition modify {S E A} (f : S → A * S) : M S E A := λ s, (Ok (f s).1, (f s).2).
Definition mmap_err {S E F A} (f : E → F) (m : M S E A) : M S F A :=
  λ s, (map_err f (m s).1, (m s).2).

(** [match] on the outcome of a call. *)
Definition match_call {S E F A B} (m : M S E A) (f : A → M S F B) (g : E → M S F B) : M S F B :=
  λ s, match m s with
       | (Ok a, s') => f a s'
       | (Err e, s') => g e s'
       | (Diverge, s') => (Diverge, s')
       end.

Lemma M_bind_Ok {S E A B} (f : A → M S E B) (m : M S E A) s b s' :
  (m ≫= f) s = (Ok b, s') ↔ ∃ a s1, m s = (Ok a, s1) ∧ f a s1 = (Ok b, s').
Proof. unfold mbind, M_bind. destruct (m s) as [[] ?]; naive_solver. Qed.
Lemma M_bind_step {S E A B} (f : A → M S E B) (m : M S E A) s a s1 :
  m s = (Ok a, s1) → (m ≫= f) s = f a s1.
Proof. unfold mbind, M_bind. by intros ->. Qed.
Lemma M_bind_err {S E A B} (f : A → M S E B) (m : M S E A) s e s1 :
  m s = (Err e, s1) → (m ≫= f) s = (Err e, s1).
Proof. unfold mbind, M_bind. by intros ->. Qed.
Lemma lift_Ok {S E A} (r : Result E A) (s : S) a s' :
  lift r s = (Ok a, s') ↔ r = Ok a ∧ s' = s.
Proof. unfold lift. naive_solver. Qed.
Lemma lift_bind {S E A B} (a : A) (f : A → M S E B) s : (lift (Ok a) ≫= f) s = f a s.
Proof. done. Qed.
(** What a chain of calls preserves, whatever its outcome. *)
Lemma M_bind_inv {S E A B} (P : S → Prop) (f : A → M S E B) (m : M S E A) s :
  P (m s).2 → (∀ a s1, m s = (Ok a, s1) → P s1 → P (f a s1).2) → P ((m ≫= f) s).2.
Proof. unfold mbind, M_bind. destruct (m s) as [[] ?] eqn:?; naive_solver. Qed.

(** ** Loops

    [iter_until n step s] applies [step] up to [2^n] times and stops at the first
    [inr]. A [u64] loop counter takes at most [2^64] values, so [n = 64] runs every
    loop over one [u64] to its end: [run_loop] reports [Diverge] only for loops that
    make [2^64] iterations without leaving. *)

Fixpoint iter_until {S R} (n : nat) (step : S → S + R) (s : S) : S + R :=
  match n with
  | O => step s
  | S n =>
      match iter_until n step s with
      | inl s' => iter_until n step s'
      | inr r => inr r
      end
  end.
Arguments iter_until : simpl never.

Definition run_loop {E S R} (step : S → S + R) (s : S) : Result E R :=
  match iter_until 64 step s with inl _ => Diverge | inr r => Ok r end.

Lemma iter_until_succ {S R} n (step : S → S + R) s :
  iter_until (Datatypes.S n) step s =
    match iter_until n step s with
    | inl s' => iter_until n step s' | inr r => inr r
    end.
Proof. done. Qed.

Section iter_until.
Context {S R : Type} (step : S → S + R) (P : S → Prop) (Q : R → Prop).

(** Partial correctness. *)
Lemma iter_until_invariant n s :
  P s → (∀ s, P s → match step s with inl s' => P s' | inr r => Q r end) →
  match iter_until n step s with inl s' => P s' | inr r => Q r end.
Proof.
  intros Hs Hstep. revert s Hs. induction n as [|n IH]; intros s Hs; [by apply Hstep|].
  rewrite iter_until_succ. specialize (IH s Hs) as IHs.
  destruct (iter_until n step s) as [s'|r]; [by apply IH|done].
Qed.

(** Total correctness: a measure that decreases on every turn and is below the
    number of turns. *)
Lemma iter_until_measure (m : S → Z) n s :
  P s → 0 <= m s < 2 ^ Z.of_nat n →
  (∀ s, P s → 0 <= m s →
    match step s with inl s' => P s' ∧ 0 <= m s' < m s | inr r => Q r end) →
  ∃ r, iter_until n step s = inr r ∧ Q r.
Proof.
  intros Hs Hm Hstep.
  assert (∀ n s, P s → 0 <= m s →
    match iter_until n step s with
    | inl s' => P s' ∧ 0 <= m s' <= m s - 2 ^ Z.of_nat n | inr r => Q r
    end) as Hgen.
  { clear -Hstep. induction n as [|n IH]; intros s Hs Hm.
    - specialize (Hstep s Hs Hm). unfold iter_until.
      destruct (step s); [|done]. simpl. naive_solver lia.
    - rewrite iter_until_succ. specialize (IH s Hs Hm) as IHs.
      destruct (iter_until n step s) as [s'|r]; [|done].
      destruct IHs as (? & ?). specialize (IH s' ltac:(done) ltac:(lia)).
      destruct (iter_until n step s'); [|done].
      rewrite Nat2Z.inj_succ, Z.pow_succ_r by lia. naive_solver lia. }
  specialize (Hgen n s Hs ltac:(lia)).
  destruct (iter_until n step s) as [s'|r]; [lia|eauto].
Qed.

(** A loop that never leaves. *)
Lemma iter_until_never n s :
  P s → (∀ s, P s → ∃ s', step s = inl s' ∧ P s') →
  ∃ s', iter_until n step s = inl s'.
Proof.
  intros Hs Hstep.
  assert (∀ n s, P s → ∃ s', iter_until n step s = inl s' ∧ P s') as Hgen.
  { clear -Hstep. induction n as [|n IH]; intros s Hs; [by apply Hstep|].
    rewrite iter_until_succ. destruct (IH s Hs) as (s' & -> & ?). by apply IH. }
  destruct (Hgen n s Hs) as (s' & ? & ?). eauto.
Qed.
End iter_until.

(** ** Lists *)

Lemma filter_fmap {A B} (f : A → B) (P : B → Prop) `{∀ x, Decision (P x)} (l : list A) :
  filter P (f <$> l) = f <$> filter (λ x, P (f x)) l.
Proof.
  induction l as [|x l IH]; [done|]. rewrite fmap_cons, !filter_cons, IH.
  by case_decide.
Qed.

Lemma filter_all {A} (P : A → Prop) `{∀ x, Decision (P x)} (l : list A) :
  (∀ x, P x) → filter P l = l.
Proof. intros HP. induction l as [|x l IH]; [done|]. by rewrite filter_cons_True, IH. Qed.
Lemma filter_none {A} (P : A → Prop) `{∀ x, Decision (P x)} (l : list A) :
  (∀ x, ¬ P x) → filter P l = [].
Proof. intros HP. induction l as [|x l IH]; [done|]. by rewrite filter_cons_False. Qed.

Lemma foldl_ext_in {A B} (f g : A → B → A) (l : list B) a :
  (∀ a b, b ∈ l → f a b = g a b) → foldl f a l = foldl g a l.
Proof.
  revert a. induction l as [|b l IH]; intros a Hfg; [done|]. simpl.
  rewrite Hfg by left. apply IH. intros. apply Hfg. by right.
Qed.

(** ** Sums *)

Definition sumZ (l : list Z) : Z := foldr Z.add 0 l.

Lemma sumZ_app l k : sumZ (l ++ k) = sumZ l + sumZ k.
Proof. induction l; simpl; lia. Qed.
#[global] Instance sumZ_perm : Proper ((≡ₚ) ==> (=)) sumZ.
Proof. induction 1; simpl; lia. Qed.
Lemma sumZ_nonneg l : Forall (λ x, 0 <= x) l → 0 <= sumZ l.
Proof. induction 1; simpl; lia. Qed.
Lemma sumZ_replicate n x : sumZ (replicate n x) = Z.of_nat n * x.
Proof. induction n; [done|]. cbn [replicate sumZ foldr]. fold (sumZ (replicate n x)). lia. Qed.
Lemma sumZ_ge_length l : Forall (λ x, 1 <= x) l → Z.of_nat (length l) <= sumZ l.
Proof. induction 1; simpl; lia. Qed.

(** ** Stable sorting by an integer key ([slice::sort_by_key]) *)

Section sort_by_key.
Context {A : Type} (key : A → Z).

Fixpoint insert_by_key (x : A) (l : list A) : list A :=
  match l with
  | [] => [x]
  | y :: l' => if key x <=? key y then x :: l else y :: insert_by_key x l'
  end.
Definition sort_by_key (l : list A) : list A := foldr insert_by_key [] l.

Lemma insert_by_key_perm x l : insert_by_key x l ≡ₚ x :: l.
Proof.
  induction l as [|y l IH]; simpl; [done|]. case_match; [done|].
  rewrite IH. apply Permutation_swap.
Qed.
Lemma sort_by_key_perm l : sort_by_key l ≡ₚ l.
Proof.
  unfold sort_by_key. induction l as [|x l IH]; simpl; [done|].
  by rewrite insert_by_key_perm, IH.
Qed.
Lemma insert_by_key_sorted x l :
  StronglySorted (λ a b, key a <= key b) l →
  StronglySorted (λ a b, key a <= key b) (insert_by_key x l).
Proof.
  induction 1 as [|y l Hs IH Hf]; simpl; [by repeat constructor|].
  case_match.
  - constructor; [by constructor|]. constructor; [lia|].
    eapply Forall_impl; [exact Hf|]. simpl. lia.
  - constructor; [done|]. rewrite insert_by_key_perm. constructor; [lia|done].
Qed.
Lemma sort_by_key_sorted l :
  StronglySorted (λ a b, key a <= key b) (sort_by_key l).
Proof. induction l; simpl; [constructor|by apply insert_by_key_sorted]. Qed.
(** Stability: elements with equal keys keep their order. *)
Lemma sort_by_key_stable k l :
  filter (λ x, key x = k) (sort_by_key l) = filter (λ x, key x = k) l.
Proof.
  induction l as [|x l IH]; [done|]. simpl.
  assert (∀ l, filter (λ x, key x = k) (insert_by_key x l)
               = filter (λ x, key x = k) (x :: l)) as ->.
  { clear. induction l as [|y l IH]; simpl; [done|]. case_match; [done|].
    rewrite !filter_cons, IH, filter_cons.
    repeat case_decide; try done. lia. }
  rewrite !filter_cons, IH. done.
Qed.
End sort_by_key.

(** Sorting integers in descending order. *)
Lemma sort_descending l : NoDup l → StronglySorted Z.gt (sort_by_key Z.opp l).
Proof.
  intros Hnd. assert (NoDup (sort_by_key Z.opp l)) as Hnd' by (by rewrite sort_by_key_perm).
  revert Hnd'. pose proof (sort_by_key_sorted Z.opp l) as Hs.
  induction Hs as [|x k Hs IH Hf]; intros Hnd'; [constructor|].
  apply NoDup_cons in Hnd' as [Hx Hnd']. constructor; [by apply IH|].
  apply Forall_forall. intros y Hy. rewrite Forall_forall in Hf. specialize (Hf y Hy).
  assert (x ≠ y) by (intros ->; done). lia.
Qed.

(** Sorting commutes with a map that keeps the keys: two lists computed from the
    same items and sorted by the same amounts stay aligned. *)
Lemma sort_by_key_fmap {A B} (f : A → B) (ka : A → Z) (kb : B → Z) l :
  (∀ x, x ∈ l → kb (f x) = ka x) →
  sort_by_key kb (f <$> l) = f <$> sort_by_key ka l.
Proof.
  induction l as [|x l IH]; intros Hk; [done|].
  change (insert_by_key kb (f x) (sort_by_key kb (f <$> l))
          = f <$> insert_by_key ka x (sort_by_key ka l)).
  rewrite IH by (intros; apply Hk; by right).
  assert (∀ y, y ∈ sort_by_key ka l → kb (f y) = ka y) as Hs.
  { intros y Hy. rewrite sort_by_key_perm in Hy. apply Hk. by right. }
  assert (kb (f x) = ka x) as Hx by (apply Hk; left).
  revert Hs. generalize (sort_by_key ka l). clear IH Hk.
  induction l0 as [|y l0 IH]; intros Hs; simpl; [done|].
  rewrite Hx, Hs by left. case_match; [done|]. simpl. f_equal.
  apply IH. intros. apply Hs. by right.
Qed.

(** ** Ordered maps ([BTreeMap<u64, V>]), as their sorted list of entries *)

Section btree.
Context {V : Type}.
Implicit Types m : list (Z * V).

Fixpoint bt_insert (k : Z) (v : V) m : list (Z * V) :=
  match m with
  | [] => [(k, v)]
  | (k', v') :: m' =>
      if k <? k' then (k, v) :: m
      else if k =? k' then (k, v) :: m'
      else (k', v') :: bt_insert k v m'
  end.
Fixpoint bt_lookup (k : Z) m : option V :=
  match m with
  | [] => None
  | (k', v') :: m' => if k =? k' then Some v' else bt_lookup k m'
  end.
Definition bt_sorted m : Prop := StronglySorted Z.lt m.*1.

Lemma bt_insert_keys k v m x : x ∈ (bt_insert k v m).*1 ↔ x = k ∨ x ∈ m.*1.
Proof.
  induction m as [|[k' v'] m IH]; simpl; [set_solver|].
  destruct (k <? k') eqn:?; [simpl; set_solver|].
  destruct (k =? k') eqn:?; simpl; [|set_solver].
  assert (k = k') as -> by lia. set_solver.
Qed.
Lemma bt_insert_sorted k v m : bt_sorted m → bt_sorted (bt_insert k v m).
Proof.
  unfold bt_sorted. induction m as [|[k' v'] m IH]; simpl; intros Hs.
  - by repeat constructor.
  - inversion_clear Hs as [|? ? Hs' Hf].
    destruct (k <? k') eqn:?; [|destruct (k =? k') eqn:?]; simpl.
    + constructor; [by constructor|]. constructor; [lia|].
      eapply Forall_impl; [exact Hf|]. simpl. lia.
    + assert (k = k') as -> by lia. by constructor.
    + constructor; [by apply IH|]. apply Forall_forall. intros x.
      rewrite bt_insert_keys. rewrite Forall_forall in Hf. intros [->|]; [lia|auto].
Qed.
Lemma bt_lookup_insert k v m : bt_lookup k (bt_insert k v m) = Some v.
Proof.
  induction m as [|[k' v'] m IH]; simpl; [by rewrite Z.eqb_refl|].
  destruct (k <? k') eqn:?; simpl; [by rewrite Z.eqb_refl|].
  destruct (k =? k') eqn:E; simpl; [by rewrite Z.eqb_refl|by rewrite E].
Qed.
Lemma bt_lookup_insert_ne k k' v m :
  k ≠ k' → bt_lookup k' (bt_insert k v m) = bt_lookup k' m.
Proof.
  intros Hne. assert ((k' =? k) = false) as Hn by lia.
  induction m as [|[j w] m IH]; simpl; [by rewrite Hn|].
  destruct (k <? j) eqn:?; simpl; [by rewrite Hn|].
  destruct (k =? j) eqn:E; simpl.
  - rewrite Hn. assert ((k' =? j) = false) as -> by lia. done.
  - by rewrite IH.
Qed.
Lemma bt_lookup_is_Some k m : is_Some (bt_lookup k m) ↔ k ∈ m.*1.
Proof.
  induction m as [|[k' v'] m IH]; simpl.
  - rewrite elem_of_nil. split; [by intros []|done].
  - rewrite elem_of_cons, <-IH. destruct (k =? k') eqn:E.
    + split; [left; lia|by eexists].
    + split; [by right|]. intros [->|?]; [lia|done].
Qed.
Lemma bt_sorted_NoDup m : bt_sorted m → NoDup m.*1.
Proof.
  unfold bt_sorted. induction 1 as [|a l _ IH Hf]; constructor; [|done].
  intros Ha. rewrite Forall_forall in Hf. specialize (Hf a Ha). lia.
Qed.
Lemma bt_insert_perm k v m : k ∉ m.*1 → bt_insert k v m ≡ₚ (k, v) :: m.
Proof.
  induction m as [|[k' v'] m IH]; simpl; intros Hk; [done|].
  destruct (k <? k') eqn:?; [done|].
  destruct (k =? k') eqn:?; [set_solver by lia|].
  rewrite IH by set_solver. apply Permutation_swap.
Qed.
End btree.

(** The items of a count map, each key repeated count times. *)
Definition expand_counts (m : list (Z * Z)) : list Z :=
  m ≫= λ '(a, c), replicate (Z.to_nat c) a.

(** The value of the first entry with key [k]. *)
Fixpoint alist_get {V} (l : list (string * V)) (k : string) : option V :=
  match l with
  | [] => None
  | (k', v) :: l => if String.eqb k' k then Some v else alist_get l k
  end.

(** ** Bytes and strings

    A byte is an integer in [0, 256); strings are taken as their UTF-8 bytes. *)

Abbreviation bytes := (list Z).

Fixpoint bytes_of_string (s : string) : bytes :=
  match s with
  | EmptyString => []
  | String c s => Z.of_N (N_of_ascii c) :: bytes_of_string s
  end.

(** [n]-byte big-endian encoding ([to_be_bytes]) and its inverse. *)
Fixpoint be_bytes (n : nat) (z : Z) : bytes :=
  match n with
  | O => []
  | S n => Z.land (Z.shiftr z (8 * Z.of_nat n)) 255 :: be_bytes n z
  end.
Definition of_be_bytes (b : bytes) : Z := foldl (λ acc x, acc * 256 + x) 0 b.

Lemma bytes_of_string_app s t :
  bytes_of_string (s +:+ t) = bytes_of_string s ++ bytes_of_string t.
Proof. induction s as [|c s IH]; [done|]. cbn. by rewrite <-IH. Qed.
#[global] Instance bytes_of_string_inj : Inj (=) (=) bytes_of_string.
Proof.
  intros s. induction s as [|c s IH]; intros [|d t]; simpl; try done.
  intros [= Hc Ht]. f_equal; [|by apply IH].
  apply N2Z.inj in Hc. by rewrite <-(ascii_N_embedding c), Hc, ascii_N_embedding.
Qed.
Lemma length_be_bytes n z : length (be_bytes n z) = n.
Proof. induction n; simpl; congruence. Qed.
Lemma drop_be_bytes k n z : drop k (be_bytes n z) = be_bytes (n - k) z.
Proof. revert k. induction n; intros [|k]; simpl; auto. Qed.
Lemma of_be_bytes_cons_acc b acc :
  foldl (λ acc x, acc * 256 + x) acc b = acc * 256 ^ Z.of_nat (length b) + of_be_bytes b.
Proof.
  unfold of_be_bytes. revert acc.
  induction b as [|x b IH]; intros acc; cbn [foldl length]; [simpl; lia|].
  rewrite (IH (acc * 256 + x)), (IH (0 * 256 + x)).
  rewrite Nat2Z.inj_succ, Z.pow_succ_r by lia. lia.
Qed.
Lemma byte_of n z : Z.land (Z.shiftr z (8 * Z.of_nat n)) 255 = (z / 256 ^ Z.of_nat n) mod 256.
Proof.
  rewrite (Z.land_ones _ 8), Z.shiftr_div_pow2 by lia. by rewrite Z.pow_mul_r by lia.
Qed.
Lemma of_be_bytes_be_bytes n z : 0 <= z → of_be_bytes (be_bytes n z) = z mod 256 ^ Z.of_nat n.
Proof.
  intros Hz. induction n as [|n IH]; [by rewrite Z.mod_1_r|].
  cbn [be_bytes]. unfold of_be_bytes. cbn [foldl].
  rewrite of_be_bytes_cons_acc, byte_of, IH, length_be_bytes, Nat2Z.inj_succ, Z.pow_succ_r by lia.
  assert (0 < 256 ^ Z.of_nat n) by lia.
  rewrite (Z.mul_comm 256), Z.rem_mul_r by lia. lia.
Qed.
