(* ===== verification/Cashu.v ===== *)
(** * Code the repository only calls

    The crates [bitcoin] (secp256k1, SHA-256, HMAC), [hkdf], [lightning] (BigSize),
    [cashu] (protocol data types, DHKE, DLEQ, NUT-11 digests) and [serde_json] are
    not part of the repository. Their types are fields of the class [CashuTypes] and
    their functions fields of the class [CashuOps]; every model of the repository's
    code takes an instance of both. The classes at the end of the file name what the
    repository relies on of these functions; a theorem that needs one takes it as a
    hypothesis, and [Toy.v] has an instance that satisfies them all.

    The protocol structs of the [cashu] crate are records with the fields the
    repository reads and writes. *)

From S2P Require Import Prelude.

(** ** Types *)

(** [cashu::nuts::nut02::KeySetVersion]. *)
Inductive KeySetVersion := Version00 | Version01.

Class CashuTypes := {
  PublicKey : Type;
  PublicKey_eq :: EqDecision PublicKey;
  SecretKey : Type;
  SecretKey_eq :: EqDecision SecretKey;
  Scalar : Type;
  Scalar_eq :: EqDecision Scalar;
  (** [secp256k1::schnorr::Signature] *)
  Signature : Type;
  Signature_eq :: EqDecision Signature;
  CurrencyUnit : Type;
  CurrencyUnit_eq :: EqDecision CurrencyUnit;
  (** keyset identifiers *)
  Id : Type;
  Id_eq :: EqDecision Id;
  Id_countable :: Countable Id;
  (** DLEQ proofs carried by a proof and by a blind signature *)
  ProofDleq : Type;
  ProofDleq_eq :: EqDecision ProofDleq;
  BlindSignatureDleq : Type;
  BlindSignatureDleq_eq :: EqDecision BlindSignatureDleq;
  HTLCWitness : Type;
  HTLCWitness_eq :: EqDecision HTLCWitness;
  (** the mint randomness of a rerandomized swap *)
  RerandomizationR : Type;
  RerandomizationR_eq :: EqDecision RerandomizationR;
  (** [serde_json::Value] *)
  Value : Type;
  Value_eq :: EqDecision Value;
}.

Section types.
Context {T : CashuTypes}.

Inductive Witness :=
| P2PKWitness (signatures : list string)
| OtherWitness (w : HTLCWitness).

(** [Keys]: the map from amount to the mint's public key, a [BTreeMap]. *)
Definition Keys : Type := list (Z * PublicKey).

Record Proof := mk_Proof {
  proof_amount : Z;
  proof_keyset_id : Id;
  proof_secret : string;
  proof_c : PublicKey;
  proof_witness : option Witness;
  proof_dleq : option ProofDleq;
  proof_p2pk_e : option PublicKey;
}.

Record BlindedMessage := mk_BlindedMessage {
  bm_amount : Z;
  bm_keyset_id : Id;
  bm_blinded_secret : PublicKey;
  bm_witness : option Witness;
}.

Record BlindSignature := mk_BlindSignature {
  bs_amount : Z;
  bs_keyset_id : Id;
  bs_c : PublicKey;
  bs_dleq : option BlindSignatureDleq;
}.

Record SwapRequest := mk_SwapRequest {
  sr_inputs : list Proof;
  sr_outputs : list BlindedMessage;
  sr_rerandomized : bool;
}.

Record SwapResponse := mk_SwapResponse {
  resp_signatures : list BlindSignature;
  resp_rerandomization_r : option RerandomizationR;
}.

Record RestoreResponse := mk_RestoreResponse {
  rr_outputs : list BlindedMessage;
  rr_signatures : list BlindSignature;
}.

#[global] Instance Witness_eq : EqDecision Witness.
Proof. solve_decision. Defined.
#[global] Instance Proof_eq : EqDecision Proof.
Proof. solve_decision. Defined.
#[global] Instance BlindedMessage_eq : EqDecision BlindedMessage.
Proof. solve_decision. Defined.
#[global] Instance BlindSignature_eq : EqDecision BlindSignature.
Proof. solve_decision. Defined.
#[global] Instance SwapRequest_eq : EqDecision SwapRequest.
Proof. solve_decision. Defined.

(** Constructors and accessors of the protocol structs. *)
Definition amount_key (k : Keys) (amount : Z) : option PublicKey := bt_lookup amount k.
Definition BlindedMessage_new (amount : Z) (id : Id) (b : PublicKey) : BlindedMessage :=
  mk_BlindedMessage amount id b None.
Definition SwapRequest_new (inputs : list Proof) (outputs : list BlindedMessage) : SwapRequest :=
  mk_SwapRequest inputs outputs false.
Definition with_rerandomization (r : SwapRequest) : SwapRequest :=
  mk_SwapRequest (sr_inputs r) (sr_outputs r) true.
Definition set_witness (p : Proof) (w : option Witness) : Proof :=
  mk_Proof (proof_amount p) (proof_keyset_id p) (proof_secret p) (proof_c p)
    w (proof_dleq p) (proof_p2pk_e p).
Definition set_p2pk_e (p : Proof) (e : option PublicKey) : Proof :=
  mk_Proof (proof_amount p) (proof_keyset_id p) (proof_secret p) (proof_c p)
    (proof_witness p) (proof_dleq p) e.
End types.

(** ** Operations *)

Class CashuOps {T : CashuTypes} := {
  (** bitcoin::hashes, hkdf *)
  sha256 : bytes → bytes;
  hmac_engine : bytes → bytes → bytes;
  hkdf_expand32 : bytes → bytes → bytes;
  (** secp256k1 scalars and keys *)
  scalar_from_be_bytes : bytes → option Scalar;
  scalar_ZERO : Scalar;
  scalar_to_be_bytes : Scalar → bytes;
  secret_from_slice : bytes → Result string SecretKey;
  secret_from_hex : string → Result string SecretKey;
  secret_bytes : SecretKey → bytes;
  secret_as_scalar : SecretKey → Scalar;
  public_key : SecretKey → PublicKey;
  secret_negate : SecretKey → SecretKey;
  secret_add_tweak : SecretKey → Scalar → Result string SecretKey;
  pubkey_parity_odd : PublicKey → bool;
  pubkey_negate : PublicKey → PublicKey;
  pubkey_add_exp_tweak : PublicKey → Scalar → Result string PublicKey;
  pubkey_mul_tweak : PublicKey → Scalar → Result string PublicKey;
  pubkey_x : PublicKey → bytes;
  pubkey_to_bytes : PublicKey → bytes;
  pubkey_to_hex : PublicKey → string;
  pubkey_from_str : string → Result string PublicKey;
  ecdh_secret_bytes : PublicKey → SecretKey → bytes;
  (** BIP-340 *)
  (** [sign_schnorr] draws auxiliary randomness for every signature: the first argument *)
  schnorr_sign : bytes → SecretKey → bytes → Signature;
  verify_schnorr : Signature → bytes → PublicKey → Result string unit;
  signature_from_str : string → Result string Signature;
  signature_to_string : Signature → string;
  (** hex, lightning *)
  hex_encode : bytes → string;
  hex_decode : string → Result string bytes;
  bigsize_encode : Z → bytes;
  (** cashu *)
  unit_to_string : CurrencyUnit → string;
  unit_from_str : string → Result string CurrencyUnit;
  id_to_bytes : Id → bytes;
  id_to_string : Id → string;
  id_from_str : string → Result string Id;
  id_version : Id → KeySetVersion;
  id_v1_from_keys : Keys → Id;
  id_v2_from_data : Keys → CurrencyUnit → Z → option Z → Id;
  blind_message : bytes → SecretKey → Result string PublicKey;
  dleq_r : ProofDleq → SecretKey;
  proof_verify_dleq : Proof → PublicKey → Result string unit;
  signature_verify_dleq : BlindSignature → PublicKey → PublicKey → Result string unit;
  dhke_construct_proofs :
    list BlindSignature → list SecretKey → list string → Keys → Result string (list Proof);
  sig_all_message_hash : SwapRequest → bytes;
  sign_sig_all : bytes → SwapRequest → SecretKey → Result string SwapRequest;
  htlc_add_signatures : HTLCWitness → list string → HTLCWitness;
  tweak_swap_outputs : RerandomizationR → list BlindedMessage → Result string (list BlindedMessage);
  derive_rerandomization_tweak : RerandomizationR → Result string Scalar;
  (** serde_json *)
  json_parse : string → Result string Value;
  json_print : Value → string;
  json_get : Value → string → option Value;
  json_as_str : Value → option string;
  json_as_u64 : Value → option Z;
  json_as_bool : Value → option bool;
  json_as_array : Value → option (list Value);
  json_as_object : Value → option (list (string * Value));
  json_is_null : Value → bool;
  json_str : string → Value;
  json_num : Z → Value;
  json_obj : list (string * Value) → Value;
  json_bool : bool → Value;
  json_arr : list Value → Value;
  json_null : Value;
  parse_u64 : string → Result string Z;
  proofs_from_json : string → Result string (list Proof);
  proofs_to_json : list Proof → string;
  (** derived wire forms of the protocol structs *)
  swap_request_to_value : SwapRequest → Result string Value;
  swap_request_from_value : Value → Result string SwapRequest;
  swap_response_to_json : SwapResponse → Result string string;
  swap_response_from_json : string → Result string SwapResponse;
  restore_response_from_json : string → Result string RestoreResponse;
}.

Section ops.
Context `{CashuOps}.

(** [value["k"].as_str()] and [value["k"].as_u64()]: indexing an absent key gives
    [Null], which is neither. *)
Definition idx_str (v : Value) (k : string) : option string := json_get v k ≫= json_as_str.
Definition idx_u64 (v : Value) (k : string) : option Z := json_get v k ≫= json_as_u64.
Definition idx_bool (v : Value) (k : string) : option bool := json_get v k ≫= json_as_bool.

(** [Witness::add_signatures]. *)
Definition add_signatures (w : Witness) (sigs : list string) : Witness :=
  match w with
  | P2PKWitness s => P2PKWitness (s ++ sigs)
  | OtherWitness h => OtherWitness (htlc_add_signatures h sigs)
  end.
End ops.

(** The request with the witness of its first input replaced. *)
Definition set_first_witness {T : CashuTypes} (r : SwapRequest) (w : option Witness) : SwapRequest :=
  mk_SwapRequest
    (match sr_inputs r with [] => [] | p :: ps => set_witness p w :: ps end)
    (sr_outputs r) (sr_rerandomized r).

(** ** What the repository relies on *)

(** secp256k1: the public key of [-k] is [-K], that of [k + t] is [K + tG], the two
    tweaks fail together (at the point at infinity), ECDH is symmetric. *)
Class SecpLaws `{CashuOps} : Prop := {
  public_key_negate s : public_key (secret_negate s) = pubkey_negate (public_key s);
  public_key_add_tweak s r k :
    secret_add_tweak s r = Ok k →
    pubkey_add_exp_tweak (public_key s) r = Ok (public_key k);
  public_key_add_tweak_Err s r e :
    secret_add_tweak s r = Err e → ∃ e', pubkey_add_exp_tweak (public_key s) r = Err e';
  ecdh_comm a b :
    ecdh_secret_bytes (public_key b) a = ecdh_secret_bytes (public_key a) b;
  mul_tweak_comm a b :
    pubkey_mul_tweak (public_key b) (secret_as_scalar a)
    = pubkey_mul_tweak (public_key a) (secret_as_scalar b);
}.

(** BIP-340: a signature made with [k] verifies under [k]'s public key, whatever auxiliary
    randomness was drawn for it. NUT-11: the SIG_ALL
    digest does not cover witnesses, and signing adds the signature of the digest to the
    first input's witness. *)
Class SchnorrLaws `{CashuOps} : Prop := {
  schnorr_complete aux k m : verify_schnorr (schnorr_sign aux k m) m (public_key k) = Ok tt;
  signature_str_inv s : signature_from_str (signature_to_string s) = Ok s;
  sig_all_witness r w : sig_all_message_hash (set_first_witness r w) = sig_all_message_hash r;
  sign_sig_all_first aux r k p ps :
    sr_inputs r = p :: ps → proof_witness p = None →
    sign_sig_all aux r k = Ok (set_first_witness r (Some (P2PKWitness
      [signature_to_string (schnorr_sign aux k (sig_all_message_hash r))])));
}.

(** Text and byte encodings are inverted by their decoders; BigSize is prefix-free; a
    SHA-256 digest is 32 bytes. *)
Class EncodingLaws `{CashuOps} : Prop := {
  bigsize_prefix_free a b x y :
    is_u64 a → is_u64 b → bigsize_encode a ++ x = bigsize_encode b ++ y → a = b ∧ x = y;
  hex_inv b : Forall (λ x, 0 <= x < 256) b → hex_decode (hex_encode b) = Ok b;
  sha256_range m : length (sha256 m) = 32%nat ∧ Forall (λ x, 0 <= x < 256) (sha256 m);
  unit_inv u : unit_from_str (unit_to_string u) = Ok u;
  id_inv i : id_from_str (id_to_string i) = Ok i;
  id_to_bytes_inj :: Inj (=) (=) id_to_bytes;
  pubkey_to_bytes_inj :: Inj (=) (=) pubkey_to_bytes;
  pubkey_hex_inv p : pubkey_from_str (pubkey_to_hex p) = Ok p;
  secret_bytes_range k : length (secret_bytes k) = 32%nat ∧ Forall (λ x, 0 <= x < 256) (secret_bytes k);
  (** a key read from bytes is read back from its bytes *)
  secret_bytes_inv b k : secret_from_slice b = Ok k → secret_from_slice (secret_bytes k) = Ok k;
  scalar_bytes_range x : length (scalar_to_be_bytes x) = 32%nat
    ∧ Forall (λ x, 0 <= x < 256) (scalar_to_be_bytes x);
  scalar_bytes_inv b x : scalar_from_be_bytes b = Some x → scalar_from_be_bytes (scalar_to_be_bytes x) = Some x;
}.

(** serde_json: printing is inverted by parsing, an object built by [json!] (distinct
    keys) answers lookups with its entries, integers read as [u64] are in range. *)
Class JsonLaws `{CashuOps} : Prop := {
  json_print_inv v : json_parse (json_print v) = Ok v;
  json_get_obj l k :
    NoDup l.*1 → json_get (json_obj l) k = alist_get l k;
  json_as_str_str s : json_as_str (json_str s) = Some s;
  json_as_object_str s : json_as_object (json_str s) = None;
  json_as_u64_num n : is_u64 n → json_as_u64 (json_num n) = Some n;
  json_as_u64_range v n : json_as_u64 v = Some n → is_u64 n;
  parse_u64_range s n : parse_u64 s = Ok n → is_u64 n;
  json_as_object_obj l : NoDup l.*1 → ∃ l', json_as_object (json_obj l) = Some l' ∧ l' ≡ₚ l;
  json_as_bool_bool b : json_as_bool (json_bool b) = Some b;
  json_as_array_arr l : json_as_array (json_arr l) = Some l;
  json_as_u64_null : json_as_u64 json_null = None;
  parse_u64_pretty n : is_u64 n → parse_u64 (pretty n) = Ok n;
  proofs_json_inv ps : proofs_from_json (proofs_to_json ps) = Ok ps;
  json_is_null_u64 v : json_is_null v = true → json_as_u64 v = None;
}.

(** The wire forms of swap requests and responses are read back. *)
Class WireLaws `{CashuOps} : Prop := {
  swap_request_inv r : ∃ v, swap_request_to_value r = Ok v ∧ swap_request_from_value v = Ok r;
  swap_response_inv r : ∃ s, swap_response_to_json r = Ok s ∧ swap_response_from_json s = Ok r;
}.

(** [cashu::dhke::construct_proofs] makes one proof per signature, in order, with the
    signature's amount and keyset and the secret at its position. *)
Class ConstructLaws `{CashuOps} : Prop := {
  construct_proofs_shape sigs rs secrets keys proofs :
    dhke_construct_proofs sigs rs secrets keys = Ok proofs →
    Forall2 (λ s p, proof_amount p = bs_amount s ∧ proof_keyset_id p = bs_keyset_id s) sigs proofs ∧
    proof_secret <$> proofs = secrets;
}.

(** Rerandomization replaces the points of the outputs and keeps the rest. *)
Class RerandomizeLaws `{CashuOps} : Prop := {
  tweak_swap_outputs_keeps r ms outs :
    tweak_swap_outputs r ms = Ok outs →
    bm_amount <$> outs = bm_amount <$> ms ∧ bm_keyset_id <$> outs = bm_keyset_id <$> ms;
}.

(** A blinded message with its point shifted by [t]. *)
Definition tweak_message `{CashuOps} (t : Scalar) (m : BlindedMessage) : Result string BlindedMessage :=
  B ← pubkey_add_exp_tweak (bm_blinded_secret m) t;
  Ok (mk_BlindedMessage (bm_amount m) (bm_keyset_id m) B (bm_witness m)).

(** [INTEGRATION.md], checked swap completion: derived outputs use [B' = B + t(R)G], unblinding
    uses the scalar [r + t(R)], and degenerate points and scalars are rejected. The point of a
    blinded message is the secret's point plus [rG], so the shifted scalar opens the shifted
    point. *)
Class DerivedBlindingLaws `{CashuOps} : Prop := {
  tweak_swap_outputs_points r t ms outs :
    derive_rerandomization_tweak r = Ok t →
    tweak_swap_outputs r ms = Ok outs ↔ try_map (tweak_message t) ms = Ok outs;
  blind_message_add secret b B t b' B' :
    blind_message secret b = Ok B → secret_add_tweak b t = Ok b' → pubkey_add_exp_tweak B t = Ok B' →
    blind_message secret b' = Ok B';
  secret_add_tweak_bytes s t k :
    secret_add_tweak s t = Ok k → secret_from_slice (secret_bytes k) = Ok k;
}.

(** NUT-00/NUT-12: [mint_sign] is what an honest mint answers for a blinded message; its
    signature keeps the message's amount and keyset, carries a DLEQ proof that verifies
    under the denomination's key, and unblinds to a proof that verifies. *)
Class DhkeLaws `{CashuOps} := {
  mint_sign : SecretKey → BlindedMessage → BlindSignature;
  mint_sign_amount k m : bs_amount (mint_sign k m) = bm_amount m;
  mint_sign_keyset k m : bs_keyset_id (mint_sign k m) = bm_keyset_id m;
  mint_sign_dleq k m :
    signature_verify_dleq (mint_sign k m) (public_key k) (bm_blinded_secret m) = Ok tt;
  (** [l] lists, per output, the mint's key, the message, the blinding factor and the
      secret. *)
  construct_proofs_honest (keys : Keys) (l : list (SecretKey * BlindedMessage * SecretKey * string)) :
    (∀ k m r s, (k, m, r, s) ∈ l →
       amount_key keys (bm_amount m) = Some (public_key k) ∧
       blind_message (bytes_of_string s) r = Ok (bm_blinded_secret m)) →
    ∃ proofs,
      dhke_construct_proofs ((λ '(k, m, r, s), mint_sign k m) <$> l) ((λ '(k, m, r, s), r) <$> l)
        ((λ '(k, m, r, s), s) <$> l) keys = Ok proofs ∧
      Forall2 (λ '(k, m, r, s) p,
        proof_amount p = bm_amount m ∧ proof_keyset_id p = bm_keyset_id m ∧
        proof_secret p = s ∧ proof_witness p = None ∧
        proof_verify_dleq p (public_key k) = Ok tt) l proofs;
}.
