(* ===== verification/Toy.v ===== *)
(** * A concrete instance of the external code

    A model of the functions of [CashuOps] in which they can be run: the group is the
    integers modulo a prime with generator 1 (a public key is its secret
    key), the hash a polynomial hash, the texts real or binary encodings. It has the
    algebra of the real functions and none of their security; it shows that the laws
    the theorems assume hold together, and it evaluates the examples. *)

From S2P Require Import Prelude Cashu.
From Stdlib Require Import Ascii.

Module Toy.

(** ** Encodings *)

(** Any countable type printed as a binary numeral. *)
Fixpoint bin_print (p : positive) : string :=
  match p with
  | xH => "" | xO p => String "0" (bin_print p) | xI p => String "1" (bin_print p)
  end.
Fixpoint bin_parse (s : string) : option positive :=
  match s with
  | EmptyString => Some xH
  | String "0" s => xO <$> bin_parse s
  | String "1" s => xI <$> bin_parse s
  | _ => None
  end.
Definition print_countable {A} `{Countable A} (a : A) : string := bin_print (encode a).
Definition parse_countable {A} `{Countable A} (s : string) : Result string A :=
  ok_or "invalid encoding" (bin_parse s ≫= decode).

Lemma bin_parse_print p : bin_parse (bin_print p) = Some p.
Proof. induction p; simpl; by rewrite ?IHp. Qed.
Lemma parse_print_countable `{Countable A} (a : A) :
  parse_countable (print_countable a) = Ok a.
Proof.
  unfold parse_countable, print_countable. rewrite bin_parse_print. simpl.
  by rewrite decode_encode.
Qed.

(** Lower-case hexadecimal. *)
Definition hex_digit (d : Z) : ascii :=
  ascii_of_N (Z.to_N (if d <? 10 then 48 + d else 87 + d)).
Definition hex_value (c : ascii) : option Z :=
  let v := Z.of_N (N_of_ascii c) in
  if (48 <=? v) && (v <=? 57) then Some (v - 48)
  else if (97 <=? v) && (v <=? 102) then Some (v - 87)
  else if (65 <=? v) && (v <=? 70) then Some (v - 55)
  else None.
Fixpoint hex_enc (b : bytes) : string :=
  match b with
  | [] => ""
  | x :: b => String (hex_digit (x / 16)) (String (hex_digit (x mod 16)) (hex_enc b))
  end.
Fixpoint hex_dec (s : string) : option bytes :=
  match s with
  | EmptyString => Some []
  | String c (String d s) =>
      h ← hex_value c; l ← hex_value d; b ← hex_dec s; Some (h * 16 + l :: b)
  | _ => None
  end.

Lemma hex_value_digit d : 0 <= d < 16 → hex_value (hex_digit d) = Some d.
Proof.
  intros Hd. assert (d ∈ seqZ 0 16) as Hin%list_elem_of_In by (apply elem_of_seqZ; lia).
  assert (forallb (λ d, bool_decide (hex_value (hex_digit d) = Some d)) (seqZ 0 16) = true) as Hall
    by (vm_compute; reflexivity).
  rewrite forallb_forall in Hall. by apply (bool_decide_eq_true_1 _), Hall.
Qed.
Lemma hex_dec_enc b : Forall (λ x, 0 <= x < 256) b → hex_dec (hex_enc b) = Some b.
Proof.
  induction 1 as [|x b Hx Hb IH]; [done|]. simpl.
  pose proof (Z.mod_pos_bound x 16). pose proof (Z.div_mod x 16).
  assert (0 <= x / 16 < 16). { split; [apply Z.div_pos; lia|apply Z.div_lt_upper_bound; lia]. }
  rewrite !hex_value_digit by lia. simpl. rewrite IH. simpl. do 2 f_equal. lia.
Qed.

(** Decimal [u64]s ([str::parse]). *)
Fixpoint dec_loop (acc : Z) (s : string) : option Z :=
  match s with
  | EmptyString => Some acc
  | String c s =>
      let v := Z.of_N (N_of_ascii c) in
      if (48 <=? v) && (v <=? 57) then
        let acc := acc * 10 + (v - 48) in
        if acc <=? u64_max then dec_loop acc s else None
      else None
  end.
Definition dec_parse (s : string) : Result string Z :=
  match s with
  | EmptyString => Err "cannot parse integer from empty string"
  | String "+" EmptyString => Err "invalid digit found in string"
  | String "+" s => ok_or "invalid digit found in string" (dec_loop 0 s)
  | _ => ok_or "invalid digit found in string" (dec_loop 0 s)
  end.

(** BigSize of BOLT 1. *)
Definition bigsize (n : Z) : bytes :=
  if n <? 253 then [n]
  else if n <? 2 ^ 16 then 253 :: be_bytes 2 n
  else if n <? 2 ^ 32 then 254 :: be_bytes 4 n
  else 255 :: be_bytes 8 n.

Lemma be_bytes_inj_app n a b x y :
  0 <= a < 256 ^ Z.of_nat n → 0 <= b < 256 ^ Z.of_nat n →
  be_bytes n a ++ x = be_bytes n b ++ y → a = b ∧ x = y.
Proof.
  intros Ha Hb Heq. apply app_inj_1 in Heq as [Heq ->]; [|by rewrite !length_be_bytes].
  split; [|done]. apply (f_equal of_be_bytes) in Heq.
  rewrite !of_be_bytes_be_bytes, !Z.mod_small in Heq by lia. done.
Qed.
Lemma bigsize_prefix a b x y :
  is_u64 a → is_u64 b → bigsize a ++ x = bigsize b ++ y → a = b ∧ x = y.
Proof.
  intros [Ha0 Ha] [Hb0 Hb]. unfold bigsize.
  destruct (a <? 253) eqn:?, (b <? 253) eqn:?; cbn [app].
  { by intros [= -> ->]. }
  all: repeat case_match; cbn [app]; intros [? Heq]%cons_eq_inj; try lia;
    (apply be_bytes_inj_app in Heq; [done|simpl; lia..]).
Qed.

(** ** The functions *)

Definition order : Z := 2147483647.
Definition hash (b : bytes) : bytes :=
  be_bytes 32 (foldl (λ acc x, Z.land (acc * 65599 + x + 1) 2147483647) 7 b).
Arguments hash : simpl never.
Definition secret_of_slice (b : bytes) : Result string Z :=
  let v := of_be_bytes b in
  if (length b =? 32)%nat && (0 <? v) && (v <? order) then Ok v
  else Err "malformed or out-of-range secret key".
Definition scalar_of_bytes (b : bytes) : option Z :=
  let v := of_be_bytes b in
  if (length b =? 32)%nat && (0 <=? v) && (v <? order) then Some v else None.
Definition nonzero (k : Z) : Result string Z :=
  if k =? 0 then Err "invalid tweak" else Ok k.
(** hash to curve *)
Definition point (secret : bytes) : Z := of_be_bytes (hash secret) mod order.

Definition types : CashuTypes := {|
  PublicKey := Z; SecretKey := Z; Scalar := Z; Signature := string;
  CurrencyUnit := string; Id := string; ProofDleq := Z; BlindSignatureDleq := Z;
  HTLCWitness := list string; RerandomizationR := Z; Value := gen_tree (string + Z + bool);
|}.
#[local] Existing Instance types.

(** Data as trees, and trees as texts: a leaf or node is a token, a token a string with its
    length in front, so that a text inside a text stays short. *)
Class Tree (A : Type) := {
  to_tree : A → Value;
  of_tree : Value → option A;
  of_to_tree a : of_tree (to_tree a) = Some a;
}.
#[local] Instance string_tree : Tree string.
Proof.
  refine {| to_tree s := GenLeaf (inl (inl s));
            of_tree v := match v with GenLeaf (inl (inl s)) => Some s | _ => None end |}. done.
Defined.
#[local] Instance Z_tree : Tree Z.
Proof.
  refine {| to_tree n := GenLeaf (inl (inr n));
            of_tree v := match v with GenLeaf (inl (inr n)) => Some n | _ => None end |}. done.
Defined.
#[local] Instance bool_tree : Tree bool.
Proof.
  refine {| to_tree b := GenLeaf (inr b);
            of_tree v := match v with GenLeaf (inr b) => Some b | _ => None end |}. done.
Defined.
#[local] Instance list_tree `{Tree A} : Tree (list A).
Proof.
  refine {| to_tree l := GenNode 2 (to_tree <$> l);
            of_tree v := match v with GenNode 2 l => mapM of_tree l | _ => None end |}.
  intros l. apply mapM_fmap_Some, of_to_tree.
Defined.
#[local] Instance option_tree `{Tree A} : Tree (option A).
Proof.
  refine {| to_tree o := GenNode 4 (match o with Some a => [to_tree a] | None => [] end);
            of_tree v := match v with
                         | GenNode 4 [] => Some None
                         | GenNode 4 [v] => Some <$> of_tree v
                         | _ => None
                         end |}.
  intros [a|]; [|done]. cbn. by rewrite of_to_tree.
Defined.
#[local] Instance Witness_tree : Tree Witness.
Proof.
  refine {| to_tree w := match w with
                         | P2PKWitness s => GenNode 5 [to_tree (A:=list string) s]
                         | OtherWitness h => GenNode 6 [to_tree (A:=list string) (h)]
                         end;
            of_tree v := match v with
                         | GenNode 5 [s] => P2PKWitness <$> of_tree (A:=list string) s
                         | GenNode 6 [h] => (λ h : list string, OtherWitness h) <$> of_tree (A:=list string) h
                         | _ => None
                         end |}.
  intros [s|h]; cbn [fmap option_fmap option_map]; by rewrite (of_to_tree (A:=list string)).
Defined.
Ltac tree_inv := by rewrite !of_to_tree.
#[local] Instance BlindedMessage_tree : Tree BlindedMessage.
Proof.
  refine {| to_tree m := GenNode 7 [to_tree (A:=Z) (bm_amount m); to_tree (A:=string) (bm_keyset_id m);
                                    to_tree (A:=Z) (bm_blinded_secret m); to_tree (A:=option Witness) (bm_witness m)];
            of_tree v := match v with
                         | GenNode 7 [a; i; b; w] =>
                             match of_tree (A:=Z) a,
                                   of_tree (A:=string) i,
                                   of_tree (A:=Z) b,
                                   of_tree (A:=option Witness) w with
                             | Some a, Some i, Some b, Some w => Some (mk_BlindedMessage a i b w)
                             | _, _, _, _ => None
                             end
                         | _ => None
                         end |}.
  intros [a i b w]. cbn [bm_amount bm_keyset_id bm_blinded_secret bm_witness]. tree_inv.
Defined.
#[local] Instance BlindSignature_tree : Tree BlindSignature.
Proof.
  refine {| to_tree s := GenNode 7 [to_tree (A:=Z) (bs_amount s); to_tree (A:=string) (bs_keyset_id s);
                                    to_tree (A:=Z) (bs_c s); to_tree (A:=option Z) (bs_dleq s)];
            of_tree v := match v with
                         | GenNode 7 [a; i; c; d] =>
                             match of_tree (A:=Z) a,
                                   of_tree (A:=string) i,
                                   of_tree (A:=Z) c,
                                   of_tree (A:=option Z) d with
                             | Some a, Some i, Some c, Some d => Some (mk_BlindSignature a i c d)
                             | _, _, _, _ => None
                             end
                         | _ => None
                         end |}.
  intros [a i c d]. cbn [bs_amount bs_keyset_id bs_c bs_dleq]. tree_inv.
Defined.
#[local] Instance Proof_tree : Tree Proof.
Proof.
  refine {| to_tree p := GenNode 7 [to_tree (A:=Z) (proof_amount p); to_tree (A:=string) (proof_keyset_id p);
                                    to_tree (A:=string) (proof_secret p); to_tree (A:=Z) (proof_c p); to_tree (A:=option Witness) (proof_witness p);
                                    to_tree (A:=option Z) (proof_dleq p); to_tree (A:=option Z) (proof_p2pk_e p)];
            of_tree v := match v with
                         | GenNode 7 [a; i; s; c; w; d; e] =>
                             match of_tree (A:=Z) a,
                                   of_tree (A:=string) i,
                                   of_tree (A:=string) s,
                                   of_tree (A:=Z) c,
                                   of_tree (A:=option Witness) w,
                                   of_tree (A:=option Z) d,
                                   of_tree (A:=option Z) e with
                             | Some a, Some i, Some s, Some c, Some w, Some d, Some e => Some (mk_Proof a i s c w d e)
                             | _, _, _, _, _, _, _ => None
                             end
                         | _ => None
                         end |}.
  intros [a i s c w d e].
  cbn [proof_amount proof_keyset_id proof_secret proof_c proof_witness proof_dleq proof_p2pk_e].
  tree_inv.
Defined.
#[local] Instance SwapRequest_tree : Tree SwapRequest.
Proof.
  refine {| to_tree r := GenNode 7 [to_tree (A:=list Proof) (sr_inputs r); to_tree (A:=list BlindedMessage) (sr_outputs r);
                                    to_tree (A:=bool) (sr_rerandomized r)];
            of_tree v := match v with
                         | GenNode 7 [i; o; b] =>
                             match of_tree (A:=list Proof) i,
                                   of_tree (A:=list BlindedMessage) o,
                                   of_tree (A:=bool) b with
                             | Some i, Some o, Some b => Some (mk_SwapRequest i o b)
                             | _, _, _ => None
                             end
                         | _ => None
                         end |}.
  intros [i o b]. cbn [sr_inputs sr_outputs sr_rerandomized]. tree_inv.
Defined.
#[local] Instance SwapResponse_tree : Tree SwapResponse.
Proof.
  refine {| to_tree r := GenNode 7 [to_tree (A:=list BlindSignature) (resp_signatures r); to_tree (A:=option Z) (resp_rerandomization_r r)];
            of_tree v := match v with
                         | GenNode 7 [s; r] =>
                             match of_tree (A:=list BlindSignature) s,
                                   of_tree (A:=option Z) r with
                             | Some s, Some r => Some (mk_SwapResponse s r)
                             | _, _ => None
                             end
                         | _ => None
                         end |}.
  intros [s r]. cbn [resp_signatures resp_rerandomization_r]. tree_inv.
Defined.
#[local] Instance RestoreResponse_tree : Tree RestoreResponse.
Proof.
  refine {| to_tree r := GenNode 7 [to_tree (A:=list BlindedMessage) (rr_outputs r);
                                    to_tree (A:=list BlindSignature) (rr_signatures r)];
            of_tree v := match v with
                         | GenNode 7 [o; s] =>
                             match of_tree (A:=list BlindedMessage) o,
                                   of_tree (A:=list BlindSignature) s with
                             | Some o, Some s => Some (mk_RestoreResponse o s)
                             | _, _ => None
                             end
                         | _ => None
                         end |}.
  intros [o s]. cbn [rr_outputs rr_signatures]. tree_inv.
Defined.

(** A list of strings, each with its length in binary and a colon in front. *)
Fixpoint print_items (l : list string) : string :=
  match l with
  | [] => ""
  | s :: l => bin_print (Pos.of_succ_nat (String.length s)) +:+ ":" +:+ s +:+ print_items l
  end.
Fixpoint parse_length (s : string) : option (positive * string) :=
  match s with
  | String ":" s => Some (xH, s)
  | String "0" s => '(p, s) ← parse_length s; Some (xO p, s)
  | String "1" s => '(p, s) ← parse_length s; Some (xI p, s)
  | _ => None
  end.
Fixpoint split_text (n : nat) (s : string) : option (string * string) :=
  match n, s with
  | O, _ => Some ("", s)
  | S n, String c s => '(a, b) ← split_text n s; Some (String c a, b)
  | S _, EmptyString => None
  end.
Fixpoint parse_items (fuel : nat) (s : string) : option (list string) :=
  match fuel with
  | O => match s with EmptyString => Some [] | _ => None end
  | S fuel =>
      match s with
      | EmptyString => Some []
      | _ => '(p, s) ← parse_length s;
             '(a, s) ← split_text (pred (Pos.to_nat p)) s;
             l ← parse_items fuel s; Some (a :: l)
      end
  end.
Definition print_token (t : nat * nat + (string + Z + bool)) : string :=
  match t with
  | inl (len, tag) => print_items ["N"; bin_print (Pos.of_succ_nat len); bin_print (Pos.of_succ_nat tag)]
  | inr (inl (inl s)) => String "S" s
  | inr (inl (inr n)) => String "Z" (print_countable n)
  | inr (inr b) => if b then "T" else "F"
  end.
Definition parse_token (s : string) : option (nat * nat + (string + Z + bool)) :=
  match s with
  | String "S" s => Some (inr (inl (inl s)))
  | String "Z" s => n ← bin_parse s ≫= decode; Some (inr (inl (inr n)))
  | String "T" _ => Some (inr (inr true))
  | String "F" _ => Some (inr (inr false))
  | _ =>
      match parse_items 3 s with
      | Some ["N"; len; tag] =>
          len ← bin_parse len; tag ← bin_parse tag; Some (inl (pred (Pos.to_nat len), pred (Pos.to_nat tag)))
      | _ => None
      end
  end.
Definition print_tree (v : Value) : string := print_items (print_token <$> gen_tree_to_list v).
Definition parse_tree (s : string) : Result string Value :=
  ok_or "invalid text" (l ← parse_items (String.length s) s; l ← mapM parse_token l; gen_tree_of_list [] l).

Lemma app_String c a b : String c a +:+ b = String c (a +:+ b).
Proof. done. Qed.
Lemma parse_length_print p s : parse_length (bin_print p +:+ String ":" s) = Some (p, s).
Proof. induction p as [p IH|p IH|]; [..|done]; cbn [bin_print]; rewrite app_String; cbn [parse_length]; by rewrite IH. Qed.
Lemma split_text_app a b : split_text (String.length a) (a +:+ b) = Some (a, b).
Proof. induction a as [|c a IH]; [done|]. rewrite app_String. cbn [String.length split_text]. by rewrite IH. Qed.
Lemma parse_print_items l fuel : (length l <= fuel)%nat → parse_items fuel (print_items l) = Some l.
Proof.
  revert fuel. induction l as [|a l IH]; intros [|fuel] Hf; cbn [length] in *; try done; [lia|].
  cbn [print_items]. set (p := Pos.of_succ_nat (String.length a)).
  change (bin_print p +:+ ":" +:+ a +:+ print_items l) with (bin_print p +:+ String ":" (a +:+ print_items l)).
  pose proof (parse_length_print p (a +:+ print_items l)) as Hp.
  cbn [parse_items]. destruct (bin_print p +:+ String ":" (a +:+ print_items l)) as [|c t]; [done|].
  rewrite Hp. cbn [mbind option_bind]. unfold p. rewrite SuccNat2Pos.id_succ. cbn [pred].
  rewrite split_text_app. cbn [mbind option_bind]. by rewrite IH by lia.
Qed.
Lemma length_print_items l : (length l <= String.length (print_items l))%nat.
Proof.
  assert (∀ a b, String.length (a +:+ b) = String.length a + String.length b)%nat as Happ
    by (induction a as [|c a IHa]; intros b; [done|]; rewrite app_String; cbn [String.length]; rewrite IHa; lia).
  induction l as [|a l IH]; [done|]. cbn [print_items length]. rewrite !Happ. cbn [String.length]. lia.
Qed.
Lemma parse_print_token t : parse_token (print_token t) = Some t.
Proof.
  destruct t as [[len tag]|[[s|n]|[]]]; [|done| |done..].
  - cbn [print_token]. set (s := print_items _).
    assert (parse_items 3 s = Some ["N"; bin_print (Pos.of_succ_nat len); bin_print (Pos.of_succ_nat tag)]) as Hs
      by (by apply parse_print_items).
    assert (parse_token s = match parse_items 3 s with
      | Some ["N"; len; tag] =>
          len ← bin_parse len; tag ← bin_parse tag; Some (inl (pred (Pos.to_nat len), pred (Pos.to_nat tag)))
      | _ => None end) as ->. { unfold s. reflexivity. }
    rewrite Hs. rewrite !bin_parse_print. cbn. by rewrite !SuccNat2Pos.id_succ.
  - cbn. unfold print_countable. rewrite bin_parse_print. cbn. by rewrite decode_encode.
Qed.
Lemma parse_print_tree v : parse_tree (print_tree v) = Ok v.
Proof.
  unfold parse_tree, print_tree. rewrite parse_print_items by apply length_print_items. cbn [mbind option_bind].
  assert (mapM parse_token (print_token <$> gen_tree_to_list v) = Some (gen_tree_to_list v)) as ->
    by apply mapM_fmap_Some, parse_print_token.
  cbn [mbind option_bind]. by rewrite <-(right_id_L [] _ (gen_tree_to_list v)), gen_tree_of_to_list.
Qed.
(** Data as texts. *)
Definition print_data `{Tree A} (a : A) : string := print_tree (to_tree a).
Definition parse_data `{Tree A} (s : string) : Result string A :=
  v ← parse_tree s; ok_or "invalid data" (of_tree v).
Lemma parse_print_data `{Tree A} (a : A) : parse_data (print_data a) = Ok a.
Proof. unfold parse_data, print_data. rewrite parse_print_tree. cbn. by rewrite of_to_tree. Qed.

(** JSON objects are nodes with tag 0, their entries with tag 1, arrays with tag 2. *)
Definition obj (l : list (string * Value)) : Value :=
  GenNode 0 ((λ '(k, v), GenNode 1 [GenLeaf (inl (inl k)); v]) <$> l).
Definition entry (v : Value) : option (string * Value) :=
  match v with GenNode 1 [GenLeaf (inl (inl k)); v] => Some (k, v) | _ => None end.
Definition as_object (v : Value) : option (list (string * Value)) :=
  match v with GenNode 0 l => Some (omap entry l) | _ => None end.
Definition get (v : Value) (k : string) : option Value :=
  as_object v ≫= λ l, snd <$> List.find (λ e, bool_decide (e.1 = k)) l.

(** The pieces of a text between double quotes, and the NUT-10 secret (or the empty array)
    they spell. *)
Fixpoint split_quotes (acc : string) (s : string) : list string :=
  match s with
  | EmptyString => [acc]
  | String c s =>
      if Ascii.eqb c (ascii_of_nat 34) then acc :: split_quotes "" s
      else split_quotes (acc +:+ String c "") s
  end.
Definition p2pk_value (hex nonce : string) : Value :=
  GenNode 2 [GenLeaf (inl (inl "P2PK"));
    obj [("data", GenLeaf (inl (inl hex))); ("nonce", GenLeaf (inl (inl nonce))); ("tags", GenNode 2 [])]].
Definition parse_p2pk (s : string) : Result string Value :=
  match split_quotes "" s with
  | ["["; "P2PK"; ",{"; "data"; ":"; hex; ","; "nonce"; ":"; nonce; ","; "tags"; ":[]}]"] =>
      Ok (p2pk_value hex nonce)
  | ["[]"] => Ok (GenNode 2 [])
  | _ => Err "not a secret"
  end.
Definition parse_value (s : string) : Result string Value :=
  match s with String "[" _ => parse_p2pk s | _ => parse_tree s end.

(** Blind signatures: the mint's key [k] signs [B'] as [k * B'], unblinding subtracts
    [r * K]; a DLEQ proof is accepted when the signature is right. *)
Definition construct_one (keys : Keys) (x : BlindSignature * (Z * string)) : Result string Proof :=
  let '(s, (r, secret)) := x in
  K ← ok_or "amount key" (amount_key keys (bs_amount s));
  Ok (mk_Proof (bs_amount s) (bs_keyset_id s) secret ((bs_c s - r * K) mod order)
        None ((λ _, r) <$> bs_dleq s) None).
Definition construct (sigs : list BlindSignature) (rs : list Z) (secrets : list string)
    (keys : Keys) : Result string (list Proof) :=
  if decide (length sigs = length rs ∧ length sigs = length secrets)
  then try_map (construct_one keys) (zip sigs (zip rs secrets))
  else Err "lengths differ".

Definition input_bytes (p : Proof) : bytes :=
  bytes_of_string (proof_secret p) ++ bytes_of_string (pretty (proof_c p)).
Definition output_bytes (m : BlindedMessage) : bytes :=
  bytes_of_string (pretty (bm_amount m)) ++ bytes_of_string (pretty (bm_blinded_secret m)).

(** A secret key as a text: its number, or the hex of its bytes. *)
Definition secret_of_text (s : string) : Result string Z :=
  match parse_countable s with
  | Ok k => Ok k
  | _ => b ← ok_or "invalid hex" (hex_dec s); secret_of_slice b
  end.

(** The JSON form of a swap request. *)
Definition message_obj (m : BlindedMessage) : Value :=
  obj [("amount", to_tree (A:=Z) (bm_amount m)); ("id", to_tree (A:=string) (bm_keyset_id m));
       ("B_", to_tree (A:=Z) (bm_blinded_secret m)); ("witness", to_tree (A:=option Witness) (bm_witness m))].
Definition message_of_value (v : Value) : option BlindedMessage :=
  match get v "amount" ≫= of_tree (A:=Z), get v "id" ≫= of_tree (A:=string),
        get v "B_" ≫= of_tree (A:=Z), get v "witness" ≫= of_tree (A:=option Witness) with
  | Some a, Some i, Some b, Some w => Some (mk_BlindedMessage a i b w)
  | _, _, _, _ => None
  end.
Definition request_obj (r : SwapRequest) : Value :=
  obj [("inputs", to_tree (A:=list Proof) (sr_inputs r)); ("outputs", GenNode 2 (message_obj <$> sr_outputs r));
       ("rerandomized", to_tree (A:=bool) (sr_rerandomized r))].
Definition request_of_value (v : Value) : option SwapRequest :=
  match get v "inputs" ≫= of_tree (A:=list Proof),
        match get v "outputs" with Some (GenNode 2 l) => mapM message_of_value l | _ => None end,
        get v "rerandomized" ≫= of_tree (A:=bool) with
  | Some i, Some o, Some b => Some (mk_SwapRequest i o b)
  | _, _, _ => None
  end.

Lemma message_obj_inv m : message_of_value (message_obj m) = Some m.
Proof.
  unfold message_of_value.
  change (get (message_obj m) "amount") with (Some (to_tree (A:=Z) (bm_amount m))).
  change (get (message_obj m) "id") with (Some (to_tree (A:=string) (bm_keyset_id m))).
  change (get (message_obj m) "B_") with (Some (to_tree (A:=Z) (bm_blinded_secret m))).
  change (get (message_obj m) "witness") with (Some (to_tree (A:=option Witness) (bm_witness m))).
  cbn [mbind option_bind]. rewrite !of_to_tree. by destruct m.
Qed.
Lemma messages_inv l : mapM message_of_value (message_obj <$> l) = Some l.
Proof. apply mapM_fmap_Some, message_obj_inv. Qed.
Lemma request_obj_inv r : request_of_value (request_obj r) = Some r.
Proof.
  unfold request_of_value.
  change (get (request_obj r) "inputs") with (Some (to_tree (A:=list Proof) (sr_inputs r))).
  change (get (request_obj r) "outputs") with (Some (GenNode 2 (message_obj <$> sr_outputs r) : Value)).
  change (get (request_obj r) "rerandomized") with (Some (to_tree (A:=bool) (sr_rerandomized r))).
  cbn [mbind option_bind]. rewrite !of_to_tree, messages_inv. by destruct r.
Qed.

Definition ops : CashuOps := {|
  sha256 := hash;
  hmac_engine k d := hash (k ++ [92] ++ hash (k ++ [54] ++ d));
  hkdf_expand32 k d := hash (hash k ++ d);
  scalar_from_be_bytes := scalar_of_bytes;
  scalar_ZERO := 0;
  scalar_to_be_bytes s := be_bytes 32 s;
  secret_from_slice := secret_of_slice;
  secret_from_hex := secret_of_text;
  secret_bytes s := be_bytes 32 s;
  secret_as_scalar s := s;
  public_key s := s;
  secret_negate s := (- s) mod order;
  secret_add_tweak s t := nonzero ((s + t) mod order);
  pubkey_parity_odd p := Z.odd p;
  pubkey_negate p := (- p) mod order;
  pubkey_add_exp_tweak p t := nonzero ((p + t) mod order);
  pubkey_mul_tweak p t := nonzero ((p * t) mod order);
  pubkey_x p := be_bytes 32 (Z.min (p mod order) ((- p) mod order));
  pubkey_to_bytes p := bytes_of_string (pretty p);
  pubkey_to_hex p := print_countable p;
  pubkey_from_str s := parse_countable s;
  ecdh_secret_bytes p s := be_bytes 32 ((p * s) mod order);
  (** the auxiliary randomness stays visible in the signature *)
  schnorr_sign aux k m := hex_enc (hash (m ++ bytes_of_string (pretty k))) +:+ hex_enc aux;
  verify_schnorr s m p :=
    ensure (String.prefix (hex_enc (hash (m ++ bytes_of_string (pretty p)))) s) "bad signature";
  signature_from_str s := Ok s;
  signature_to_string s := s;
  hex_encode := hex_enc;
  hex_decode s := ok_or "invalid hex" (hex_dec s);
  bigsize_encode := bigsize;
  unit_to_string u := u;
  unit_from_str u := Ok u;
  id_to_bytes := bytes_of_string;
  id_to_string i := i;
  id_from_str i := Ok i;
  id_version i := match i with String "0" (String "0" _) => Version00 | _ => Version01 end;
  id_v1_from_keys k := "00" +:+ hex_enc (drop 25 (hash (k ≫= λ '(_, p), bytes_of_string (pretty p))));
  id_v2_from_data k u f e :=
    "01" +:+ hex_enc (hash ((k ≫= λ '(_, p), bytes_of_string (pretty p)) ++ bytes_of_string u));
  blind_message secret r := Ok ((point secret + r) mod order);
  dleq_r d := d;
  proof_verify_dleq p K :=
    ensure (bool_decide (is_Some (proof_dleq p)) &&
      (proof_c p =? (K * point (bytes_of_string (proof_secret p))) mod order)) "Invalid DLEQ proof";
  signature_verify_dleq s K B :=
    ensure (bool_decide (is_Some (bs_dleq s)) && (bs_c s =? (K * B) mod order)) "Invalid DLEQ proof";
  dhke_construct_proofs := construct;
  sig_all_message_hash r :=
    hash ((sr_inputs r ≫= input_bytes) ++ (sr_outputs r ≫= output_bytes));
  sign_sig_all aux r k :=
    let sig := hex_enc (hash (hash ((sr_inputs r ≫= input_bytes) ++ (sr_outputs r ≫= output_bytes))
                              ++ bytes_of_string (pretty k))) +:+ hex_enc aux in
    match sr_inputs r with
    | [] => Err "no inputs"
    | p :: _ => Ok (set_first_witness r (Some
        match proof_witness p with
        | Some (P2PKWitness s) => P2PKWitness (s ++ [sig])
        | _ => P2PKWitness [sig]
        end))
    end;
  htlc_add_signatures := app;
  tweak_swap_outputs r := try_map (λ m,
    B ← nonzero ((bm_blinded_secret m + r) mod order);
    Ok (mk_BlindedMessage (bm_amount m) (bm_keyset_id m) B (bm_witness m)));
  derive_rerandomization_tweak r := Ok r;
  json_parse := parse_value;
  json_print v := print_tree v;
  json_get := get;
  json_as_str v := match v with GenLeaf (inl (inl s)) => Some s | _ => None end;
  json_as_u64 v :=
    match v with
    | GenLeaf (inl (inr n)) => if (0 <=? n) && (n <=? u64_max) then Some n else None
    | _ => None
    end;
  json_as_bool v := match v with GenLeaf (inr b) => Some b | _ => None end;
  json_as_array v := match v with GenNode 2 l => Some l | _ => None end;
  json_as_object := as_object;
  json_is_null v := match v with GenNode 3 [] => true | _ => false end;
  json_str s := GenLeaf (inl (inl s));
  json_num n := GenLeaf (inl (inr n));
  json_obj := obj;
  json_bool b := GenLeaf (inr b);
  json_arr l := GenNode 2 l;
  json_null := GenNode 3 [];
  parse_u64 := dec_parse;
  proofs_from_json s := parse_data s;
  proofs_to_json ps := print_data ps;
  swap_request_to_value r := Ok (request_obj r);
  swap_request_from_value v := ok_or "invalid request" (request_of_value v);
  swap_response_to_json r := Ok (print_data r);
  swap_response_from_json s := parse_data s;
  restore_response_from_json s := parse_data s;
|}.
#[local] Existing Instance ops.

(** ** The laws hold *)

Lemma secp_laws : SecpLaws.
Proof.
  split; simpl.
  - done.
  - done.
  - unfold nonzero. intros s r e H. case_match; [by eexists|done].
  - intros a b. by rewrite Z.mul_comm.
  - intros a b. by rewrite Z.mul_comm.
Qed.
Lemma be_bytes_range n z : Forall (λ x, 0 <= x < 256) (be_bytes n z).
Proof.
  induction n; cbn [be_bytes]; constructor; [|done]. rewrite byte_of. by apply Z.mod_pos_bound.
Qed.
Lemma prefix_append s t : String.prefix s (s +:+ t) = true.
Proof.
  induction s as [|a s IH]; [by destruct t|]. simpl. by destruct (Ascii.ascii_dec a a).
Qed.
Lemma schnorr_laws : SchnorrLaws.
Proof.
  split.
  - intros aux k m. cbn [verify_schnorr schnorr_sign public_key ops]. by rewrite prefix_append.
  - done.
  - intros r w. cbn [sig_all_message_hash ops]. unfold set_first_witness. cbn [sr_inputs sr_outputs].
    destruct (sr_inputs r) as [|[] ps]; done.
  - intros aux r k p ps Hr Hw. cbn [sign_sig_all ops]. rewrite Hr, Hw. cbn. by rewrite Hr.
Qed.
Lemma be_inv (z : Z) : 0 <= z < order → of_be_bytes (be_bytes 32 z) = z.
Proof.
  intros Hz. rewrite of_be_bytes_be_bytes by lia. apply Z.mod_small.
  assert (order < 256 ^ Z.of_nat 32) by (vm_compute; reflexivity). lia.
Qed.
Lemma secret_slice_inv b k : secret_of_slice b = Ok k → secret_of_slice (be_bytes 32 k) = Ok k.
Proof.
  unfold secret_of_slice. rewrite length_be_bytes. destruct ((length b =? 32)%nat); [|done]. cbn [andb].
  destruct ((0 <? of_be_bytes b) && (of_be_bytes b <? order)) eqn:E; [|done]. intros [= <-].
  apply andb_true_iff in E as [E1 E2]. rewrite be_inv by lia. by rewrite E1, E2.
Qed.
Lemma scalar_slice_inv b x :
  scalar_of_bytes b = Some x → scalar_of_bytes (be_bytes 32 x) = Some x.
Proof.
  unfold scalar_of_bytes. rewrite length_be_bytes. destruct ((length b =? 32)%nat); [|done]. cbn [andb].
  destruct ((0 <=? of_be_bytes b) && (of_be_bytes b <? order)) eqn:E; [|done]. intros [= <-].
  apply andb_true_iff in E as [E1 E2]. rewrite be_inv by lia. by rewrite E1, E2.
Qed.
Lemma hash_range m : length (hash m) = 32%nat ∧ Forall (λ x, 0 <= x < 256) (hash m).
Proof. unfold hash. split; [apply length_be_bytes|apply be_bytes_range]. Qed.
Lemma encoding_laws : EncodingLaws.
Proof.
  split.
  - exact bigsize_prefix.
  - intros b Hb. cbn [hex_decode hex_encode ops]. by rewrite hex_dec_enc.
  - exact hash_range.
  - done.
  - done.
  - exact bytes_of_string_inj.
  - intros a b Hab%(inj bytes_of_string). by apply (inj pretty).
  - intros p. exact (parse_print_countable p).
  - intros k. exact (conj (length_be_bytes 32 k) (be_bytes_range 32 k)).
  - exact secret_slice_inv.
  - intros k. exact (conj (length_be_bytes 32 k) (be_bytes_range 32 k)).
  - exact scalar_slice_inv.
Qed.
Lemma get_obj l k : get (obj l) k = alist_get l k.
Proof.
  unfold get, obj. simpl. induction l as [|[k' v] l IH]; [done|]. simpl.
  destruct (decide (k' = k)) as [->|].
  - by rewrite bool_decide_eq_true_2, String.eqb_refl.
  - rewrite bool_decide_eq_false_2, (proj2 (String.eqb_neq _ _)) by done. apply IH.
Qed.
Lemma dec_loop_range acc s n : is_u64 acc → dec_loop acc s = Some n → is_u64 n.
Proof.
  revert acc. induction s as [|c s IH]; simpl; intros acc Hacc; [by intros [= <-]|].
  unfold is_u64, u64_max in *. repeat case_match; try done. apply IH. lia.
Qed.
Lemma dec_parse_range s n : dec_parse s = Ok n → is_u64 n.
Proof.
  assert (∀ (e : string) s, ok_or e (dec_loop 0 s) = Ok n → is_u64 n) as Hd.
  { intros e s'. rewrite ok_or_Ok. by apply dec_loop_range. }
  unfold dec_parse. intros H. repeat case_match; try done; eauto.
Qed.
Lemma dec_loop_pretty x s :
  Z.of_N x <= u64_max → dec_loop 0 (pretty_N_go x s) = dec_loop (Z.of_N x) s.
Proof.
  revert s. induction (N.lt_wf_0 x) as [x _ IH]; intros s Hx.
  destruct (decide (0 < x)%N) as [Hpos|]; [|assert (x = 0%N) as -> by lia; by rewrite pretty_N_go_0].
  rewrite pretty_N_go_step by done.
  assert (x / 10 < x)%N by (apply N.div_lt; lia). rewrite IH by lia.
  pose proof (N.div_mod x 10 ltac:(lia)). pose proof (N.mod_lt x 10 ltac:(lia)).
  assert (∀ d, (d < 10)%N → Z.of_N (N_of_ascii (pretty_N_char d)) = 48 + Z.of_N d) as Hd.
  { intros d Hd. assert (Forall (λ d, Z.of_N (N_of_ascii (pretty_N_char d)) = 48 + Z.of_N d)
      [0;1;2;3;4;5;6;7;8;9]%N) as Hall by (repeat constructor).
    rewrite Forall_forall in Hall. apply Hall.
    assert (d = 0 ∨ d = 1 ∨ d = 2 ∨ d = 3 ∨ d = 4 ∨ d = 5 ∨ d = 6 ∨ d = 7 ∨ d = 8 ∨ d = 9)%N by lia.
    set_solver. }
  cbn [dec_loop]. rewrite Hd by lia.
  set (q := (x / 10)%N) in *. set (d := (x mod 10)%N) in *. clearbody q d.
  replace ((48 <=? 48 + Z.of_N d) && (48 + Z.of_N d <=? 57)) with true
    by (symmetry; apply andb_true_iff; split; apply Z.leb_le; lia).
  replace (Z.of_N q * 10 + (48 + Z.of_N d - 48)) with (Z.of_N x) by lia.
  by rewrite (proj2 (Z.leb_le _ _)) by lia.
Qed.
Lemma dec_parse_loop s n : s ≠ "" → dec_loop 0 s = Some n → dec_parse s = Ok n.
Proof.
  unfold dec_parse. destruct s as [|c s]; [done|]. intros _ Hn.
  destruct (Ascii.eqb_spec c "+") as [->|Hc]; [done|].
  rewrite Hn. destruct c as [[] [] [] [] [] [] [] []]; done.
Qed.
Lemma dec_parse_pretty n : is_u64 n → dec_parse (pretty n) = Ok n.
Proof.
  intros [H0 H1]. destruct n as [|p|p]; [done| |lia].
  apply dec_parse_loop; change (pretty (Z.pos p)) with (pretty (N.pos p)); unfold pretty, pretty_N.
  - rewrite decide_False by done. rewrite pretty_N_go_step by done.
    intros E. apply (f_equal String.length) in E. revert E.
    generalize (pretty_N_char (N.pos p mod 10)). intros c.
    enough (∀ x s, (String.length s <= String.length (pretty_N_go x s))%nat) as Hl.
    { specialize (Hl (N.pos p / 10)%N (String c "")). simpl in *. lia. }
    clear. intros x. induction (N.lt_wf_0 x) as [x _ IH]; intros s.
    destruct (decide (0 < x)%N); [|assert (x = 0%N) as -> by lia; by rewrite pretty_N_go_0].
    rewrite pretty_N_go_step by done. etrans; [|apply IH, N.div_lt; lia]. simpl. lia.
  - rewrite decide_False by done. rewrite dec_loop_pretty by (unfold u64_max; lia). done.
Qed.
Lemma parse_value_print v : parse_value (print_tree v) = Ok v.
Proof.
  rewrite <-(parse_print_tree v). unfold parse_value. rewrite parse_print_tree. unfold print_tree.
  destruct (gen_tree_to_list v) as [|t l]; [done|]. cbn [fmap list_fmap print_items].
  by destruct (Pos.of_succ_nat (String.length (print_token t))).
Qed.
Lemma omap_entry (l : list (string * Value)) : omap entry ((λ '(k, v), GenNode 1 [GenLeaf (inl (inl k)); v]) <$> l) = l.
Proof. induction l as [|[k v] l IH]; [done|]. simpl. by f_equal. Qed.
Lemma json_laws : JsonLaws.
Proof.
  split.
  - exact parse_value_print.
  - intros. apply get_obj.
  - done.
  - done.
  - intros n Hn. cbn [json_as_u64 json_num ops]. unfold is_u64, u64_max in *.
    rewrite (proj2 (Z.leb_le 0 n)), (proj2 (Z.leb_le n _)) by lia. done.
  - intros v n H. cbn [json_as_u64 ops] in H. unfold is_u64, u64_max in *.
    repeat case_match; naive_solver lia.
  - exact dec_parse_range.
  - intros l _. exists l. split; [|done]. cbn. by rewrite omap_entry.
  - done.
  - done.
  - done.
  - exact dec_parse_pretty.
  - intros ps. exact (parse_print_data ps).
  - intros [[[? | ?] | ?] | [|[|[|[|n]]]] [|? ?]]; done.
Qed.
Lemma wire_laws : WireLaws.
Proof.
  split; intros r; (eexists; split; [reflexivity|]); [|exact (parse_print_data r)].
  exact (f_equal (ok_or "invalid request") (request_obj_inv r)).
Qed.
Lemma construct_laws : ConstructLaws.
Proof.
  split. intros sigs rs secrets keys proofs. cbn [dhke_construct_proofs ops]. unfold construct.
  case_decide as Hl; [|done]. destruct Hl as [H1 H2].
  intros Hp%try_map_Ok. revert rs secrets H1 H2 Hp. revert proofs.
  induction sigs as [|s sigs IH]; intros proofs [|r rs] [|t ts] H1 H2 Hp; simplify_eq/=.
  { inversion_clear Hp. done. }
  inversion_clear Hp as [|? p ? ps Hone Hrest].
  destruct (IH ps rs ts) as [Hf <-]; [done..|]. unfold construct_one in Hone. result_inv.
  split; [by constructor|done].
Qed.

Lemma rerandomize_laws : RerandomizeLaws.
Proof.
  split. intros r ms outs Hm%try_map_Ok. induction Hm as [|m o ms outs Hm _ [IHa IHi]]; [done|].
  apply bind_Ok in Hm as (B & _ & [= <-]). rewrite !fmap_cons. split; by f_equal.
Qed.
Lemma derived_blinding_laws : DerivedBlindingLaws.
Proof.
  assert (∀ x y, nonzero (x mod order) = Ok y → y = x mod order ∧ 0 < y < order) as Hnz.
  { unfold nonzero. intros x y. pose proof (Z.mod_pos_bound x order ltac:(done)).
    case_match; [done|]. intros [= <-]. split; [done|]. lia. }
  split.
  - intros r t ms outs [= <-]. done.
  - cbn [blind_message secret_add_tweak pubkey_add_exp_tweak ops].
    intros secret b B t b' B' [= <-] [-> _]%Hnz [-> _]%Hnz. f_equal.
    by rewrite Zplus_mod_idemp_l, Zplus_mod_idemp_r, Z.add_assoc.
  - cbn [secret_add_tweak secret_from_slice secret_bytes ops]. intros s t k [_ Hk]%Hnz.
    unfold secret_of_slice. rewrite length_be_bytes, be_inv by lia. cbn [Nat.eqb andb].
    by rewrite (proj2 (Z.ltb_lt _ _)), (proj2 (Z.ltb_lt _ _)) by lia.
Qed.

(** A NUT-10 secret as [new_p2pk] of [Params.v] writes it. *)
Definition no_quote (s : string) : Prop := ∀ acc t,
  split_quotes acc (s +:+ String (ascii_of_nat 34) t) = (acc +:+ s) :: split_quotes "" t.
Lemma app_nil_r' (s : string) : s +:+ "" = s.
Proof. induction s as [|c s IH]; [done|]. exact (f_equal (String c) IH). Qed.
Lemma app_assoc' (a b c : string) : (a +:+ b) +:+ c = a +:+ (b +:+ c).
Proof. induction a as [|x a IH]; [done|]. exact (f_equal (String x) IH). Qed.
Lemma no_quote_cons c s : Ascii.eqb c (ascii_of_nat 34) = false → no_quote s → no_quote (String c s).
Proof.
  intros Hc Hs acc t.
  change ((if Ascii.eqb c (ascii_of_nat 34)
           then acc :: split_quotes "" (s +:+ String (ascii_of_nat 34) t)
           else split_quotes (acc +:+ String c "") (s +:+ String (ascii_of_nat 34) t))
          = (acc +:+ String c s) :: split_quotes "" t).
  rewrite Hc, Hs, app_assoc'. done.
Qed.
Lemma no_quote_nil : no_quote "".
Proof.
  intros acc t. change (acc :: split_quotes "" t = (acc +:+ "") :: split_quotes "" t).
  by rewrite app_nil_r'.
Qed.
Lemma no_quote_bin p : no_quote (bin_print p).
Proof. induction p; simpl; [by apply no_quote_cons..|apply no_quote_nil]. Qed.
Lemma no_quote_hex b : Forall (λ x, 0 <= x < 256) b → no_quote (hex_enc b).
Proof.
  intros Hb.
  assert (∀ d, 0 <= d < 16 → Ascii.eqb (hex_digit d) (ascii_of_nat 34) = false) as Hd.
  { intros d Hd. destruct (Ascii.eqb_spec (hex_digit d) (ascii_of_nat 34)) as [E|]; [|done].
    apply (f_equal hex_value) in E. by rewrite hex_value_digit in E. }
  induction Hb as [|x b Hx Hb IH]; cbn [hex_enc]; [apply no_quote_nil|].
  pose proof (Z.mod_pos_bound x 16). pose proof (Z.div_mod x 16).
  assert (0 <= x / 16 < 16). { split; [apply Z.div_pos; lia|apply Z.div_lt_upper_bound; lia]. }
  apply no_quote_cons; [apply Hd; lia|]. apply no_quote_cons; [apply Hd; lia|done].
Qed.
Lemma parse_p2pk_text pre hex nonce :
  no_quote hex → no_quote nonce → pre = String (ascii_of_nat 34) "" →
  parse_value ("[" +:+ (pre +:+ "P2PK" +:+ pre) +:+ ",{" +:+ (pre +:+ "data" +:+ pre) +:+ ":"
    +:+ (pre +:+ hex +:+ pre) +:+ "," +:+ (pre +:+ "nonce" +:+ pre) +:+ ":"
    +:+ (pre +:+ nonce +:+ pre) +:+ "," +:+ (pre +:+ "tags" +:+ pre) +:+ ":[]}]")
  = Ok (p2pk_value hex nonce).
Proof.
  intros Hh Hn ->. set (q := ascii_of_nat 34).
  set (rest := "," +:+ (String q "tags" +:+ String q ":[]}]")).
  set (mid := "," +:+ String q "nonce" +:+ String q ":" +:+ String q (nonce +:+ String q rest)).
  match goal with |- parse_value ?t = _ => set (text := t) end.
  assert (text = "[" +:+ String q "P2PK" +:+ String q ",{" +:+ String q "data" +:+ String q ":"
    +:+ String q (hex +:+ String q mid)) as ->.
  { subst text mid rest. rewrite !app_assoc'. done. }
  match goal with |- parse_value ?t = _ => change (parse_value t) with (parse_p2pk t) end.
  unfold parse_p2pk.
  assert (split_quotes "" ("[" +:+ String q "P2PK" +:+ String q ",{" +:+ String q "data"
      +:+ String q ":" +:+ String q (hex +:+ String q mid))
    = "[" :: "P2PK" :: ",{" :: "data" :: ":" :: split_quotes "" (hex +:+ String q mid)) as -> by done.
  rewrite Hh.
  assert (split_quotes "" mid = "," :: "nonce" :: ":" :: split_quotes "" (nonce +:+ String q rest)) as -> by done.
  rewrite Hn. done.
Qed.

(** The honest mint signs [B'] with its key [k] as [k * B']. *)
Definition sign (k : SecretKey) (m : BlindedMessage) : BlindSignature :=
  mk_BlindSignature (bm_amount m) (bm_keyset_id m) ((k * bm_blinded_secret m) mod order) (Some 0).

Lemma unblind_sound n k r y :
  n ≠ 0 → ((k * ((y + r) mod n)) mod n - r * k) mod n = (k * y) mod n.
Proof.
  intros Hn. rewrite Z.mul_mod_idemp_r by done. rewrite Zminus_mod_idemp_l. f_equal. ring.
Qed.

Lemma Ok_inj {E A} (a b : A) : @Ok E A a = Ok b → a = b.
Proof. congruence. Qed.

Lemma construct_honest (keys : Keys) (l : list (SecretKey * BlindedMessage * SecretKey * string)) :
  (∀ k m r s, (k, m, r, s) ∈ l →
     amount_key keys (bm_amount m) = Some (public_key k) ∧
     blind_message (bytes_of_string s) r = Ok (bm_blinded_secret m)) →
  ∃ proofs,
    dhke_construct_proofs ((λ '(k, m, r, s), sign k m) <$> l) ((λ '(k, m, r, s), r) <$> l)
      ((λ '(k, m, r, s), s) <$> l) keys = Ok proofs ∧
    Forall2 (λ '(k, m, r, s) p,
      proof_amount p = bm_amount m ∧ proof_keyset_id p = bm_keyset_id m ∧
      proof_secret p = s ∧ proof_witness p = None ∧
      proof_verify_dleq p (public_key k) = Ok tt) l proofs.
Proof.
  intros Hl. cbn [dhke_construct_proofs ops]. unfold construct. rewrite !length_fmap, decide_True by done.
  induction l as [|[[[k m] r] s] l IH]; [by exists []|].
  destruct IH as (ps & Hps & Hf). { intros. apply Hl. by right. }
  destruct (Hl k m r s) as [Hk Hb]; [left|]. cbn [fmap list_fmap zip_with try_map construct_one sign bs_amount].
  rewrite Hk. cbn [ok_or mbind Result_bind]. rewrite Hps.
  eexists; split; [done|]. constructor; [|done].
  assert ((point (bytes_of_string s) + r) mod order = bm_blinded_secret m) as Hb' by exact (Ok_inj _ _ Hb).
  split_and!; [done..|]. cbn [proof_verify_dleq ops proof_dleq proof_c proof_secret bs_c public_key bs_dleq].
  unfold sign. cbn [bs_c bs_dleq]. rewrite <-Hb', unblind_sound, Z.eqb_refl by done. done.
Qed.
Definition dhke_laws : DhkeLaws.
Proof.
  refine {| mint_sign := sign; construct_proofs_honest := construct_honest |}; [done..|].
  intros k m. simpl. by rewrite Z.eqb_refl.
Defined.
End Toy.
