(* ===== verification/Amounts.v ===== *)
(** * Keyset information, output denominations and fees
    ([crates/cdk-spilman/src/keysets_and_amounts.rs])

    The first section translates the file; the rest of this file is its theory: a closed
    form of the greedy split ([gcounts], [grem]), the fee-adjusted value [forward] it
    determines, and the theorems that relate the two. *)

From S2P Require Import Prelude Cashu Toy.

(** ** The code *)

Record KeysetInfo {T : CashuTypes} := mk_KeysetInfo {
  keyset_id : Id;
  ki_unit : CurrencyUnit;
  active_keys : Keys;
  amounts_largest_first : list Z;
  input_fee_ppk : Z;
  final_expiry : option Z;
}.
Arguments mk_KeysetInfo {T}.

Record OrderedListOfAmounts := mk_OrderedListOfAmounts {
  ola_amounts : list Z;
  count_by_amount : list (Z * Z);
  ola_input_fee_ppk : Z;
}.

Record InverseFeeResult := mk_InverseFeeResult {
  nominal_value : Z;
  actual_balance : Z;
}.

#[global] Instance OrderedListOfAmounts_eq : EqDecision OrderedListOfAmounts.
Proof. solve_decision. Defined.
#[global] Instance InverseFeeResult_eq : EqDecision InverseFeeResult.
Proof. solve_decision. Defined.
#[global] Instance KeysetInfo_eq {T : CashuTypes} : EqDecision KeysetInfo.
Proof. solve_decision. Defined.

Section code.
Context {T : CashuTypes}.
Implicit Types ks : KeysetInfo.

(** One turn of [while remaining >= amount { remaining -= amount; count += 1; }]
    on the pair [(remaining, count)]. *)
Definition take_step (amount : Z) (s : Z * Z) : (Z * Z) + (Z * Z) :=
  let '(remaining, count) := s in
  if amount <=? remaining then inl (remaining - amount, wrap64 (count + 1))
  else inr (remaining, count).

(** The loop over the keyset's denominations. *)
Fixpoint greedy_loop (maximum_amount : Z) (amounts : list Z)
    (remaining : Z) (count_by_amount : list (Z * Z)) : Result string (Z * list (Z * Z)) :=
  match amounts with
  | [] => Ok (remaining, count_by_amount)
  | amount :: amounts =>
      if (0 <? maximum_amount) && (maximum_amount <? amount) then
        greedy_loop maximum_amount amounts remaining count_by_amount
      else
        '(remaining, count) ← run_loop (take_step amount) (remaining, 0);
        greedy_loop maximum_amount amounts remaining
          (if 0 <? count then bt_insert amount count count_by_amount else count_by_amount)
  end.

Definition from_target (target maximum_amount : Z) ks : Result string OrderedListOfAmounts :=
  if target =? 0 then Ok (mk_OrderedListOfAmounts [] [] (input_fee_ppk ks))
  else
    '(remaining, count_by_amount) ←
      greedy_loop maximum_amount (amounts_largest_first ks) target [];
    if negb (remaining =? 0) then
      Err (if maximum_amount =? 0
           then "Cannot represent " +:+ pretty target +:+ " using available amounts"
           else "Cannot represent " +:+ pretty target +:+ " using available amounts (max "
                +:+ pretty maximum_amount +:+ ")")
    else
      Ok (mk_OrderedListOfAmounts (expand_counts (reverse count_by_amount))
            count_by_amount (input_fee_ppk ks)).

Definition ola_len (o : OrderedListOfAmounts) : Z := Z.of_nat (length (ola_amounts o)).
Definition nominal_total (o : OrderedListOfAmounts) : Z := wrap64 (sumZ (ola_amounts o)).
Definition iter_smallest_first (o : OrderedListOfAmounts) : list (Z * Z) := count_by_amount o.

Definition value_after_fees (o : OrderedListOfAmounts) : Z :=
  let total := nominal_total o in
  if ola_input_fee_ppk o =? 0 then total
  else
    let num_outputs := Z.of_nat (length (ola_amounts o)) in
    let fee := div_ceil (wrap64 (ola_input_fee_ppk o * num_outputs)) 1000 in
    saturating_sub total fee.

Definition is_unexpired_at ks (now : Z) : bool :=
  match final_expiry ks with None => true | Some expiry => now <=? expiry end.

(** [KeysetInfo::new]: the amounts are the keys' amounts in descending order. *)
Definition KeysetInfo_new (id : Id) (unit : CurrencyUnit) (keys : Keys)
    (ppk : Z) (expiry : option Z) : KeysetInfo :=
  mk_KeysetInfo id unit keys (sort_by_key Z.opp keys.*1) ppk expiry.

Definition deterministic_value_after_fees ks (nominal_value maximum_amount : Z) :
    Result string Z :=
  amounts ← from_target nominal_value maximum_amount ks;
  Ok (value_after_fees amounts).

(** One turn of the search loop on [nominal]. *)
Definition inverse_step ks (target_balance maximum_amount nominal : Z) :
    Z + Result string InverseFeeResult :=
  match deterministic_value_after_fees ks nominal maximum_amount with
  | Ok actual =>
      if target_balance <=? actual then inr (Ok (mk_InverseFeeResult nominal actual))
      else inl (wrap64 (nominal + 1))
  | Err e => inr (Err e)
  | Diverge => inr Diverge
  end.

Definition inverse_deterministic_value_after_fees ks (target_balance maximum_amount : Z) :
    Result string InverseFeeResult :=
  if target_balance =? 0 then Ok (mk_InverseFeeResult 0 0)
  else if input_fee_ppk ks =? 0 then Ok (mk_InverseFeeResult target_balance target_balance)
  else
    r ← run_loop (inverse_step ks target_balance maximum_amount) target_balance;
    r.
End code.

(** ** Theory of the greedy split *)

(** The counts a largest-first split takes, and what it leaves. *)
Fixpoint gcounts (l : list Z) (n : Z) : list (Z * Z) :=
  match l with
  | [] => []
  | a :: l => (if 0 <? n / a then [(a, n / a)] else []) ++ gcounts l (n mod a)
  end.
Fixpoint grem (l : list Z) (n : Z) : Z :=
  match l with [] => n | a :: l => grem l (n mod a) end.
(** The number of outputs of the split. *)
Fixpoint gnum (l : list Z) (n : Z) : Z :=
  match l with [] => 0 | a :: l => n / a + gnum l (n mod a) end.

Definition positive_amounts (l : list Z) : Prop := Forall (λ a, 1 <= a) l.

Lemma take_loop_spec {E} a n :
  1 <= a → is_u64 n → run_loop (E:=E) (take_step a) (n, 0) = Ok (n mod a, n / a).
Proof.
  intros Ha Hn. unfold run_loop, is_u64 in *.
  destruct (iter_until_measure (take_step a)
    (λ s, 0 <= s.1 ∧ 0 <= s.2 ∧ n = s.2 * a + s.1)
    (λ r, r = (n mod a, n / a)) (λ s, s.1) 64 (n, 0)) as (r & -> & ->); simpl; try lia; [|done].
  intros [r c] (? & ? & ?) _. simpl in *. destruct (a <=? r) eqn:?; simpl.
  - rewrite wrap64_id by (unfold is_u64; nia). lia.
  - f_equal; [apply Z.mod_unique_pos with c|apply Z.div_unique_pos with r]; lia.
Qed.

Lemma gcounts_lookup_ge l n x : positive_amounts l → x ∈ (gcounts l n).*1 → x ∈ l.
Proof.
  intros Hp. revert n. induction Hp as [|a l Ha Hp IH]; intros n; simpl; [done|].
  rewrite fmap_app, elem_of_app. intros [Hx|Hx]; [|right; eauto].
  destruct (0 <? n / a); simpl in Hx; set_solver.
Qed.

Lemma greedy_loop_spec max l n m :
  positive_amounts l → StronglySorted Z.gt l → is_u64 n →
  bt_sorted m → (∀ x a, x ∈ m.*1 → a ∈ l → a < x) →
  let us := filter (λ a, max <= 0 ∨ a <= max) l in
  greedy_loop max l n m = Ok (grem us n, reverse (gcounts us n) ++ m).
Proof.
  simpl. revert n m. induction l as [|a l IH]; intros n m Hp Hs Hn Hm Hlt; simpl; [done|].
  apply Forall_cons in Hp as [Ha Hp]. inversion_clear Hs as [|? ? Hs' Hf].
  rewrite Forall_forall in Hf.
  destruct ((0 <? max) && (max <? a)) eqn:Hc.
  { rewrite filter_cons, decide_False by lia. apply IH; set_solver. }
  rewrite take_loop_spec by done. simpl. rewrite filter_cons, decide_True by lia. simpl.
  assert (is_u64 (n mod a)).
  { unfold is_u64 in *. pose proof (Z.mod_le n a). pose proof (Z.mod_pos_bound n a). lia. }
  destruct (0 <? n / a); simpl.
  - assert (bt_insert a (n / a) m = (a, n / a) :: m) as ->.
    { destruct m as [|[k v] m]; simpl; [done|]. rewrite (proj2 (Z.ltb_lt _ _)); [done|].
      apply Hlt; set_solver. }
    rewrite IH; try done.
    + by rewrite reverse_cons, <-app_assoc.
    + unfold bt_sorted. simpl. constructor; [done|]. apply Forall_forall. intros x Hx.
      apply Hlt; set_solver.
    + intros x b. simpl. rewrite elem_of_cons. intros [->|Hx] Hb; [|apply Hlt; set_solver].
      specialize (Hf b Hb). lia.
  - apply IH; set_solver.
Qed.

(** The denominations a call with [maximum_amount = max] may use. *)
Definition usable (max : Z) (l : list Z) : list Z := filter (λ a, max <= 0 ∨ a <= max) l.

(** A keyset of a mint: distinct positive [u64] denominations, largest first. *)
Definition wf_amounts (l : list Z) : Prop :=
  StronglySorted Z.gt l ∧ Forall (λ a, 1 <= a < 2 ^ 64) l.
Definition wf_keyset {T : CashuTypes} (ks : KeysetInfo) : Prop :=
  wf_amounts (amounts_largest_first ks) ∧ is_u64 (input_fee_ppk ks).

#[global] Instance wf_amounts_dec l : Decision (wf_amounts l).
Proof. unfold wf_amounts. apply _. Defined.
#[global] Instance wf_keyset_dec {T : CashuTypes} ks : Decision (wf_keyset ks).
Proof. unfold wf_keyset. apply _. Defined.

(** The value [n] has after the fee of spending its split. *)
Definition forward (ppk : Z) (us : list Z) (n : Z) : Z :=
  Z.max (n - div_ceil (ppk * gnum us n) 1000) 0.

Lemma StronglySorted_filter {A} (R : A → A → Prop) (P : A → Prop) `{∀ x, Decision (P x)} l :
  StronglySorted R l → StronglySorted R (filter P l).
Proof.
  induction 1 as [|a l Hs IH Hf]; [constructor|]. rewrite filter_cons. case_decide; [|done].
  constructor; [done|]. apply Forall_forall. intros x [_ Hx]%list_elem_of_filter.
  rewrite Forall_forall in Hf. auto.
Qed.

Lemma usable_wf max l : wf_amounts l → wf_amounts (usable max l).
Proof.
  intros [Hs Hp]. split; [by apply StronglySorted_filter|].
  apply Forall_forall. intros x [_ Hx]%list_elem_of_filter. rewrite Forall_forall in Hp. auto.
Qed.
Lemma elem_of_usable max l a : a ∈ usable max l ↔ (max <= 0 ∨ a <= max) ∧ a ∈ l.
Proof. unfold usable. by rewrite list_elem_of_filter. Qed.
Lemma wf_amounts_positive l : wf_amounts l → positive_amounts l.
Proof. intros [_ Hp]. eapply Forall_impl; [exact Hp|]. simpl. lia. Qed.

Lemma grem_0 l : grem l 0 = 0.
Proof. induction l; simpl; [done|]. by rewrite Zmod_0_l. Qed.
Lemma gnum_0 l : gnum l 0 = 0.
Proof. induction l; simpl; [done|]. by rewrite Zmod_0_l. Qed.
Lemma gcounts_0 l : gcounts l 0 = [].
Proof. induction l; simpl; [done|]. by rewrite Zmod_0_l. Qed.

(** A positive denomination splits [n] into a quotient and a smaller remainder. *)
Lemma div_mod_facts n a :
  1 <= a → 0 <= n → n = a * (n / a) + n mod a ∧ 0 <= n mod a < a ∧ 0 <= n / a.
Proof.
  intros. pose proof (Z.mod_pos_bound n a). pose proof (Z.div_mod n a).
  assert (0 <= n / a) by (apply Z.div_pos; lia). lia.
Qed.

Lemma gnum_bounds l n : positive_amounts l → 0 <= n → 0 <= gnum l n <= n.
Proof.
  intros Hl. revert n. induction Hl as [|a l Ha Hp IH]; intros n Hn; simpl; [lia|].
  pose proof (div_mod_facts n a Ha Hn). specialize (IH (n mod a)). nia.
Qed.
Lemma grem_1 l n : 1 ∈ l → grem l n = 0.
Proof.
  revert n. induction l as [|a l IH]; intros n; [set_solver|]. simpl.
  destruct (decide (1 = a)) as [<-|?]; [|set_solver].
  intros _. rewrite Z.mod_1_r. apply grem_0.
Qed.
Lemma sum_gcounts l n :
  positive_amounts l → 0 <= n → sumZ (expand_counts (gcounts l n)) + grem l n = n.
Proof.
  intros Hl. revert n. induction Hl as [|a l Ha Hp IH]; intros n Hn; simpl; [done|].
  pose proof (div_mod_facts n a Ha Hn). specialize (IH (n mod a)).
  unfold expand_counts in *. rewrite bind_app, sumZ_app.
  destruct (0 <? n / a) eqn:?; simpl; rewrite ?app_nil_r, ?sumZ_replicate; nia.
Qed.
Lemma length_gcounts l n :
  positive_amounts l → 0 <= n → Z.of_nat (length (expand_counts (gcounts l n))) = gnum l n.
Proof.
  intros Hl. revert n. induction Hl as [|a l Ha Hp IH]; intros n Hn; simpl; [done|].
  pose proof (div_mod_facts n a Ha Hn). specialize (IH (n mod a)).
  unfold expand_counts in *. rewrite bind_app, length_app.
  destruct (0 <? n / a) eqn:?; simpl; rewrite ?app_nil_r, ?length_replicate; lia.
Qed.
Lemma gcounts_pos l n x c :
  positive_amounts l → 0 <= n → (x, c) ∈ gcounts l n → x ∈ l ∧ 1 <= c.
Proof.
  intros Hl. revert n. induction Hl as [|a l Ha Hp IH]; intros n Hn; simpl; [set_solver|].
  pose proof (div_mod_facts n a Ha Hn). specialize (IH (n mod a)).
  rewrite elem_of_app. destruct (0 <? n / a) eqn:?; simpl; [|set_solver by lia].
  rewrite list_elem_of_singleton. intros [[= -> ->]|?]; [set_solver by lia|].
  destruct IH; [lia|done|]. set_solver.
Qed.

(** Increasing the target by one adds at most one output: where the split changes
    above the smallest denominations, the outputs below disappear. *)
Lemma gnum_succ l n : positive_amounts l → 0 <= n → gnum l (n + 1) <= gnum l n + 1.
Proof.
  intros Hl. revert n. induction Hl as [|a l Ha Hp IH]; intros n Hn; simpl; [lia|].
  pose proof (div_mod_facts n a Ha Hn).
  destruct (decide (n mod a = a - 1)) as [E|E].
  - rewrite <-(Z.div_unique_pos (n + 1) a (n / a + 1) 0) by lia.
    rewrite <-(Z.mod_unique_pos (n + 1) a (n / a + 1) 0) by lia. rewrite gnum_0.
    pose proof (gnum_bounds l (n mod a) Hp). lia.
  - rewrite <-(Z.div_unique_pos (n + 1) a (n / a) (n mod a + 1)) by lia.
    rewrite <-(Z.mod_unique_pos (n + 1) a (n / a) (n mod a + 1)) by lia.
    specialize (IH (n mod a)). lia.
Qed.

(** ** The code computes the split *)

Definition cannot_represent (target maximum_amount : Z) : string :=
  if maximum_amount =? 0
  then "Cannot represent " +:+ pretty target +:+ " using available amounts"
  else "Cannot represent " +:+ pretty target +:+ " using available amounts (max "
       +:+ pretty maximum_amount +:+ ")".

Section spec.
Context {T : CashuTypes}.
Implicit Types ks : KeysetInfo.

Lemma from_target_spec ks max target :
  wf_amounts (amounts_largest_first ks) → is_u64 target →
  let us := usable max (amounts_largest_first ks) in
  from_target target max ks =
    if grem us target =? 0 then
      Ok (mk_OrderedListOfAmounts (expand_counts (gcounts us target))
            (reverse (gcounts us target)) (input_fee_ppk ks))
    else Err (cannot_represent target max).
Proof.
  intros Hwf Ht us. unfold from_target, cannot_represent. destruct (target =? 0) eqn:E.
  { assert (target = 0) as -> by lia. unfold us. by rewrite grem_0, gcounts_0. }
  destruct Hwf as [Hs Hp]. rewrite greedy_loop_spec; try done; cycle 1.
  { eapply Forall_impl; [exact Hp|]. simpl. lia. }
  { by apply SSorted_nil. }
  { set_solver. }
  simpl. unfold us, usable. rewrite app_nil_r, reverse_involutive. by destruct (grem _ _ =? 0).
Qed.

Lemma from_target_Ok ks max target o :
  wf_amounts (amounts_largest_first ks) → is_u64 target →
  from_target target max ks = Ok o →
  let us := usable max (amounts_largest_first ks) in
  grem us target = 0 ∧
  o = mk_OrderedListOfAmounts (expand_counts (gcounts us target))
        (reverse (gcounts us target)) (input_fee_ppk ks).
Proof.
  intros Hwf Ht. rewrite from_target_spec by done. simpl.
  case_match; intros [= <-]. split; [lia|done].
Qed.

(** The counts are the occurrences in the list, the list is sorted and its items come
    from the denominations. *)
Lemma gcounts_keys_sorted l n : StronglySorted Z.gt l → positive_amounts l → StronglySorted Z.gt (gcounts l n).*1.
Proof.
  intros Hs Hp. revert n. induction Hs as [|a l Hs IH Hf]; intros n; simpl; [constructor|].
  apply Forall_cons in Hp as [Ha Hp].
  destruct (0 <? n / a); simpl; [|by apply IH]. constructor; [by apply IH|].
  apply Forall_forall. intros x Hx%gcounts_lookup_ge; [|done].
  rewrite Forall_forall in Hf. by apply Hf.
Qed.

Lemma elem_of_expand_counts m x :
  x ∈ expand_counts m ↔ ∃ c, (x, c) ∈ m ∧ 0 < c.
Proof.
  unfold expand_counts. rewrite list_elem_of_bind. split.
  - intros ([y c] & Hx & Hm). apply elem_of_replicate in Hx as [-> ?].
    exists c. split; [done|lia].
  - intros (c & Hm & ?). exists (x, c). split; [|done]. apply elem_of_replicate. lia.
Qed.

Lemma expand_counts_sorted m :
  StronglySorted Z.gt m.*1 → StronglySorted Z.ge (expand_counts m).
Proof.
  induction m as [|[a c] m IH]; intros Hs; [constructor|].
  inversion_clear Hs as [|? ? Hs' Hf]. specialize (IH Hs').
  unfold expand_counts in *. cbn [mbind list_bind].
  induction (Z.to_nat c) as [|k IHk]; [done|]. simpl. constructor; [done|].
  apply Forall_forall. intros x. rewrite elem_of_app. intros [Hx|Hx].
  - apply elem_of_replicate in Hx as [-> _]. lia.
  - apply list_elem_of_bind in Hx as ([y d] & Hx & Hy). apply elem_of_replicate in Hx as [-> _].
    rewrite Forall_forall in Hf. assert (y ∈ m.*1) by (apply list_elem_of_fmap; by exists (y, d)).
    specialize (Hf y). naive_solver lia.
Qed.

Lemma StronglySorted_reverse {A} (R : A → A → Prop) l :
  StronglySorted R l → StronglySorted (flip R) (reverse l).
Proof.
  induction 1 as [|a l Hs IH Hf]; [constructor|]. rewrite reverse_cons.
  apply StronglySorted_app_2; [|done|by repeat constructor].
  intros x y Hx Hy%list_elem_of_singleton. subst. rewrite elem_of_reverse in Hx.
  rewrite Forall_forall in Hf. unfold flip. by apply Hf.
Qed.

Lemma StronglySorted_weaken {A} (R R' : A → A → Prop) l :
  (∀ x y, R x y → R' x y) → StronglySorted R l → StronglySorted R' l.
Proof.
  intros HR. induction 1; constructor; [done|]. eapply Forall_impl; [done|]. simpl. auto.
Qed.

(** The amounts of a split: their sum, and that they are denominations within the maximum. *)
Lemma split_amounts ks max target o :
  wf_amounts (amounts_largest_first ks) → is_u64 target → from_target target max ks = Ok o →
  sumZ (ola_amounts o) = target ∧
  Forall (λ a, 1 <= a ∧ a ∈ amounts_largest_first ks ∧ (0 < max → a <= max)) (ola_amounts o).
Proof.
  intros Hwf Hu Ho. apply from_target_Ok in Ho as [Hr ->]; [|done..]. pose proof Hu as [Hu0 _].
  pose proof (usable_wf max _ Hwf) as Hus. pose proof (wf_amounts_positive _ Hus) as Hp.
  pose proof (sum_gcounts _ target Hp Hu0) as Hsum. cbn [ola_amounts] in *. split; [lia|].
  apply Forall_forall. intros x (c & Hx & _)%elem_of_expand_counts.
  apply gcounts_pos in Hx as [Hx _]; [|done..]. unfold positive_amounts in Hp. rewrite Forall_forall in Hp.
  specialize (Hp x Hx). cbn in Hp. apply elem_of_usable in Hx. naive_solver lia.
Qed.

(** A successful greedy split is exact: the amounts sum to the target, are
    denominations of the keyset within the maximum, largest first, and the count map
    lists every distinct amount, smallest first, with its positive multiplicity. *)
Lemma from_target_exact ks maximum_amount target o :
  wf_keyset ks → is_u64 target →
  from_target target maximum_amount ks = Ok o →
  sumZ (ola_amounts o) = target ∧
  nominal_total o = target ∧
  Forall (λ a, a ∈ amounts_largest_first ks ∧ (0 < maximum_amount → a <= maximum_amount))
    (ola_amounts o) ∧
  StronglySorted Z.ge (ola_amounts o) ∧
  bt_sorted (count_by_amount o) ∧
  Forall (λ '(_, c), 1 <= c) (count_by_amount o) ∧
  ola_amounts o = expand_counts (reverse (count_by_amount o)) ∧
  ola_input_fee_ppk o = input_fee_ppk ks.
Proof.
  intros [Hwf _] Ht Ho. pose proof Ht as [Ht0 _].
  apply from_target_Ok in Ho as [Hr ->]; [|done..].
  pose proof (usable_wf maximum_amount _ Hwf) as Hu.
  pose proof (wf_amounts_positive _ Hu) as Hp. destruct Hu as [Hs _].
  pose proof (sum_gcounts _ target Hp Ht0) as Hsum. simpl.
  unfold nominal_total. simpl. split_and!.
  - lia.
  - rewrite wrap64_id; [lia|]. unfold is_u64 in *. lia.
  - apply Forall_forall. intros x (c & Hx & _)%elem_of_expand_counts.
    apply gcounts_pos in Hx as [Hx _]; [|done..]. apply elem_of_usable in Hx. naive_solver lia.
  - by apply expand_counts_sorted, gcounts_keys_sorted.
  - unfold bt_sorted. rewrite fmap_reverse.
    eapply StronglySorted_weaken; [|by apply StronglySorted_reverse, gcounts_keys_sorted].
    simpl. lia.
  - apply Forall_forall. intros [x c]. rewrite elem_of_reverse. intros Hx.
    by apply gcounts_pos in Hx as [_ ?].
  - by rewrite reverse_involutive.
  - done.
Qed.

(** ** Fees *)

Lemma forward_bounds ppk us n :
  positive_amounts us → 0 <= ppk → 0 <= n → 0 <= forward ppk us n <= n.
Proof.
  intros Hp ? ?. unfold forward. pose proof (gnum_bounds us n Hp).
  pose proof (div_ceil_nonneg (ppk * gnum us n) 1000). nia.
Qed.

(** One more unit of nominal value costs at most one more output, whose fee is at most
    one unit. *)
Lemma forward_succ ppk us n :
  positive_amounts us → 0 <= ppk <= 1000 → 0 <= n →
  forward ppk us n <= forward ppk us (n + 1).
Proof.
  intros Hp ? ?. unfold forward. pose proof (gnum_succ us n Hp).
  assert (div_ceil (ppk * gnum us (n + 1)) 1000 <= div_ceil (ppk * gnum us n) 1000 + 1); [|lia].
  apply div_ceil_le_iff; [lia|]. pose proof (div_ceil_bounds (ppk * gnum us n) 1000). nia.
Qed.
Lemma forward_mono ppk us m n :
  positive_amounts us → 0 <= ppk <= 1000 → 0 <= m <= n →
  forward ppk us m <= forward ppk us n.
Proof.
  intros Hp Hppk Hmn. replace n with (m + Z.of_nat (Z.to_nat (n - m))) by lia.
  induction (Z.to_nat (n - m)) as [|k IH]; [by rewrite Z.add_0_r|].
  etrans; [exact IH|]. replace (m + Z.of_nat (S k)) with (m + Z.of_nat k + 1) by lia.
  apply forward_succ; [done..|lia].
Qed.
(** A thousandfold nominal value covers any fee below one unit per output. *)
Lemma forward_1000 ppk us t :
  positive_amounts us → 0 <= ppk <= 999 → 0 <= t → t <= forward ppk us (1000 * t).
Proof.
  intros Hp ? ?. unfold forward. pose proof (gnum_bounds us (1000 * t) Hp).
  assert (div_ceil (ppk * gnum us (1000 * t)) 1000 <= 999 * t); [|lia].
  apply div_ceil_le_iff; [lia|]. nia.
Qed.

Lemma deterministic_value_spec ks max n :
  wf_keyset ks → is_u64 n → input_fee_ppk ks * n < 2 ^ 64 →
  let us := usable max (amounts_largest_first ks) in
  deterministic_value_after_fees ks n max =
    if grem us n =? 0 then Ok (forward (input_fee_ppk ks) us n)
    else Err (cannot_represent n max).
Proof.
  intros [Hwf Hppk] Hn Hov us. unfold deterministic_value_after_fees.
  rewrite from_target_spec by done. fold us. destruct (grem us n =? 0) eqn:E; [|done]. simpl.
  assert (positive_amounts us) as Hp by (by apply wf_amounts_positive, usable_wf).
  pose proof (gnum_bounds us n Hp) as Hg. unfold is_u64 in *.
  pose proof (sum_gcounts us n Hp). f_equal.
  unfold value_after_fees, nominal_total, forward, saturating_sub. simpl.
  rewrite length_gcounts by (done || lia).
  assert (sumZ (expand_counts (gcounts us n)) = n) as -> by lia.
  rewrite (wrap64_id n) by done. case_match eqn:E'.
  - assert (input_fee_ppk ks = 0) as -> by lia. change (div_ceil (0 * gnum us n) 1000) with 0. lia.
  - rewrite wrap64_id by (unfold is_u64; nia). done.
Qed.

Lemma inverse_spec ks max t B :
  let us := usable max (amounts_largest_first ks) in
  wf_keyset ks → 1 ∈ us → 0 <= t <= B → is_u64 B → input_fee_ppk ks * B < 2 ^ 64 →
  t <= forward (input_fee_ppk ks) us B →
  ∃ n, inverse_deterministic_value_after_fees ks t max
         = Ok (mk_InverseFeeResult n (forward (input_fee_ppk ks) us n)) ∧
       t <= n <= B ∧ t <= forward (input_fee_ppk ks) us n ∧
       ∀ m, 0 <= m < n → forward (input_fee_ppk ks) us m < t.
Proof.
  intros us Hwf H1 Ht HB Hov HfB. pose proof Hwf as [Hwa [Hppk _]].
  assert (positive_amounts us) as Hp by (by apply wf_amounts_positive, usable_wf).
  unfold inverse_deterministic_value_after_fees. set (ppk := input_fee_ppk ks) in *.
  destruct (t =? 0) eqn:Et.
  { assert (t = 0) as -> by lia. exists 0. unfold forward. rewrite gnum_0, Z.mul_0_r.
    split; [done|]. unfold div_ceil. simpl. split_and!; [lia..|]. intros. lia. }
  destruct (ppk =? 0) eqn:Eppk.
  { assert (ppk = 0) as -> by lia.
    assert (∀ n, 0 <= n → forward 0 us n = n) as Hf.
    { intros. unfold forward. change (div_ceil (0 * gnum us n) 1000) with 0. lia. }
    exists t. rewrite Hf by lia. split_and!; [done|lia..|]. intros m ?. rewrite Hf; lia. }
  unfold run_loop.
  destruct (iter_until_measure (inverse_step ks t max)
    (λ n, t <= n <= B ∧ ∀ m, 0 <= m < n → forward ppk us m < t)
    (λ r, ∃ n, r = Ok (mk_InverseFeeResult n (forward ppk us n)) ∧ t <= n <= B ∧
       t <= forward ppk us n ∧ ∀ m, 0 <= m < n → forward ppk us m < t)
    (λ n, B - n) 64 t) as (r & -> & (n & -> & ?)).
  - split; [lia|]. intros m Hm. pose proof (forward_bounds ppk us m Hp). lia.
  - unfold is_u64 in *. simpl. lia.
  - intros n [Hn Hmin] _. unfold inverse_step. unfold is_u64 in *.
    rewrite deterministic_value_spec by (done || (unfold is_u64; nia)). fold us ppk.
    rewrite grem_1 by done. simpl. destruct (t <=? forward ppk us n) eqn:E.
    { exists n. split_and!; try done; lia. }
    assert (n < B). { destruct (decide (n = B)) as [->|]; [|lia]. lia. }
    rewrite wrap64_id by (unfold is_u64; lia). split_and!; try lia. intros m ?.
    destruct (decide (m = n)) as [->|]; [lia|]. apply Hmin. lia.
  - simpl. eauto.
Qed.

(** The number of outputs of a list of denominations in which each divides the one
    before it is minimal among all ways to make up [n]. *)
Inductive divisor_chain : list Z → Prop :=
| chain_nil : divisor_chain []
| chain_one a : divisor_chain [a]
| chain_cons a b l : (b | a) → divisor_chain (b :: l) → divisor_chain (a :: b :: l).

Lemma gnum_add_multiple a b l j r :
  1 <= a → 1 <= b → (b | a) → 0 <= j → 0 <= r →
  j + gnum (b :: l) r <= gnum (b :: l) (j * a + r).
Proof.
  intros Ha Hb [q ->] Hj Hr. simpl.
  replace (j * (q * b) + r) with (r + (j * q) * b) by ring.
  rewrite Z.div_add, Z.mod_add by lia. assert (1 <= q) by nia. nia.
Qed.

Lemma gnum_optimal l xs :
  positive_amounts l → divisor_chain l → Forall (λ x, x ∈ l) xs →
  gnum l (sumZ xs) <= Z.of_nat (length xs).
Proof.
  intros Hp Hc. revert xs. induction Hc as [|a|a b l Hdiv Hc IH]; intros xs Hxs.
  - simpl. lia.
  - apply Forall_cons in Hp as [Ha _].
    assert (sumZ xs = Z.of_nat (length xs) * a) as ->.
    { induction Hxs as [|x xs Hx _ IH]; [done|]. apply list_elem_of_singleton in Hx as ->.
      cbn [sumZ foldr length]. fold (sumZ xs). lia. }
    simpl. rewrite Z.div_mul by lia. lia.
  - apply Forall_cons in Hp as [Ha Hp]. pose proof Hp as [Hb _]%Forall_cons.
    assert (∃ k ys, length xs = (k + length ys)%nat ∧
      sumZ xs = Z.of_nat k * a + sumZ ys ∧ Forall (λ x, x ∈ b :: l) ys) as (k & ys & Hlen & Hsum & Hys).
    { clear -Hxs. induction Hxs as [|x xs Hx _ (k & ys & Hlen & Hsum & Hys)].
      - by exists 0%nat, [].
      - apply elem_of_cons in Hx as [->|Hx].
        + exists (S k), ys. cbn [sumZ foldr length]. fold (sumZ xs). split_and!; [lia..|done].
        + exists k, (x :: ys). cbn [sumZ foldr length]. fold (sumZ xs) (sumZ ys).
          split_and!; [lia..|by constructor]. }
    specialize (IH Hp ys Hys). set (m := sumZ ys) in *.
    assert (0 <= m).
    { apply sumZ_nonneg. eapply Forall_impl; [exact Hys|]. simpl. intros x Hx.
      rewrite Forall_forall in Hp. specialize (Hp x Hx). simpl in Hp. lia. }
    rewrite Hsum, Hlen. cbn [gnum]. rewrite (Z.add_comm _ m), Z.div_add, Z.mod_add by lia.
    pose proof (div_mod_facts m a Ha ltac:(done)) as (Hm & ? & ?).
    pose proof (gnum_add_multiple a b l (m / a) (m mod a) Ha Hb Hdiv) as Hg.
    replace (m / a * a + m mod a) with m in Hg by lia. cbn [gnum] in *. lia.
Qed.

(** ** Theorems *)

(** C38: the split never fails or diverges for a keyset with a unit denomination; its outputs
    are usable denominations that add up to exactly the target, and when every denomination
    divides the next larger one (as with powers of two) no other choice of usable denominations
    reaches the target with fewer outputs. *)
Theorem from_target_total_optimal ks maximum_amount target :
  wf_keyset ks → 1 ∈ amounts_largest_first ks →
  is_u64 target → is_u64 maximum_amount →
  ∃ o, from_target target maximum_amount ks = Ok o ∧
    sumZ (ola_amounts o) = target ∧ nominal_total o = target ∧
    Forall (λ x, x ∈ usable maximum_amount (amounts_largest_first ks)) (ola_amounts o) ∧
    (divisor_chain (usable maximum_amount (amounts_largest_first ks)) →
     ∀ xs, Forall (λ x, x ∈ usable maximum_amount (amounts_largest_first ks)) xs →
       sumZ xs = target → ola_len o <= Z.of_nat (length xs)).
Proof.
  intros Hwfk H1 Ht [Hm _]. pose proof Hwfk as [Hwf _]. pose proof Ht as [Ht0 _].
  assert (is_ok (from_target target maximum_amount ks) = true) as (o & Ho)%is_ok_Ok.
  { rewrite from_target_spec by done. simpl. by rewrite grem_1 by (apply elem_of_usable; split; [lia|done]). }
  destruct (from_target_exact _ _ _ _ Hwfk Ht Ho) as (Hsum0 & Hnom & Hall & _). exists o. split_and!; [done..| |].
  { eapply Forall_impl; [exact Hall|]. intros x [? ?]. apply elem_of_usable. split; [lia|done]. }
  revert Ho. rewrite from_target_spec by done. simpl.
  rewrite grem_1 by (apply elem_of_usable; split; [lia|done]). simpl. intros [= <-]. clear Hsum0 Hnom Hall.
  intros Hc xs Hxs Hsum. unfold ola_len. simpl.
  assert (positive_amounts (usable maximum_amount (amounts_largest_first ks)))
    by (by apply wf_amounts_positive, usable_wf).
  rewrite length_gcounts by done. rewrite <-Hsum. by apply gnum_optimal.
Qed.

(** the value after fees is the nominal value less the fee of its split, rounded up,
    never below zero; it never exceeds the nominal value and, for fees up to one unit per
    output, a larger nominal value never has a smaller value. *)
Theorem deterministic_value_monotone ks maximum_amount m n :
  wf_keyset ks → 1 ∈ amounts_largest_first ks → is_u64 maximum_amount →
  input_fee_ppk ks <= 1000 → 0 <= m <= n → n < 2 ^ 54 →
  ∃ vm vn,
    deterministic_value_after_fees ks m maximum_amount = Ok vm ∧
    deterministic_value_after_fees ks n maximum_amount = Ok vn ∧
    vn = Z.max (n - div_ceil (input_fee_ppk ks
                 * gnum (usable maximum_amount (amounts_largest_first ks)) n) 1000) 0 ∧
    vm <= vn <= n.
Proof.
  intros Hwf H1 [Hm _] Hppk Hmn Hn. pose proof Hwf as [Hwa [Hppk0 _]].
  assert (1 ∈ usable maximum_amount (amounts_largest_first ks)) by (apply elem_of_usable; split; [lia|done]).
  assert (positive_amounts (usable maximum_amount (amounts_largest_first ks))) as Hp
    by (by apply wf_amounts_positive, usable_wf).
  rewrite !deterministic_value_spec by (done || unfold is_u64; nia).
  rewrite !grem_1 by done. simpl. eexists _, _. split_and!; [done..| |].
  - apply forward_mono; [done|lia..].
  - apply forward_bounds; [done|lia..].
Qed.

(** for fees below one unit per output the search of the inverse ends: it returns the
    smallest nominal value whose value after fees reaches the target, with that value; it
    is at most a thousand times the target. *)
Theorem inverse_total_minimal ks maximum_amount target :
  wf_keyset ks → 1 ∈ amounts_largest_first ks → is_u64 maximum_amount →
  input_fee_ppk ks <= 999 → 0 <= target <= 2 ^ 44 →
  ∃ nominal actual,
    inverse_deterministic_value_after_fees ks target maximum_amount
      = Ok (mk_InverseFeeResult nominal actual) ∧
    deterministic_value_after_fees ks nominal maximum_amount = Ok actual ∧
    target <= actual ∧ nominal <= 1000 * target ∧
    ∀ m, 0 <= m < nominal →
      ∃ v, deterministic_value_after_fees ks m maximum_amount = Ok v ∧ v < target.
Proof.
  intros Hwf H1 [Hm _] Hppk Ht. pose proof Hwf as [Hwa [Hppk0 _]].
  assert (1 ∈ usable maximum_amount (amounts_largest_first ks)) by (apply elem_of_usable; split; [lia|done]).
  assert (positive_amounts (usable maximum_amount (amounts_largest_first ks))) as Hp
    by (by apply wf_amounts_positive, usable_wf).
  destruct (inverse_spec ks maximum_amount target (1000 * target)) as (n & -> & Hn & Hf & Hmin);
    [done..|lia|unfold is_u64; lia|nia|apply forward_1000; [done|lia..]|].
  eexists n, _. split_and!; [done| |done|lia|].
  - rewrite deterministic_value_spec by (done || unfold is_u64; nia). by rewrite grem_1.
  - intros m Hm'. rewrite deterministic_value_spec by (done || unfold is_u64; nia).
    rewrite grem_1 by done. simpl. eauto.
Qed.
End spec.

(** A zero denomination is never exhausted. *)
Lemma take_loop_zero {E} n : 0 <= n → run_loop (E:=E) (take_step 0) (n, 0) = Diverge.
Proof.
  intros Hn. unfold run_loop.
  destruct (iter_until_never (take_step 0) (λ s, s.1 = n) 64 (n, 0)) as [s' ->]; [done| |done].
  intros [r c]; simpl; intros ->. rewrite (proj2 (Z.leb_le 0 n)) by lia.
  eexists; split; [done|]. simpl. lia.
Qed.

(** with a key for amount 0 in the keyset (which the keyset parser accepts) the split
    never returns for a positive target: the inner loop subtracts 0 forever. Every
    positive denomination before it is processed as usual. *)
Theorem from_target_zero_amount_diverges {T : CashuTypes} (ks : KeysetInfo) target maximum_amount amounts :
  amounts_largest_first ks = amounts ++ [0] → wf_amounts amounts →
  0 < target < 2 ^ 64 → is_u64 maximum_amount →
  from_target target maximum_amount ks = Diverge.
Proof.
  intros Hks [Hs Hp] Ht [Hm _]. unfold from_target. rewrite (proj2 (Z.eqb_neq target 0)) by lia.
  rewrite Hks.
  assert (∀ n m, is_u64 n → greedy_loop maximum_amount (amounts ++ [0]) n m = Diverge) as Hd.
  { clear -Hp Hm. induction Hp as [|a l Ha Hp IH]; intros n m Hn; simpl.
    - destruct (0 <? maximum_amount) eqn:E1; simpl.
      + rewrite (proj2 (Z.ltb_ge maximum_amount 0)) by lia. rewrite take_loop_zero; [done|apply Hn].
      + rewrite take_loop_zero; [done|apply Hn].
    - case_match; [by apply IH|]. rewrite take_loop_spec by (done || lia). simpl.
      apply IH. unfold is_u64 in *. pose proof (Z.mod_le n a). pose proof (Z.mod_pos_bound n a). lia. }
  rewrite Hd; [done|]. unfold is_u64. lia.
Qed.

(** ** Concrete inputs *)

Module Examples.
#[local] Existing Instance Toy.types.

(** A keyset with denominations 1, 2, 4, 8, 16 and a fee of 0.1 per output; keys as the mint
    lists them. *)
Definition keyset16 : KeysetInfo :=
  KeysetInfo_new "00ab" "sat" [(1, 11); (2, 12); (4, 14); (8, 18); (16, 26)] 100 None.
Definition keyset_with_zero : KeysetInfo :=
  KeysetInfo_new "00ab" "sat" [(0, 7); (1, 11); (2, 12)] 100 None.

Example split_of_27 :
  from_target 27 8 keyset16
  = Ok (mk_OrderedListOfAmounts [8; 8; 8; 2; 1] [(1, 1); (2, 1); (8, 3)] 100).
Proof. vm_compute. reflexivity. Qed.
Example inverse_of_30 :
  inverse_deterministic_value_after_fees keyset16 30 0 = Ok (mk_InverseFeeResult 31 30).
Proof. vm_compute. reflexivity. Qed.

(** Without a unit denomination the search of the inverse stops with an error at the first
    value it cannot represent (here 11), although a larger one (20, worth 19) would do; and
    without fees it answers with a value that cannot be represented. *)
Definition keyset10 (ppk : Z) : KeysetInfo := KeysetInfo_new "00ab" "sat" [(10, 11)] ppk None.
Example inverse_stops_at_gap :
  inverse_deterministic_value_after_fees (keyset10 100) 10 0
    = Err "Cannot represent 11 using available amounts" ∧
  deterministic_value_after_fees (keyset10 100) 20 0 = Ok 19 ∧
  inverse_deterministic_value_after_fees (keyset10 0) 11 0 = Ok (mk_InverseFeeResult 11 11) ∧
  deterministic_value_after_fees (keyset10 0) 11 0
    = Err "Cannot represent 11 using available amounts".
Proof. vm_compute. done. Qed.

Lemma keyset16_wf : wf_keyset keyset16.
Proof. apply (bool_decide_eq_true_1 _). vm_compute. reflexivity. Qed.

Lemma from_target_exact_example :
  from_target 27 8 keyset16
    = Ok (mk_OrderedListOfAmounts [8; 8; 8; 2; 1] [(1, 1); (2, 1); (8, 3)] 100) ∧
  sumZ [8; 8; 8; 2; 1] = 27.
Proof.
  split; [exact split_of_27|].
  refine (proj1 (from_target_exact keyset16 8 27 _ keyset16_wf _ split_of_27)). done.
Defined.
Lemma from_target_total_optimal_witness :
  ∃ o, from_target 27 8 keyset16 = Ok o ∧ sumZ (ola_amounts o) = 27 ∧ ola_len o <= 6.
Proof.
  destruct (from_target_total_optimal keyset16 8 27) as (o & Ho & Hs & _ & _ & Hopt);
    [apply keyset16_wf|vm_compute; set_solver|done|done|].
  exists o. split_and!; [exact Ho|exact Hs|]. apply Hopt with (xs := [8; 8; 4; 4; 2; 1]); [|vm_compute; repeat constructor|done].
  change (divisor_chain [8; 4; 2; 1]). repeat (apply chain_cons; [by exists 2|]). apply chain_one.
Defined.
Lemma deterministic_value_monotone_witness :
  ∃ vm vn, deterministic_value_after_fees keyset16 15 0 = Ok vm ∧
           deterministic_value_after_fees keyset16 16 0 = Ok vn ∧ vm <= vn.
Proof.
  destruct (deterministic_value_monotone keyset16 0 15 16) as (vm & vn & ? & ? & ? & ?);
    [apply keyset16_wf|vm_compute; set_solver|done|done|done|done|].
  exists vm, vn. split_and!; [done..|lia].
Defined.
Lemma inverse_total_minimal_witness :
  ∃ nominal actual, inverse_deterministic_value_after_fees keyset16 30 0
      = Ok (mk_InverseFeeResult nominal actual) ∧ 30 <= actual.
Proof.
  destruct (inverse_total_minimal keyset16 0 30) as (n & a & ? & ? & ? & ?);
    [apply keyset16_wf|vm_compute; set_solver|done|done|done|]. eauto.
Defined.
Lemma from_target_zero_amount_diverges_witness :
  from_target 3 0 keyset_with_zero = Diverge.
Proof.
  apply (from_target_zero_amount_diverges keyset_with_zero 3 0 [2; 1]);
    [reflexivity|split; repeat constructor; done|done|done].
Defined.
End Examples.
