(* ===== verification/Params.v ===== *)
(** * Channel parameters ([crates/cdk-spilman/src/params.rs])

    The parameters two parties agree on, the channel identifier that commits to them, the
    keys and outputs derived from them, and the constructors that validate them; with
    [parse_keyset_info_from_json] of [bindings.rs], which builds the keyset they use. The
    second half of the file proves that the identifier commits to every parameter, that
    the two parties derive the same secrets and matching keys, that the JSON form is
    faithful, and that the funding bounds are exact. *)

From S2P Require Import Prelude Cashu Toy Amounts.
From Stdlib Require Import Ascii.

(** ** Text *)

(** [str::trim_end_matches('/')]. *)
Fixpoint trim_end_slashes (s : string) : string :=
  match s with
  | EmptyString => EmptyString
  | String c s =>
      let t := trim_end_slashes s in
      if bool_decide (t = "" ∧ c = "/"%char) then "" else String c t
  end.

(** A double-quoted text, for the JSON texts the code formats by hand. *)
Definition dquote : string := String (ascii_of_nat 34) "".
Definition quoted (s : string) : string := dquote +:+ s +:+ dquote.

(** ** Data *)

Inductive CommitmentMode := Ordinary | Rerandomized.
#[global] Instance CommitmentMode_eq : EqDecision CommitmentMode.
Proof. solve_decision. Defined.

Inductive Stage2Role := RoleSender | RoleReceiver.
#[global] Instance Stage2Role_eq : EqDecision Stage2Role.
Proof. solve_decision. Defined.

Record ChannelParameters {T : CashuTypes} := mk_ChannelParameters {
  commitment_mode : CommitmentMode;
  sender_pubkey : PublicKey;
  receiver_pubkey : PublicKey;
  mint : string;
  cp_unit : CurrencyUnit;
  capacity : Z;
  funding_token_amount : Z;
  expiry_timestamp : Z;
  setup_timestamp : Z;
  keyset_info : KeysetInfo;
  maximum_amount_for_one_output : Z;
  channel_secret : bytes;
}.
Arguments mk_ChannelParameters {T}.
#[global] Instance ChannelParameters_eq {T : CashuTypes} : EqDecision ChannelParameters.
Proof. solve_decision. Defined.

Record Stage2P2bkTweakInfo {T : CashuTypes} := mk_Stage2P2bkTweakInfo {
  ephemeral_secret : SecretKey;
  ephemeral_pubkey : PublicKey;
  ephemeral_shared_secret_x : bytes;
  stage2_tweak_scalar : Scalar;
}.
Arguments mk_Stage2P2bkTweakInfo {T}.

Record DeterministicSecretWithBlinding {T : CashuTypes} := mk_DeterministicSecretWithBlinding {
  ds_secret : string;
  ds_blinding_factor : SecretKey;
  ds_amount : Z;
  ds_index : Z;
}.
Arguments mk_DeterministicSecretWithBlinding {T}.

#[global] Instance DeterministicSecretWithBlinding_eq {T : CashuTypes} :
  EqDecision DeterministicSecretWithBlinding.
Proof. solve_decision. Defined.

Definition CHANNEL_ID_TAG : bytes := bytes_of_string "Cashu_Spilman_channel_id".
Definition CHANNEL_ID_ENCODING_VERSION : Z := 1.

(** [u64::leading_zeros]. *)
Definition leading_zeros (v : Z) : Z := if v =? 0 then 64 else 63 - Z.log2 v.

Definition tu64_bytes (value : Z) : bytes :=
  drop (Z.to_nat (leading_zeros value / 8)) (be_bytes 8 value).

Definition CommitmentMode_from_str (value : string) : Result string CommitmentMode :=
  if bool_decide (value = "ordinary") then Ok Ordinary
  else if bool_decide (value = "rerandomized") then Ok Rerandomized
  else Err "invalid commitment_mode".

Section code.
Context {T : CashuTypes} {O : CashuOps}.
Implicit Types p : ChannelParameters.
Implicit Types ks : KeysetInfo.

Definition append_tlv_record (stream : bytes) (typ : Z) (value : bytes) : bytes :=
  stream ++ bigsize_encode typ ++ bigsize_encode (Z.of_nat (length value)) ++ value.

Definition tagged_sha256 (tag message : bytes) : bytes :=
  let tag_hash := sha256 tag in
  sha256 (tag_hash ++ tag_hash ++ message).

Definition hmac_sha256 (key message : bytes) : bytes := hmac_engine key message.

(** A candidate hash that is a scalar below the order and not zero. *)
Definition valid_scalar (candidate : bytes) : option Scalar :=
  s ← scalar_from_be_bytes candidate;
  if bool_decide (s = scalar_ZERO) then None else Some s.

Definition hash_to_secp_scalar (input : bytes) (hash : bytes → bytes) : Result string Scalar :=
  match valid_scalar (hash input) with
  | Some scalar => Ok scalar
  | None =>
      match valid_scalar (hash (input ++ [255])) with
      | Some scalar => Ok scalar
      | None => Err "Failed to derive valid secp256k1 scalar after retry"
      end
  end.

(** [hash_to_bls_scalar] with the decoder of [bls12_381::Scalar] as [from_bytes]. *)
Definition hash_to_bls_scalar {B} (from_bytes : bytes → option B)
    (input : bytes) (hash : bytes → bytes) : Result string B :=
  let attempt (counter : Z) : option B :=
    let candidate := hash (input ++ be_bytes 4 counter) in
    if bool_decide (candidate = replicate 32 0) then None else from_bytes (reverse candidate) in
  ok_or "Failed to derive valid BLS scalar after 256 attempts"
    (foldr (λ counter rest, match attempt counter with Some s => Some s | None => rest end)
       None (seqZ 0 256)).

Definition compute_channel_secret (my_secret : SecretKey) (their_pubkey : PublicKey) : bytes :=
  hkdf_expand32 (ecdh_secret_bytes their_pubkey my_secret)
    (bytes_of_string "Cashu_Spilman_channel_secret_v1").

Definition derive_blinded_secret_key (secret : SecretKey) (r : Scalar) : Result string SecretKey :=
  let effective_secret :=
    if pubkey_parity_odd (public_key secret) then secret_negate secret else secret in
  map_err (λ e, "Failed to add blinding tweak: " +:+ e) (secret_add_tweak effective_secret r).

Definition derive_blinded_pubkey (pubkey : PublicKey) (r : Scalar) : Result string PublicKey :=
  let effective_pubkey := if pubkey_parity_odd pubkey then pubkey_negate pubkey else pubkey in
  map_err (λ e, "Failed to blind pubkey: " +:+ e) (pubkey_add_exp_tweak effective_pubkey r).

(** *** Constructors *)

(** [ChannelParameters::new]. *)
Definition ChannelParameters_new (sender_pubkey receiver_pubkey : PublicKey) (mint : string)
    (unit : CurrencyUnit) (capacity funding_token_amount expiry_timestamp setup_timestamp : Z)
    (keyset_info : KeysetInfo) (maximum_amount_for_one_output : Z) (channel_secret : bytes) :
    Result string ChannelParameters :=
  let mint := trim_end_slashes mint in
  if 999 <? input_fee_ppk keyset_info then
    Err ("input_fee_ppk must be between 0 and 999 (inclusive), got "
         +:+ pretty (input_fee_ppk keyset_info))
  else
    after_stage1 ← deterministic_value_after_fees keyset_info funding_token_amount
                     maximum_amount_for_one_output;
    max_capacity ← deterministic_value_after_fees keyset_info after_stage1
                     maximum_amount_for_one_output;
    if max_capacity <? capacity then
      Err ("capacity " +:+ pretty capacity +:+ " exceeds maximum achievable capacity "
           +:+ pretty max_capacity +:+ " for funding_token_amount " +:+ pretty funding_token_amount
           +:+ " (capacity must be <= forward(forward(funding_token_amount)))")
    else
      Ok (mk_ChannelParameters Ordinary sender_pubkey receiver_pubkey mint unit capacity
            funding_token_amount expiry_timestamp setup_timestamp keyset_info
            maximum_amount_for_one_output channel_secret).

(** The party a secret key belongs to, and the other party's key. *)
Definition counterparty (sender_pubkey receiver_pubkey : PublicKey) (my_secret : SecretKey) :
    Result string PublicKey :=
  let my_pubkey := public_key my_secret in
  if bool_decide (my_pubkey = sender_pubkey) then Ok receiver_pubkey
  else if bool_decide (my_pubkey = receiver_pubkey) then Ok sender_pubkey
  else Err "Secret key's public key doesn't match either sender_pubkey or receiver_pubkey".

Definition new_with_secret_key (sender_pubkey receiver_pubkey : PublicKey) (mint : string)
    (unit : CurrencyUnit) (capacity funding_token_amount expiry_timestamp setup_timestamp : Z)
    (keyset_info : KeysetInfo) (maximum_amount_for_one_output : Z) (my_secret : SecretKey) :
    Result string ChannelParameters :=
  their_pubkey ← counterparty sender_pubkey receiver_pubkey my_secret;
  ChannelParameters_new sender_pubkey receiver_pubkey mint unit capacity funding_token_amount
    expiry_timestamp setup_timestamp keyset_info maximum_amount_for_one_output
    (compute_channel_secret my_secret their_pubkey).

Definition with_commitment_mode p (mode : CommitmentMode) : ChannelParameters :=
  mk_ChannelParameters mode (sender_pubkey p) (receiver_pubkey p) (mint p) (cp_unit p)
    (capacity p) (funding_token_amount p) (expiry_timestamp p) (setup_timestamp p)
    (keyset_info p) (maximum_amount_for_one_output p) (channel_secret p).

(** The derived [Deserialize] of [CommitmentMode]: the variant's name, or an object whose
    only entry has that name and the value null. *)
Definition mode_of_value (v : Value) : Result string CommitmentMode :=
  match json_as_str v with
  | Some s => CommitmentMode_from_str s
  | None =>
      match json_as_object v with
      | Some [(name, v)] =>
          if json_is_null v then CommitmentMode_from_str name else Err "invalid commitment_mode"
      | _ => Err "invalid commitment_mode"
      end
  end.

Definition missing (field : string) : string := "Missing or invalid '" +:+ field +:+ "' field".
Definition req_str (json : Value) (field : string) : Result string string :=
  ok_or (missing field) (idx_str json field).
Definition req_u64 (json : Value) (field : string) : Result string Z :=
  ok_or (missing field) (idx_u64 json field).
Definition req_pubkey (json : Value) (field : string) : Result string PublicKey :=
  hex ← req_str json field;
  map_err (λ e, "Invalid " +:+ field +:+ ": " +:+ e) (pubkey_from_str hex).

(** [a.or_else(|| b)] on options. *)
Definition or_else {A} (a b : option A) : option A :=
  match a with Some _ => a | None => b end.

Definition from_json_with_channel_secret (json_str : string) (keyset_info : KeysetInfo)
    (channel_secret : bytes) : Result string ChannelParameters :=
  json ← map_err (λ e, "Invalid JSON: " +:+ e) (json_parse json_str);
  mode ← match json_get json "commitment_mode" with
         | None => Ok Ordinary
         | Some value => map_err (λ _, "invalid commitment_mode") (mode_of_value value)
         end;
  keyset_id_str ← ok_or (missing "keyset_id")
    (or_else (idx_str json "keyset_id") (idx_str json "keysetId"));
  json_keyset_id ← map_err (λ e, "Invalid keyset_id: " +:+ e) (id_from_str keyset_id_str);
  json_input_fee_ppk ← ok_or (missing "input_fee_ppk")
    (or_else (idx_u64 json "input_fee_ppk") (idx_u64 json "inputFeePpk"));
  _ ← ensure (bool_decide (keyset_id keyset_info = json_keyset_id))
        ("keyset_id mismatch: JSON has " +:+ id_to_string json_keyset_id
         +:+ ", KeysetInfo has " +:+ id_to_string (keyset_id keyset_info));
  _ ← ensure (input_fee_ppk keyset_info =? json_input_fee_ppk)
        ("input_fee_ppk mismatch: JSON has " +:+ pretty json_input_fee_ppk
         +:+ ", KeysetInfo has " +:+ pretty (input_fee_ppk keyset_info));
  mint ← req_str json "mint";
  unit_str ← req_str json "unit";
  unit ← map_err (λ e, "Invalid unit: " +:+ e) (unit_from_str unit_str);
  capacity ← req_u64 json "capacity";
  funding_token_amount ← req_u64 json "funding_token_amount";
  maximum_amount_for_one_output ← req_u64 json "maximum_amount_for_one_output";
  setup_timestamp ← req_u64 json "setup_timestamp";
  sender_pubkey ← req_pubkey json "sender_pubkey";
  receiver_pubkey ← req_pubkey json "receiver_pubkey";
  expiry_timestamp ← req_u64 json "expiry_timestamp";
  params ← ChannelParameters_new sender_pubkey receiver_pubkey mint unit capacity
    funding_token_amount expiry_timestamp setup_timestamp keyset_info
    maximum_amount_for_one_output channel_secret;
  Ok (with_commitment_mode params mode).

Definition from_json_with_secret_key (json_str : string) (keyset_info : KeysetInfo)
    (my_secret : SecretKey) : Result string ChannelParameters :=
  json ← map_err (λ e, "Invalid JSON: " +:+ e) (json_parse json_str);
  sender_pubkey ← req_pubkey json "sender_pubkey";
  receiver_pubkey ← req_pubkey json "receiver_pubkey";
  their_pubkey ← counterparty sender_pubkey receiver_pubkey my_secret;
  from_json_with_channel_secret json_str keyset_info
    (compute_channel_secret my_secret their_pubkey).

(** *** Identity *)

Definition get_capacity p : Z := capacity p.
Definition unit_name p : string := unit_to_string (cp_unit p).

Definition channel_id_tlv_stream p : bytes :=
  let stream := [] in
  let stream := append_tlv_record stream 0 (tu64_bytes CHANNEL_ID_ENCODING_VERSION) in
  let stream := append_tlv_record stream 2 (bytes_of_string (mint p)) in
  let stream := append_tlv_record stream 4 (bytes_of_string (unit_name p)) in
  let stream := append_tlv_record stream 6 (tu64_bytes (capacity p)) in
  let stream := append_tlv_record stream 8 (tu64_bytes (funding_token_amount p)) in
  let stream := append_tlv_record stream 10 (id_to_bytes (keyset_id (keyset_info p))) in
  let stream := append_tlv_record stream 12 (tu64_bytes (input_fee_ppk (keyset_info p))) in
  let stream := append_tlv_record stream 14 (tu64_bytes (maximum_amount_for_one_output p)) in
  let stream := append_tlv_record stream 16 (pubkey_to_bytes (sender_pubkey p)) in
  let stream := append_tlv_record stream 18 (pubkey_to_bytes (receiver_pubkey p)) in
  let stream := append_tlv_record stream 20 (tu64_bytes (setup_timestamp p)) in
  let stream := append_tlv_record stream 22 (tu64_bytes (expiry_timestamp p)) in
  let stream := append_tlv_record stream 24 (channel_secret p) in
  if bool_decide (commitment_mode p = Rerandomized) then append_tlv_record stream 26 [1]
  else stream.

Definition get_channel_id_bytes p : bytes :=
  tagged_sha256 CHANNEL_ID_TAG (channel_id_tlv_stream p).
Definition get_channel_id p : string := hex_encode (get_channel_id_bytes p).

Definition get_channel_id_params_json p : string :=
  json_print (json_obj (
    [("mint", json_str (mint p));
     ("unit", json_str (unit_name p));
     ("capacity", json_num (capacity p));
     ("funding_token_amount", json_num (funding_token_amount p));
     ("keyset_id", json_str (id_to_string (keyset_id (keyset_info p))));
     ("input_fee_ppk", json_num (input_fee_ppk (keyset_info p)));
     ("maximum_amount_for_one_output", json_num (maximum_amount_for_one_output p));
     ("setup_timestamp", json_num (setup_timestamp p));
     ("sender_pubkey", json_str (pubkey_to_hex (sender_pubkey p)));
     ("receiver_pubkey", json_str (pubkey_to_hex (receiver_pubkey p)));
     ("expiry_timestamp", json_num (expiry_timestamp p))]
    ++ (if bool_decide (commitment_mode p = Rerandomized)
        then [("commitment_mode", json_str "rerandomized")] else []))).

(** *** Key derivation *)

Definition derive_blinding_scalar p (context : string) : Result string Scalar :=
  let channel_id := get_channel_id p in
  let message := bytes_of_string "Cashu_Spilman_stage1_key_tweak_v1"
                 ++ bytes_of_string (channel_id +:+ "|" +:+ context) in
  map_err (λ e, "Failed to derive stage-1 blinding scalar: " +:+ e)
    (hash_to_secp_scalar message (hmac_sha256 (channel_secret p))).

Definition stage2_context (role : Stage2Role) : string :=
  match role with RoleSender => "sender_stage2" | RoleReceiver => "receiver_stage2" end.
Definition role_pubkey (role : Stage2Role) p : PublicKey :=
  match role with RoleSender => sender_pubkey p | RoleReceiver => receiver_pubkey p end.

Definition derive_stage2_p2bk_ephemeral_secret_for_output p (context : string) (amount index : Z) :
    Result string SecretKey :=
  let channel_id := get_channel_id p in
  let message := bytes_of_string "Cashu_Spilman_P2BK_ephemeral_v1"
                 ++ bytes_of_string (channel_id +:+ "|" +:+ context +:+ "|" +:+ pretty amount
                                     +:+ "|" +:+ pretty index) in
  scalar ← map_err (λ e, "Failed to derive stage-2 ephemeral secret: " +:+ e)
             (hash_to_secp_scalar message (hmac_sha256 (channel_secret p)));
  map_err (λ e, "Invalid stage-2 ephemeral secret: " +:+ e)
    (secret_from_slice (scalar_to_be_bytes scalar)).

Definition derive_nut28_shared_secret_x (pubkey : PublicKey) (secret : SecretKey) :
    Result string bytes :=
  shared_point ← pubkey_mul_tweak pubkey (secret_as_scalar secret);
  Ok (pubkey_x shared_point).

Definition derive_nut28_P2KB_shared_secret_scalar (zx : bytes) (i_byte : Z) : Result string Scalar :=
  hash_to_secp_scalar (bytes_of_string "Cashu_P2BK_v1" ++ zx ++ [i_byte]) sha256.

Definition stage2_tweak_info_for_role p (role : Stage2Role) (amount index : Z) :
    Result string Stage2P2bkTweakInfo :=
  ephemeral_secret ←
    derive_stage2_p2bk_ephemeral_secret_for_output p (stage2_context role) amount index;
  ephemeral_shared_secret_x ← derive_nut28_shared_secret_x (role_pubkey role p) ephemeral_secret;
  stage2_tweak_scalar ← derive_nut28_P2KB_shared_secret_scalar ephemeral_shared_secret_x 0;
  Ok (mk_Stage2P2bkTweakInfo ephemeral_secret (public_key ephemeral_secret)
        ephemeral_shared_secret_x stage2_tweak_scalar).

Definition get_sender_blinded_pubkey_for_stage1 p : Result string PublicKey :=
  r ← derive_blinding_scalar p "sender_stage1"; derive_blinded_pubkey (sender_pubkey p) r.
Definition get_receiver_blinded_pubkey_for_stage1 p : Result string PublicKey :=
  r ← derive_blinding_scalar p "receiver_stage1"; derive_blinded_pubkey (receiver_pubkey p) r.
Definition get_sender_blinded_secret_key_for_stage1 p (alice_secret : SecretKey) :
    Result string SecretKey :=
  r ← derive_blinding_scalar p "sender_stage1"; derive_blinded_secret_key alice_secret r.
Definition derive_sender_blinding_scalar_for_stage1 p : Result string Scalar :=
  derive_blinding_scalar p "sender_stage1".
Definition derive_receiver_blinding_scalar_for_stage1 p : Result string Scalar :=
  derive_blinding_scalar p "receiver_stage1".
Definition get_sender_blinded_pubkey_for_stage1_refund p : Result string PublicKey :=
  r ← derive_blinding_scalar p "sender_stage1_refund"; derive_blinded_pubkey (sender_pubkey p) r.
Definition get_sender_blinded_secret_key_for_stage1_refund p (alice_secret : SecretKey) :
    Result string SecretKey :=
  r ← derive_blinding_scalar p "sender_stage1_refund"; derive_blinded_secret_key alice_secret r.
Definition get_receiver_blinded_secret_key_for_stage1 p (charlie_secret : SecretKey) :
    Result string SecretKey :=
  r ← derive_blinding_scalar p "receiver_stage1"; derive_blinded_secret_key charlie_secret r.

Definition get_sender_blinded_pubkey_for_stage2_output p (amount index : Z) :
    Result string PublicKey :=
  tweak_info ← stage2_tweak_info_for_role p RoleSender amount index;
  derive_blinded_pubkey (sender_pubkey p) (stage2_tweak_scalar tweak_info).
Definition get_receiver_blinded_pubkey_for_stage2_output p (amount index : Z) :
    Result string PublicKey :=
  tweak_info ← stage2_tweak_info_for_role p RoleReceiver amount index;
  derive_blinded_pubkey (receiver_pubkey p) (stage2_tweak_scalar tweak_info).
Definition get_sender_blinded_secret_key_for_stage2_output p (alice_secret : SecretKey)
    (amount index : Z) : Result string SecretKey :=
  tweak_info ← stage2_tweak_info_for_role p RoleSender amount index;
  derive_blinded_secret_key alice_secret (stage2_tweak_scalar tweak_info).
Definition get_receiver_blinded_secret_key_for_stage2_output p (charlie_secret : SecretKey)
    (amount index : Z) : Result string SecretKey :=
  tweak_info ← stage2_tweak_info_for_role p RoleReceiver amount index;
  derive_blinded_secret_key charlie_secret (stage2_tweak_scalar tweak_info).

Definition get_stage2_blinded_pubkey_for_stage1_output p (context : string) (amount index : Z) :
    Result string PublicKey :=
  if bool_decide (context = "receiver") then
    get_receiver_blinded_pubkey_for_stage2_output p amount index
  else if bool_decide (context = "sender") then
    get_sender_blinded_pubkey_for_stage2_output p amount index
  else if bool_decide (context = "funding") then
    Err "Funding context requires 2-of-2 blinded pubkeys, use new_funding() instead"
  else Err ("Unknown context: " +:+ context).

Definition stage2_p2pk_e_for_role p (role : Stage2Role) (amount index : Z) :
    Result string PublicKey :=
  tweak_info ← stage2_tweak_info_for_role p role amount index;
  Ok (ephemeral_pubkey tweak_info).
Definition attach_stage2_p2pk_e p (proof : Proof) (role : Stage2Role) (amount index : Z) :
    Result string Proof :=
  e ← stage2_p2pk_e_for_role p role amount index;
  Ok (set_p2pk_e proof (Some e)).

(** *** Deterministic outputs ([DeterministicSecretWithBlinding] of [deterministic.rs]) *)

Definition new_p2pk (pubkey : PublicKey) (nonce : string) (blinding_factor : SecretKey)
    (amount index : Z) : DeterministicSecretWithBlinding :=
  mk_DeterministicSecretWithBlinding
    ("[" +:+ quoted "P2PK" +:+ ",{" +:+ quoted "data" +:+ ":" +:+ quoted (pubkey_to_hex pubkey)
     +:+ "," +:+ quoted "nonce" +:+ ":" +:+ quoted nonce +:+ "," +:+ quoted "tags" +:+ ":[]}]")
    blinding_factor amount index.

(** One [[name,value]] entry of a tag list. *)
Definition tag (name value : string) : string :=
  "[" +:+ quoted name +:+ "," +:+ quoted value +:+ "]".

Definition new_funding p (nonce : string) (blinding_factor : SecretKey) (amount index : Z) :
    Result string DeterministicSecretWithBlinding :=
  blinded_sender_pubkey ← get_sender_blinded_pubkey_for_stage1 p;
  blinded_receiver_pubkey ← get_receiver_blinded_pubkey_for_stage1 p;
  blinded_sender_pubkey_refund ← get_sender_blinded_pubkey_for_stage1_refund p;
  Ok (mk_DeterministicSecretWithBlinding
    ("[" +:+ quoted "P2PK" +:+ ",{" +:+ quoted "data" +:+ ":"
     +:+ quoted (pubkey_to_hex blinded_sender_pubkey)
     +:+ "," +:+ quoted "nonce" +:+ ":" +:+ quoted nonce +:+ "," +:+ quoted "tags" +:+ ":["
     +:+ tag "pubkeys" (pubkey_to_hex blinded_receiver_pubkey)
     +:+ "," +:+ tag "locktime" (pretty (expiry_timestamp p))
     +:+ "," +:+ tag "n_sigs" "2"
     +:+ "," +:+ tag "refund" (pubkey_to_hex blinded_sender_pubkey_refund)
     +:+ "," +:+ tag "n_sigs_refund" "1"
     +:+ "," +:+ tag "sigflag" "SIG_ALL" +:+ "]}]")
    blinding_factor amount index).

Definition create_deterministic_output_with_blinding p (context : string) (amount index : Z) :
    Result string DeterministicSecretWithBlinding :=
  let channel_id := get_channel_id p in
  let text (kind : string) := channel_id +:+ "|" +:+ context +:+ "|" +:+ pretty amount
    +:+ "|" +:+ kind +:+ "|" +:+ pretty index in
  nonce_scalar ← map_err (λ e, "Failed to derive deterministic nonce: " +:+ e)
    (hash_to_secp_scalar (bytes_of_string (text "nonce")) (hmac_sha256 (channel_secret p)));
  let nonce := hex_encode (scalar_to_be_bytes nonce_scalar) in
  blinding_scalar ← map_err (λ e, "Failed to derive deterministic blinding factor: " +:+ e)
    (hash_to_secp_scalar (bytes_of_string (text "blinding")) (hmac_sha256 (channel_secret p)));
  blinding_factor ← map_err (λ e, "Invalid deterministic blinding factor: " +:+ e)
    (secret_from_slice (scalar_to_be_bytes blinding_scalar));
  if bool_decide (context = "funding") then
    new_funding p nonce blinding_factor amount index
  else
    pubkey ← get_stage2_blinded_pubkey_for_stage1_output p context amount index;
    Ok (new_p2pk pubkey nonce blinding_factor amount index).

(** *** Fees over the two stages *)

Definition get_minimum_funding_token_amount (capacity : Z) (keyset_info : KeysetInfo)
    (maximum_amount_for_one_output : Z) : Result string Z :=
  let max_amt := maximum_amount_for_one_output in
  first_inverse ← inverse_deterministic_value_after_fees keyset_info capacity max_amt;
  let post_stage1_nominal := nominal_value first_inverse in
  second_inverse ← inverse_deterministic_value_after_fees keyset_info post_stage1_nominal max_amt;
  Ok (nominal_value second_inverse).

Definition get_total_funding_token_amount p : Result string Z := Ok (funding_token_amount p).
Definition get_value_after_stage1_with_keyset p (keyset_info : KeysetInfo) : Result string Z :=
  deterministic_value_after_fees keyset_info (funding_token_amount p)
    (maximum_amount_for_one_output p).
Definition get_value_after_stage1 p : Result string Z :=
  get_value_after_stage1_with_keyset p (keyset_info p).
Definition get_de_facto_balance p (intended_balance : Z) : Result string Z :=
  let max_amt := maximum_amount_for_one_output p in
  inverse_result ← inverse_deterministic_value_after_fees (keyset_info p) intended_balance max_amt;
  deterministic_value_after_fees (keyset_info p) (nominal_value inverse_result) max_amt.

(** *** Keyset JSON ([bindings.rs]) *)

Definition parse_key_entry (keys_map : Keys) (entry : string * Value) : Result string Keys :=
  let '(amount_str, pubkey_val) := entry in
  amount ← map_err (λ e, "Invalid amount '" +:+ amount_str +:+ "': " +:+ e) (parse_u64 amount_str);
  pubkey_hex ← ok_or ("Invalid pubkey for amount " +:+ pretty amount) (json_as_str pubkey_val);
  pubkey ← map_err (λ e, "Invalid pubkey hex for amount " +:+ pretty amount +:+ ": " +:+ e)
             (pubkey_from_str pubkey_hex);
  Ok (bt_insert amount pubkey keys_map).

Definition parse_keyset_info_from_json (json_str : string) : Result string KeysetInfo :=
  json ← map_err (λ e, "Invalid keyset JSON: " +:+ e) (json_parse json_str);
  keyset_id_str ← ok_or (missing "keysetId")
    (or_else (idx_str json "keysetId") (idx_str json "keyset_id"));
  keyset_id ← map_err (λ e, "Invalid keyset_id: " +:+ e) (id_from_str keyset_id_str);
  unit_str ← ok_or (missing "unit") (idx_str json "unit");
  unit ← map_err (λ e, "Invalid unit: " +:+ e) (unit_from_str unit_str);
  input_fee_ppk ← ok_or (missing "inputFeePpk")
    (or_else (idx_u64 json "inputFeePpk") (idx_u64 json "input_fee_ppk"));
  let final_expiry := or_else (idx_u64 json "finalExpiry") (idx_u64 json "final_expiry") in
  keys_obj ← ok_or (missing "keys") (json_get json "keys" ≫= json_as_object);
  keys_map ← try_fold parse_key_entry [] keys_obj;
  Ok (KeysetInfo_new keyset_id unit keys_map input_fee_ppk final_expiry).

(** The derived [Serialize] of [KeysetInfo] ([keysets_and_amounts.rs]). *)
Definition KeysetInfo_to_value (ks : KeysetInfo) : Value :=
  json_obj [("keysetId", json_str (id_to_string (keyset_id ks)));
            ("unit", json_str (unit_to_string (ki_unit ks)));
            ("keys", json_obj ((λ e : Z * PublicKey, (pretty e.1, json_str (pubkey_to_hex e.2)))
                               <$> active_keys ks));
            ("amounts", json_arr (json_num <$> amounts_largest_first ks));
            ("inputFeePpk", json_num (input_fee_ppk ks));
            ("finalExpiry", match final_expiry ks with Some e => json_num e | None => json_null end)].
End code.

(** ** The identifier commits to the parameters *)

(** What the identifier is meant to fix: every parameter, and of the keyset its id and
    fee. *)
Record same_channel {T : CashuTypes} (p q : ChannelParameters) : Prop := {
  sc_mode : commitment_mode p = commitment_mode q;
  sc_sender : sender_pubkey p = sender_pubkey q;
  sc_receiver : receiver_pubkey p = receiver_pubkey q;
  sc_mint : mint p = mint q;
  sc_unit : cp_unit p = cp_unit q;
  sc_capacity : capacity p = capacity q;
  sc_funding : funding_token_amount p = funding_token_amount q;
  sc_expiry : expiry_timestamp p = expiry_timestamp q;
  sc_setup : setup_timestamp p = setup_timestamp q;
  sc_keyset : keyset_id (keyset_info p) = keyset_id (keyset_info q);
  sc_fee : input_fee_ppk (keyset_info p) = input_fee_ppk (keyset_info q);
  sc_max : maximum_amount_for_one_output p = maximum_amount_for_one_output q;
  sc_secret : channel_secret p = channel_secret q;
}.

Lemma tu64_bytes_value v : is_u64 v → of_be_bytes (tu64_bytes v) = v.
Proof.
  intros [Hv0 Hv]. unfold tu64_bytes, leading_zeros. destruct (v =? 0) eqn:E.
  { assert (v = 0) as -> by lia. done. }
  rewrite drop_be_bytes, of_be_bytes_be_bytes by done. apply Z.mod_small. split; [done|].
  pose proof (Z.log2_spec v) as [_ Hlog]; [lia|].
  assert (0 <= Z.log2 v < 64). { split; [apply Z.log2_nonneg|apply Z.log2_lt_pow2; lia]. }
  set (k := (63 - Z.log2 v) / 8).
  assert (0 <= k <= 7 ∧ 8 * k <= 63 - Z.log2 v) as [Hk Hk'].
  { unfold k. pose proof (Z.div_mod (63 - Z.log2 v) 8). pose proof (Z.mod_pos_bound (63 - Z.log2 v) 8). lia. }
  replace (Z.of_nat (8 - Z.to_nat k)) with (8 - k) by lia.
  eapply Z.lt_le_trans; [exact Hlog|]. change 256 with (2 ^ 8).
  rewrite <-Z.pow_mul_r by lia. apply Z.pow_le_mono_r; lia.
Qed.
Lemma tu64_bytes_inj v w : is_u64 v → is_u64 w → tu64_bytes v = tu64_bytes w → v = w.
Proof. intros Hv Hw H. rewrite <-(tu64_bytes_value v), <-(tu64_bytes_value w) by done. by f_equal. Qed.
Lemma length_tu64_bytes v : (length (tu64_bytes v) <= 8)%nat.
Proof. unfold tu64_bytes. rewrite length_drop, length_be_bytes. lia. Qed.

Section commit.
Context {T : CashuTypes} {O : CashuOps} {HE : EncodingLaws}.
Implicit Types p q : ChannelParameters.

(** A TLV stream as a list of records. *)
Definition encode_record (r : Z * bytes) : bytes :=
  bigsize_encode r.1 ++ bigsize_encode (Z.of_nat (length r.2)) ++ r.2.
Definition wf_record (r : Z * bytes) : Prop := is_u64 r.1 ∧ is_u64 (Z.of_nat (length r.2)).

Lemma bigsize_nonempty n : is_u64 n → bigsize_encode n ≠ [].
Proof.
  intros Hn He. set (m := if n =? 0 then 1 else 0).
  assert (is_u64 m) as Hm by (unfold m; case_match; done).
  destruct (bigsize_prefix_free n m (bigsize_encode m) []) as [Hnm _]; [done..| |].
  { by rewrite He, app_nil_r. }
  unfold m in Hnm. case_match; lia.
Qed.

Lemma encode_record_prefix_free r s x y :
  wf_record r → wf_record s → encode_record r ++ x = encode_record s ++ y → r = s ∧ x = y.
Proof.
  intros [Ht Hl] [Ht' Hl']. unfold encode_record. rewrite <-!app_assoc. intros H.
  apply bigsize_prefix_free in H as [Htyp H]; [|done..].
  apply bigsize_prefix_free in H as [Hlen H]; [|done..].
  apply app_inj_1 in H as [Hval ->]; [|lia]. split; [|done]. destruct r, s; simpl in *; congruence.
Qed.

Lemma encode_records_inj l k :
  Forall wf_record l → Forall wf_record k →
  l ≫= encode_record = k ≫= encode_record → l = k.
Proof.
  assert (∀ r x, wf_record r → encode_record r ++ x ≠ []) as Hne.
  { intros r x [Hr _] He. unfold encode_record in He.
    apply app_eq_nil in He as [He _]. apply app_eq_nil in He as [He _].
    by apply (bigsize_nonempty r.1 Hr). }
  intros Hl. revert k. induction Hl as [|r l Hr Hl IH]; intros k Hk H; destruct Hk as [|s k Hs Hk];
    [done| | |]; cbn in H.
  - by destruct (Hne s (k ≫= encode_record) Hs).
  - by destruct (Hne r (l ≫= encode_record) Hr).
  - apply encode_record_prefix_free in H as [-> H]; [|done..]. f_equal. by apply IH.
Qed.

Definition tlv_records p : list (Z * bytes) :=
  [(0, tu64_bytes CHANNEL_ID_ENCODING_VERSION); (2, bytes_of_string (mint p));
   (4, bytes_of_string (unit_name p)); (6, tu64_bytes (capacity p));
   (8, tu64_bytes (funding_token_amount p)); (10, id_to_bytes (keyset_id (keyset_info p)));
   (12, tu64_bytes (input_fee_ppk (keyset_info p)));
   (14, tu64_bytes (maximum_amount_for_one_output p));
   (16, pubkey_to_bytes (sender_pubkey p)); (18, pubkey_to_bytes (receiver_pubkey p));
   (20, tu64_bytes (setup_timestamp p)); (22, tu64_bytes (expiry_timestamp p));
   (24, channel_secret p)]
  ++ (if bool_decide (commitment_mode p = Rerandomized) then [(26, [1])] else []).

Lemma channel_id_tlv_stream_records p : channel_id_tlv_stream p = tlv_records p ≫= encode_record.
Proof.
  unfold channel_id_tlv_stream, append_tlv_record, tlv_records, encode_record.
  case_bool_decide; cbn [mbind list_bind app fst snd]; rewrite <-?app_assoc, ?app_nil_r; done.
Qed.

(** Every numeric parameter is a [u64] and every field has a length that fits one. *)
Definition wf_params p : Prop :=
  is_u64 (capacity p) ∧ is_u64 (funding_token_amount p) ∧ is_u64 (expiry_timestamp p) ∧
  is_u64 (setup_timestamp p) ∧ is_u64 (input_fee_ppk (keyset_info p)) ∧
  is_u64 (maximum_amount_for_one_output p) ∧
  Forall (λ r, is_u64 (Z.of_nat (length r.2))) (tlv_records p).
#[global] Instance wf_params_dec p : Decision (wf_params p).
Proof. unfold wf_params. apply _. Defined.

Lemma tlv_records_wf p : wf_params p → Forall wf_record (tlv_records p).
Proof.
  intros (_ & _ & _ & _ & _ & _ & Hl). apply Forall_forall. intros r Hr. split.
  - clear Hl. unfold tlv_records in Hr. apply elem_of_app in Hr as [Hr|Hr].
    + repeat (apply elem_of_cons in Hr as [->|Hr]; [done|]). set_solver.
    + case_bool_decide; [|set_solver]. apply list_elem_of_singleton in Hr as ->. done.
  - rewrite Forall_forall in Hl. auto.
Qed.

Lemma channel_id_tlv_stream_inj p q :
  wf_params p → wf_params q → channel_id_tlv_stream p = channel_id_tlv_stream q →
  same_channel p q.
Proof.
  intros Hp Hq. rewrite !channel_id_tlv_stream_records. intros H.
  apply encode_records_inj in H; [|by apply tlv_records_wf..].
  destruct Hp as (?&?&?&?&?&?&_), Hq as (?&?&?&?&?&?&_).
  unfold tlv_records in H. apply app_inj_1 in H as [H Hm]; [|done].
  injection H; clear H; intros. split; try (by apply tu64_bytes_inj);
    try (by apply (inj pubkey_to_bytes)); try (by apply (inj bytes_of_string));
    try (by apply (inj id_to_bytes)).
  - destruct (commitment_mode p), (commitment_mode q); done.
  - assert (unit_name p = unit_name q) as Hu by (by apply (inj bytes_of_string)).
    unfold unit_name in Hu. pose proof (unit_inv (cp_unit p)) as Hinv.
    rewrite Hu, unit_inv in Hinv. congruence.
  - done.
Qed.
End commit.

(** ** Keys *)

Section keys.
Context {T : CashuTypes} {O : CashuOps} {HS : SecpLaws}.
Implicit Types p : ChannelParameters.

(** A blinded secret key belongs to the blinded public key. *)
Lemma derive_blinded_agree s r k :
  derive_blinded_secret_key s r = Ok k →
  derive_blinded_pubkey (public_key s) r = Ok (public_key k).
Proof.
  unfold derive_blinded_secret_key, derive_blinded_pubkey. rewrite !map_err_Ok.
  case_match; intros Hk%public_key_add_tweak; [by rewrite <-public_key_negate|done].
Qed.
Lemma derive_blinded_agree_Err s r e :
  derive_blinded_secret_key s r = Err e →
  ∃ e', derive_blinded_pubkey (public_key s) r = Err e'.
Proof.
  unfold derive_blinded_secret_key, derive_blinded_pubkey.
  destruct (secret_add_tweak _ r) as [|e0|] eqn:E; intros [= <-].
  apply public_key_add_tweak_Err in E as [e' He'].
  case_match; rewrite <-?public_key_negate; rewrite He'; by eexists.
Qed.

Lemma counterparty_agree a c :
  ∃ ka kc,
    counterparty (public_key a) (public_key c) a = Ok ka ∧
    counterparty (public_key a) (public_key c) c = Ok kc ∧
    compute_channel_secret a ka = compute_channel_secret c kc.
Proof.
  unfold counterparty, compute_channel_secret. rewrite bool_decide_eq_true_2 by done.
  destruct (decide (public_key c = public_key a)) as [E|E].
  - rewrite bool_decide_eq_true_2 by done. eexists _, _. split_and!; [done..|].
    by rewrite (ecdh_comm a c), E.
  - rewrite bool_decide_eq_false_2, bool_decide_eq_true_2 by done.
    eexists _, _. split_and!; [done..|]. by rewrite (ecdh_comm a c).
Qed.
End keys.

(** ** Funding bounds *)

Section funding.
Context {T : CashuTypes} {O : CashuOps}.

Lemma ChannelParameters_new_spec sp rp mint unit cap fund expiry setup ks max secret :
  wf_keyset ks → 1 ∈ amounts_largest_first ks → is_u64 max → input_fee_ppk ks <= 999 →
  0 <= fund < 2 ^ 54 →
  let us := usable max (amounts_largest_first ks) in
  let maxcap := forward (input_fee_ppk ks) us (forward (input_fee_ppk ks) us fund) in
  if maxcap <? cap then
    ∃ e, ChannelParameters_new sp rp mint unit cap fund expiry setup ks max secret = Err e
  else
    ChannelParameters_new sp rp mint unit cap fund expiry setup ks max secret
    = Ok (mk_ChannelParameters Ordinary sp rp (trim_end_slashes mint) unit cap fund expiry
            setup ks max secret).
Proof.
  intros Hwf H1 [Hm _] Hppk Hf us maxcap. pose proof Hwf as [Hwa [Hppk0 _]].
  assert (positive_amounts us) as Hp by (by apply wf_amounts_positive, usable_wf).
  assert (1 ∈ us) by (apply elem_of_usable; split; [lia|done]).
  unfold ChannelParameters_new. rewrite (proj2 (Z.ltb_ge 999 _)) by lia.
  rewrite deterministic_value_spec by (done || unfold is_u64; nia). fold us.
  rewrite grem_1 by done. simpl.
  pose proof (forward_bounds (input_fee_ppk ks) us fund Hp).
  rewrite deterministic_value_spec by (done || unfold is_u64; nia). fold us.
  rewrite grem_1 by done. simpl. fold maxcap. case_match; [by eexists|done].
Qed.

Lemma get_minimum_funding_spec cap ks max :
  wf_keyset ks → 1 ∈ amounts_largest_first ks → is_u64 max → input_fee_ppk ks <= 999 →
  0 <= cap <= 2 ^ 34 →
  let us := usable max (amounts_largest_first ks) in
  let fwd := forward (input_fee_ppk ks) us in
  ∃ f, get_minimum_funding_token_amount cap ks max = Ok f ∧ 0 <= f <= 1000000 * cap ∧
    cap <= fwd (fwd f) ∧ ∀ f', 0 <= f' < f → fwd (fwd f') < cap.
Proof.
  intros Hwf H1 [Hm _] Hppk Hc us fwd. pose proof Hwf as [Hwa [Hppk0 _]].
  assert (positive_amounts us) as Hp by (by apply wf_amounts_positive, usable_wf).
  assert (1 ∈ us) by (apply elem_of_usable; split; [lia|done]).
  unfold get_minimum_funding_token_amount.
  destruct (inverse_spec ks max cap (1000 * cap)) as (n & -> & Hn & Hf & Hmin);
    [done..|lia|unfold is_u64; lia|nia|apply forward_1000; [done|lia..]|]. simpl.
  destruct (inverse_spec ks max n (1000 * n)) as (f & -> & Hf1 & Hf2 & Hfmin);
    [done..|lia|unfold is_u64; lia|nia|apply forward_1000; [done|lia..]|]. simpl.
  exists f. split_and!; [done|lia|lia| |].
  - etrans; [exact Hf|]. apply forward_mono; [done|lia|]. unfold fwd, us in *. lia.
  - intros f' Hf'. pose proof (Hfmin f' Hf') as Hlt.
    apply Hmin. pose proof (forward_bounds (input_fee_ppk ks) us f' Hp). unfold fwd, us in *. lia.
Qed.
End funding.

(** ** JSON *)

Lemma trim_end_slashes_idemp s : trim_end_slashes (trim_end_slashes s) = trim_end_slashes s.
Proof.
  induction s as [|c s IH]; [done|]. cbn [trim_end_slashes]. case_bool_decide as E; [done|].
  cbn [trim_end_slashes]. rewrite IH, bool_decide_eq_false_2 by done. done.
Qed.

Section json.
Context {T : CashuTypes} {O : CashuOps} {HE : EncodingLaws} {HJ : JsonLaws}.
Implicit Types p : ChannelParameters.

(** The entries of the JSON form, and its lookups. *)
Definition json_entries p : list (string * Value) :=
  [("mint", json_str (mint p));
   ("unit", json_str (unit_name p));
   ("capacity", json_num (capacity p));
   ("funding_token_amount", json_num (funding_token_amount p));
   ("keyset_id", json_str (id_to_string (keyset_id (keyset_info p))));
   ("input_fee_ppk", json_num (input_fee_ppk (keyset_info p)));
   ("maximum_amount_for_one_output", json_num (maximum_amount_for_one_output p));
   ("setup_timestamp", json_num (setup_timestamp p));
   ("sender_pubkey", json_str (pubkey_to_hex (sender_pubkey p)));
   ("receiver_pubkey", json_str (pubkey_to_hex (receiver_pubkey p)));
   ("expiry_timestamp", json_num (expiry_timestamp p))]
  ++ (if bool_decide (commitment_mode p = Rerandomized)
      then [("commitment_mode", json_str "rerandomized")] else []).

Lemma json_parse_params_json p :
  json_parse (get_channel_id_params_json p) = Ok (json_obj (json_entries p)).
Proof. apply json_print_inv. Qed.

Lemma json_entries_get p k :
  json_get (json_obj (json_entries p)) k = alist_get (json_entries p) k.
Proof.
  apply json_get_obj. unfold json_entries. case_bool_decide;
    apply (bool_decide_eq_true_1 _); reflexivity.
Qed.

Lemma from_json_params_json p ks secret :
  wf_params p → keyset_id ks = keyset_id (keyset_info p) →
  input_fee_ppk ks = input_fee_ppk (keyset_info p) →
  from_json_with_channel_secret (get_channel_id_params_json p) ks secret
  = (q ← ChannelParameters_new (sender_pubkey p) (receiver_pubkey p) (mint p) (cp_unit p)
           (capacity p) (funding_token_amount p) (expiry_timestamp p) (setup_timestamp p)
           ks (maximum_amount_for_one_output p) secret;
     Ok (with_commitment_mode q (commitment_mode p))).
Proof.
  intros (?&?&?&?&?&?&_) Hid Hfee. unfold from_json_with_channel_secret.
  rewrite json_parse_params_json. cbn [map_err mbind Result_bind].
  unfold req_pubkey, req_str, req_u64, idx_str, idx_u64. rewrite !json_entries_get.
  assert (alist_get (json_entries p) "commitment_mode" =
    (if bool_decide (commitment_mode p = Rerandomized) then Some (json_str "rerandomized") else None))
    as -> by (unfold json_entries; case_bool_decide; reflexivity).
  repeat match goal with
  | |- context [alist_get (json_entries p) ?k] =>
      let v := eval cbn in (alist_get (json_entries p) k) in
      change (alist_get (json_entries p) k) with v
  end.
  cbn [mbind option_bind]. rewrite !json_as_str_str, !json_as_u64_num by done.
  assert (match (if bool_decide (commitment_mode p = Rerandomized)
                 then Some (json_str "rerandomized") else None) with
          | None => Ok Ordinary
          | Some value => map_err (λ _, "invalid commitment_mode") (mode_of_value value)
          end = Ok (commitment_mode p)) as ->.
  { unfold mode_of_value. destruct (commitment_mode p); [done|].
    rewrite bool_decide_eq_true_2 by done. by rewrite json_as_str_str. }
  unfold unit_name. cbn [mbind Result_bind ok_or or_else].
  rewrite id_inv, unit_inv, !pubkey_hex_inv, Hid, Hfee, Z.eqb_refl.
  cbn [mbind Result_bind ok_or or_else map_err]. rewrite bool_decide_eq_true_2 by done.
  reflexivity.
Qed.

(** Parameters that a constructor has accepted. *)
Definition validated p : Prop :=
  ChannelParameters_new (sender_pubkey p) (receiver_pubkey p) (mint p) (cp_unit p)
    (capacity p) (funding_token_amount p) (expiry_timestamp p) (setup_timestamp p)
    (keyset_info p) (maximum_amount_for_one_output p) (channel_secret p)
  = Ok (with_commitment_mode p Ordinary).
End json.

Lemma ChannelParameters_new_Ok {T : CashuTypes} sp rp mt unit cap fund expiry setup ks max secret p :
  ChannelParameters_new sp rp mt unit cap fund expiry setup ks max secret = Ok p →
  p = mk_ChannelParameters Ordinary sp rp (trim_end_slashes mt) unit cap fund expiry setup ks max secret ∧
  validated p.
Proof.
  intros H. assert (p = mk_ChannelParameters Ordinary sp rp (trim_end_slashes mt) unit cap fund
    expiry setup ks max secret) as ->.
  { unfold ChannelParameters_new in H. result_inv. done. }
  split; [done|]. unfold validated. etrans; [|exact H]. unfold ChannelParameters_new. simpl.
  by rewrite trim_end_slashes_idemp.
Qed.
Lemma validated_with_mode {T : CashuTypes} p mode : validated p → validated (with_commitment_mode p mode).
Proof. done. Qed.

(** ** Theorems *)

Section theorems.
Context {T : CashuTypes} {O : CashuOps}.
Implicit Types p q : ChannelParameters.

(** The bytes the channel identifier hashes. *)
Definition channel_id_preimage p : bytes :=
  sha256 CHANNEL_ID_TAG ++ sha256 CHANNEL_ID_TAG ++ channel_id_tlv_stream p.

(** C31: the channel identifier commits to every parameter: two well-formed parameter sets
    with the same identifier agree on all of them, unless their own (distinct) preimages
    are a SHA-256 collision; the encoding that is hashed never maps two different sets to
    the same bytes. *)
Theorem channel_id_commits {HE : EncodingLaws} p q :
  wf_params p → wf_params q → get_channel_id p = get_channel_id q →
  same_channel p q ∨
  (channel_id_preimage p ≠ channel_id_preimage q ∧
   sha256 (channel_id_preimage p) = sha256 (channel_id_preimage q)).
Proof.
  intros Hp Hq Hid. unfold get_channel_id in Hid. apply (f_equal hex_decode) in Hid.
  rewrite !hex_inv in Hid by apply sha256_range. injection Hid as Hid.
  destruct (decide (channel_id_preimage p = channel_id_preimage q)) as [E|E]; [left|by right].
  unfold channel_id_preimage in E. apply (inj (app _)), (inj (app _)) in E.
  by apply channel_id_tlv_stream_inj.
Qed.

(** sender and receiver, each with their own secret key, construct the same parameters
    (the same channel secret and identifier), or fail with the same error. *)
Theorem parties_agree_on_params {HS : SecpLaws} alice charlie mint unit cap fund expiry setup ks max :
  new_with_secret_key (public_key alice) (public_key charlie) mint unit cap fund expiry setup
    ks max alice
  = new_with_secret_key (public_key alice) (public_key charlie) mint unit cap fund expiry setup
    ks max charlie.
Proof.
  destruct (counterparty_agree alice charlie) as (ka & kc & Ha & Hc & Hs).
  unfold new_with_secret_key. rewrite Ha, Hc. simpl. by rewrite Hs.
Qed.

(** C39: the JSON form is faithful: the receiver who parses the sender's JSON with the same
    keyset and their own secret key gets exactly the sender's parameters, for both
    commitment modes. *)
Theorem params_json_roundtrip {HS : SecpLaws} {HE : EncodingLaws} {HJ : JsonLaws}
    alice charlie mint unit cap fund expiry setup ks max mode p0 :
  new_with_secret_key (public_key alice) (public_key charlie) mint unit cap fund expiry setup
    ks max alice = Ok p0 →
  let p := with_commitment_mode p0 mode in
  wf_params p →
  from_json_with_secret_key (get_channel_id_params_json p) ks charlie = Ok p.
Proof.
  intros Hnew p Hwf.
  destruct (counterparty_agree alice charlie) as (ka & kc & Ha & Hc & Hs).
  unfold new_with_secret_key in Hnew. rewrite Ha in Hnew. cbn [mbind Result_bind] in Hnew.
  apply ChannelParameters_new_Ok in Hnew as [-> Hval].
  unfold from_json_with_secret_key. rewrite json_parse_params_json. cbn [map_err mbind Result_bind].
  unfold req_pubkey, req_str, idx_str. rewrite !json_entries_get.
  change (alist_get (json_entries p) "sender_pubkey") with (Some (json_str (pubkey_to_hex (public_key alice)))).
  change (alist_get (json_entries p) "receiver_pubkey") with (Some (json_str (pubkey_to_hex (public_key charlie)))).
  cbn [mbind option_bind Result_bind ok_or]. rewrite !json_as_str_str. cbn [mbind Result_bind ok_or].
  rewrite !pubkey_hex_inv. cbn [mbind map_err Result_bind]. rewrite Hc. cbn [mbind Result_bind].
  rewrite from_json_params_json, <-Hs by done. unfold validated in Hval. simpl in Hval.
  unfold p. simpl. rewrite Hval. done.
Qed.

(** the keys of both stages match: whenever a party's blinded secret key for a context
    can be derived, the blinded public key that the code derives for the same context
    (from the public parameters) is its public key, so BIP-340 signatures by the one
    verify under the other; this holds for the funding 2-of-2 keys, the refund key and the
    per-output keys of stage 2. *)
Theorem blinded_keys_match {HS : SecpLaws} {HB : SchnorrLaws} p alice charlie :
  public_key alice = sender_pubkey p → public_key charlie = receiver_pubkey p →
  let matches (sk : Result string SecretKey) (pk : Result string PublicKey) :=
    (∀ k, sk = Ok k → ∃ K, pk = Ok K ∧ ∀ aux m, verify_schnorr (schnorr_sign aux k m) m K = Ok tt) ∧
    (∀ e, sk = Err e → ∃ e', pk = Err e') in
  matches (get_sender_blinded_secret_key_for_stage1 p alice)
          (get_sender_blinded_pubkey_for_stage1 p) ∧
  matches (get_receiver_blinded_secret_key_for_stage1 p charlie)
          (get_receiver_blinded_pubkey_for_stage1 p) ∧
  matches (get_sender_blinded_secret_key_for_stage1_refund p alice)
          (get_sender_blinded_pubkey_for_stage1_refund p) ∧
  ∀ amount index,
    matches (get_sender_blinded_secret_key_for_stage2_output p alice amount index)
            (get_stage2_blinded_pubkey_for_stage1_output p "sender" amount index) ∧
    matches (get_receiver_blinded_secret_key_for_stage2_output p charlie amount index)
            (get_stage2_blinded_pubkey_for_stage1_output p "receiver" amount index).
Proof.
  intros Ha Hc matches.
  assert (∀ {A} (m : Result string A) (f : A → Scalar) s,
    matches (x ← m; derive_blinded_secret_key s (f x))
            (x ← m; derive_blinded_pubkey (public_key s) (f x))) as Hm.
  { intros A m f s. destruct m as [x|e|]; [|split; naive_solver..]. simpl. split.
    - intros k Hk%derive_blinded_agree. eauto using schnorr_complete.
    - intros e He%derive_blinded_agree_Err. done. }
  split_and!; rewrite <-?Ha, <-?Hc.
  - unfold get_sender_blinded_pubkey_for_stage1. rewrite <-Ha. apply (Hm _ _ id).
  - unfold get_receiver_blinded_pubkey_for_stage1. rewrite <-Hc. apply (Hm _ _ id).
  - unfold get_sender_blinded_pubkey_for_stage1_refund. rewrite <-Ha. apply (Hm _ _ id).
  - intros amount index. split.
    + change (get_stage2_blinded_pubkey_for_stage1_output p "sender" amount index)
        with (get_sender_blinded_pubkey_for_stage2_output p amount index).
      unfold get_sender_blinded_pubkey_for_stage2_output. rewrite <-Ha. apply Hm.
    + change (get_stage2_blinded_pubkey_for_stage1_output p "receiver" amount index)
        with (get_receiver_blinded_pubkey_for_stage2_output p amount index).
      unfold get_receiver_blinded_pubkey_for_stage2_output. rewrite <-Hc. apply Hm.
Qed.

(** a wallet that knows only its own secret key and the ephemeral key [p2pk_e] the
    code attaches to a stage-2 proof recovers the tweak of that proof's key (NUT-28). *)
Theorem stage2_tweak_recoverable {HS : SecpLaws} p role secret proof amount index proof' :
  public_key secret = role_pubkey role p →
  attach_stage2_p2pk_e p proof role amount index = Ok proof' →
  ∃ e info, proof_p2pk_e proof' = Some e ∧ set_p2pk_e proof' (proof_p2pk_e proof) = proof ∧
    stage2_tweak_info_for_role p role amount index = Ok info ∧
    (zx ← derive_nut28_shared_secret_x e secret; derive_nut28_P2KB_shared_secret_scalar zx 0)
    = Ok (stage2_tweak_scalar info).
Proof.
  intros Hs. unfold attach_stage2_p2pk_e, stage2_p2pk_e_for_role.
  intros (e & (info & Hinfo & [= <-])%bind_Ok & [= <-])%bind_Ok.
  eexists _, _. split_and!; [done|by destruct proof|exact Hinfo|].
  unfold stage2_tweak_info_for_role in Hinfo.
  apply bind_Ok in Hinfo as (s & _ & (zx & Hzx & (t & Ht & [= <-])%bind_Ok)%bind_Ok).
  rewrite <-Hs in Hzx. unfold derive_nut28_shared_secret_x in *. simpl.
  rewrite mul_tweak_comm, Hzx. done.
Qed.

(** the funding amount computed for a capacity is exact: parameters with it are
    accepted, and with any smaller amount they are rejected. *)
Theorem minimum_funding_exact sp rp mint unit expiry setup secret cap ks max :
  wf_keyset ks → 1 ∈ amounts_largest_first ks → is_u64 max → input_fee_ppk ks <= 999 →
  0 <= cap <= 2 ^ 34 →
  ∃ fund, get_minimum_funding_token_amount cap ks max = Ok fund ∧
    (∃ p, ChannelParameters_new sp rp mint unit cap fund expiry setup ks max secret = Ok p ∧
          capacity p = cap ∧ funding_token_amount p = fund) ∧
    ∀ fund', 0 <= fund' < fund →
      ∃ e, ChannelParameters_new sp rp mint unit cap fund' expiry setup ks max secret = Err e.
Proof.
  intros Hwf H1 Hm Hppk Hc.
  destruct (get_minimum_funding_spec cap ks max) as (f & -> & Hf & Hcap & Hmin); [done..|].
  exists f. split; [done|]. split.
  - pose proof (ChannelParameters_new_spec sp rp mint unit cap f expiry setup ks max secret
      Hwf H1 Hm Hppk ltac:(lia)) as Hnew. cbv zeta in Hnew.
    rewrite (proj2 (Z.ltb_ge _ _)) in Hnew by lia. eexists. split_and!; [exact Hnew|done..].
  - intros f' Hf'.
    pose proof (ChannelParameters_new_spec sp rp mint unit cap f' expiry setup ks max secret
      Hwf H1 Hm Hppk ltac:(lia)) as Hnew. cbv zeta in Hnew.
    specialize (Hmin f' Hf'). by rewrite (proj2 (Z.ltb_lt _ _)) in Hnew by lia.
Qed.

Lemma parse_keys_sorted m l m' :
  (∀ x, x ∈ m.*1 → is_u64 x) → bt_sorted m → JsonLaws →
  try_fold parse_key_entry m l = Ok m' →
  bt_sorted m' ∧ ∀ x, x ∈ m'.*1 → is_u64 x.
Proof.
  intros Hr Hs HJ. revert m Hr Hs.
  induction l as [|[k v] l IH]; intros m Hr Hs; simpl; [by intros [= <-]|].
  intros H. result_inv. eapply IH; [| |exact H].
  - intros x. rewrite bt_insert_keys. intros [->|Hx]; [by eapply parse_u64_range|auto].
  - by apply bt_insert_sorted.
Qed.

Lemma parsed_keyset_spec {HJ : JsonLaws} json ks :
  parse_keyset_info_from_json json = Ok ks →
  StronglySorted Z.gt (amounts_largest_first ks) ∧
  (∀ a, a ∈ amounts_largest_first ks ↔ is_Some (amount_key (active_keys ks) a)) ∧
  (0 ∉ amounts_largest_first ks → wf_keyset ks).
Proof.
  unfold parse_keyset_info_from_json. intros H. do 9 result_inv_step.
  rename a4 into ppk, a6 into keys, Hm4 into Hppk, Hm6 into Hkeys. injection H as <-.
  apply ok_or_Ok in Hppk. apply parse_keys_sorted in Hkeys as [Hs Hr]; [|set_solver|constructor|done].
  assert (is_u64 ppk).
  { unfold or_else, idx_u64 in Hppk. case_match eqn:E; simplify_eq.
    - apply bind_Some in E as (? & _ & ?). by eapply json_as_u64_range.
    - apply bind_Some in Hppk as (? & _ & ?). by eapply json_as_u64_range. }
  assert (StronglySorted Z.gt (sort_by_key Z.opp keys.*1)) as Hd by (by apply sort_descending, bt_sorted_NoDup).
  simpl. split_and!; [done| |].
  - intros x. rewrite sort_by_key_perm. unfold amount_key. by rewrite bt_lookup_is_Some.
  - rewrite sort_by_key_perm. intros H0. split; [split; [done|]|done]. simpl.
    rewrite sort_by_key_perm. apply Forall_forall. intros x Hx. specialize (Hr x Hx).
    unfold is_u64 in Hr. assert (x ≠ 0) by (by intros ->). lia.
Qed.

(** C40: a parsed keyset lists its denominations in strictly descending order, exactly the
    amounts of its keys; if no key has amount 0 it is well formed, so that all the
    results about amounts and fees apply to it. *)
Theorem parsed_keyset_wf {HJ : JsonLaws} json ks :
  parse_keyset_info_from_json json = Ok ks →
  StronglySorted Z.gt (amounts_largest_first ks) ∧
  (∀ a, a ∈ amounts_largest_first ks ↔ is_Some (amount_key (active_keys ks) a)) ∧
  (0 ∉ amounts_largest_first ks → wf_keyset ks).
Proof. apply parsed_keyset_spec. Qed.
End theorems.

(** ** Concrete inputs *)

Module Examples.
#[local] Existing Instance Toy.types.
#[local] Existing Instance Toy.ops.
#[local] Existing Instance Toy.secp_laws.
#[local] Existing Instance Toy.schnorr_laws.
#[local] Existing Instance Toy.encoding_laws.
#[local] Existing Instance Toy.json_laws.

Definition keyset : KeysetInfo := Amounts.Examples.keyset16.
Definition alice : SecretKey := 5.
Definition charlie : SecretKey := 8.
(** Alice pays Charlie over a channel of capacity 20. *)
Definition params : ChannelParameters :=
  mk_ChannelParameters Ordinary 5 8 "http://mint" "sat" 20 25 2000 1000 keyset 0
    (compute_channel_secret 5 8).
Definition params_rr : ChannelParameters := with_commitment_mode params Rerandomized.

Example params_created :
  new_with_secret_key 5 8 "http://mint//" "sat" 20 25 2000 1000 keyset 0 5 = Ok params.
Proof. vm_compute. reflexivity. Qed.
Lemma params_wf : wf_params params.
Proof. apply (bool_decide_eq_true_1 _). vm_compute. reflexivity. Qed.

Lemma channel_id_commits_witness :
  same_channel params params ∨
  (channel_id_preimage params ≠ channel_id_preimage params ∧
   sha256 (channel_id_preimage params) = sha256 (channel_id_preimage params)).
Proof. exact (channel_id_commits params params params_wf params_wf eq_refl). Defined.
Lemma params_json_roundtrip_witness :
  from_json_with_secret_key (get_channel_id_params_json params_rr) keyset charlie = Ok params_rr.
Proof.
  apply (params_json_roundtrip alice charlie "http://mint//" "sat" 20 25 2000 1000 keyset 0 Rerandomized params).
  - exact params_created.
  - apply (bool_decide_eq_true_1 _). vm_compute. reflexivity.
Defined.
Lemma parties_agree_on_params_witness :
  new_with_secret_key 5 8 "http://mint//" "sat" 20 25 2000 1000 keyset 0 8 = Ok params.
Proof.
  rewrite <-params_created. symmetry.
  exact (parties_agree_on_params alice charlie "http://mint//" "sat" 20 25 2000 1000 keyset 0).
Defined.
Lemma blinded_keys_match_witness :
  ∃ k K, get_sender_blinded_secret_key_for_stage1 params alice = Ok k ∧
    get_sender_blinded_pubkey_for_stage1 params = Ok K ∧
    verify_schnorr (schnorr_sign [7] k [1; 2]) [1; 2] K = Ok tt.
Proof.
  destruct (blinded_keys_match params alice charlie) as ((Hok & _) & _); [done..|].
  destruct (get_sender_blinded_secret_key_for_stage1 params alice) as [k|e|] eqn:E;
    [|exfalso; revert E; vm_compute; discriminate..].
  destruct (Hok k eq_refl) as (K & HK & Hv). exists k, K.
  exact (conj eq_refl (conj HK (Hv _ _))).
Defined.
Definition proof0 : Proof := mk_Proof 4 "00ab" "s" 3 None None None.
Lemma stage2_tweak_recoverable_witness :
  is_ok (attach_stage2_p2pk_e params proof0 RoleReceiver 4 0) = true ∧
  ∃ proof' e, attach_stage2_p2pk_e params proof0 RoleReceiver 4 0 = Ok proof' ∧
    proof_p2pk_e proof' = Some e.
Proof.
  split; [vm_compute; reflexivity|].
  destruct (attach_stage2_p2pk_e params proof0 RoleReceiver 4 0) as [proof'|e|] eqn:E;
    [|exfalso; revert E; vm_compute; discriminate..].
  destruct (stage2_tweak_recoverable params RoleReceiver charlie proof0 4 0 proof') as (e & info & He & _);
    [reflexivity|exact E|].
  exact (ex_intro _ proof' (ex_intro _ e (conj eq_refl He))).
Defined.
Lemma minimum_funding_exact_witness :
  ∃ fund, get_minimum_funding_token_amount 20 keyset 0 = Ok fund.
Proof.
  destruct (minimum_funding_exact (public_key alice) (public_key charlie) "m" "sat" 2000 1000 [] 20 keyset 0) as (f & Hf & _);
    [apply Amounts.Examples.keyset16_wf|vm_compute; set_solver|done|done|done|]. eauto.
Defined.

Definition keyset_json (keys : list (string * string)) : string :=
  json_print (json_obj [("keysetId", json_str "00ab"); ("unit", json_str "sat");
    ("inputFeePpk", json_num 100);
    ("keys", json_obj ((λ '(a, k), (a, json_str k)) <$> keys))]).
Example parsed_keyset :
  parse_keyset_info_from_json (keyset_json [("1", pubkey_to_hex 11); ("4", pubkey_to_hex 14); ("2", pubkey_to_hex 12)])
  = Ok (KeysetInfo_new "00ab" "sat" [(1, 11); (2, 12); (4, 14)] 100 None).
Proof. vm_compute. reflexivity. Qed.
(** A key for amount 0 is accepted; with [from_target_zero_amount_diverges] the
    parameters' validation then never returns. *)
Example parsed_keyset_with_zero :
  parse_keyset_info_from_json (keyset_json [("0", pubkey_to_hex 7); ("1", pubkey_to_hex 11); ("2", pubkey_to_hex 12)])
  = Ok Amounts.Examples.keyset_with_zero.
Proof. vm_compute. reflexivity. Qed.
Lemma parsed_keyset_wf_witness :
  wf_keyset (KeysetInfo_new (T := Toy.types) "00ab" "sat" [(1, 11); (2, 12); (4, 14)] 100 None).
Proof.
  apply (parsed_keyset_wf _ _ parsed_keyset). vm_compute. set_solver.
Defined.
End Examples.
