(* ===== verification/SwapCompletion.v ===== *)
(** * Completing swaps and restores
    ([crates/cdk-spilman/src/swap_completion.rs] and the functions of [bindings.rs] it
    calls)

    A swap is completed from the mint's blind signatures, or from a NUT-09 restore; both
    check every signature against the exact points that were issued. The theorems say
    that a restore response is accepted exactly when it is a rearrangement of the expected
    outputs with their signatures, and that completion accepts a batch only if every
    signature in it is the right one. *)

From S2P Require Import Prelude Cashu Toy Amounts.

Record PreparedSwapOutput {T : CashuTypes} := mk_PreparedSwapOutput {
  ps_blinded_message : BlindedMessage;
  ps_secret : string;
  ps_blinding_factor : SecretKey;
}.
Arguments mk_PreparedSwapOutput {T}.
Record PreparedOutput {T : CashuTypes} := mk_PreparedOutput {
  po_blinded_message : BlindedMessage;
  po_secret : string;
  po_blinding_factor : SecretKey;
}.
Arguments mk_PreparedOutput {T}.

Definition nat_str (n : nat) : string := pretty (Z.of_nat n).

Section code.
Context {T : CashuTypes} {O : CashuOps}.
Implicit Types ks : KeysetInfo.

(** ** bindings.rs *)

(** [Iterator::position]. *)
Fixpoint position {A} (P : A → bool) (l : list A) : option nat :=
  match l with
  | [] => None
  | x :: l => if P x then Some 0%nat else S <$> position P l
  end.

(** One turn of the loop over the response's pairs; [matched[i].replace] of an occupied
    place is an error. *)
Definition match_one (expected_outputs : list BlindedMessage) (role : string)
    (matched : list (option BlindSignature)) (pair : BlindedMessage * BlindSignature) :
    Result string (list (option BlindSignature)) :=
  let '(output, signature) := pair in
  expected_index ← ok_or (role +:+ " restore returned an unknown output")
    (position (λ expected, bool_decide (expected = output)) expected_outputs);
  match matched !! expected_index with
  | Some (Some _) => Err (role +:+ " restore returned a duplicate output")
  | _ => Ok (<[expected_index := Some signature]> matched)
  end.

Definition match_restore_response (response : RestoreResponse)
    (expected_outputs : list BlindedMessage) (role : string) :
    Result string (list BlindSignature) :=
  if bool_decide (length (rr_outputs response) ≠ length (rr_signatures response)) then
    Err (role +:+ " restore output/signature count mismatch: "
         +:+ nat_str (length (rr_outputs response)) +:+ " outputs, "
         +:+ nat_str (length (rr_signatures response)) +:+ " signatures")
  else if bool_decide (length (rr_outputs response) ≠ length expected_outputs) then
    Err (role +:+ " restore count mismatch: expected " +:+ nat_str (length expected_outputs)
         +:+ ", got " +:+ nat_str (length (rr_outputs response)))
  else
    matched ← try_fold (match_one expected_outputs role)
      (replicate (length expected_outputs) None)
      (zip (rr_outputs response) (rr_signatures response));
    try_map (λ '(index, signature),
        ok_or (role +:+ " restore omitted expected output " +:+ nat_str index) signature)
      (zip (seq 0 (length matched)) matched).

(** [iter().try_fold(0, checked_add)]. *)
Definition checked_total (e : string) (amounts : list Z) : Result string Z :=
  try_fold (λ total amount, ok_or e (checked_add total amount)) 0 amounts.

Definition verify_one_signature ks (index : nat) (signature : BlindSignature)
    (output : PreparedOutput) : Result string unit :=
  let message := po_blinded_message output in
  if negb (bs_amount signature =? bm_amount message) then
    Err ("Signature " +:+ nat_str index +:+ " amount mismatch: expected "
         +:+ pretty (bm_amount message) +:+ ", got " +:+ pretty (bs_amount signature))
  else if bool_decide (bs_keyset_id signature ≠ bm_keyset_id message) then
    Err ("Signature " +:+ nat_str index +:+ " keyset mismatch: expected "
         +:+ id_to_string (bm_keyset_id message) +:+ ", got "
         +:+ id_to_string (bs_keyset_id signature))
  else
    mint_key ← ok_or ("Missing denomination key for signature " +:+ nat_str index)
      (amount_key (active_keys ks) (bm_amount message));
    map_err (λ e, "Invalid DLEQ for signature " +:+ nat_str index +:+ ": " +:+ e)
      (signature_verify_dleq signature mint_key (bm_blinded_secret message)).

Fixpoint verify_signatures ks (index : nat)
    (pairs : list (BlindSignature * PreparedOutput)) : Result string unit :=
  match pairs with
  | [] => Ok tt
  | (signature, output) :: pairs =>
      _ ← verify_one_signature ks index signature output;
      verify_signatures ks (S index) pairs
  end.

Definition complete_exact_signatures (signatures : list BlindSignature)
    (expected : list PreparedOutput) ks (exact_outputs : option (list BlindedMessage)) :
    Result string (list Proof) :=
  if bool_decide (length signatures ≠ length expected) then
    Err ("Signature count mismatch: expected " +:+ nat_str (length expected) +:+ ", got "
         +:+ nat_str (length signatures))
  else
    _ ← match exact_outputs with
        | None => Ok tt
        | Some exact_outputs =>
            ensure (bool_decide (exact_outputs = po_blinded_message <$> expected))
              "Prepared blinded outputs do not match opening secrets"
        end;
    expected_total ← checked_total "Expected output total overflow"
      ((λ o, bm_amount (po_blinded_message o)) <$> expected);
    response_total ← checked_total "Response signature total overflow" (bs_amount <$> signatures);
    if negb (response_total =? expected_total) then
      Err ("Signature total mismatch: expected " +:+ pretty expected_total +:+ ", got "
           +:+ pretty response_total)
    else
      _ ← verify_signatures ks 0 (zip signatures expected);
      map_err (λ e, "Failed to construct proofs: " +:+ e)
        (dhke_construct_proofs signatures (po_blinding_factor <$> expected)
           (po_secret <$> expected) (active_keys ks)).

(** ** swap_completion.rs *)

Definition swap_authorization_digest (request : SwapRequest) : bytes :=
  sig_all_message_hash request.

Definition swap_restore_request (request : SwapRequest) (r : option RerandomizationR) :
    Result string (list BlindedMessage) :=
  if bool_decide (sr_outputs request = []) then Err "empty prepared swap outputs"
  else if negb (bool_decide (NoDup (bm_blinded_secret <$> sr_outputs request))) then
    Err "duplicate prepared swap outputs"
  else
    match sr_rerandomized request, r with
    | false, None => Ok (sr_outputs request)
    | true, Some r =>
        map_err (λ _, "invalid derived swap points") (tweak_swap_outputs r (sr_outputs request))
    | _, _ => Err "swap mode/randomness mismatch"
    end.

(** One prepared output; [secrets] are the ones seen before it. *)
Definition effective_one ks (tweak : option Scalar) (secrets : list string)
    (p : PreparedSwapOutput) (original output : BlindedMessage) : Result string PreparedOutput :=
  if bool_decide (ps_blinded_message p ≠ original)
     || bool_decide (bm_keyset_id original ≠ keyset_id ks)
     || bool_decide (amount_key (active_keys ks) (bm_amount original) = None)
     || bool_decide (ps_secret p ∈ secrets)
  then Err "prepared swap output binding mismatch"
  else
    point ← map_err (λ _, "invalid original swap blinding")
      (blind_message (bytes_of_string (ps_secret p)) (ps_blinding_factor p));
    if bool_decide (point ≠ bm_blinded_secret original) then
      Err "prepared swap secrets do not match original points"
    else
      blinding_factor ←
        match tweak with
        | None => Ok (ps_blinding_factor p)
        | Some tweak =>
            original ← map_err (λ _, "invalid original blinding scalar")
              (secret_from_slice (secret_bytes (ps_blinding_factor p)));
            effective ← map_err (λ _, "invalid effective blinding scalar")
              (secret_add_tweak original tweak);
            map_err (λ _, "invalid effective blinding scalar")
              (secret_from_slice (secret_bytes effective))
        end;
      Ok (mk_PreparedOutput output (ps_secret p) blinding_factor).

Fixpoint effective_loop ks (tweak : option Scalar) (secrets : list string)
    (items : list (PreparedSwapOutput * (BlindedMessage * BlindedMessage))) :
    Result string (list PreparedOutput) :=
  match items with
  | [] => Ok []
  | (p, (original, output)) :: items =>
      o ← effective_one ks tweak secrets p original output;
      os ← effective_loop ks tweak (ps_secret p :: secrets) items;
      Ok (o :: os)
  end.

Definition effective_outputs (request : SwapRequest) (prepared : list PreparedSwapOutput) ks
    (r : option RerandomizationR) : Result string (list PreparedOutput) :=
  derived ← swap_restore_request request r;
  _ ← ensure (bool_decide (length prepared = length (sr_outputs request)))
        "prepared swap output count mismatch";
  tweak ← match r with
          | None => Ok None
          | Some r => t ← map_err (λ _, "invalid mint randomness") (derive_rerandomization_tweak r);
                      Ok (Some t)
          end;
  effective_loop ks tweak [] (zip prepared (zip (sr_outputs request) derived)).

Definition verify_proof ks (proof : Proof) : Result string unit :=
  key ← ok_or "missing proof denomination key" (amount_key (active_keys ks) (proof_amount proof));
  map_err (λ _, "invalid unblinded swap proof DLEQ") (proof_verify_dleq proof key).

Definition complete (signatures : list BlindSignature) (outputs : list PreparedOutput) ks :
    Result string (list Proof) :=
  proofs ← map_err (λ _, "invalid complete swap signature set or DLEQ")
    (complete_exact_signatures signatures outputs ks None);
  _ ← try_map (verify_proof ks) proofs;
  Ok proofs.

Definition complete_swap_response (request : SwapRequest) (prepared : list PreparedSwapOutput)
    (response : SwapResponse) ks : Result string (list Proof) :=
  outputs ← effective_outputs request prepared ks (resp_rerandomization_r response);
  complete (resp_signatures response) outputs ks.

Definition complete_swap_restore (request : SwapRequest) (prepared : list PreparedSwapOutput)
    (r : option RerandomizationR) (response : RestoreResponse) ks :
    Result string (option (list Proof)) :=
  outputs ← effective_outputs request prepared ks r;
  if bool_decide (rr_outputs response = []) && bool_decide (rr_signatures response = []) then Ok None
  else
    signatures ← map_err (λ _, "invalid exact swap restore")
      (match_restore_response response (po_blinded_message <$> outputs) "swap");
    Some <$> complete signatures outputs ks.
End code.

(** ** Restores *)

Section restore.
Context {T : CashuTypes} {O : CashuOps}.
Implicit Types ms : list (option BlindSignature).

Lemma position_Some {A} (P : A → bool) l i :
  position P l = Some i → ∃ x, l !! i = Some x ∧ P x = true.
Proof.
  revert i. induction l as [|x l IH]; intros i; simpl; [done|].
  destruct (P x) eqn:E; [intros [= <-]; by exists x|].
  intros (j & Hj & ->)%fmap_Some. by apply IH.
Qed.
Lemma position_eq `{EqDecision A} (l : list A) i x :
  NoDup l → l !! i = Some x → position (λ y, bool_decide (y = x)) l = Some i.
Proof.
  intros Hnd. revert i. induction Hnd as [|y l Hy Hnd IH]; intros [|i]; simpl; try done.
  - intros [= ->]. by rewrite bool_decide_eq_true_2.
  - intros Hi. rewrite bool_decide_eq_false_2; [by rewrite (IH i)|].
    intros ->. apply Hy. by eapply list_elem_of_lookup_2.
Qed.

(** The pairs a partly filled table stands for. *)
Definition matched_pairs (exp : list BlindedMessage) ms : list (BlindedMessage * BlindSignature) :=
  omap (λ '(o, s), pair o <$> s) (zip exp ms).

Lemma matched_pairs_insert exp ms i o s :
  length ms = length exp → exp !! i = Some o → ms !! i = Some None →
  matched_pairs exp (<[i := Some s]> ms) ≡ₚ (o, s) :: matched_pairs exp ms.
Proof.
  intros Hlen Ho Hm.
  apply list_elem_of_split_length in Hm as (m1 & m2 & -> & ->).
  apply list_elem_of_split_length in Ho as (e1 & e2 & -> & He).
  rewrite insert_app_r_alt, Nat.sub_diag by lia. simpl.
  unfold matched_pairs. rewrite !zip_with_app by lia. rewrite !omap_app. simpl.
  symmetry. apply Permutation_middle.
Qed.

Lemma match_fold_sound exp role l ms ms' :
  length ms = length exp → try_fold (match_one exp role) ms l = Ok ms' →
  length ms' = length exp ∧ matched_pairs exp ms' ≡ₚ l ++ matched_pairs exp ms.
Proof.
  revert ms. induction l as [|[o s] l IH]; intros ms Hlen; simpl; [by intros [= <-]|].
  intros H. apply bind_Ok in H as (ms1 & H1 & H).
  apply bind_Ok in H1 as (i & Hi & H1). apply ok_or_Ok, position_Some in Hi as (o' & Hi & Ho).
  apply bool_decide_eq_true_1 in Ho as ->.
  destruct (lookup_lt_is_Some_2 ms i) as [m Hm]. { rewrite Hlen. by eapply lookup_lt_Some. }
  rewrite Hm in H1. destruct m; simplify_eq. apply IH in H as [Hl Hp]; [|by rewrite length_insert].
  split; [done|]. rewrite Hp, matched_pairs_insert by done. symmetry. apply Permutation_middle.
Qed.

Lemma matched_pairs_full exp (sigs : list BlindSignature) :
  matched_pairs exp (Some <$> sigs) = zip exp sigs.
Proof.
  unfold matched_pairs. revert sigs. induction exp as [|o exp IH]; intros [|s sigs]; simpl; [done..|].
  f_equal. apply IH.
Qed.
Lemma matched_pairs_empty exp n : matched_pairs exp (replicate n None) = [].
Proof. unfold matched_pairs. revert n. induction exp; intros [|n]; simpl; auto. Qed.

Lemma collect_matched role ms sigs :
  try_map (λ '(index, signature),
      ok_or (role +:+ " restore omitted expected output " +:+ nat_str index) signature)
    (zip (seq 0 (length ms)) ms) = Ok sigs ↔ ms = Some <$> sigs.
Proof.
  rewrite try_map_Ok. generalize 0%nat. revert sigs.
  induction ms as [|m ms IH]; intros [|s sigs] n; simpl; split; intros H; try done.
  - by inversion_clear H.
  - by inversion_clear H.
  - inversion_clear H as [|? ? ? ? Hm Hr]. apply ok_or_Ok in Hm as ->. f_equal. by eapply IH.
  - injection H as -> ->. constructor; [done|]. by apply IH.
Qed.

(** With distinct expected outputs, any arrangement of the pairs fills the table. *)
Lemma match_fold_complete exp role (sigs : list BlindSignature) l ms :
  NoDup exp → length sigs = length exp → NoDup l → l ⊆ zip exp sigs →
  length ms = length exp →
  (∀ i s, ms !! i = Some (Some s) → sigs !! i = Some s ∧ ∀ o, exp !! i = Some o → (o, s) ∉ l) →
  ∃ ms', try_fold (match_one exp role) ms l = Ok ms' ∧ length ms' = length exp ∧
    ∀ i s, ms' !! i = Some (Some s) → sigs !! i = Some s.
Proof.
  intros Hexp Hlen. revert ms. induction l as [|[o s] l IH]; intros ms Hnd Hsub Hms Hm; simpl.
  { exists ms. naive_solver. }
  apply NoDup_cons in Hnd as [Hos Hnd].
  assert ((o, s) ∈ zip exp sigs) as (i & Hi)%list_elem_of_lookup_1 by (apply Hsub; left).
  apply lookup_zip_with_Some in Hi as (o' & s' & [= <- <-] & Ho & Hs).
  rewrite (position_eq exp i o) by done. simpl.
  destruct (lookup_lt_is_Some_2 ms i) as [m Hmi]. { rewrite Hms. by eapply lookup_lt_Some. }
  rewrite Hmi. destruct m as [s'|].
  { exfalso. destruct (Hm i s' Hmi) as [Hs' Hn]. simplify_eq. apply (Hn o Ho). left. }
  apply IH; [done|set_solver|by rewrite length_insert|].
  intros j t Hj. destruct (decide (i = j)) as [<-|Hij].
  - rewrite list_lookup_insert_eq in Hj by (by eapply lookup_lt_Some). simplify_eq.
    split; [done|]. intros o' Ho'. simplify_eq. done.
  - rewrite list_lookup_insert_ne in Hj by done. destruct (Hm j t Hj) as [? Hn]. split; [done|].
    intros o' Ho' Hin. eapply Hn; [done|]. by right.
Qed.
Lemma matched_pairs_length exp ms : (length (matched_pairs exp ms) <= length ms)%nat.
Proof.
  revert ms. induction exp as [|o exp IH]; intros [|m ms]; try (simpl; lia).
  specialize (IH ms). destruct m as [s|].
  - change (S (length (matched_pairs exp ms)) <= S (length ms))%nat. lia.
  - change (length (matched_pairs exp ms) <= S (length ms))%nat. lia.
Qed.
Lemma matched_pairs_all exp ms :
  length ms = length exp → length (matched_pairs exp ms) = length ms → ∃ sigs, ms = Some <$> sigs.
Proof.
  revert exp. induction ms as [|m ms IH]; intros [|o exp] Hlen; simpl in *; try done; [by exists []|].
  intros Hall. pose proof (matched_pairs_length exp ms). injection Hlen as Hlen.
  destruct m as [s|].
  - change (S (length (matched_pairs exp ms)) = S (length ms)) in Hall.
    destruct (IH exp Hlen) as [sigs ->]; [lia|]. by exists (s :: sigs).
  - change (length (matched_pairs exp ms) = S (length ms)) in Hall. lia.
Qed.

Lemma match_restore_spec response expected role sigs :
  NoDup expected →
  match_restore_response response expected role = Ok sigs ↔
  length (rr_outputs response) = length (rr_signatures response) ∧
  length sigs = length expected ∧
  zip (rr_outputs response) (rr_signatures response) ≡ₚ zip expected sigs.
Proof.
  intros Hnd. unfold match_restore_response.
  set (l := zip (rr_outputs response) (rr_signatures response)). split.
  - case_bool_decide as Hl1; [done|]. case_bool_decide as Hl2; [done|].
    intros (ms & Hf & Hc)%bind_Ok. apply collect_matched in Hc as ->.
    apply match_fold_sound in Hf as [Hlen Hp]; [|by rewrite length_replicate].
    rewrite matched_pairs_full, matched_pairs_empty, app_nil_r in Hp.
    rewrite length_fmap in Hlen. split_and!; [lia|done|by symmetry].
  - intros (Hl1 & Hl2 & Hp).
    assert (length l = length expected) as Hll.
    { apply Permutation_length in Hp. fold l in Hp. rewrite Hp, length_zip_with. lia. }
    assert (length (rr_outputs response) = length expected).
    { unfold l in Hll. rewrite length_zip_with in Hll. lia. }
    rewrite !bool_decide_eq_false_2 by lia.
    assert (NoDup (zip expected sigs)) as Hndz.
    { apply (NoDup_fmap_1 fst). by rewrite fst_zip by lia. }
    destruct (match_fold_complete expected role sigs l (replicate (length expected) None))
      as (ms & Hf & Hms & Hs); [done..|by rewrite Hp| |by rewrite length_replicate| |].
    { intros x. by rewrite Hp. }
    { intros i s [? _]%lookup_replicate. done. }
    fold l. rewrite Hf. simpl. apply collect_matched.
    apply match_fold_sound in Hf as [_ Hp']; [|by rewrite length_replicate].
    rewrite matched_pairs_empty, app_nil_r in Hp'.
    destruct (matched_pairs_all expected ms) as [sigs' ->]; [done|by rewrite Hp', Hms|].
    f_equal. apply list_eq_same_length with (length expected); [done|by rewrite length_fmap in Hms|].
    intros i x y _ Hx Hy. specialize (Hs i x). rewrite list_lookup_fmap, Hx in Hs.
    specialize (Hs eq_refl). congruence.
Qed.

(** a restore response is accepted exactly when its (output, signature) pairs are a
    rearrangement of the expected outputs with the signatures that are returned, in the
    order of the expected outputs: nothing unknown, duplicated, missing or misplaced gets
    through, and every such rearrangement does. *)
Theorem match_restore_response_iff response expected role sigs :
  NoDup expected →
  match_restore_response response expected role = Ok sigs ↔
  length (rr_outputs response) = length (rr_signatures response) ∧
  length sigs = length expected ∧
  zip (rr_outputs response) (rr_signatures response) ≡ₚ zip expected sigs.
Proof. apply match_restore_spec. Qed.
End restore.

(** ** Completion *)

Section completion.
Context {T : CashuTypes} {O : CashuOps}.
Implicit Types ks : KeysetInfo.

(** The signature the mint owes for the message [m]. *)
Definition right_signature ks (sig : BlindSignature) (m : BlindedMessage) : Prop :=
  bs_amount sig = bm_amount m ∧ bs_keyset_id sig = bm_keyset_id m ∧
  ∃ K, amount_key (active_keys ks) (bm_amount m) = Some K ∧
       signature_verify_dleq sig K (bm_blinded_secret m) = Ok tt.

Lemma verify_one_signature_Ok ks n sig out :
  verify_one_signature ks n sig out = Ok tt ↔ right_signature ks sig (po_blinded_message out).
Proof.
  unfold verify_one_signature, right_signature.
  destruct (Z.eqb_spec (bs_amount sig) (bm_amount (po_blinded_message out))); simpl;
    [|split; [done|naive_solver]].
  case_bool_decide as Hid; [split; [done|naive_solver]|].
  rewrite bind_Ok. setoid_rewrite ok_or_Ok. setoid_rewrite map_err_Ok.
  naive_solver.
Qed.
Lemma verify_signatures_Ok ks n pairs :
  verify_signatures ks n pairs = Ok tt ↔
  Forall (λ '(sig, out), right_signature ks sig (po_blinded_message out)) pairs.
Proof.
  revert n. induction pairs as [|[sig out] pairs IH]; intros n; simpl; [by split|].
  rewrite bind_Ok, Forall_cons, <-(verify_one_signature_Ok ks n). split.
  - intros ([] & ? & ?%IH). done.
  - intros [? ?]. exists tt. split; [done|]. by apply IH.
Qed.

Lemma checked_total_Ok e l t :
  Forall (λ x, 0 <= x) l → checked_total e l = Ok t ↔ t = sumZ l ∧ sumZ l <= u64_max.
Proof.
  intros Hl. unfold checked_total.
  assert (∀ acc, 0 <= acc <= u64_max → try_fold (λ total amount, ok_or e (checked_add total amount)) acc l = Ok t
    ↔ t = acc + sumZ l ∧ acc + sumZ l <= u64_max) as Hgen; [|by rewrite (Hgen 0)].
  induction Hl as [|x l Hx Hl IH]; intros acc Hacc; simpl.
  { split; [intros [= ->]; lia|]. intros [-> _]. f_equal. lia. }
  pose proof (sumZ_nonneg _ Hl). unfold checked_add. destruct (acc + x <=? u64_max) eqn:E; simpl.
  - rewrite IH by lia. rewrite Z.add_assoc. done.
  - split; [done|]. lia.
Qed.

Lemma complete_exact_signatures_Ok sigs expected ks proofs :
  complete_exact_signatures sigs expected ks None = Ok proofs →
  Forall2 (λ sig out, right_signature ks sig (po_blinded_message out)) sigs expected ∧
  dhke_construct_proofs sigs (po_blinding_factor <$> expected) (po_secret <$> expected)
    (active_keys ks) = Ok proofs.
Proof.
  unfold complete_exact_signatures. case_bool_decide as Hl; [done|].
  simpl. intros (et & _ & (rt & _ & H)%bind_Ok)%bind_Ok.
  destruct (rt =? et); [|done]. simpl in H. apply bind_Ok in H as ([] & Hv & H).
  apply map_err_Ok in H. split; [|done]. apply verify_signatures_Ok in Hv. clear H.
  revert expected Hl Hv. induction sigs as [|s sigs IH]; intros [|o os] Hl Hv; try done.
  apply Forall_cons in Hv as [? ?]. constructor; [done|]. apply IH; [simpl in *; lia|done].
Qed.

Lemma complete_exact_signatures_complete sigs expected ks proofs :
  Forall2 (λ sig out, right_signature ks sig (po_blinded_message out)) sigs expected →
  Forall (λ o, 0 <= bm_amount (po_blinded_message o)) expected →
  sumZ ((λ o, bm_amount (po_blinded_message o)) <$> expected) <= u64_max →
  dhke_construct_proofs sigs (po_blinding_factor <$> expected) (po_secret <$> expected)
    (active_keys ks) = Ok proofs →
  complete_exact_signatures sigs expected ks None = Ok proofs.
Proof.
  intros Hs Hpos Hsum Hc. unfold complete_exact_signatures.
  rewrite bool_decide_eq_false_2 by (pose proof (Forall2_length _ _ _ Hs); lia). simpl.
  assert (bs_amount <$> sigs = (λ o, bm_amount (po_blinded_message o)) <$> expected) as ->.
  { clear -Hs. induction Hs as [|s o ss os [? _] _ IH]; [done|]. simpl. by f_equal. }
  assert (∀ e, checked_total e ((λ o, bm_amount (po_blinded_message o)) <$> expected)
    = Ok (sumZ ((λ o, bm_amount (po_blinded_message o)) <$> expected))) as Ht.
  { intros e. apply checked_total_Ok; [by apply Forall_fmap|done]. }
  rewrite !Ht. simpl. rewrite Z.eqb_refl. simpl.
  rewrite (proj2 (verify_signatures_Ok _ _ _)).
  - simpl. by rewrite Hc.
  - clear -Hs. induction Hs; constructor; done.
Qed.

(** What the preparation has to satisfy, output by output. *)
Definition bound_output ks (p : PreparedSwapOutput) (original : BlindedMessage) : Prop :=
  ps_blinded_message p = original ∧ bm_keyset_id original = keyset_id ks ∧
  is_Some (amount_key (active_keys ks) (bm_amount original)) ∧
  blind_message (bytes_of_string (ps_secret p)) (ps_blinding_factor p)
    = Ok (bm_blinded_secret original).

Lemma effective_one_Ok ks tweak secrets p original output o :
  effective_one ks tweak secrets p original output = Ok o →
  bound_output ks p original ∧ ps_secret p ∉ secrets ∧
  po_blinded_message o = output ∧ po_secret o = ps_secret p ∧
  (tweak = None → po_blinding_factor o = ps_blinding_factor p).
Proof.
  unfold effective_one, bound_output. intros H.
  repeat (case_bool_decide; [done|]). simpl in H.
  apply bind_Ok in H as (pt & Hpt%map_err_Ok & H). case_bool_decide as Hp; [done|].
  apply bind_Ok in H as (bf & Hbf & [= <-]). subst pt.
  split_and!; try done.
  - by destruct (amount_key _ _).
  - intros ->. by injection Hbf.
Qed.

Lemma effective_loop_Ok ks tweak secrets prepared originals outputs os :
  length prepared = length originals → length outputs = length originals →
  effective_loop ks tweak secrets (zip prepared (zip originals outputs)) = Ok os →
  Forall2 (bound_output ks) prepared originals ∧
  po_blinded_message <$> os = outputs ∧ po_secret <$> os = ps_secret <$> prepared ∧
  NoDup (ps_secret <$> prepared) ∧ (∀ s, s ∈ ps_secret <$> prepared → s ∉ secrets).
Proof.
  revert secrets originals outputs os.
  induction prepared as [|p ps IH]; intros secrets [|m ms] [|o os'] os Hl1 Hl2; try done; simpl.
  { intros [= <-]. split_and!; [constructor|done..|constructor|]. intros s Hs. by inversion Hs. }
  intros (e & He & (es & Hes & [= <-])%bind_Ok)%bind_Ok.
  apply effective_one_Ok in He as (? & ? & ? & ? & _).
  apply IH in Hes as (? & ? & ? & Hnd & Hfresh); [|simpl in *; lia..]. simpl. split_and!.
  - by constructor.
  - by f_equal.
  - by f_equal.
  - constructor; [|done]. intros Hin. apply (Hfresh _ Hin). left.
  - intros s [->|Hs]%elem_of_cons; [done|]. intros Hin. apply (Hfresh _ Hs). by right.
Qed.
End completion.

Section theorems.
Context {T : CashuTypes} {O : CashuOps}.
Implicit Types ks : KeysetInfo.

Lemma swap_restore_request_Ok request r outs :
  swap_restore_request request r = Ok outs →
  sr_outputs request ≠ [] ∧ NoDup (bm_blinded_secret <$> sr_outputs request) ∧
  match r with
  | None => sr_rerandomized request = false ∧ outs = sr_outputs request
  | Some r => sr_rerandomized request = true ∧ tweak_swap_outputs r (sr_outputs request) = Ok outs
  end.
Proof.
  unfold swap_restore_request. case_bool_decide; [done|]. case_bool_decide; [|done]. simpl.
  destruct (sr_rerandomized request), r; try done.
  - intros Ht%map_err_Ok. done.
  - by intros [= <-].
Qed.

(** What a completed swap has checked and returns. *)
Lemma complete_swap_response_Ok {HC : ConstructLaws} {HR : RerandomizeLaws} request prepared response ks proofs :
  complete_swap_response request prepared response ks = Ok proofs →
  ∃ issued,
    swap_restore_request request (resp_rerandomization_r response) = Ok issued ∧
    (sr_rerandomized request = true ↔ is_Some (resp_rerandomization_r response)) ∧
    NoDup (bm_blinded_secret <$> sr_outputs request) ∧ NoDup (ps_secret <$> prepared) ∧
    Forall2 (bound_output ks) prepared (sr_outputs request) ∧
    Forall2 (right_signature ks) (resp_signatures response) issued ∧
    Forall (λ p, verify_proof ks p = Ok tt) proofs ∧
    proof_amount <$> proofs = bm_amount <$> sr_outputs request ∧
    proof_secret <$> proofs = ps_secret <$> prepared ∧
    Forall (λ p, proof_keyset_id p = keyset_id ks) proofs.
Proof.
  unfold complete_swap_response, effective_outputs, complete.
  intros (outs & (issued & Hreq & ([] & Hl & (tw & Htw & Hloop)%bind_Ok)%bind_Ok)%bind_Ok & H)%bind_Ok.
  apply bind_Ok in H as (ps & Hc%map_err_Ok & (us & Hv & [= ->])%bind_Ok).
  apply ensure_Ok, bool_decide_eq_true_1 in Hl. exists issued. split; [done|].
  pose proof (swap_restore_request_Ok _ _ _ Hreq) as (_ & Hnd & Hr).
  assert (bm_amount <$> issued = bm_amount <$> sr_outputs request) as Ham.
  { destruct (resp_rerandomization_r response); [|by destruct Hr as [_ ->]].
    by apply (tweak_swap_outputs_keeps _ _ _ (proj2 Hr)). }
  assert (length issued = length (sr_outputs request)).
  { apply (f_equal length) in Ham. by rewrite !length_fmap in Ham. }
  apply effective_loop_Ok in Hloop as (Hb & Hm & Hse & Hsec & _); [|done..].
  apply complete_exact_signatures_Ok in Hc as [Hs Hcon].
  destruct (construct_proofs_shape _ _ _ _ _ Hcon) as [Hshape Hsecrets]. split_and!; try done.
  - destruct (resp_rerandomization_r response), Hr as [-> _]; split; (done || by intros []).
  - subst issued. by apply Forall2_fmap_r.
  - apply try_map_Ok in Hv. clear -Hv. induction Hv as [|? [] ? ? ?]; constructor; auto.
  - rewrite <-Ham, <-Hm. clear -Hs Hshape. revert proofs Hshape.
    induction Hs as [|s o ss os [Ha _] _ IH]; intros proofs Hp; inversion_clear Hp as [|? p ? ps [Hp1 _] ?]; [done|].
    rewrite !fmap_cons. f_equal; [congruence|by apply IH].
  - congruence.
  - assert (Forall (λ m, bm_keyset_id m = keyset_id ks) issued) as Hids.
    { assert (bm_keyset_id <$> issued = bm_keyset_id <$> sr_outputs request) as Hid.
      { destruct (resp_rerandomization_r response); [|by destruct Hr as [_ ->]].
        by apply (tweak_swap_outputs_keeps _ _ _ (proj2 Hr)). }
      apply Forall_fmap with (f:=bm_keyset_id) (P:=λ i, i = keyset_id ks). rewrite Hid. apply Forall_fmap. clear -Hb.
      induction Hb as [|p m ps ms (_ & Hm & _) _ IH]; by constructor. }
    rewrite <-Hm, Forall_fmap in Hids. clear -Hs Hshape Hids. revert proofs Hshape.
    induction Hs as [|s o ss os (_ & Hi & _) _ IH]; intros proofs Hp; inversion_clear Hp as [|? p ? ps [_ Hp1] ?]; [done|].
    apply Forall_cons in Hids as [Ho ?]. constructor; [cbn in *; congruence|by apply IH].
Qed.

(** C33: a swap is completed only if the whole batch is right: the mode of the request
    agrees with the presence of mint randomness, the points and the secrets are distinct,
    every prepared secret opens its original point under the output keyset, every
    signature is the one owed for the point that was issued (the original one, or the
    tweaked one) with the DLEQ of its denomination's key, and every resulting proof
    verifies; there is one proof per output, in request order, of the output's amount and
    keyset and with its secret. *)
Theorem complete_swap_response_sound {HC : ConstructLaws} {HR : RerandomizeLaws} request prepared response ks proofs :
  complete_swap_response request prepared response ks = Ok proofs →
  ∃ issued,
    swap_restore_request request (resp_rerandomization_r response) = Ok issued ∧
    (sr_rerandomized request = true ↔ is_Some (resp_rerandomization_r response)) ∧
    NoDup (bm_blinded_secret <$> sr_outputs request) ∧ NoDup (ps_secret <$> prepared) ∧
    Forall2 (bound_output ks) prepared (sr_outputs request) ∧
    Forall2 (right_signature ks) (resp_signatures response) issued ∧
    Forall (λ p, verify_proof ks p = Ok tt) proofs ∧
    proof_amount <$> proofs = bm_amount <$> sr_outputs request ∧
    proof_secret <$> proofs = ps_secret <$> prepared ∧
    Forall (λ p, proof_keyset_id p = keyset_id ks) proofs.
Proof. apply complete_swap_response_Ok. Qed.

(** The randomness of a mint and the shift it derives from it, if any. *)
Definition mint_tweak (r : option RerandomizationR) (tweak : option Scalar) : Prop :=
  match r, tweak with
  | None, None => True
  | Some r, Some t => derive_rerandomization_tweak r = Ok t
  | _, _ => False
  end.
(** The message the mint signs for a message of the request. *)
Definition issued_for (tweak : option Scalar) (m m' : BlindedMessage) : Prop :=
  match tweak with None => m' = m | Some t => tweak_message t m = Ok m' end.
(** The blinding factor can be shifted (the sum is not zero). *)
Definition shiftable (tweak : option Scalar) (b : SecretKey) : Prop :=
  match tweak with
  | None => True
  | Some t => secret_from_slice (secret_bytes b) = Ok b ∧ is_ok (secret_add_tweak b t) = true
  end.

Lemma restore_request_issued {HB : DerivedBlindingLaws} request r tweak issued :
  mint_tweak r tweak → swap_restore_request request r = Ok issued →
  Forall2 (issued_for tweak) (sr_outputs request) issued.
Proof.
  intros Ht (_ & _ & Hr)%swap_restore_request_Ok. destruct r as [r|], tweak as [t|]; try done.
  - destruct Hr as [_ Hr]. by apply (tweak_swap_outputs_points r t _ _ Ht), try_map_Ok in Hr.
  - destruct Hr as [_ ->]. by apply Forall_Forall2_diag, Forall_forall.
Qed.
Lemma issued_for_keeps tweak m m' :
  issued_for tweak m m' → bm_amount m' = bm_amount m ∧ bm_keyset_id m' = bm_keyset_id m.
Proof.
  destruct tweak as [t|]; cbn; [|by intros ->]. unfold tweak_message. by intros (B & _ & [= <-])%bind_Ok.
Qed.

Lemma effective_one_complete {HB : DerivedBlindingLaws} ks tweak secrets p m m' :
  bound_output ks p m → issued_for tweak m m' → shiftable tweak (ps_blinding_factor p) → ps_secret p ∉ secrets →
  ∃ b, effective_one ks tweak secrets p m m' = Ok (mk_PreparedOutput m' (ps_secret p) b) ∧
    blind_message (bytes_of_string (ps_secret p)) b = Ok (bm_blinded_secret m').
Proof.
  intros (<- & Hid & [K HK] & Hbl) Hm Hsh Hfresh. unfold effective_one.
  rewrite Hid, HK, !bool_decide_eq_false_2 by (try done; intros Hn; by apply Hn). cbn [orb].
  rewrite Hbl. cbn [map_err mbind Result_bind]. rewrite bool_decide_eq_false_2 by (intros Hn; by apply Hn).
  destruct tweak as [t|]; cbn in *; [|subst; eauto].
  destruct Hsh as [-> (b & Hb)%is_ok_Ok]. cbn [map_err mbind Result_bind]. rewrite Hb. cbn [map_err mbind Result_bind].
  rewrite (secret_add_tweak_bytes _ _ _ Hb). cbn [map_err mbind Result_bind]. exists b. split; [done|].
  unfold tweak_message in Hm. apply bind_Ok in Hm as (B & HB' & [= <-]). by eapply blind_message_add.
Qed.
Lemma effective_loop_complete {HB : DerivedBlindingLaws} ks tweak secrets prepared originals issued :
  Forall2 (bound_output ks) prepared originals → Forall2 (issued_for tweak) originals issued →
  Forall (λ p, shiftable tweak (ps_blinding_factor p)) prepared → NoDup (ps_secret <$> prepared) →
  (∀ s, s ∈ ps_secret <$> prepared → s ∉ secrets) →
  ∃ outs, effective_loop ks tweak secrets (zip prepared (zip originals issued)) = Ok outs ∧
    po_blinded_message <$> outs = issued ∧ po_secret <$> outs = ps_secret <$> prepared ∧
    Forall (λ o, blind_message (bytes_of_string (po_secret o)) (po_blinding_factor o)
                 = Ok (bm_blinded_secret (po_blinded_message o))) outs.
Proof.
  intros Hb. revert secrets issued. induction Hb as [|p m ps ms Hp Hb IH]; intros secrets issued Hi Hsh Hnd Hfresh.
  { inversion_clear Hi. exists []. done. }
  inversion_clear Hi as [|? m' ? ms' Hm Hi']. apply Forall_cons in Hsh as [Hsp Hsh].
  rewrite fmap_cons in Hnd, Hfresh. apply NoDup_cons in Hnd as [Hps Hnd].
  destruct (effective_one_complete ks tweak secrets p m m') as (b & Hone & Hbl); [done..|apply Hfresh; left|].
  destruct (IH (ps_secret p :: secrets) ms') as (outs & Hloop & Ho & Hs & Hf); [done..| |].
  { intros s Hs [->|Hin]%elem_of_cons; [done|]. apply (Hfresh s); [by right|done]. }
  cbn [zip_with effective_loop]. rewrite Hone. cbn [mbind Result_bind]. rewrite Hloop. cbn [mbind Result_bind].
  eexists. split; [done|]. rewrite !fmap_cons. cbn [po_blinded_message po_secret]. rewrite Ho, Hs. split_and!; [done..|].
  by constructor.
Qed.

(** The proofs of a completed batch. *)
Definition completed_batch ks (prepared : list PreparedSwapOutput) (proofs : list Proof) : Prop :=
  Forall2 (λ p proof,
    proof_amount proof = bm_amount (ps_blinded_message p) ∧
    proof_keyset_id proof = keyset_id ks ∧ proof_secret proof = ps_secret p ∧
    verify_proof ks proof = Ok tt) prepared proofs.

(** The mint's signatures for outputs opened by their blinding factors complete them. *)
Lemma complete_honest {HD : DhkeLaws} ks (mint_key : Z → SecretKey) outs :
  Forall (λ o, blind_message (bytes_of_string (po_secret o)) (po_blinding_factor o)
               = Ok (bm_blinded_secret (po_blinded_message o))) outs →
  Forall (λ o, bm_keyset_id (po_blinded_message o) = keyset_id ks ∧ 0 <= bm_amount (po_blinded_message o) ∧
    is_Some (amount_key (active_keys ks) (bm_amount (po_blinded_message o)))) outs →
  (∀ a K, amount_key (active_keys ks) a = Some K → K = public_key (mint_key a)) →
  sumZ ((λ o, bm_amount (po_blinded_message o)) <$> outs) <= u64_max →
  ∃ proofs, complete ((λ o, mint_sign (mint_key (bm_amount (po_blinded_message o))) (po_blinded_message o)) <$> outs) outs ks
      = Ok proofs ∧
    Forall2 (λ o proof, proof_amount proof = bm_amount (po_blinded_message o) ∧ proof_keyset_id proof = keyset_id ks ∧
      proof_secret proof = po_secret o ∧ verify_proof ks proof = Ok tt) outs proofs.
Proof.
  intros Hbl Hout Hkeys Hsum. rewrite Forall_forall in Hbl, Hout.
  set (mk (o : PreparedOutput) :=
    (mint_key (bm_amount (po_blinded_message o)), po_blinded_message o, po_blinding_factor o, po_secret o)).
  destruct (construct_proofs_honest (active_keys ks) (mk <$> outs)) as (proofs & Hproofs & Hf).
  { intros k m r s (o & [= -> -> -> ->] & Ho)%list_elem_of_fmap. split; [|by apply Hbl].
    destruct (Hout o Ho) as (_ & _ & [K HK]). by rewrite HK, (Hkeys _ _ HK). }
  rewrite <-!list_fmap_compose in Hproofs. exists proofs. unfold complete.
  rewrite (complete_exact_signatures_complete _ _ _ proofs); cycle 1.
  - apply Forall2_fmap_l, Forall_Forall2_diag, Forall_forall. intros o Ho.
    destruct (Hout o Ho) as (_ & _ & [K HK]). unfold right_signature. cbn.
    rewrite mint_sign_amount, mint_sign_keyset. split_and!; [done..|]. exists K. split; [done|].
    rewrite (Hkeys _ _ HK). apply mint_sign_dleq.
  - apply Forall_forall. intros o Ho. by destruct (Hout o Ho) as (_ & ? & _).
  - done.
  - exact Hproofs.
  - cbn [map_err mbind Result_bind].
    assert (Forall2 (λ o proof, proof_amount proof = bm_amount (po_blinded_message o) ∧ proof_keyset_id proof = keyset_id ks ∧
      proof_secret proof = po_secret o ∧ verify_proof ks proof = Ok tt) outs proofs) as Hfin.
    { apply Forall2_fmap_l in Hf. apply Forall2_same_length_lookup_2; [by eapply Forall2_length|].
      intros i o proof Ho Hpr.
      pose proof (Forall2_lookup_lr _ _ _ _ _ _ Hf Ho Hpr) as (Ha & Hid & Hs & _ & Hd). simpl in Hd.
      destruct (Hout o) as (Hid' & _ & [K HK]); [by eapply list_elem_of_lookup_2|].
      split_and!; [done|congruence|done|]. unfold verify_proof. rewrite Ha, HK. simpl.
      by rewrite (Hkeys _ _ HK), Hd. }
    rewrite (try_map_ext_ok _ (λ _, tt)); [done|].
    intros proof [i Hi]%list_elem_of_lookup_1.
    by destruct (Forall2_lookup_r _ _ _ _ _ Hfin Hi) as (o & _ & _ & _ & _ & ?).
Qed.

(** A swap with an honest mint completes, ordinary or rerandomized: for any preparation whose
    secrets open the request's distinct points, the signatures the mint gives for the points it
    issues are accepted and yield one verified proof per output, in request order, with the
    output's amount, keyset and secret. *)
Lemma complete_swap_response_honest {HD : DhkeLaws} {HB : DerivedBlindingLaws} request prepared
    (mint_key : Z → SecretKey) ks r tweak issued :
  mint_tweak r tweak → swap_restore_request request r = Ok issued →
  NoDup (ps_secret <$> prepared) → Forall2 (bound_output ks) prepared (sr_outputs request) →
  Forall (λ p, shiftable tweak (ps_blinding_factor p)) prepared →
  (∀ a K, amount_key (active_keys ks) a = Some K → K = public_key (mint_key a)) →
  Forall (λ m, 0 <= bm_amount m) (sr_outputs request) →
  sumZ (bm_amount <$> sr_outputs request) <= u64_max →
  ∃ proofs,
    complete_swap_response request prepared
      (mk_SwapResponse ((λ m, mint_sign (mint_key (bm_amount m)) m) <$> issued) r) ks = Ok proofs ∧
    completed_batch ks prepared proofs.
Proof.
  intros Ht Hreq Hsec Hb Hsh Hkeys Hpos Hsum. pose proof (restore_request_issued _ _ _ _ Ht Hreq) as Hi.
  destruct (effective_loop_complete ks tweak [] prepared (sr_outputs request) issued)
    as (outs & Hloop & Ho & Hs & Hbl); [done..|by intros s _ ?%elem_of_nil|].
  assert (bm_amount <$> issued = bm_amount <$> sr_outputs request) as Ham.
  { clear -Hi. induction Hi as [|m m' ms ms' [Hm _]%issued_for_keeps _ IH]; [done|]. rewrite !fmap_cons. by f_equal. }
  assert (Forall (λ m, bm_keyset_id m = keyset_id ks ∧ 0 <= bm_amount m ∧
    is_Some (amount_key (active_keys ks) (bm_amount m))) issued) as Hout.
  { clear -Hi Hb Hpos. revert prepared Hb Hpos. induction Hi as [|m m' ms ms' Hm _ IH]; intros prepared Hb Hpos; [constructor|].
    inversion_clear Hb as [|p ? ps ? (_ & Hid & HK & _) Hb']. apply Forall_cons in Hpos as [? ?].
    apply issued_for_keeps in Hm as [Hma Hmi]. constructor; [by rewrite Hma, Hmi|]. by eapply IH. }
  rewrite <-Ham, <-Ho in Hsum. rewrite <-Ho in Hout. rewrite Forall_fmap in Hout. rewrite <-list_fmap_compose in Hsum.
  destruct (complete_honest ks mint_key outs Hbl Hout Hkeys Hsum) as (proofs & Hc & Hf).
  exists proofs. split.
  - unfold complete_swap_response, effective_outputs. cbn [resp_rerandomization_r resp_signatures].
    rewrite Hreq. cbn [mbind Result_bind]. rewrite bool_decide_eq_true_2 by (by eapply Forall2_length). cbn [ensure mbind Result_bind].
    assert (match r with
            | None => Ok None
            | Some r => t ← map_err (λ _, "invalid mint randomness") (derive_rerandomization_tweak r); Ok (Some t)
            end = Ok tweak) as -> by (destruct r, tweak; cbn in Ht; try done; by rewrite Ht).
    cbn [mbind Result_bind]. rewrite Hloop. cbn [mbind Result_bind]. rewrite <-Ho, <-list_fmap_compose. exact Hc.
  - assert (∀ i o p, outs !! i = Some o → prepared !! i = Some p →
      po_secret o = ps_secret p ∧ bm_amount (po_blinded_message o) = bm_amount (ps_blinded_message p)) as Hop.
    { intros i o p Hio Hip. split.
      - apply (f_equal (lookup i)) in Hs. rewrite !list_lookup_fmap, Hio, Hip in Hs. by injection Hs.
      - destruct (Forall2_lookup_l _ _ _ _ _ Hb Hip) as (m & Hm & <- & _).
        apply (f_equal (lookup i)) in Ham. rewrite <-Ho, !list_lookup_fmap, Hio, Hm in Ham. by injection Ham. }
    apply Forall2_same_length_lookup_2.
    { apply (f_equal length) in Hs. rewrite !length_fmap in Hs. rewrite <-Hs. by eapply Forall2_length. }
    intros i p proof Hip Hpr. destruct (Forall2_lookup_r _ _ _ _ _ Hf Hpr) as (o & Hio & Ha & Hid & Hse & Hv).
    destruct (Hop i o p Hio Hip) as [Hps Hpa]. by rewrite <-Hps, <-Hpa.
Qed.
End theorems.

(** ** Concrete inputs *)

Module Examples.
#[local] Existing Instance Toy.types.
#[local] Existing Instance Toy.ops.
#[local] Existing Instance Toy.dhke_laws.

Definition keyset : KeysetInfo := Amounts.Examples.keyset16.
(** The secret key behind the keyset's public key of an amount. *)
Definition mint_key (a : Z) : SecretKey := a + 10.
Definition prep (amount : Z) (secret : string) (r : Z) : PreparedSwapOutput :=
  mk_PreparedSwapOutput
    (BlindedMessage_new amount "00ab" ((Toy.point (bytes_of_string secret) + r) mod Toy.order)) secret r.
Definition prepared : list PreparedSwapOutput := [prep 1 "a" 3; prep 2 "b" 4; prep 2 "c" 5].
Definition request : SwapRequest := SwapRequest_new [] (ps_blinded_message <$> prepared).
Definition sigs : list BlindSignature :=
  (λ m, mint_sign (mint_key (bm_amount m)) m) <$> sr_outputs request.

(** The restore lists the pairs in another order. *)
Lemma match_restore_response_iff_witness :
  match_restore_response (mk_RestoreResponse (reverse (sr_outputs request)) (reverse sigs))
    (sr_outputs request) "swap" = Ok sigs.
Proof.
  apply (match_restore_response_iff _ _ "swap" sigs).
  - apply (bool_decide_eq_true_1 _). vm_compute. reflexivity.
  - split_and!; [vm_compute; reflexivity..|].
    apply (bool_decide_eq_true_1 _). vm_compute. reflexivity.
Defined.

Example completed : is_ok (complete_swap_response request prepared (mk_SwapResponse sigs None) keyset) = true.
Proof. vm_compute. reflexivity. Qed.

Lemma complete_swap_response_sound_witness :
  ∃ proofs, complete_swap_response request prepared (mk_SwapResponse sigs None) keyset = Ok proofs ∧
    Forall (λ p, verify_proof keyset p = Ok tt) proofs.
Proof.
  destruct (complete_swap_response request prepared (mk_SwapResponse sigs None) keyset) as [ps|e|] eqn:E;
    [|exfalso; revert E; vm_compute; discriminate..].
  destruct (@complete_swap_response_sound Toy.types Toy.ops Toy.construct_laws Toy.rerandomize_laws
    request prepared (mk_SwapResponse sigs None) keyset ps)
    as (issued & _ & _ & _ & _ & _ & _ & Hv & _).
  - exact E.
  - exists ps. exact (conj eq_refl Hv).
Defined.
End Examples.
