(* ===== verification/Deterministic.v ===== *)
(** * Deterministic outputs and commitments ([crates/cdk-spilman/src/deterministic.rs])

    A commitment splits the value of the funding token between the receiver and the
    sender: [for_balance] computes the two parts, [create_swap_request] the swap the
    parties sign, [CommitmentOutputs_complete_swap_response] opens the mint's answer. The
    theorems say that a commitment exists for every balance within the capacity and pays
    the receiver what it should, and that the outputs of the swap and the secrets that
    open them are in the same order, so that an honest mint's answer always completes. *)

From S2P Require Import Prelude Cashu Toy Amounts Params SwapCompletion.

Record DeterministicOutputsForOneContext {T : CashuTypes} := mk_OutputsForOneContext {
  oc_context : string;
  oc_amount : Z;
  oc_ordered_amounts : OrderedListOfAmounts;
  oc_params : ChannelParameters;
}.
Arguments mk_OutputsForOneContext {T}.
Record CommitmentOutputs {T : CashuTypes} := mk_CommitmentOutputs {
  receiver_outputs : DeterministicOutputsForOneContext;
  sender_outputs : DeterministicOutputsForOneContext;
}.
Arguments mk_CommitmentOutputs {T}.
Record ProofWithMetadata {T : CashuTypes} := mk_ProofWithMetadata {
  pm_proof : Proof;
  pm_amount : Z;
  pm_index : Z;
  pm_is_receiver : bool;
}.
Arguments mk_ProofWithMetadata {T}.

Section code.
Context {T : CashuTypes} {O : CashuOps}.
Implicit Types c : CommitmentOutputs.
Implicit Types d : DeterministicOutputsForOneContext.

Definition to_blinded_message (s : DeterministicSecretWithBlinding) (amount : Z) (keyset_id : Id) :
    Result string BlindedMessage :=
  blinded_point ← blind_message (bytes_of_string (ds_secret s)) (ds_blinding_factor s);
  Ok (BlindedMessage_new amount keyset_id blinded_point).

(** [DeterministicOutputsForOneContext::new]. *)
Definition OutputsForOneContext_new (context : string) (amount : Z) (params : ChannelParameters) :
    Result string DeterministicOutputsForOneContext :=
  ordered_amounts ← from_target amount (maximum_amount_for_one_output params) (keyset_info params);
  Ok (mk_OutputsForOneContext context amount ordered_amounts params).

Definition OutputsForOneContext_value_after_fees d : Z := value_after_fees (oc_ordered_amounts d).

(** The (amount, index) pairs in the order of the two nested loops. *)
Definition amount_indices (count_by_amount : list (Z * Z)) : list (Z * Z) :=
  count_by_amount ≫= λ '(amount, count), pair amount <$> seqZ 0 count.

Definition get_secrets_with_blinding d : Result string (list DeterministicSecretWithBlinding) :=
  if oc_amount d =? 0 then Ok []
  else
    try_map (λ '(amount, index),
        create_deterministic_output_with_blinding (oc_params d) (oc_context d) amount index)
      (amount_indices (iter_smallest_first (oc_ordered_amounts d))).

Definition get_blinded_messages d (override_keyset_id : option Id) :
    Result string (list BlindedMessage) :=
  secrets ← get_secrets_with_blinding d;
  let amounts := expand_counts (iter_smallest_first (oc_ordered_amounts d)) in
  let kid := default (keyset_id (keyset_info (oc_params d))) override_keyset_id in
  try_map (λ '(secret, amount), to_blinded_message secret amount kid) (zip secrets amounts).

Definition for_balance (receiver_balance : Z) (params : ChannelParameters) :
    Result string CommitmentOutputs :=
  if capacity params <? receiver_balance then
    Err ("Receiver balance " +:+ pretty receiver_balance +:+ " exceeds channel capacity "
         +:+ pretty (capacity params))
  else
    let max_amount := maximum_amount_for_one_output params in
    amount_after_stage1 ← get_value_after_stage1 params;
    inverse_result ←
      inverse_deterministic_value_after_fees (keyset_info params) receiver_balance max_amount;
    let charlie_nominal := nominal_value inverse_result in
    if amount_after_stage1 <? charlie_nominal then
      Err ("Receiver balance " +:+ pretty receiver_balance +:+ " requires nominal value "
           +:+ pretty charlie_nominal +:+ " which exceeds available amount "
           +:+ pretty amount_after_stage1 +:+ " after stage 1 fees")
    else
      let alice_nominal := amount_after_stage1 - charlie_nominal in
      charlie_outputs ← OutputsForOneContext_new "receiver" charlie_nominal params;
      alice_outputs ← OutputsForOneContext_new "sender" alice_nominal params;
      Ok (mk_CommitmentOutputs charlie_outputs alice_outputs).

Definition create_swap_request c (funding_proofs : list Proof) (override_keyset_id : option Id) :
    Result string SwapRequest :=
  outputs ← get_blinded_messages (receiver_outputs c) override_keyset_id;
  sender_msgs ← get_blinded_messages (sender_outputs c) override_keyset_id;
  let outputs := sort_by_key bm_amount (outputs ++ sender_msgs) in
  let request := SwapRequest_new funding_proofs outputs in
  Ok (match commitment_mode (oc_params (receiver_outputs c)) with
      | Ordinary => request
      | Rerandomized => with_rerandomization request
      end).

(** Pairs one unblinded proof with its output's metadata. *)
Definition attach_metadata (params : ChannelParameters)
    (item : Proof * (DeterministicSecretWithBlinding * bool)) : Result string ProofWithMetadata :=
  let '(proof, (output, is_receiver)) := item in
  let role := if is_receiver then RoleReceiver else RoleSender in
  proof ← attach_stage2_p2pk_e params proof role (ds_amount output) (ds_index output);
  Ok (mk_ProofWithMetadata proof (ds_amount output) (ds_index output) is_receiver).

(** The secrets of both parties, paired with their ownership flag, in swap order. *)
Definition all_outputs (receiver sender : list DeterministicSecretWithBlinding) :
    list (DeterministicSecretWithBlinding * bool) :=
  sort_by_key (λ '(output, _), ds_amount output)
    (((λ o, (o, true)) <$> receiver) ++ ((λ o, (o, false)) <$> sender)).

(** [CommitmentOutputs::complete_swap_response]. *)
Definition CommitmentOutputs_complete_swap_response c (response : SwapResponse)
    (output_keyset : KeysetInfo) : Result string (list ProofWithMetadata) :=
  let params := oc_params (receiver_outputs c) in
  if bool_decide (ki_unit output_keyset ≠ cp_unit params) then
    Err "commitment output keyset unit mismatch"
  else
    let blind_signatures := resp_signatures response in
    let expected_count := (length (ola_amounts (oc_ordered_amounts (receiver_outputs c)))
                           + length (ola_amounts (oc_ordered_amounts (sender_outputs c))))%nat in
    if bool_decide (length blind_signatures ≠ expected_count) then
      Err ("Expected " +:+ nat_str expected_count +:+ " blind signatures but received "
           +:+ nat_str (length blind_signatures))
    else
      receiver ← get_secrets_with_blinding (receiver_outputs c);
      sender ← get_secrets_with_blinding (sender_outputs c);
      let all := all_outputs receiver sender in
      if bool_decide (length all ≠ length blind_signatures) then
        Err ("Internal mismatch: derived " +:+ nat_str (length all) +:+ " outputs for "
             +:+ nat_str (length blind_signatures) +:+ " blind signatures")
      else
        request ← create_swap_request c [] (Some (keyset_id output_keyset));
        let prepared := (λ '((output, _), message),
            mk_PreparedSwapOutput message (ds_secret output) (ds_blinding_factor output))
          <$> zip all (sr_outputs request) in
        all_proofs ← complete_swap_response request prepared response output_keyset;
        if bool_decide (length all_proofs ≠ length all) then
          Err ("Internal mismatch: unblinded " +:+ nat_str (length all_proofs) +:+ " proofs for "
               +:+ nat_str (length all) +:+ " outputs")
        else
          try_map (attach_metadata params) (zip all_proofs all).

Definition unblind_all c (blind_signatures : list BlindSignature) (keys : Keys) :
    Result string (list ProofWithMetadata) :=
  let ks := keyset_info (oc_params (receiver_outputs c)) in
  let id := match blind_signatures with
            | signature :: _ => bs_keyset_id signature | [] => keyset_id ks end in
  CommitmentOutputs_complete_swap_response c (mk_SwapResponse blind_signatures None)
    (mk_KeysetInfo id (ki_unit ks) keys (amounts_largest_first ks) (input_fee_ppk ks)
       (final_expiry ks)).

(** The restore round trip, with the mint's [post_restore]. *)
Definition restore_swap_response (post_restore : list BlindedMessage → Result string RestoreResponse)
    c (randomness : option RerandomizationR) : Result string SwapResponse :=
  request ← create_swap_request c [] None;
  restore ← swap_restore_request request randomness;
  response ← post_restore restore;
  signatures ← match_restore_response response restore "commitment";
  Ok (mk_SwapResponse signatures randomness).
Definition restore_all_blind_signatures
    (post_restore : list BlindedMessage → Result string RestoreResponse) c :
    Result string (list BlindSignature) :=
  resp_signatures <$> restore_swap_response post_restore c None.
End code.

(** ** Order of outputs *)

Section order.
Context {T : CashuTypes} {O : CashuOps}.
Implicit Types c : CommitmentOutputs.
Implicit Types d : DeterministicOutputsForOneContext.

Lemma create_output_amount_index p ctx a i o :
  create_deterministic_output_with_blinding p ctx a i = Ok o → ds_amount o = a ∧ ds_index o = i.
Proof.
  unfold create_deterministic_output_with_blinding.
  intros (ns & _ & (bs & _ & (bf & _ & H)%bind_Ok)%bind_Ok)%bind_Ok. case_bool_decide.
  - unfold new_funding in H.
    apply bind_Ok in H as (? & _ & (? & _ & (? & _ & [= <-])%bind_Ok)%bind_Ok). done.
  - apply bind_Ok in H as (pk & _ & [= <-]). done.
Qed.

(** The stage-2 tweak of an output that could be created can be derived. *)
Lemma create_output_tweak p (is_receiver : bool) a i o :
  create_deterministic_output_with_blinding p (if is_receiver then "receiver" else "sender") a i = Ok o →
  ∃ info, stage2_tweak_info_for_role p (if is_receiver then RoleReceiver else RoleSender) a i = Ok info.
Proof.
  unfold create_deterministic_output_with_blinding.
  intros (ns & _ & (bs & _ & (bf & _ & H)%bind_Ok)%bind_Ok)%bind_Ok.
  destruct is_receiver; simpl in H; apply bind_Ok in H as (pk & Hpk & _);
    unfold get_stage2_blinded_pubkey_for_stage1_output in Hpk; simpl in Hpk;
    apply bind_Ok in Hpk as (info & Hinfo & _); eauto.
Qed.

Lemma amount_indices_fst m : (amount_indices m).*1 = expand_counts m.
Proof.
  unfold amount_indices, expand_counts. induction m as [|[a n] m IH]; [done|].
  rewrite !bind_cons, fmap_app, IH. f_equal. rewrite <-list_fmap_compose.
  assert (∀ k : list Z, fst ∘ pair a <$> k = replicate (length k) a) as ->.
  { induction k; simpl; by f_equal. }
  by rewrite length_seqZ.
Qed.

(** Each secret is the one created for its own amount and index. *)
Definition created_by d (o : DeterministicSecretWithBlinding) : Prop :=
  create_deterministic_output_with_blinding (oc_params d) (oc_context d) (ds_amount o) (ds_index o) = Ok o.

Lemma get_secrets_created d secrets :
  get_secrets_with_blinding d = Ok secrets → Forall (created_by d) secrets.
Proof.
  unfold get_secrets_with_blinding. case_match; [intros [= <-]; constructor|].
  intros Hs%try_map_Ok. induction Hs as [|[a i] o l os Ho _ IH]; constructor; [|done].
  unfold created_by. by destruct (create_output_amount_index _ _ _ _ _ Ho) as [-> ->].
Qed.

(** The messages are computed from the secrets one by one. *)
Lemma get_blinded_messages_secrets d kid :
  get_blinded_messages d kid
  = (secrets ← get_secrets_with_blinding d;
     try_map (λ s, to_blinded_message s (ds_amount s)
                     (default (keyset_id (keyset_info (oc_params d))) kid)) secrets).
Proof.
  unfold get_blinded_messages. destruct (get_secrets_with_blinding d) as [secrets|e|] eqn:E; [|done..].
  simpl. unfold get_secrets_with_blinding in E. destruct (oc_amount d =? 0).
  { injection E as <-. done. }
  rewrite <-amount_indices_fst. apply try_map_Ok in E.
  induction E as [|[a i] o l os Ho _ IH]; [done|]. rewrite fmap_cons. cbn [zip_with try_map fst].
  destruct (create_output_amount_index _ _ _ _ _ Ho) as [-> _]. by rewrite IH.
Qed.

(** [m] is the message of the secret [o]. *)
Definition message_of (kid : Id) (o : DeterministicSecretWithBlinding) (m : BlindedMessage) : Prop :=
  to_blinded_message o (ds_amount o) kid = Ok m.
Lemma message_of_spec kid o m :
  message_of kid o m ↔
  blind_message (bytes_of_string (ds_secret o)) (ds_blinding_factor o) = Ok (bm_blinded_secret m) ∧
  m = BlindedMessage_new (ds_amount o) kid (bm_blinded_secret m).
Proof.
  unfold message_of, to_blinded_message. rewrite bind_Ok. split.
  - intros (b & Hb & [= <-]). done.
  - intros [Hb ->]. eauto.
Qed.

(** Sorting two lists that correspond item by item, by keys that agree, keeps the
    correspondence. *)
Lemma sort_by_key_Forall2 {A B} (R : A → B → Prop) (ka : A → Z) (kb : B → Z) l k :
  Forall2 R l k → (∀ x y, R x y → ka x = kb y) →
  Forall2 R (sort_by_key ka l) (sort_by_key kb k).
Proof.
  intros HR Hk.
  assert (Forall (λ xy, R xy.1 xy.2) (zip l k)) as Hz by (induction HR; constructor; done).
  pose proof (Forall2_length _ _ _ HR) as Hlen.
  enough (Forall2 R (sort_by_key ka (zip l k).*1) (sort_by_key kb (zip l k).*2)) as Hg
    by (by rewrite fst_zip, snd_zip in Hg by lia).
  rewrite Forall_forall in Hz.
  rewrite (sort_by_key_fmap fst (λ xy, ka xy.1) ka) by done.
  rewrite (sort_by_key_fmap snd (λ xy, ka xy.1) kb) by (intros xy Hxy; symmetry; by apply Hk, Hz).
  apply Forall2_fmap, Forall_Forall2_diag, Forall_forall. intros xy.
  rewrite sort_by_key_perm. apply Hz.
Qed.

Lemma create_swap_request_Ok c proofs kid req :
  create_swap_request c proofs (Some kid) = Ok req →
  ∃ r s, get_secrets_with_blinding (receiver_outputs c) = Ok r ∧
    get_secrets_with_blinding (sender_outputs c) = Ok s ∧
    Forall2 (λ os m, message_of kid os.1 m) (all_outputs r s) (sr_outputs req) ∧
    StronglySorted (λ m m', bm_amount m <= bm_amount m') (sr_outputs req) ∧
    sr_inputs req = proofs ∧
    sr_rerandomized req = bool_decide (commitment_mode (oc_params (receiver_outputs c)) = Rerandomized).
Proof.
  unfold create_swap_request. rewrite !get_blinded_messages_secrets. simpl.
  intros (rm & (r & Hr & Hrm)%bind_Ok & (sm & (s & Hs & Hsm)%bind_Ok & [= Hreq])%bind_Ok)%bind_Ok.
  apply try_map_Ok in Hrm, Hsm. exists r, s. split; [done|]. split; [done|].
  assert (sr_outputs req = sort_by_key bm_amount (rm ++ sm)) as ->
    by (rewrite <-Hreq; by destruct (commitment_mode _)).
  split_and!.
  - apply sort_by_key_Forall2.
    + apply Forall2_app; by apply Forall2_fmap_l.
    + intros [o b] m Hm. apply message_of_spec in Hm as [_ ->]. done.
  - apply sort_by_key_sorted.
  - rewrite <-Hreq. by destruct (commitment_mode _).
  - rewrite <-Hreq. by destruct (commitment_mode _).
Qed.
End order.

(** ** Theorems *)

Section theorems.
Context {T : CashuTypes} {O : CashuOps}.
Implicit Types c : CommitmentOutputs.
Implicit Types p : ChannelParameters.

(** Parameters in the range the theorems cover: validated, over a keyset with distinct
    positive denominations that include 1, with a funding amount for which fee products
    fit a [u64]. *)
Definition sound_params p : Prop :=
  validated p ∧ wf_keyset (keyset_info p) ∧ 1 ∈ amounts_largest_first (keyset_info p) ∧
  is_u64 (maximum_amount_for_one_output p) ∧ 0 <= funding_token_amount p < 2 ^ 54 ∧ 0 <= capacity p.

(** The fee function of a channel. *)
Definition fwd p (n : Z) : Z :=
  forward (input_fee_ppk (keyset_info p))
    (usable (maximum_amount_for_one_output p) (amounts_largest_first (keyset_info p))) n.

Lemma sound_params_facts p :
  sound_params p →
  let us := usable (maximum_amount_for_one_output p) (amounts_largest_first (keyset_info p)) in
  positive_amounts us ∧ 1 ∈ us ∧ 0 <= input_fee_ppk (keyset_info p) <= 999 ∧
  capacity p <= fwd p (fwd p (funding_token_amount p)) ∧
  0 <= fwd p (funding_token_amount p) <= funding_token_amount p ∧
  ∀ n, 0 <= n < 2 ^ 54 →
    deterministic_value_after_fees (keyset_info p) n (maximum_amount_for_one_output p) = Ok (fwd p n).
Proof.
  intros (Hval & Hwf & H1 & Hm & Hf & Hc) us. pose proof Hwf as [Hwa [Hp0 _]]. pose proof Hm as [Hm0 _].
  assert (positive_amounts us) as Hp by (by apply wf_amounts_positive, usable_wf).
  assert (1 ∈ us) by (apply elem_of_usable; split; [lia|done]).
  assert (input_fee_ppk (keyset_info p) <= 999) as Hppk.
  { unfold validated, ChannelParameters_new in Hval. case_match; [done|]. lia. }
  split_and!; try done.
  - pose proof (ChannelParameters_new_spec (sender_pubkey p) (receiver_pubkey p) (mint p) (cp_unit p)
      (capacity p) (funding_token_amount p) (expiry_timestamp p) (setup_timestamp p) (keyset_info p)
      (maximum_amount_for_one_output p) (channel_secret p) Hwf H1 Hm Hppk Hf) as Hspec.
    unfold validated in Hval. rewrite Hval in Hspec. cbv zeta in Hspec.
    unfold fwd. destruct (_ <? _) eqn:E in Hspec; [by destruct Hspec|]. lia.
  - apply forward_bounds; [done|lia..].
  - apply forward_bounds; [done|lia..].
  - intros n Hn. rewrite deterministic_value_spec by (done || unfold is_u64; nia). by rewrite grem_1.
Qed.

Lemma OutputsForOneContext_new_Ok p ctx n :
  sound_params p → 0 <= n < 2 ^ 54 →
  ∃ d, OutputsForOneContext_new ctx n p = Ok d ∧ oc_context d = ctx ∧ oc_amount d = n ∧
    oc_params d = p ∧ OutputsForOneContext_value_after_fees d = fwd p n ∧
    from_target n (maximum_amount_for_one_output p) (keyset_info p) = Ok (oc_ordered_amounts d).
Proof.
  intros Hp Hn. destruct (sound_params_facts p Hp) as (_ & _ & _ & _ & _ & Hdet).
  specialize (Hdet n Hn). unfold deterministic_value_after_fees in Hdet.
  apply bind_Ok in Hdet as (o & Ho & [= Hv]). unfold OutputsForOneContext_new. rewrite Ho. simpl.
  eexists. split_and!; done.
Qed.

(** C24: a commitment exists for every balance up to the capacity of validated parameters
    (the code's own capacity check makes the later checks succeed): the receiver's and
    the sender's parts add up to the value of the funding token after the stage-1 fee,
    the receiver's part is worth at least the balance after the stage-2 fee, and it is
    the smallest part that is. For a larger balance the call is refused. *)
Theorem for_balance_total p balance :
  sound_params p → 0 <= balance →
  (balance <= capacity p →
   ∃ c after_stage1, for_balance balance p = Ok c ∧ get_value_after_stage1 p = Ok after_stage1 ∧
     oc_amount (receiver_outputs c) + oc_amount (sender_outputs c) = after_stage1 ∧
     0 <= oc_amount (receiver_outputs c) ∧ 0 <= oc_amount (sender_outputs c) ∧
     balance <= OutputsForOneContext_value_after_fees (receiver_outputs c) ∧
     ∀ n, 0 <= n < oc_amount (receiver_outputs c) → fwd p n < balance) ∧
  (capacity p < balance → ∃ e, for_balance balance p = Err e).
Proof.
  intros Hp Hb0. pose proof Hp as (_ & Hwf & _ & _ & Hf & _). pose proof Hwf as [_ [Hppk0 _]].
  destruct (sound_params_facts p Hp) as (Hpos & H1 & Hppk & Hcap & Hst & Hdet).
  unfold for_balance. split; intros Hb; cycle 1.
  { rewrite (proj2 (Z.ltb_lt _ _)) by lia. by eexists. }
  rewrite (proj2 (Z.ltb_ge _ _)) by lia.
  unfold get_value_after_stage1, get_value_after_stage1_with_keyset. rewrite Hdet by lia.
  pose proof (forward_bounds (input_fee_ppk (keyset_info p)) _ (fwd p (funding_token_amount p)) Hpos ltac:(lia) ltac:(lia)).
  destruct (inverse_spec (keyset_info p) (maximum_amount_for_one_output p) balance
    (fwd p (funding_token_amount p))) as (n & -> & Hn & Hfn & Hmin);
    [done..|unfold fwd in *; lia|unfold is_u64; lia|nia|unfold fwd in *; lia|].
  cbn [mbind Result_bind nominal_value]. rewrite (proj2 (Z.ltb_ge _ _)) by lia.
  destruct (OutputsForOneContext_new_Ok p "receiver" n) as (d & -> & _ & Hd & _ & Hdv & _); [done|lia|].
  cbn [mbind Result_bind].
  destruct (OutputsForOneContext_new_Ok p "sender" (fwd p (funding_token_amount p) - n))
    as (d' & -> & _ & Hd' & _ & _); [done|lia|].
  cbn [mbind Result_bind]. eexists _, _. split; [done|]. split; [done|]. cbn [receiver_outputs sender_outputs].
  rewrite Hd, Hd', Hdv. unfold fwd in *. split_and!; [lia..|]. intros m Hm. apply Hmin. lia.
Qed.

(** the swap's outputs and the secrets that open them correspond position by position:
    sorted by amount, with the receiver's outputs before the sender's among equal amounts
    and each party's in index order, the i-th secret with its blinding factor opens the
    i-th output, which has its amount and the requested keyset. *)
Theorem swap_outputs_aligned c proofs kid req :
  create_swap_request c proofs (Some kid) = Ok req →
  ∃ r s, get_secrets_with_blinding (receiver_outputs c) = Ok r ∧
    get_secrets_with_blinding (sender_outputs c) = Ok s ∧
    Forall2 (λ os m,
        blind_message (bytes_of_string (ds_secret os.1)) (ds_blinding_factor os.1)
          = Ok (bm_blinded_secret m) ∧
        bm_amount m = ds_amount os.1 ∧ bm_keyset_id m = kid ∧ bm_witness m = None)
      (all_outputs r s) (sr_outputs req) ∧
    StronglySorted (λ m m', bm_amount m <= bm_amount m') (sr_outputs req) ∧
    all_outputs r s ≡ₚ ((λ o, (o, true)) <$> r) ++ ((λ o, (o, false)) <$> s) ∧
    (∀ a, filter (λ os, ds_amount os.1 = a) (all_outputs r s)
          = ((λ o, (o, true)) <$> filter (λ o, ds_amount o = a) r)
            ++ ((λ o, (o, false)) <$> filter (λ o, ds_amount o = a) s)) ∧
    sr_inputs req = proofs.
Proof.
  intros (r & s & Hr & Hs & Hf & Hsorted & Hin & _)%create_swap_request_Ok.
  exists r, s. split_and!; try done.
  - eapply Forall2_impl; [exact Hf|]. intros [o b] m [Hb ->]%message_of_spec. done.
  - apply sort_by_key_perm.
  - intros a. unfold all_outputs.
    rewrite (list_filter_iff _ (λ os, (λ '(output, _), ds_amount output) os = a)) by (by intros []).
    rewrite sort_by_key_stable, filter_app. by rewrite !filter_fmap.
Qed.

Lemma from_target_counts p n o :
  sound_params p → 0 <= n < 2 ^ 54 →
  from_target n (maximum_amount_for_one_output p) (keyset_info p) = Ok o →
  expand_counts (count_by_amount o) ≡ₚ ola_amounts o ∧ sumZ (ola_amounts o) = n ∧
  Forall (λ a, a ∈ amounts_largest_first (keyset_info p) ∧ 1 <= a) (ola_amounts o) ∧
  (n = 0 → ola_amounts o = []).
Proof.
  intros Hp Hn Ho. pose proof Hp as (_ & [Hwf _] & _).
  apply from_target_Ok in Ho as [Hr ->]; [|done|unfold is_u64; lia]. simpl.
  pose proof (usable_wf (maximum_amount_for_one_output p) _ Hwf) as Hu.
  pose proof (wf_amounts_positive _ Hu) as Hpos.
  split_and!.
  - unfold expand_counts. by rewrite reverse_Permutation.
  - pose proof (sum_gcounts _ n Hpos). lia.
  - apply Forall_forall. intros x (k & Hx & _)%elem_of_expand_counts.
    apply gcounts_pos in Hx as [Hx _]; [|done|lia].
    unfold positive_amounts in Hpos. rewrite Forall_forall in Hpos.
    split; [|by apply Hpos]. by apply elem_of_usable in Hx as [_ ?].
  - intros ->. by rewrite gcounts_0.
Qed.

(** The secrets of one context carry the amounts of its split. *)
Lemma get_secrets_amounts p ctx n d secrets :
  sound_params p → 0 <= n < 2 ^ 54 → OutputsForOneContext_new ctx n p = Ok d →
  get_secrets_with_blinding d = Ok secrets →
  ds_amount <$> secrets ≡ₚ ola_amounts (oc_ordered_amounts d).
Proof.
  intros Hp Hn Hd Hs. unfold OutputsForOneContext_new in Hd.
  apply bind_Ok in Hd as (o & Ho & [= <-]). simpl.
  apply from_target_counts in Ho as (Hperm & _ & _ & H0); [|done..].
  unfold get_secrets_with_blinding in Hs. simpl in Hs. destruct (Z.eqb_spec n 0) as [->|Hne].
  { injection Hs as <-. by rewrite H0. }
  rewrite <-Hperm. unfold iter_smallest_first in Hs. rewrite <-amount_indices_fst.
  apply try_map_Ok in Hs. clear -Hs. induction Hs as [|[a i] o' l os Ho _ IH]; [done|].
  rewrite !fmap_cons. destruct (create_output_amount_index _ _ _ _ _ Ho) as [-> _]. by rewrite IH.
Qed.

(** What [for_balance] returns. *)
Lemma for_balance_Ok p balance c :
  sound_params p → 0 <= balance → for_balance balance p = Ok c →
  ∃ nr ns, OutputsForOneContext_new "receiver" nr p = Ok (receiver_outputs c) ∧
    OutputsForOneContext_new "sender" ns p = Ok (sender_outputs c) ∧
    0 <= nr ∧ 0 <= ns ∧ nr + ns < 2 ^ 54 ∧
    nr + ns = fwd p (funding_token_amount p) ∧ balance <= fwd p nr ∧
    (∀ n, 0 <= n < nr → fwd p n < balance) ∧
    ∃ actual, inverse_deterministic_value_after_fees (keyset_info p) balance
      (maximum_amount_for_one_output p) = Ok (mk_InverseFeeResult nr actual).
Proof.
  intros Hp Hb Hc. pose proof Hp as (_ & Hwf & _ & _ & Hf & _).
  pose proof Hwf as [_ [Hppk0 _]].
  destruct (sound_params_facts p Hp) as (Hpos & H1 & Hppk & Hcap & Hst & Hdet).
  unfold for_balance in Hc. destruct (capacity p <? balance) eqn:Eb; [done|].
  unfold get_value_after_stage1, get_value_after_stage1_with_keyset in Hc. rewrite Hdet in Hc by lia.
  pose proof (forward_bounds (input_fee_ppk (keyset_info p)) _ (fwd p (funding_token_amount p)) Hpos ltac:(lia) ltac:(lia)).
  destruct (inverse_spec (keyset_info p) (maximum_amount_for_one_output p) balance
    (fwd p (funding_token_amount p))) as (n & Hinv & Hn & Hfn & Hmin);
    [done..|unfold fwd in *; lia|unfold is_u64; lia|nia|unfold fwd in *; lia|].
  rewrite Hinv in Hc. cbn [mbind Result_bind nominal_value] in Hc.
  rewrite (proj2 (Z.ltb_ge _ _)) in Hc by lia.
  apply bind_Ok in Hc as (d & Hd & (d' & Hd' & [= <-])%bind_Ok). simpl.
  exists n, (fwd p (funding_token_amount p) - n).
  split_and!; [done..|lia|lia|lia|lia|unfold fwd; lia| |by eexists]. intros m Hm. apply Hmin. lia.
Qed.

(** A proof of an output: verified under the key of its amount, of the keyset, with the
    output's amount and secret. *)
Definition proof_of_output (ks : KeysetInfo) (os : DeterministicSecretWithBlinding * bool) (proof : Proof) : Prop :=
  proof_amount proof = ds_amount os.1 ∧ proof_keyset_id proof = keyset_id ks ∧
  proof_secret proof = ds_secret os.1 ∧ verify_proof ks proof = Ok tt.
(** The role of an output's owner. *)
Definition owner (os : DeterministicSecretWithBlinding * bool) : Stage2Role :=
  if os.2 then RoleReceiver else RoleSender.
(** An owner's metadata on the verified proof of its output: its amount and index, whose it is,
    and the ephemeral key from which the owner derives the key that spends it. *)
Definition completed_output p (ks : KeysetInfo) (os : DeterministicSecretWithBlinding * bool)
    (pm : ProofWithMetadata) : Prop :=
  pm_amount pm = ds_amount os.1 ∧ pm_index pm = ds_index os.1 ∧ pm_is_receiver pm = os.2 ∧
  ∃ proof info, proof_of_output ks os proof ∧
    stage2_tweak_info_for_role p (owner os) (ds_amount os.1) (ds_index os.1) = Ok info ∧
    pm_proof pm = set_p2pk_e proof (Some (ephemeral_pubkey info)).

Lemma attach_metadata_complete p ks proofs all :
  Forall2 (proof_of_output ks) all proofs →
  Forall (λ os, ∃ info, stage2_tweak_info_for_role p (owner os) (ds_amount os.1) (ds_index os.1) = Ok info) all →
  ∃ pms, try_map (attach_metadata p) (zip proofs all) = Ok pms ∧
    Forall2 (completed_output p ks) all pms.
Proof.
  induction 1 as [|[o b] proof all proofs Hp _ IH]; intros Hi; [by exists []|].
  apply Forall_cons in Hi as [[info Hinfo] Hi]. destruct (IH Hi) as (pms & Hpms & Hf).
  assert (attach_metadata p (proof, (o, b)) = Ok (mk_ProofWithMetadata
    (set_p2pk_e proof (Some (ephemeral_pubkey info))) (ds_amount o) (ds_index o) b)) as Hone.
  { unfold attach_metadata, attach_stage2_p2pk_e, stage2_p2pk_e_for_role, owner in *. simpl in *. by rewrite Hinfo. }
  cbn [zip_with try_map]. rewrite Hone, Hpms. cbn [mbind Result_bind].
  eexists. split; [done|]. constructor; [|done]. split_and!; try done. by exists proof, info.
Qed.

(** Sums over one owner's outputs. *)
Lemma sum_owned (b : bool) r s :
  sumZ ((λ os, ds_amount os.1) <$> filter (λ os, os.2 = b) (all_outputs r s))
  = sumZ (ds_amount <$> (if b then r else s)).
Proof.
  unfold all_outputs. rewrite sort_by_key_perm, filter_app, !filter_fmap, fmap_app, sumZ_app.
  rewrite <-!list_fmap_compose. simpl.
  destruct b.
  - rewrite (filter_all _ r), (filter_none _ s) by done. apply Z.add_0_r.
  - rewrite (filter_none _ r), (filter_all _ s) by done. done.
Qed.

(** The swap material of a commitment, as [complete_swap_response] builds it. *)
Definition prepared_of (all : list (DeterministicSecretWithBlinding * bool)) (outs : list BlindedMessage) :
    list PreparedSwapOutput :=
  (λ '((output, _), message),
     mk_PreparedSwapOutput message (ds_secret output) (ds_blinding_factor output)) <$> zip all outs.

Lemma prepared_secrets kid (all : list (DeterministicSecretWithBlinding * bool)) outs :
  Forall2 (λ os m, message_of kid os.1 m) all outs →
  ps_secret <$> prepared_of all outs = (λ os, ds_secret os.1) <$> all.
Proof. induction 1 as [|[o b] m all outs _ _ IH]; [done|]. unfold prepared_of in *. cbn. by f_equal. Qed.
Lemma message_amounts kid (all : list (DeterministicSecretWithBlinding * bool)) outs :
  Forall2 (λ os m, message_of kid os.1 m) all outs →
  bm_amount <$> outs = (λ os, ds_amount os.1) <$> all.
Proof.
  induction 1 as [|[o b] m all outs Hm _ IH]; [done|]. cbn. f_equal; [|done].
  by apply message_of_spec in Hm as [_ ->].
Qed.
Lemma prepared_bound (ks : KeysetInfo) (all : list (DeterministicSecretWithBlinding * bool)) outs :
  Forall2 (λ os m, message_of (keyset_id ks) os.1 m) all outs →
  Forall (λ m, is_Some (amount_key (active_keys ks) (bm_amount m))) outs →
  Forall2 (bound_output ks) (prepared_of all outs) outs.
Proof.
  induction 1 as [|[o b] m all outs Hm _ IH]; intros Hk; [constructor|].
  apply Forall_cons in Hk as [Hk Hks]. constructor; [|by apply IH].
  apply message_of_spec in Hm as [Hb Hm]. split_and!; [done|by rewrite Hm|done|done].
Qed.

(** The amounts of a commitment's secrets: their number, the receiver's total, and that
    they are denominations of the keyset with a total within [u64]. *)
Lemma commitment_amounts p nr ns dr ds r s :
  sound_params p → 0 <= nr → 0 <= ns → nr + ns < 2 ^ 54 →
  OutputsForOneContext_new "receiver" nr p = Ok dr → OutputsForOneContext_new "sender" ns p = Ok ds →
  get_secrets_with_blinding dr = Ok r → get_secrets_with_blinding ds = Ok s →
  (length r + length s = length (ola_amounts (oc_ordered_amounts dr))
                         + length (ola_amounts (oc_ordered_amounts ds)))%nat ∧
  sumZ (ds_amount <$> r) = nr ∧ sumZ (ds_amount <$> s) = ns ∧
  Forall (λ a, a ∈ amounts_largest_first (keyset_info p) ∧ 1 <= a) ((ds_amount <$> r) ++ (ds_amount <$> s)) ∧
  sumZ (ds_amount <$> r) + sumZ (ds_amount <$> s) <= u64_max.
Proof.
  intros Hp Hnr Hns Hsum Hdr Hds Hr Hs.
  pose proof (get_secrets_amounts p "receiver" nr _ _ Hp ltac:(lia) Hdr Hr) as Hpr.
  pose proof (get_secrets_amounts p "sender" ns _ _ Hp ltac:(lia) Hds Hs) as Hps.
  apply bind_Ok in Hdr as (o_r & Ho_r & [= <-]). apply bind_Ok in Hds as (o_s & Ho_s & [= <-]).
  apply from_target_counts in Ho_r as (_ & Hsr & Har & _); [|done|lia].
  apply from_target_counts in Ho_s as (_ & Hss & Has & _); [|done|lia].
  simpl in Hpr, Hps. rewrite (sumZ_perm _ _ Hpr), (sumZ_perm _ _ Hps).
  split_and!; [|done|done| |unfold u64_max; lia].
  - apply Permutation_length in Hpr, Hps. rewrite length_fmap in Hpr, Hps. simpl. lia.
  - by apply Forall_app; split; [rewrite Hpr|rewrite Hps].
Qed.

(** Proofs for the prepared outputs are proofs for the secrets they came from. *)
Lemma prepared_proofs kid ks (all : list (DeterministicSecretWithBlinding * bool)) outs proofs :
  Forall2 (λ os m, message_of kid os.1 m) all outs →
  completed_batch ks (prepared_of all outs) proofs → Forall2 (proof_of_output ks) all proofs.
Proof.
  intros Hm. revert proofs. induction Hm as [|[o b] m all outs Hm _ IH]; intros proofs Hf.
  - inversion_clear Hf. constructor.
  - inversion_clear Hf as [|? proof ? ps (Ha & Hi & Hs & Hv) Hf']. constructor; [|by apply IH].
    apply message_of_spec in Hm as [_ Hm]. simpl in *. split_and!; [by rewrite Ha, Hm|done..].
Qed.
Lemma prepared_shiftable tweak kid (all : list (DeterministicSecretWithBlinding * bool)) outs :
  Forall2 (λ os m, message_of kid os.1 m) all outs →
  Forall (λ os, shiftable tweak (ds_blinding_factor os.1)) all →
  Forall (λ po, shiftable tweak (ps_blinding_factor po)) (prepared_of all outs).
Proof.
  induction 1 as [|[o b] m all outs Hm _ IH]; intros Hsh; [constructor|].
  apply Forall_cons in Hsh as [? ?]. constructor; [done|]. by apply IH.
Qed.

Lemma tweaks_derivable p dr ds r s :
  oc_params dr = p → oc_context dr = "receiver" → oc_params ds = p → oc_context ds = "sender" →
  Forall (created_by dr) r → Forall (created_by ds) s →
  Forall (λ os, ∃ info, stage2_tweak_info_for_role p (owner os) (ds_amount os.1) (ds_index os.1) = Ok info)
    (all_outputs r s).
Proof.
  intros Hpr Hcr Hps Hcs Hr Hs. unfold all_outputs. rewrite sort_by_key_perm.
  apply Forall_app; split; apply Forall_fmap; eapply Forall_impl; [exact Hr| |exact Hs|];
    intros o Ho; unfold created_by in Ho.
  - rewrite Hpr, Hcr in Ho. by apply (create_output_tweak p true _ _ o).
  - rewrite Hps, Hcs in Ho. by apply (create_output_tweak p false _ _ o).
Qed.

(** C32: closing with an honest mint works end to end: for a commitment to any balance and
    any output keyset of the channel's unit that has the channel's denominations, in the
    ordinary and in the rerandomized mode, the signatures the mint gives for the points it
    issues for the swap are accepted, each output yields a proof of that keyset, with its amount
    and secret, that verifies under the key of its amount, each proof is handed to the right
    owner with the amount, index and ephemeral key of its own output, and the receiver's proofs
    add up to the receiver's part. (The derived secrets are assumed distinct, as hash outputs
    are, the points too, by [swap_restore_request], and the shift of a rerandomized mint is not
    the negation of a blinding factor.) *)
Theorem commitment_completes {HD : DhkeLaws} {HB : DerivedBlindingLaws} p balance c ks
    (mint_key : Z → SecretKey) req r s randomness tweak issued :
  sound_params p → 0 <= balance → for_balance balance p = Ok c →
  ki_unit ks = cp_unit p →
  (∀ a, a ∈ amounts_largest_first (keyset_info p) → is_Some (amount_key (active_keys ks) a)) →
  (∀ a K, amount_key (active_keys ks) a = Some K → K = public_key (mint_key a)) →
  get_secrets_with_blinding (receiver_outputs c) = Ok r →
  get_secrets_with_blinding (sender_outputs c) = Ok s →
  create_swap_request c [] (Some (keyset_id ks)) = Ok req →
  mint_tweak randomness tweak → swap_restore_request req randomness = Ok issued →
  Forall (λ o, shiftable tweak (ds_blinding_factor o)) (r ++ s) → NoDup (ds_secret <$> r ++ s) →
  ∃ pms,
    CommitmentOutputs_complete_swap_response c
      (mk_SwapResponse ((λ m, mint_sign (mint_key (bm_amount m)) m) <$> issued) randomness) ks
      = Ok pms ∧
    Forall2 (completed_output p ks) (all_outputs r s) pms ∧
    sumZ (pm_amount <$> filter (λ pm, pm_is_receiver pm = true) pms) = oc_amount (receiver_outputs c).
Proof.
  intros Hp Hb Hc Hunit Hkeys Hmint Hr Hs Hreq Htw Hissued Hshift Hsec.
  destruct (for_balance_Ok p balance c Hp Hb Hc) as (nr & ns & Hdr & Hds & Hnr & Hns & Hsum & _).
  assert (oc_params (receiver_outputs c) = p ∧ oc_context (receiver_outputs c) = "receiver" ∧
    oc_amount (receiver_outputs c) = nr) as (Hpr & Hcr & Har).
  { unfold OutputsForOneContext_new in Hdr. apply bind_Ok in Hdr as (? & _ & [= <-]). done. }
  assert (oc_params (sender_outputs c) = p ∧ oc_context (sender_outputs c) = "sender") as (Hps & Hcs).
  { unfold OutputsForOneContext_new in Hds. apply bind_Ok in Hds as (? & _ & [= <-]). done. }
  destruct (commitment_amounts p nr ns _ _ _ _ Hp Hnr Hns Hsum Hdr Hds Hr Hs) as (Hlen & Hrsum & _ & Hall & Htot).
  destruct (create_swap_request_Ok _ _ _ _ Hreq) as (r' & s' & Hr' & Hs' & Hmsg & _ & _ & Hrr).
  rewrite Hr in Hr'. rewrite Hs in Hs'. injection Hr' as <-. injection Hs' as <-.
  set (all := all_outputs r s) in *. set (prepared := prepared_of all (sr_outputs req)).
  assert (bm_amount <$> sr_outputs req = (λ os, ds_amount os.1) <$> all) as Hamounts
    by (by eapply message_amounts).
  assert (Forall (λ a, a ∈ amounts_largest_first (keyset_info p) ∧ 1 <= a)
            ((λ os, ds_amount os.1) <$> all)) as Hall'.
  { unfold all, all_outputs. rewrite sort_by_key_perm, fmap_app, <-!list_fmap_compose. exact Hall. }
  destruct (complete_swap_response_honest req prepared mint_key ks randomness tweak issued) as (proofs & Hproofs & Hf); try done.
  { unfold prepared. rewrite (prepared_secrets _ _ _ Hmsg). unfold all, all_outputs.
    rewrite sort_by_key_perm, fmap_app, <-!list_fmap_compose, <-fmap_app. exact Hsec. }
  { apply (prepared_bound ks _ _ Hmsg). rewrite <-Hamounts in Hall'. rewrite Forall_fmap in Hall'.
    eapply Forall_impl; [exact Hall'|]. intros m [Hm _]. by apply Hkeys. }
  { apply (prepared_shiftable tweak _ _ _ Hmsg). unfold all, all_outputs. rewrite sort_by_key_perm.
    apply Forall_app in Hshift as [? ?]. apply Forall_app. by rewrite !Forall_fmap. }
  { rewrite <-Hamounts in Hall'. rewrite Forall_fmap in Hall'.
    eapply Forall_impl; [exact Hall'|]. simpl. lia. }
  { rewrite Hamounts. unfold all, all_outputs.
    rewrite sort_by_key_perm, fmap_app, <-!list_fmap_compose, sumZ_app. exact Htot. }
  assert (length (sr_outputs req) = length all) as Hlo by (symmetry; by eapply Forall2_length).
  assert (length all = length r + length s)%nat as Hla.
  { unfold all, all_outputs. by rewrite sort_by_key_perm, length_app, !length_fmap. }
  assert (Forall2 (proof_of_output ks) all proofs) as Hown by (by eapply prepared_proofs).
  assert (length issued = length (sr_outputs req)) as Hli
    by (symmetry; eapply Forall2_length; by eapply restore_request_issued).
  destruct (attach_metadata_complete p ks proofs all Hown) as (pms & Hpms & Hdone).
  { apply (tweaks_derivable p (receiver_outputs c) (sender_outputs c)); [done..| |].
    - by apply get_secrets_created.
    - by apply get_secrets_created. }
  exists pms. split_and!; [|done|].
  - unfold CommitmentOutputs_complete_swap_response. rewrite Hpr, Hunit.
    rewrite (bool_decide_eq_false_2 (_ ≠ cp_unit p)) by auto. simpl. rewrite length_fmap, Hli, Hlo.
    rewrite bool_decide_eq_false_2 by lia. rewrite Hr, Hs. cbn [mbind Result_bind].
    fold all. rewrite bool_decide_eq_false_2 by lia. rewrite Hreq. cbn [mbind Result_bind].
    fold (prepared_of all (sr_outputs req)). fold prepared. rewrite Hproofs. cbn [mbind Result_bind].
    rewrite bool_decide_eq_false_2; [done|]. apply Forall2_length in Hown. lia.
  - rewrite Har, <-Hrsum, <-(sum_owned true r s). fold all. clear -Hdone.
    induction Hdone as [|[o b] pm all pms (Ha & _ & Hb & _) _ IH]; [done|].
    rewrite !filter_cons. simpl in *. rewrite Hb. case_decide; [|done].
    rewrite !fmap_cons. cbn [sumZ foldr]. rewrite Ha. simpl. f_equal. exact IH.
Qed.
End theorems.

(** ** Concrete inputs *)

Module Examples.
#[local] Existing Instance Toy.types.
#[local] Existing Instance Toy.ops.
#[local] Existing Instance Toy.dhke_laws.
#[local] Existing Instance Toy.derived_blinding_laws.

Definition params : ChannelParameters := Params.Examples.params.
(** The value of a successful call, for computed examples. *)
Definition get_ok {E A} (d : A) (m : Result E A) : A := match m with Ok a => a | _ => d end.
Definition no_outputs (ctx : string) : DeterministicOutputsForOneContext :=
  mk_OutputsForOneContext ctx 0 (mk_OrderedListOfAmounts [] [] 0) params.

(** A balance of 10 out of 20. *)
Definition commit10 : CommitmentOutputs :=
  get_ok (mk_CommitmentOutputs (no_outputs "receiver") (no_outputs "sender")) (for_balance 10 params).
Definition r10 := get_ok [] (get_secrets_with_blinding (receiver_outputs commit10)).
Definition s10 := get_ok [] (get_secrets_with_blinding (sender_outputs commit10)).
Definition req10 : SwapRequest :=
  get_ok (SwapRequest_new [] []) (create_swap_request commit10 [] (Some "00ab" : option Id)).

Lemma params_sound : sound_params params.
Proof.
  split_and!; [vm_compute; reflexivity|apply Amounts.Examples.keyset16_wf|vm_compute; set_solver|done..].
Qed.
Lemma commit10_ok : for_balance 10 params = Ok commit10.
Proof. vm_compute. reflexivity. Qed.
Lemma r10_ok : get_secrets_with_blinding (receiver_outputs commit10) = Ok r10.
Proof. vm_compute. reflexivity. Qed.
Lemma s10_ok : get_secrets_with_blinding (sender_outputs commit10) = Ok s10.
Proof. vm_compute. reflexivity. Qed.
Lemma req10_ok : create_swap_request commit10 [] (Some "00ab" : option Id) = Ok req10.
Proof. vm_compute. reflexivity. Qed.
Example req10_amounts : bm_amount <$> sr_outputs req10 = [1; 1; 2; 4; 8; 8].
Proof. vm_compute. reflexivity. Qed.

Lemma for_balance_total_witness :
  ∃ c after_stage1, for_balance 10 params = Ok c ∧ get_value_after_stage1 params = Ok after_stage1 ∧
    oc_amount (receiver_outputs c) + oc_amount (sender_outputs c) = after_stage1 ∧
    10 <= OutputsForOneContext_value_after_fees (receiver_outputs c).
Proof.
  destruct (proj1 (for_balance_total params 10 params_sound ltac:(lia)) ltac:(done))
    as (c & v & Hc & Hv & Hsum & _ & _ & Hb & _).
  exact (ex_intro _ c (ex_intro _ v (conj Hc (conj Hv (conj Hsum Hb))))).
Defined.
Lemma swap_outputs_aligned_witness : sr_inputs req10 = [].
Proof.
  destruct (swap_outputs_aligned commit10 [] "00ab" req10 req10_ok) as (r & s & _ & _ & _ & _ & _ & _ & Hin).
  exact Hin.
Defined.
Lemma keyset_denominations a :
  a ∈ amounts_largest_first Params.Examples.keyset → is_Some (amount_key (active_keys Params.Examples.keyset) a).
Proof.
  intros Ha. apply bt_lookup_is_Some.
  assert (a ∈ sort_by_key Z.opp (active_keys Params.Examples.keyset).*1) as Hin by exact Ha.
  by rewrite sort_by_key_perm in Hin.
Qed.
Lemma keyset_mint_key a K :
  amount_key (active_keys Params.Examples.keyset) a = Some K →
  K = public_key (SwapCompletion.Examples.mint_key a).
Proof.
  unfold amount_key. cbn. repeat (case_match; [intros [= <-]; unfold SwapCompletion.Examples.mint_key; lia|]). done.
Qed.

(** The same channel in the rerandomized mode, and the points a mint issues for its close. *)
Definition params_rr : ChannelParameters := with_commitment_mode params Rerandomized.
Definition commit_rr : CommitmentOutputs :=
  get_ok (mk_CommitmentOutputs (no_outputs "receiver") (no_outputs "sender")) (for_balance 10 params_rr).
Definition r_rr := get_ok [] (get_secrets_with_blinding (receiver_outputs commit_rr)).
Definition s_rr := get_ok [] (get_secrets_with_blinding (sender_outputs commit_rr)).
Definition req_rr : SwapRequest :=
  get_ok (SwapRequest_new [] []) (create_swap_request commit_rr [] (Some "00ab" : option Id)).
Definition mint_randomness : RerandomizationR := 77.
Definition issued_rr : list BlindedMessage :=
  get_ok [] (swap_restore_request req_rr (Some mint_randomness)).
Lemma params_rr_sound : sound_params params_rr.
Proof. exact params_sound. Qed.
Lemma shiftable_dec tweak (l : list DeterministicSecretWithBlinding) :
  forallb (λ o, match tweak with
                | None => true
                | Some t => bool_decide (secret_from_slice (secret_bytes (ds_blinding_factor o)) = Ok (ds_blinding_factor o))
                            && is_ok (secret_add_tweak (ds_blinding_factor o) t)
                end) l = true →
  Forall (λ o, shiftable tweak (ds_blinding_factor o)) l.
Proof.
  rewrite forallb_forall. intros Hl. apply Forall_forall. intros o Ho%list_elem_of_In. specialize (Hl o Ho).
  destruct tweak as [t|]; [|done]. apply andb_true_iff in Hl as [H1%bool_decide_eq_true_1 H2]. done.
Qed.

(** A close at a balance of 10, in both modes. *)
Lemma commitment_completes_witness :
  (∃ pms,
    CommitmentOutputs_complete_swap_response commit10
      (mk_SwapResponse ((λ m, mint_sign (SwapCompletion.Examples.mint_key (bm_amount m)) m)
         <$> sr_outputs req10) None) Params.Examples.keyset = Ok pms ∧
    sumZ (pm_amount <$> filter (λ pm, pm_is_receiver pm = true) pms) = 11) ∧
  (∃ pms,
    CommitmentOutputs_complete_swap_response commit_rr
      (mk_SwapResponse ((λ m, mint_sign (SwapCompletion.Examples.mint_key (bm_amount m)) m)
         <$> issued_rr) (Some mint_randomness)) Params.Examples.keyset = Ok pms ∧
    sumZ (pm_amount <$> filter (λ pm, pm_is_receiver pm = true) pms) = 11).
Proof.
  split.
  - destruct (commitment_completes params 10 commit10 Params.Examples.keyset
      SwapCompletion.Examples.mint_key req10 r10 s10 None None (sr_outputs req10) params_sound ltac:(lia) commit10_ok)
      as (pms & Hok & _ & Hsum).
    + reflexivity.
    + exact keyset_denominations.
    + exact keyset_mint_key.
    + exact r10_ok.
    + exact s10_ok.
    + exact req10_ok.
    + exact I.
    + vm_compute. reflexivity.
    + apply shiftable_dec. vm_compute. reflexivity.
    + apply (bool_decide_eq_true_1 _). vm_compute. reflexivity.
    + exists pms. split; [exact Hok|]. rewrite Hsum. vm_compute. reflexivity.
  - destruct (commitment_completes params_rr 10 commit_rr Params.Examples.keyset
      SwapCompletion.Examples.mint_key req_rr r_rr s_rr (Some mint_randomness) (Some mint_randomness) issued_rr
      params_rr_sound ltac:(lia))
      as (pms & Hok & _ & Hsum).
    + vm_compute. reflexivity.
    + reflexivity.
    + exact keyset_denominations.
    + exact keyset_mint_key.
    + vm_compute. reflexivity.
    + vm_compute. reflexivity.
    + vm_compute. reflexivity.
    + reflexivity.
    + vm_compute. reflexivity.
    + apply shiftable_dec. vm_compute. reflexivity.
    + apply (bool_decide_eq_true_1 _). vm_compute. reflexivity.
    + exists pms. split; [exact Hok|]. rewrite Hsum. vm_compute. reflexivity.
Defined.
End Examples.
