(* ===== verification/Channel.v ===== *)
(** * Established channels and balance updates
    ([sender_and_receiver.rs], [established_channel.rs] and [balance_update.rs] of
    [crates/cdk-spilman/src])

    What the receiver checks before accepting a channel, the established channel, and the
    signed balance updates the sender pays with. The theorems characterise the check, and
    show that every balance update the sender creates is accepted by the receiver. *)

From S2P Require Import Prelude Cashu Toy Amounts Params SwapCompletion Deterministic.

(** ** Verification of a channel *)

Inductive ChannelVerificationError :=
| UnexpectedWitness (proof_index : nat) (amount : Z)
| UnexpectedP2pkE (proof_index : nat) (amount : Z)
| MissingDleq (proof_index : nat) (amount : Z)
| DleqBlindingFactorMismatch (proof_index : nat) (amount : Z)
| InvalidDleq (proof_index : nat) (amount : Z) (reason : string)
| MissingMintKey (proof_index : nat) (amount : Z)
| InvalidKeysetId (expected computed : string)
| ValueMismatch (expected actual : Z)
| ValueOverflow (proof_index : nat) (accumulated amount : Z)
| CountMismatch (expected actual : nat)
| SecretMismatch (proof_index : nat) (expected actual : string)
| AmountMismatch (proof_index : nat) (expected actual : Z)
| InternalError (e : string).

Record ChannelVerificationResult := mk_ChannelVerificationResult {
  valid : bool;
  errors : list ChannelVerificationError;
}.
Definition verification_ok : ChannelVerificationResult := mk_ChannelVerificationResult true [].
Definition verification_failed (e : list ChannelVerificationError) : ChannelVerificationResult :=
  mk_ChannelVerificationResult false e.

Record EstablishedChannel {T : CashuTypes} := mk_EstablishedChannel {
  ec_params : ChannelParameters;
  funding_proofs : list Proof;
}.
Arguments mk_EstablishedChannel {T}.

Record BalanceUpdateMessage {T : CashuTypes} := mk_BalanceUpdateMessage {
  bu_channel_id : string;
  bu_amount : Z;
  bu_signature : Signature;
}.
Arguments mk_BalanceUpdateMessage {T}.

Record SpilmanChannelSender {T : CashuTypes} := mk_SpilmanChannelSender {
  alice_secret : SecretKey;
  channel : EstablishedChannel;
}.
Arguments mk_SpilmanChannelSender {T}.

Section code.
Context {T : CashuTypes} {O : CashuOps}.
Implicit Types params : ChannelParameters.

Definition computed_keyset_id (ks : KeysetInfo) : Id :=
  match id_version (keyset_id ks) with
  | Version00 => id_v1_from_keys (active_keys ks)
  | Version01 => id_v2_from_data (active_keys ks) (ki_unit ks) (input_fee_ppk ks) (final_expiry ks)
  end.

(** The errors of one turn of the loop over the funding proofs; the two [continue]s end
    the list early. *)
Definition verify_funding_proof params (expected_outputs : list DeterministicSecretWithBlinding)
    (i : nat) (proof : Proof) : list ChannelVerificationError :=
  let amount := proof_amount proof in
  (if bool_decide (is_Some (proof_witness proof)) then [UnexpectedWitness i amount] else []) ++
  (if bool_decide (is_Some (proof_p2pk_e proof)) then [UnexpectedP2pkE i amount] else []) ++
  match proof_dleq proof with
  | None => [MissingDleq i amount]
  | Some dleq =>
      match expected_outputs !! i with
      | Some expected =>
          if bool_decide (dleq_r dleq ≠ ds_blinding_factor expected)
          then [DleqBlindingFactorMismatch i amount] else []
      | None => []
      end ++
      match amount_key (active_keys (keyset_info params)) amount with
      | None => [MissingMintKey i amount]
      | Some mint_pubkey =>
          match proof_verify_dleq proof mint_pubkey with
          | Err e => [InvalidDleq i amount e]
          | _ => []
          end
      end
  end.

(** [for (i, x) in l.iter().enumerate()], collecting what each turn pushes. *)
Fixpoint flat_map_enum {A B} (f : nat → A → list B) (i : nat) (l : list A) : list B :=
  match l with [] => [] | x :: l => f i x ++ flat_map_enum f (S i) l end.

(** The summation loop, which stops at the first overflow. *)
Fixpoint sum_funding (i : nat) (total : Z) (proofs : list Proof) : Z + ChannelVerificationError :=
  match proofs with
  | [] => inl total
  | p :: proofs =>
      match checked_add total (proof_amount p) with
      | Some total => sum_funding (S i) total proofs
      | None => inr (ValueOverflow i total (proof_amount p))
      end
  end.

Definition verify_structure (i : nat) (pe : Proof * DeterministicSecretWithBlinding) :
    list ChannelVerificationError :=
  let '(proof, expected) := pe in
  (if bool_decide (proof_secret proof ≠ ds_secret expected)
   then [SecretMismatch i (ds_secret expected) (proof_secret proof)] else []) ++
  (if negb (proof_amount proof =? ds_amount expected)
   then [AmountMismatch i (ds_amount expected) (proof_amount proof)] else []).

(** The function returns no [Err]; [Diverge] stands for a keyset on which the split of the
    funding amount does not return. *)
Definition verify_valid_channel (funding_proofs : list Proof) params :
    Result string ChannelVerificationResult :=
  let ks := keyset_info params in
  let id_errors :=
    if bool_decide (keyset_id ks ≠ computed_keyset_id ks)
    then [InvalidKeysetId (id_to_string (keyset_id ks)) (id_to_string (computed_keyset_id ks))]
    else [] in
  match (outputs ← OutputsForOneContext_new "funding" (funding_token_amount params) params;
         get_secrets_with_blinding outputs) with
  | Diverge => Diverge
  | Err e => Ok (verification_failed (id_errors ++ [InternalError e]))
  | Ok expected_outputs =>
      let proof_errors :=
        flat_map_enum (verify_funding_proof params expected_outputs) 0 funding_proofs in
      let value_errors :=
        match sum_funding 0 0 funding_proofs with
        | inl total_value =>
            if negb (total_value =? funding_token_amount params)
            then [ValueMismatch (funding_token_amount params) total_value] else []
        | inr e => [e]
        end in
      let structure_errors :=
        if bool_decide (length funding_proofs ≠ length expected_outputs)
        then [CountMismatch (length expected_outputs) (length funding_proofs)]
        else flat_map_enum verify_structure 0 (zip funding_proofs expected_outputs) in
      let all_errors := id_errors ++ proof_errors ++ value_errors ++ structure_errors in
      Ok (match all_errors with [] => verification_ok | _ => verification_failed all_errors end)
  end.

(** ** Established channels *)

(** [EstablishedChannel::new]. *)
Definition EstablishedChannel_new params (funding_proofs : list Proof) :
    Result string EstablishedChannel :=
  let expected_keyset_id := keyset_id (keyset_info params) in
  _ ← try_map (λ proof,
        ensure (bool_decide (proof_keyset_id proof = expected_keyset_id))
          ("Funding proof has keyset_id " +:+ id_to_string (proof_keyset_id proof)
           +:+ " but expected " +:+ id_to_string expected_keyset_id +:+ " from params")) funding_proofs;
  actual_funding_value ← checked_total "funding proof total overflow" (proof_amount <$> funding_proofs);
  expected_funding_value ← get_total_funding_token_amount params;
  _ ← ensure (actual_funding_value =? expected_funding_value)
        ("Funding proofs total value " +:+ pretty actual_funding_value
         +:+ " does not match expected funding token amount " +:+ pretty expected_funding_value);
  Ok (mk_EstablishedChannel params funding_proofs).

Definition funding_total_raw (c : EstablishedChannel) : Result string Z :=
  checked_total "funding proof total overflow" (proof_amount <$> funding_proofs c).

(** ** Balance updates *)

Definition get_signatures_from_swap_request (swap_request : SwapRequest) :
    Result string (list Signature) :=
  match sr_inputs swap_request with
  | [] => Err "No inputs in swap request"
  | first_proof :: _ =>
      match proof_witness first_proof with
      | Some (P2PKWitness signatures) =>
          Ok (omap (λ s, match signature_from_str s with Ok sig => Some sig | _ => None end) signatures)
      | _ => Ok []
      end
  end.

Definition verify_swap_signature (request : SwapRequest) (pubkey : PublicKey) (signature : Signature) :
    Result string unit :=
  verify_schnorr signature (sig_all_message_hash request) pubkey.

Definition attach_signature_to_first_input (swap_request : SwapRequest) (sig_hex : string) :
    Result string SwapRequest :=
  match sr_inputs swap_request with
  | [] => Err "Swap request has no inputs"
  | first_input :: _ =>
      Ok (set_first_witness swap_request (Some
            match proof_witness first_input with
            | Some witness => add_signatures witness [sig_hex]
            | None => add_signatures (P2PKWitness []) [sig_hex]
            end))
  end.

Definition from_signed_swap_request (channel_id : string) (amount : Z) (swap_request : SwapRequest) :
    Result string BalanceUpdateMessage :=
  signatures ← get_signatures_from_swap_request swap_request;
  match signatures with
  | [signature] => Ok (mk_BalanceUpdateMessage channel_id amount signature)
  | _ => Err ("Expected exactly 1 signature (Alice's), but found " +:+ nat_str (length signatures))
  end.

Definition verify_sender_signature (update : BalanceUpdateMessage) (channel : EstablishedChannel) :
    Result string unit :=
  commitment_outputs ← for_balance (bu_amount update) (ec_params channel);
  swap_request ← create_swap_request commitment_outputs (funding_proofs channel) None;
  blinded_sender_pubkey ← get_sender_blinded_pubkey_for_stage1 (ec_params channel);
  map_err (λ _, "Invalid signature: Alice did not authorize this balance update")
    (verify_swap_signature swap_request blinded_sender_pubkey (bu_signature update)).

(** [SpilmanChannelSender::create_signed_balance_update]; [aux] is the randomness the signature
    draws. *)
Definition create_signed_balance_update (aux : bytes) (s : SpilmanChannelSender) (charlie_balance : Z) :
    Result string (BalanceUpdateMessage * SwapRequest) :=
  let params := ec_params (channel s) in
  commitment_outputs ← for_balance charlie_balance params;
  swap_request ← create_swap_request commitment_outputs (funding_proofs (channel s)) None;
  blinded_secret ← get_sender_blinded_secret_key_for_stage1 params (alice_secret s);
  swap_request ← sign_sig_all aux swap_request blinded_secret;
  balance_update ← from_signed_swap_request (get_channel_id params) charlie_balance swap_request;
  Ok (balance_update, swap_request).
End code.

(** ** Theorems *)

Section theorems.
Context {T : CashuTypes} {O : CashuOps}.
Implicit Types params : ChannelParameters.

Lemma flat_map_enum_nil {A B} (f : nat → A → list B) i l :
  flat_map_enum f i l = [] ↔ ∀ j x, l !! j = Some x → f (i + j)%nat x = [].
Proof.
  revert i. induction l as [|x l IH]; intros i; simpl; [done|].
  rewrite app_nil, IH. split.
  - intros [Hx Hl] [|j] y Hy; simpl in Hy; [injection Hy as <-; by rewrite Nat.add_0_r|].
    replace (i + S j)%nat with (S i + j)%nat by lia. by apply Hl.
  - intros H. split; [by rewrite <-(Nat.add_0_r i); apply (H 0%nat)|].
    intros j y Hy. replace (S i + j)%nat with (i + S j)%nat by lia. by apply H.
Qed.

Lemma sum_funding_inl i total proofs v :
  Forall (λ p, 0 <= proof_amount p) proofs → 0 <= total <= u64_max →
  sum_funding i total proofs = inl v ↔
    v = total + sumZ (proof_amount <$> proofs) ∧ total + sumZ (proof_amount <$> proofs) <= u64_max.
Proof.
  intros Hp. revert i total. induction Hp as [|p ps Hp Hps IH]; intros i total Ht.
  { simpl. split; [intros [= <-]; lia|]. intros [-> _]. f_equal. lia. }
  assert (0 <= sumZ (proof_amount <$> ps)) by (by apply sumZ_nonneg, Forall_fmap).
  cbn [sum_funding]. rewrite fmap_cons. cbn [sumZ foldr]. fold (sumZ (proof_amount <$> ps)).
  unfold checked_add. destruct (total + proof_amount p <=? u64_max) eqn:E.
  - rewrite IH by lia. rewrite Z.add_assoc. done.
  - split; [done|]. lia.
Qed.

(** What one funding proof has to be, given the output derived for its position. *)
Definition good_funding_proof params (proof : Proof) (expected : DeterministicSecretWithBlinding) : Prop :=
  proof_witness proof = None ∧ proof_p2pk_e proof = None ∧
  proof_secret proof = ds_secret expected ∧ proof_amount proof = ds_amount expected ∧
  ∃ dleq K, proof_dleq proof = Some dleq ∧ dleq_r dleq = ds_blinding_factor expected ∧
    amount_key (active_keys (keyset_info params)) (proof_amount proof) = Some K ∧
    ∀ e, proof_verify_dleq proof K ≠ Err e.

Lemma verify_funding_proof_nil params expected i proof o :
  expected !! i = Some o →
  verify_funding_proof params expected i proof = [] ∧ verify_structure i (proof, o) = [] ↔
  good_funding_proof params proof o.
Proof.
  intros Ho. unfold verify_funding_proof, verify_structure, good_funding_proof. rewrite Ho.
  destruct (proof_witness proof) as [w|]; simpl; [split; [by intros [? _]|by intros [? _]]|].
  destruct (proof_p2pk_e proof) as [w|]; simpl; [split; [by intros [? _]|by intros (_ & ? & _)]|].
  destruct (proof_dleq proof) as [d|]; [|split; [by intros [? _]|intros (_ & _ & Hs' & Ha' & d' & K' & Hd' & Hr' & HK' & _); exfalso; congruence]].
  destruct (decide (dleq_r d = ds_blinding_factor o)) as [Hr|Hr].
  2: { rewrite bool_decide_eq_true_2 by done. split; [by intros [? _]|intros (_ & _ & Hs' & Ha' & d' & K' & Hd' & Hr' & HK' & _); exfalso; congruence]. }
  rewrite (bool_decide_eq_false_2 (dleq_r d ≠ _)) by auto. simpl.
  destruct (amount_key _ _) as [K|] eqn:HK; [|split; [by intros [? _]|intros (_ & _ & Hs' & Ha' & d' & K' & Hd' & Hr' & HK' & _); exfalso; congruence]].
  destruct (decide (proof_secret proof = ds_secret o)) as [Hs|Hs].
  2: { rewrite (bool_decide_eq_true_2 (proof_secret proof ≠ _)) by done. split; [by intros [_ ?]|intros (_ & _ & Hs' & Ha' & d' & K' & Hd' & Hr' & HK' & _); exfalso; congruence]. }
  rewrite (bool_decide_eq_false_2 (proof_secret proof ≠ _)) by auto.
  destruct (Z.eqb_spec (proof_amount proof) (ds_amount o)) as [Ha|Ha]; [|split; [by intros [_ ?]|intros (_ & _ & Hs' & Ha' & d' & K' & Hd' & Hr' & HK' & _); exfalso; congruence]].
  destruct (proof_verify_dleq proof K) as [[]|e|] eqn:Hv; simpl.
  - split; [|done]. intros _. split_and!; [done..|]. exists d, K. split_and!; [done..|]. congruence.
  - split; [by intros [? _]|]. intros (_ & _ & _ & _ & d' & K' & _ & _ & HK' & He).
    assert (K' = K) as -> by congruence. by destruct (He e).
  - split; [|done]. intros _. split_and!; [done..|]. exists d, K. split_and!; [done..|]. congruence.
Qed.

(** The errors of everything but the keyset id. *)
Definition funding_errors params (expected : list DeterministicSecretWithBlinding) (proofs : list Proof) :
    list ChannelVerificationError :=
  flat_map_enum (verify_funding_proof params expected) 0 proofs
  ++ match sum_funding 0 0 proofs with
     | inl v => if negb (v =? funding_token_amount params)
                then [ValueMismatch (funding_token_amount params) v] else []
     | inr e => [e]
     end
  ++ (if bool_decide (length proofs ≠ length expected)
      then [CountMismatch (length expected) (length proofs)]
      else flat_map_enum verify_structure 0 (zip proofs expected)).
Lemma funding_errors_nil params exp proofs :
  Forall (λ p, 0 <= proof_amount p) proofs →
  funding_errors params exp proofs = [] ↔
  sumZ (proof_amount <$> proofs) = funding_token_amount params ∧
  sumZ (proof_amount <$> proofs) <= u64_max ∧ Forall2 (good_funding_proof params) proofs exp.
Proof.
  intros Hpos. unfold funding_errors. rewrite !app_nil.
  assert ((match sum_funding 0 0 proofs with
    | inl v => if negb (v =? funding_token_amount params)
               then [ValueMismatch (funding_token_amount params) v] else []
    | inr e => [e] end = []) ↔
    sumZ (proof_amount <$> proofs) = funding_token_amount params ∧
    sumZ (proof_amount <$> proofs) <= u64_max) as ->.
  { pose proof (λ v, sum_funding_inl 0 0 proofs v Hpos ltac:(done)) as Hsum.
    destruct (sum_funding 0 0 proofs) as [v|e].
    - destruct (proj1 (Hsum v) eq_refl) as [Hv Hle]. rewrite Z.add_0_l in Hv, Hle. subst v.
      destruct (Z.eqb_spec (sumZ (proof_amount <$> proofs)) (funding_token_amount params)); [done|].
      split; [done|]. by intros [? _].
    - split; [done|]. intros [_ Hle].
      specialize (Hsum (sumZ (proof_amount <$> proofs))). rewrite Z.add_0_l in Hsum.
      destruct Hsum as [_ Hsum]. by specialize (Hsum (conj eq_refl Hle)). }
  destruct (decide (length proofs = length exp)) as [Hlen|Hlen]; cycle 1.
  { rewrite bool_decide_eq_true_2 by done. split; [by intros (_ & _ & ?)|].
    intros (_ & _ & Hf). by apply Forall2_length in Hf. }
  rewrite bool_decide_eq_false_2 by auto. rewrite !flat_map_enum_nil. split.
  - intros (Hp & [Hs1 Hs2] & Hst). split_and!; [done..|].
    apply Forall2_same_length_lookup_2; [done|]. intros i p o Hi Ho.
    apply (verify_funding_proof_nil params exp i p o Ho). split; [by apply (Hp i)|].
    apply (Hst i). by apply lookup_zip_with_Some; eauto 6.
  - intros (Hs1 & Hs2 & Hf). split_and!; [|done..|].
    + intros i p Hp. destruct (Forall2_lookup_l _ _ _ _ _ Hf Hp) as (o & Ho & Hg).
      by apply (verify_funding_proof_nil params exp i p o Ho) in Hg as [? _].
    + intros i [p o] (p' & o' & [= -> ->] & Hp & Ho)%lookup_zip_with_Some.
      pose proof (Forall2_lookup_lr _ _ _ _ _ _ Hf Hp Ho) as Hg.
      by apply (verify_funding_proof_nil params exp i p' o' Ho) in Hg as [_ ?].
Qed.

Lemma verify_valid_channel_spec proofs params :
  Forall (λ p, 0 <= proof_amount p) proofs →
  verify_valid_channel proofs params = Ok verification_ok ↔
  keyset_id (keyset_info params) = computed_keyset_id (keyset_info params) ∧
  sumZ (proof_amount <$> proofs) = funding_token_amount params ∧
  sumZ (proof_amount <$> proofs) <= u64_max ∧
  ∃ outputs expected,
    OutputsForOneContext_new "funding" (funding_token_amount params) params = Ok outputs ∧
    get_secrets_with_blinding outputs = Ok expected ∧
    Forall2 (good_funding_proof params) proofs expected.
Proof.
  intros Hpos. unfold verify_valid_channel.
  destruct (OutputsForOneContext_new _ _ params) as [outputs|e|]; [|split; naive_solver..]. simpl.
  destruct (get_secrets_with_blinding outputs) as [exp|e|] eqn:He;
    [|split; [done|intros (_ & _ & _ & o & x & [= <-] & Hx & _); congruence]..].
  assert (∀ l, Ok (match l with [] => verification_ok | _ => verification_failed l end)
    = @Ok string _ verification_ok ↔ l = []) as Hnil by (by intros []).
  fold (funding_errors params exp proofs). rewrite Hnil, app_nil, funding_errors_nil by done. clear Hnil.
  destruct (decide (keyset_id (keyset_info params) = computed_keyset_id (keyset_info params))) as [Hid|Hid].
  2: { rewrite bool_decide_eq_true_2 by done. split; naive_solver. }
  rewrite bool_decide_eq_false_2 by auto. split; [naive_solver|].
  intros (_ & Hs1 & Hs2 & o & x & [= <-] & Hx & Hf). rewrite He in Hx. injection Hx as <-. done.
Qed.

(** The verdict on a channel in which nothing but the keyset id can be wrong. *)
Definition id_verdict params : ChannelVerificationResult :=
  let ks := keyset_info params in
  if bool_decide (keyset_id ks = computed_keyset_id ks) then verification_ok
  else verification_failed [InvalidKeysetId (id_to_string (keyset_id ks)) (id_to_string (computed_keyset_id ks))].
Lemma verify_valid_channel_verdict proofs params outputs expected :
  Forall (λ p, 0 <= proof_amount p) proofs →
  sumZ (proof_amount <$> proofs) = funding_token_amount params → sumZ (proof_amount <$> proofs) <= u64_max →
  OutputsForOneContext_new "funding" (funding_token_amount params) params = Ok outputs →
  get_secrets_with_blinding outputs = Ok expected → Forall2 (good_funding_proof params) proofs expected →
  verify_valid_channel proofs params = Ok (id_verdict params).
Proof.
  intros Hpos Hs1 Hs2 Ho He Hf. unfold verify_valid_channel, id_verdict. rewrite Ho. cbn [mbind Result_bind]. rewrite He.
  fold (funding_errors params expected proofs).
  rewrite (proj2 (funding_errors_nil params expected proofs Hpos)) by done. rewrite app_nil_r.
  destruct (decide (keyset_id (keyset_info params) = computed_keyset_id (keyset_info params))) as [Hid|Hid].
  - by rewrite bool_decide_eq_false_2, bool_decide_eq_true_2 by auto.
  - by rewrite bool_decide_eq_true_2, bool_decide_eq_false_2 by auto.
Qed.

Lemma EstablishedChannel_new_spec params proofs c :
  Forall (λ p, 0 <= proof_amount p) proofs →
  EstablishedChannel_new params proofs = Ok c ↔
  c = mk_EstablishedChannel params proofs ∧
  Forall (λ p, proof_keyset_id p = keyset_id (keyset_info params)) proofs ∧
  sumZ (proof_amount <$> proofs) = funding_token_amount params ∧
  funding_token_amount params <= u64_max.
Proof.
  intros Hpos. unfold EstablishedChannel_new. split.
  - intros (us & Hid & (t & Ht & (ev & [= <-] & ([] & Hv & [= <-])%bind_Ok)%bind_Ok)%bind_Ok)%bind_Ok.
    apply checked_total_Ok in Ht as [-> Hle]; [|by apply Forall_fmap].
    apply ensure_Ok, Z.eqb_eq in Hv. split_and!; [done| |done|lia].
    apply try_map_Ok in Hid. clear -Hid. induction Hid as [|p [] ps us Hp _ IH]; constructor; [|done].
    by apply ensure_Ok, bool_decide_eq_true_1 in Hp.
  - intros (-> & Hid & Hsum & Hle).
    rewrite (try_map_ext_ok _ (λ _, tt)). 2: {
      intros p Hp. rewrite Forall_forall in Hid. rewrite (Hid p Hp). by rewrite bool_decide_eq_true_2. }
    cbn [mbind Result_bind].
    rewrite (proj2 (checked_total_Ok _ _ (funding_token_amount params) (proj2 (Forall_fmap _ _ _) Hpos)))
      by (rewrite Hsum; lia).
    cbn [mbind Result_bind get_total_funding_token_amount]. by rewrite Z.eqb_refl.
Qed.

(** C27: a channel is reported valid exactly when the keyset id is the one computed from the
    keys, the proofs are, position by position, proofs for the deterministic funding
    outputs (same secret and amount, a DLEQ with the derived blinding factor that
    verifies under the mint's key for the amount, no witness or P2BK key attached), and
    their total, computed without wrapping, is the funding amount. *)
Theorem verify_valid_channel_iff proofs params :
  Forall (λ p, 0 <= proof_amount p) proofs →
  verify_valid_channel proofs params = Ok verification_ok ↔
  keyset_id (keyset_info params) = computed_keyset_id (keyset_info params) ∧
  sumZ (proof_amount <$> proofs) = funding_token_amount params ∧
  sumZ (proof_amount <$> proofs) <= u64_max ∧
  ∃ outputs expected,
    OutputsForOneContext_new "funding" (funding_token_amount params) params = Ok outputs ∧
    get_secrets_with_blinding outputs = Ok expected ∧
    Forall2 (good_funding_proof params) proofs expected.
Proof. apply verify_valid_channel_spec. Qed.

(** an established channel is constructed exactly from proofs of the channel's keyset
    whose exact total is the funding amount. *)
Theorem EstablishedChannel_new_iff params proofs c :
  Forall (λ p, 0 <= proof_amount p) proofs →
  EstablishedChannel_new params proofs = Ok c ↔
  c = mk_EstablishedChannel params proofs ∧
  Forall (λ p, proof_keyset_id p = keyset_id (keyset_info params)) proofs ∧
  sumZ (proof_amount <$> proofs) = funding_token_amount params ∧
  funding_token_amount params <= u64_max.
Proof. apply EstablishedChannel_new_spec. Qed.

Lemma create_swap_request_inputs c proofs kid req :
  create_swap_request c proofs kid = Ok req → sr_inputs req = proofs.
Proof.
  unfold create_swap_request. intros (? & _ & (? & _ & [= <-])%bind_Ok)%bind_Ok.
  by destruct (commitment_mode _).
Qed.

Lemma sign_balance_update {HS : SecpLaws} {HB : SchnorrLaws} aux s balance c req0 k p ps :
  let params := ec_params (channel s) in
  public_key (alice_secret s) = sender_pubkey params →
  funding_proofs (channel s) = p :: ps → proof_witness p = None →
  for_balance balance params = Ok c →
  create_swap_request c (funding_proofs (channel s)) None = Ok req0 →
  get_sender_blinded_secret_key_for_stage1 params (alice_secret s) = Ok k →
  ∃ update req, create_signed_balance_update aux s balance = Ok (update, req) ∧
    bu_channel_id update = get_channel_id params ∧ bu_amount update = balance ∧
    sr_outputs req = sr_outputs req0 ∧
    verify_sender_signature update (channel s) = Ok tt.
Proof.
  intros params Hpk Hfp Hw Hc Hreq Hk. pose proof (create_swap_request_inputs _ _ _ _ Hreq) as Hin.
  rewrite Hfp in Hin. unfold create_signed_balance_update. fold params. rewrite Hc. simpl. rewrite Hreq. simpl.
  rewrite Hk. simpl. rewrite (sign_sig_all_first aux _ _ _ _ Hin Hw). simpl.
  set (sig := schnorr_sign aux k (sig_all_message_hash req0)).
  unfold from_signed_swap_request, get_signatures_from_swap_request, set_first_witness. simpl.
  rewrite Hin. simpl. rewrite signature_str_inv. simpl.
  eexists _, _. split_and!; [done..|].
  unfold verify_sender_signature. simpl. fold params. rewrite Hc. simpl. rewrite Hreq. simpl.
  apply bind_Ok in Hk as (r & Hr & Hk). unfold get_sender_blinded_pubkey_for_stage1. rewrite Hr. simpl.
  rewrite <-Hpk, (derive_blinded_agree _ _ _ Hk). simpl. unfold verify_swap_signature, sig.
  by rewrite schnorr_complete.
Qed.
(** Whatever [create_signed_balance_update] produced verifies. *)
Lemma created_update_verifies {HS : SecpLaws} {HB : SchnorrLaws} aux s balance update req p ps :
  public_key (alice_secret s) = sender_pubkey (ec_params (channel s)) →
  funding_proofs (channel s) = p :: ps → proof_witness p = None →
  create_signed_balance_update aux s balance = Ok (update, req) →
  bu_amount update = balance ∧ verify_sender_signature update (channel s) = Ok tt.
Proof.
  intros Hpk Hfp Hw Hcr. pose proof Hcr as Hcr'. unfold create_signed_balance_update in Hcr'.
  apply bind_Ok in Hcr' as (c & Hc & Hcr'). apply bind_Ok in Hcr' as (req0 & Hreq & Hcr').
  apply bind_Ok in Hcr' as (k & Hk & _).
  destruct (sign_balance_update aux s balance c req0 k p ps) as (u & r & Hu & _ & Ha & _ & Hv); [done..|].
  rewrite Hcr in Hu. by injection Hu as -> ->.
Qed.

(** every balance update the sender can sign is accepted: if the commitment, its swap
    and the sender's blinded key can be derived, signing succeeds, the update names the
    channel and the balance, and the receiver, who rebuilds the swap from the amount,
    verifies its signature. *)
Theorem balance_update_accepted {HS : SecpLaws} {HB : SchnorrLaws} aux s balance c req0 k p ps :
  let params := ec_params (channel s) in
  public_key (alice_secret s) = sender_pubkey params →
  funding_proofs (channel s) = p :: ps → proof_witness p = None →
  for_balance balance params = Ok c →
  create_swap_request c (funding_proofs (channel s)) None = Ok req0 →
  get_sender_blinded_secret_key_for_stage1 params (alice_secret s) = Ok k →
  ∃ update req, create_signed_balance_update aux s balance = Ok (update, req) ∧
    bu_channel_id update = get_channel_id params ∧ bu_amount update = balance ∧
    sr_outputs req = sr_outputs req0 ∧
    verify_sender_signature update (channel s) = Ok tt.
Proof. apply sign_balance_update. Qed.
End theorems.

(** ** Concrete inputs *)

Module Examples.
#[local] Existing Instance Toy.types.
#[local] Existing Instance Toy.ops.
#[local] Existing Instance Toy.secp_laws.
#[local] Existing Instance Toy.schnorr_laws.
#[local] Existing Instance Toy.dhke_laws.
Import Deterministic.Examples.

(** A keyset whose id is computed from its keys, and the channel of [Params.Examples] over it. *)
Definition keys : Keys := [(1, 11); (2, 12); (4, 14); (8, 18); (16, 26)].
Definition keyset : KeysetInfo := KeysetInfo_new (id_v1_from_keys keys) "sat" keys 100 None.
Definition params : ChannelParameters :=
  mk_ChannelParameters Ordinary 5 8 "http://mint" "sat" 20 25 2000 1000 keyset 0
    (compute_channel_secret 5 8).

(** Its parameters are in the range of the theorems. *)
Lemma example_params_sound : sound_params params.
Proof.
  split; [vm_compute; reflexivity|].
  split; [refine (bool_decide_unpack (wf_keyset _) _); vm_compute; exact I|].
  split; [refine (bool_decide_unpack (1 ∈ amounts_largest_first _) _); vm_compute; exact I|].
  do 2 (split; [split; [vm_compute; discriminate|vm_compute; reflexivity]|]).
  vm_compute. discriminate.
Qed.

(** The funding proofs an honest mint issues for it. *)
Definition funding_outputs : list DeterministicSecretWithBlinding :=
  get_ok [] (outputs ← OutputsForOneContext_new "funding" 25 params; get_secrets_with_blinding outputs).
Definition funding_proof (o : DeterministicSecretWithBlinding) : Proof :=
  mk_Proof (ds_amount o) (keyset_id keyset) (ds_secret o)
    (((ds_amount o + 10) * Toy.point (bytes_of_string (ds_secret o))) mod Toy.order)
    None (Some (ds_blinding_factor o)) None.
Definition proofs : list Proof := Eval vm_compute in funding_proof <$> funding_outputs.

Example channel_is_valid : verify_valid_channel proofs params = Ok verification_ok.
Proof. vm_compute. reflexivity. Qed.
Example swapped_proofs_are_rejected : verify_valid_channel (reverse proofs) params ≠ Ok verification_ok.
Proof. vm_compute. discriminate. Qed.

Lemma verify_valid_channel_iff_witness : sumZ (proof_amount <$> proofs) = funding_token_amount params.
Proof.
  apply (verify_valid_channel_iff proofs params).
  - repeat constructor; done.
  - exact channel_is_valid.
Defined.
Lemma EstablishedChannel_new_iff_witness :
  EstablishedChannel_new params proofs = Ok (mk_EstablishedChannel params proofs).
Proof.
  apply (EstablishedChannel_new_iff params proofs).
  - repeat constructor; done.
  - split_and!; [done|repeat constructor; vm_compute; reflexivity|vm_compute; reflexivity|done].
Defined.

Definition sender : SpilmanChannelSender := mk_SpilmanChannelSender (5 : SecretKey) (mk_EstablishedChannel params proofs).
Definition commit10 : CommitmentOutputs :=
  get_ok (mk_CommitmentOutputs (no_outputs "receiver") (no_outputs "sender")) (for_balance 10 params).
Definition req10 : SwapRequest := get_ok (SwapRequest_new [] []) (create_swap_request commit10 proofs None).
Definition key10 : SecretKey := get_ok (0 : SecretKey) (get_sender_blinded_secret_key_for_stage1 params (5 : SecretKey)).
Lemma balance_update_accepted_witness :
  ∃ update req, create_signed_balance_update [7] sender 10 = Ok (update, req) ∧
    verify_sender_signature update (channel sender) = Ok tt.
Proof.
  destruct proofs as [|p ps] eqn:E; [discriminate|].
  destruct (balance_update_accepted [7] sender 10 commit10 req10 key10 (hd p proofs) (tl proofs))
    as (u & r & Hu & _ & _ & _ & Hv).
  - reflexivity.
  - reflexivity.
  - reflexivity.
  - vm_compute. reflexivity.
  - vm_compute. reflexivity.
  - vm_compute. reflexivity.
  - exact (ex_intro _ u (ex_intro _ r (conj Hu Hv))).
Defined.
End Examples.
