(* ===== verification/Mint.v ===== *)
(** * Talking to mints: response evidence, keyset selection, the retry rule
    ([mint_outcome.rs], [keyset_versions.rs] and [keyset_retry.rs] of
    [crates/cdk-spilman/src])

    How a mint's answer is classified, how an output keyset is selected from a mint's
    listing, and the helper that submits a swap, and, only after a rejection that
    names the keyset, once more with a different keyset. *)

From S2P Require Import Prelude Cashu Toy.
From Stdlib Require Import Ascii.

(** ** Outcomes of requests ([mint_outcome.rs]) *)

Record MintResponse := mk_MintResponse { mr_status : Z; mr_body : string }.
Record MintRejection := mk_MintRejection { rej_status : Z; rej_code : Z; rej_detail : string }.
Inductive MintRequestError :=
| Rejected (rejection : MintRejection)
| Http (response : MintResponse)
| Transport (message : string).

(** [TryFrom<RejectionFields>]. *)
Definition MintRejection_try_from (status code : Z) (detail : string) : Result string MintRejection :=
  if negb (status =? 400) then Err "NUT-00 rejection must have HTTP status 400"
  else Ok (mk_MintRejection status code detail).

Definition rejection_permits_keyset_retry (r : MintRejection) : bool :=
  (rej_status r =? 400) && ((rej_code r =? 12001) || (rej_code r =? 12002)).

Definition rejection (e : MintRequestError) : option MintRejection :=
  match e with Rejected r => Some r | _ => None end.
Definition permits_keyset_retry (e : MintRequestError) : bool :=
  match rejection e with
  | Some r => (rej_status r =? 400) && rejection_permits_keyset_retry r
  | None => false
  end.

(** [Display]. *)
Definition MintRequestError_to_string (e : MintRequestError) : string :=
  match e with
  | Rejected r => "mint rejected request (HTTP " +:+ pretty (rej_status r) +:+ ", NUT-00 "
                  +:+ pretty (rej_code r) +:+ ")"
  | Http r => "unclassified mint HTTP response " +:+ pretty (mr_status r)
  | Transport m => "mint transport failure: " +:+ m
  end.

Section outcome.
(** The derived parsers of [MintResponse] and of the NUT-00 error body ([code : u32],
    [detail]). *)
Context (response_from_json : string → option MintResponse).
Context (nut00_from_json : string → option (Z * string)).

Definition into_result (r : MintResponse) : Result MintRequestError string :=
  if (200 <=? mr_status r) && (mr_status r <? 300) then Ok (mr_body r)
  else
    match (if mr_status r =? 400 then nut00_from_json (mr_body r) else None) with
    | Some (code, detail) => Err (Rejected (mk_MintRejection (mr_status r) code detail))
    | None => Err (Http r)
    end.

Definition from_callback (result : Result string string) : Result MintRequestError string :=
  wire ← map_err Transport result;
  response ← ok_or (Transport "invalid mint response envelope") (response_from_json wire);
  if negb ((100 <=? mr_status response) && (mr_status response <? 600))
  then Err (Transport "invalid mint HTTP status")
  else into_result response.
End outcome.

(** ** Keyset versions ([keyset_versions.rs]) *)

Inductive KeysetVersion := V1 | V2.
#[global] Instance KeysetVersion_eq : EqDecision KeysetVersion.
Proof. solve_decision. Defined.

(** A set of versions is a [u8] of flags. *)
Definition KeysetVersions := Z.
Definition version_bit (v : KeysetVersion) : Z := match v with V1 => 1 | V2 => 2 end.
Definition V1_AND_V2 : KeysetVersions := 3.
Definition library_supported : KeysetVersions := V1_AND_V2.
Definition versions_contains (s : KeysetVersions) (v : KeysetVersion) : bool :=
  negb (Z.land s (version_bit v) =? 0).
Definition versions_from_vec (l : list KeysetVersion) : KeysetVersions :=
  foldl (λ bits v, Z.lor bits (version_bit v)) 0 l.
Definition versions_to_vec (s : KeysetVersions) : list KeysetVersion :=
  filter (λ v, versions_contains s v = true) [V1; V2].

Record SkippedKeysetVersion := mk_SkippedKeysetVersion {
  version_byte : Z; skipped_unit : option string; skipped_active : bool;
}.

(** [BTreeSet<Option<String>>]: [None] first, then the strings in byte order. *)
Definition opt_string_compare (a b : option string) : comparison :=
  match a, b with
  | None, None => Eq | None, Some _ => Lt | Some _, None => Gt
  | Some a, Some b => String.compare a b
  end.
Fixpoint set_insert (x : option string) (s : list (option string)) : list (option string) :=
  match s with
  | [] => [x]
  | y :: s' =>
      match opt_string_compare x y with
      | Lt => x :: s | Eq => s | Gt => y :: set_insert x s'
      end
  end.

Section versions.
Context {T : CashuTypes} {O : CashuOps}.
(** The derived parser of [cashu::nuts::KeySetInfo]: id, unit and whether it is active. *)
Context (keyset_meta_from_value : Value → Result string (Id * CurrencyUnit * bool)).

Record KeysetDiscovery := mk_KeysetDiscovery {
  kd_keysets : list Value;
  kd_skipped : list SkippedKeysetVersion;
  unsupported_active_units : list (option string);
}.

Definition allows (s : KeysetVersions) (id : Id) : bool :=
  versions_contains s (match id_version id with Version00 => V1 | Version01 => V2 end).

(** The value of an ASCII hex digit. *)
Definition hexdigit (c : ascii) : option Z :=
  let v := Z.of_N (N_of_ascii c) in
  if (48 <=? v) && (v <=? 57) then Some (v - 48)
  else if (97 <=? v) && (v <=? 102) then Some (v - 87)
  else if (65 <=? v) && (v <=? 70) then Some (v - 55)
  else None.
Definition prefix_byte (raw : string) : Result string Z :=
  match raw with
  | String c (String d _) =>
      match hexdigit c, hexdigit d with
      | Some h, Some l => Ok (16 * h + l)
      | _, _ => Err "Keyset ID must start with a hex version byte"
      end
  | _ => Err "Keyset ID must start with a hex version byte"
  end.
Definition supported_keyset_id (raw : string) : Result string (option Id) :=
  byte ← prefix_byte raw;
  if 1 <? byte then Ok None
  else Some <$> map_err (λ e, "Invalid supported keyset ID: " +:+ e) (id_from_str raw).

(** The accumulators of the loop over the listing's entries. *)
Record DiscoveryState := mk_DiscoveryState {
  st_keysets : list Value; st_skipped : list SkippedKeysetVersion;
  supported_active : list (option string); unsupported_active : list (option string);
}.
Definition discover_entry (st : DiscoveryState) (entry : Value) : Result string DiscoveryState :=
  raw ← ok_or "Missing or invalid keyset id" (idx_str entry "id");
  let unit := idx_str entry "unit" in
  let active := default false (idx_bool entry "active") in
  supported ← supported_keyset_id raw;
  match supported with
  | Some _ =>
      _ ← map_err (λ e, "Invalid supported keyset metadata: " +:+ e) (keyset_meta_from_value entry);
      Ok (mk_DiscoveryState (st_keysets st ++ [entry]) (st_skipped st)
            (if active then set_insert unit (supported_active st) else supported_active st)
            (unsupported_active st))
  | None =>
      byte ← prefix_byte raw;
      Ok (mk_DiscoveryState (st_keysets st)
            (st_skipped st ++ [mk_SkippedKeysetVersion byte unit active]) (supported_active st)
            (if active then set_insert unit (unsupported_active st) else unsupported_active st))
  end.

(** [KeysetDiscovery::from_json]. *)
Definition discovery_from_json (json : string) : Result string KeysetDiscovery :=
  response ← json_parse json;
  entries ← ok_or "Invalid /v1/keysets response: missing 'keysets' array"
    (json_get response "keysets" ≫= json_as_array);
  st ← try_fold discover_entry (mk_DiscoveryState [] [] [] []) entries;
  Ok (mk_KeysetDiscovery (st_keysets st) (st_skipped st)
        (filter (λ u, u ∉ supported_active st) (unsupported_active st))).

(** The [Debug] text of a version list. *)
Definition debug_versions (l : list KeysetVersion) : string :=
  "[" +:+ match l with
          | [] => "" | [V1] => "V1" | [V2] => "V2"
          | V1 :: _ => "V1, V2" | V2 :: _ => "V2, V1"
          end +:+ "]".

Fixpoint select_loop (entries : list Value) (unit : string) (allowed : KeysetVersions) :
    Result string Id :=
  match entries with
  | [] => Err ("No compatible active keyset for unit '" +:+ unit +:+ "' with allowed versions "
               +:+ debug_versions (versions_to_vec allowed))
  | entry :: entries =>
      '(id, u, active) ← keyset_meta_from_value entry;
      if active && bool_decide (unit_to_string u = unit) && allows allowed id then Ok id
      else select_loop entries unit allowed
  end.
Definition select_active (d : KeysetDiscovery) (unit : string) (allowed : KeysetVersions) :
    Result string Id :=
  select_loop (kd_keysets d) unit allowed.
End versions.

(** ** One retry with a fresh keyset ([keyset_retry.rs])

    The callbacks are stateful closures; they act on a state [W]. *)

Record SelectedOutputKeyset := mk_SelectedOutputKeyset { sok_id : string; sok_info_json : string }.

Record KeysetRetrySuccess (A V : Type) := mk_KeysetRetrySuccess {
  krs_attempt : A; krs_value : V; krs_retried : bool;
}.
Arguments mk_KeysetRetrySuccess {A V}.
Arguments krs_attempt {A V}.
Arguments krs_value {A V}.
Arguments krs_retried {A V}.

Inductive KeysetRetryError (A P S : Type) :=
| RetrySelect (error : P)
| RetryPrepare (error : P)
| RetryRefresh (error : P)
| RetryCleanup (error : P)
| RetrySubmit (attempt : A) (error : S) (retried : bool)
| RetryKeysetUnchanged (attempt : A) (error : S) (keyset_id : string).
Arguments RetrySelect {A P S}. Arguments RetryPrepare {A P S}. Arguments RetryRefresh {A P S}.
Arguments RetryCleanup {A P S}. Arguments RetrySubmit {A P S}. Arguments RetryKeysetUnchanged {A P S}.

Section retry.
Context {W K A V P S : Type}.
Context (selected_id : K → string).
Context (select : M W P K) (prepare : K → M W P A) (submit : A → M W S V).
Context (should_retry : S → W → W * bool) (refresh : M W P unit) (cleanup : A → S → M W P unit).

(** [with_active_keyset_retry]; the asynchronous version makes the same calls in the same
    order. *)
Definition with_active_keyset_retry : M W (KeysetRetryError A P S) (KeysetRetrySuccess A V) :=
  keyset ← mmap_err RetrySelect select;
  let keyset_id := selected_id keyset in
  attempt ← mmap_err RetryPrepare (prepare keyset);
  match_call (submit attempt)
    (λ value, lift (Ok (mk_KeysetRetrySuccess attempt value false)))
    (λ error, λ w, let '(w, retry) := should_retry error w in
      (if retry : bool then
        _ ← mmap_err RetryCleanup (cleanup attempt error);
        _ ← mmap_err RetryRefresh refresh;
        retry_keyset ← mmap_err RetrySelect select;
        if bool_decide (selected_id retry_keyset = keyset_id) then
          lift (Err (RetryKeysetUnchanged attempt error keyset_id))
        else
          attempt ← mmap_err RetryPrepare (prepare retry_keyset);
          match_call (submit attempt)
            (λ value, lift (Ok (mk_KeysetRetrySuccess attempt value true)))
            (λ error, lift (Err (RetrySubmit attempt error true)))
      else lift (Err (RetrySubmit attempt error false))) w).
End retry.

(** ** Theorems *)

(** a mint's answer permits a retry with another keyset exactly when it is a complete
    HTTP 400 response whose body parses as a NUT-00 error with code 12001 or 12002; a
    failure reported by the transport never does, whatever its text; success is exactly a
    2xx status within the envelope. *)
Theorem retry_permission_iff response_from_json nut00_from_json result :
  (∃ e, from_callback response_from_json nut00_from_json result = Err e ∧ permits_keyset_retry e = true) ↔
  ∃ wire r code detail, result = Ok wire ∧ response_from_json wire = Some r ∧ mr_status r = 400 ∧
    nut00_from_json (mr_body r) = Some (code, detail) ∧ (code = 12001 ∨ code = 12002).
Proof.
  unfold from_callback, into_result. split.
  - intros (e & He & Hp). destruct result as [wire|m|]; simpl in He; [|simplify_eq; done|done].
    destruct (response_from_json wire) as [r|] eqn:Hr; simpl in He; [|simplify_eq; done].
    destruct (negb _) eqn:Hs; [simplify_eq; done|].
    destruct ((200 <=? mr_status r) && (mr_status r <? 300)) eqn:H2; [done|].
    destruct (mr_status r =? 400) eqn:H4; [|simplify_eq; done].
    destruct (nut00_from_json (mr_body r)) as [[code detail]|] eqn:Hn; [|simplify_eq; done].
    injection He as <-. unfold permits_keyset_retry, rejection_permits_keyset_retry in Hp. simpl in Hp.
    exists wire, r, code, detail. split_and!; [done..|lia|done|lia].
  - intros (wire & r & code & detail & -> & Hr & Hs & Hn & Hc). simpl. rewrite Hr. simpl.
    rewrite Hs, Hn. simpl. eexists; split; [done|].
    unfold permits_keyset_retry, rejection_permits_keyset_retry. simpl. destruct Hc as [-> | ->]; done.
Qed.

(** version sets convert to lists and back without loss, and a set built from a list
    contains exactly the listed versions. *)
Theorem versions_roundtrip :
  (∀ s, 0 <= s <= 3 → versions_from_vec (versions_to_vec s) = s) ∧
  (∀ l v, versions_contains (versions_from_vec l) v = true ↔ v ∈ l).
Proof.
  split.
  - intros s Hs. assert (s = 0 ∨ s = 1 ∨ s = 2 ∨ s = 3) as [->|[->|[->| ->]]] by lia; reflexivity.
  - assert (∀ l b v, versions_contains (foldl (λ bits v, Z.lor bits (version_bit v)) b l) v = true
      ↔ versions_contains b v = true ∨ v ∈ l) as Hgen.
    { induction l as [|w l IH]; intros b v; simpl; [set_solver|]. rewrite IH, elem_of_cons.
      assert (versions_contains (Z.lor b (version_bit w)) v = versions_contains b v || bool_decide (v = w)) as ->.
      { unfold versions_contains. rewrite Z.land_lor_distr_l.
        destruct (decide (v = w)) as [->|Hne].
        - rewrite bool_decide_eq_true_2, orb_true_r, Z.land_diag by done.
          destruct (Z.eqb_spec (Z.lor (Z.land b (version_bit w)) (version_bit w)) 0) as [E|]; [|done].
          apply Z.lor_eq_0_iff in E as [_ E]. by destruct w.
        - rewrite bool_decide_eq_false_2, orb_false_r by done.
          assert (Z.land (version_bit w) (version_bit v) = 0) as -> by (by destruct v, w).
          by rewrite Z.lor_0_r. }
      rewrite orb_true_iff, bool_decide_eq_true. tauto. }
    intros l v. unfold versions_from_vec. rewrite Hgen. unfold versions_contains. rewrite Z.land_0_l. simpl.
    naive_solver.
Qed.

Section select_theorems.
Context {T : CashuTypes} {O : CashuOps}.
Context (meta : Value → Result string (Id * CurrencyUnit * bool)).

(** An entry that may be selected, with its id. *)
Definition eligible (unit : string) (allowed : KeysetVersions) (entry : Value) (id : Id) : Prop :=
  ∃ u, meta entry = Ok (id, u, true) ∧ unit_to_string u = unit ∧ allows allowed id = true.

Lemma discover_entries_parse entries st st' :
  Forall (λ e, is_ok (meta e) = true) (st_keysets st) →
  try_fold (discover_entry meta) st entries = Ok st' →
  Forall (λ e, is_ok (meta e) = true) (st_keysets st') ∧
  ∀ e, e ∈ st_keysets st' → e ∈ st_keysets st ∨ e ∈ entries.
Proof.
  revert st. induction entries as [|e entries IH]; intros st Hst; simpl.
  { intros [= <-]. auto. }
  intros (st1 & H1 & H)%bind_Ok.
  assert (Forall (λ e, is_ok (meta e) = true) (st_keysets st1) ∧
    (st_keysets st1 = st_keysets st ∨ st_keysets st1 = st_keysets st ++ [e])) as [Hst1 Heq].
  { unfold discover_entry in H1.
    apply bind_Ok in H1 as (raw & _ & (sup & _ & H1)%bind_Ok). destruct sup.
    - apply bind_Ok in H1 as (m & Hm%map_err_Ok & [= <-]). simpl. split; [|by right].
      apply Forall_app. split; [done|]. constructor; [|done]. by rewrite Hm.
    - apply bind_Ok in H1 as (b & _ & [= <-]). simpl. auto. }
  apply IH in H as [Hok Hsub]; [|done]. split; [done|]. intros x Hx.
  destruct (Hsub x Hx) as [Hin|Hin]; [|right; by right].
  destruct Heq as [Heq|Heq]; rewrite Heq in Hin; [by left|].
  apply elem_of_app in Hin as [?| ->%list_elem_of_singleton]; [by left|right; left].
Qed.

Lemma select_loop_spec entries unit allowed :
  Forall (λ e, is_ok (meta e) = true) entries →
  match select_loop meta entries unit allowed with
  | Ok id => ∃ pre e post, entries = pre ++ e :: post ∧ eligible unit allowed e id ∧
               ∀ e' id', e' ∈ pre → ¬ eligible unit allowed e' id'
  | Err _ => ∀ e id, e ∈ entries → ¬ eligible unit allowed e id
  | Diverge => False
  end.
Proof.
  induction 1 as [|e entries He _ IH]; simpl; [set_solver|].
  destruct (meta e) as [[[id u] a]|err|] eqn:Hm; [|done..]. simpl.
  destruct (a && bool_decide (unit_to_string u = unit) && allows allowed id) eqn:Hc.
  - apply andb_prop in Hc as [[-> Hu%bool_decide_eq_true_1]%andb_prop Ha].
    exists [], e, entries. split_and!; [done|by exists u|set_solver].
  - assert (∀ id', ¬ eligible unit allowed e id') as Hne.
    { intros id' (u' & Hm' & <- & Ha). rewrite Hm in Hm'. simplify_eq.
      rewrite bool_decide_eq_true_2, Ha in Hc by done. done. }
    destruct (select_loop meta entries unit allowed) as [id'|err|].
    + destruct IH as (pre & e' & post & -> & Hel & Hpre).
      exists (e :: pre), e', post. split_and!; [done..|].
      intros x id'' [->|Hx]%elem_of_cons; [apply Hne|by apply Hpre].
    + intros x id' [->|Hx]%elem_of_cons; [apply Hne|by apply IH].
    + done.
Qed.

(** from a listing the discovery accepted, selection returns the id of the first entry
    that is active, has the unit and an allowed version, and fails exactly when no entry
    of the listing qualifies; every entry it can select came from the mint's listing. *)
Theorem select_active_first json d unit allowed :
  discovery_from_json meta json = Ok d →
  match select_active meta d unit allowed with
  | Ok id => ∃ pre e post, kd_keysets d = pre ++ e :: post ∧ eligible unit allowed e id ∧
               ∀ e' id', e' ∈ pre → ¬ eligible unit allowed e' id'
  | Err _ => ∀ e id, e ∈ kd_keysets d → ¬ eligible unit allowed e id
  | Diverge => False
  end ∧
  ∀ e, e ∈ kd_keysets d → ∃ response entries, json_parse json = Ok response ∧
    json_get response "keysets" ≫= json_as_array = Some entries ∧ e ∈ entries.
Proof.
  unfold discovery_from_json.
  intros (resp & Hr & (entries & Hent%ok_or_Ok & (st & Hst & [= <-])%bind_Ok)%bind_Ok)%bind_Ok.
  apply discover_entries_parse in Hst as [Hok Hsub]; [|constructor]. split.
  - by apply select_loop_spec.
  - intros e He. simpl in He. destruct (Hsub e He) as [Hin|Hin]; [by apply elem_of_nil in Hin|]. eauto.
Qed.
End select_theorems.

Section retry_theorems.
Context {W K A V P S : Type}.
Context (selected_id : K → string).
Context (select : M W P K) (prepare : K → M W P A) (submit : A → M W S V).
Context (should_retry : S → W → W * bool) (refresh : M W P unit) (cleanup : A → S → M W P unit).

(** What every callback preserves, the helper preserves, and a success reports an attempt
    prepared in a state where it holds. *)
Lemma retry_invariant (P' : W → Prop) w :
  P' w → (∀ w, P' w → P' (select w).2) → (∀ k w, P' w → P' (prepare k w).2) →
  (∀ a w, P' w → P' (submit a w).2) → (∀ e w, P' w → P' (should_retry e w).1) →
  (∀ w, P' w → P' (refresh w).2) → (∀ a e w, P' w → P' (cleanup a e w).2) →
  let r := with_active_keyset_retry selected_id select prepare submit should_retry refresh cleanup w in
  P' r.2 ∧ ∀ s, r.1 = Ok s →
    ∃ k v u, P' v ∧ (prepare k v).1 = Ok (krs_attempt s) ∧ (submit (krs_attempt s) u).1 = Ok (krs_value s).
Proof.
  intros H0 Hsel Hprep Hsub Hretry Href Hclean. cbv zeta.
  unfold with_active_keyset_retry, mbind, M_bind, mmap_err, match_call, lift.
  pose proof (Hsel w H0) as H1. destruct (select w) as [[k1|e1|] w1]; cbn [fst snd map_err] in *; [|done..].
  pose proof (Hprep k1 w1 H1) as H2.
  destruct (prepare k1 w1) as [[a1|e2|] w2] eqn:Ep1; cbn [fst snd map_err] in *; [|done..].
  pose proof (Hsub a1 w2 H2) as H3.
  destruct (submit a1 w2) as [[v|e3|] w3] eqn:Es1; cbn [fst snd map_err] in *; [| |done].
  { split; [done|]. intros s [= <-]. exists k1, w1, w2. cbn. by rewrite Ep1, Es1. }
  pose proof (Hretry e3 w3 H3) as H4. destruct (should_retry e3 w3) as [w4 []]; cbn [fst snd] in *; [|done].
  pose proof (Hclean a1 e3 w4 H4) as H5. destruct (cleanup a1 e3 w4) as [[[]|e4|] w5]; cbn [fst snd map_err] in *; [|done..].
  pose proof (Href w5 H5) as H6. destruct (refresh w5) as [[[]|e5|] w6]; cbn [fst snd map_err] in *; [|done..].
  pose proof (Hsel w6 H6) as H7. destruct (select w6) as [[k2|e6|] w7]; cbn [fst snd map_err] in *; [|done..].
  case_bool_decide; [done|].
  pose proof (Hprep k2 w7 H7) as H8.
  destruct (prepare k2 w7) as [[a2|e7|] w8] eqn:Ep2; cbn [fst snd map_err] in *; [|done..].
  pose proof (Hsub a2 w8 H8) as H9.
  destruct (submit a2 w8) as [[v|e8|] w9] eqn:Es2; cbn [fst snd] in *; [|done..].
  split; [done|]. intros s [= <-]. exists k2, w7, w8. cbn. by rewrite Ep2, Es2.
Qed.

(** The same callbacks with a log of the submissions. *)
Definition logged {E B} (m : M W E B) : M (W * list A) E B :=
  λ wl, let '(r, w) := m wl.1 in (r, (w, wl.2)).
Definition logged_submit (a : A) : M (W * list A) S V :=
  λ wl, let '(r, w) := submit a wl.1 in (r, (w, wl.2 ++ [a])).
Definition logged_should_retry (e : S) (wl : W * list A) : (W * list A) * bool :=
  let '(w, b) := should_retry e wl.1 in ((w, wl.2), b).
Definition logged_retry : M (W * list A) (KeysetRetryError A P S) (KeysetRetrySuccess A V) :=
  with_active_keyset_retry selected_id (logged select) (λ k, logged (prepare k)) logged_submit
    logged_should_retry (logged refresh) (λ a e, logged (cleanup a e)).

(** A failed first submission after which a second one is allowed. *)
Definition retryable (a : A) (k1 k2 : K) : Prop :=
  ∃ w e w', (submit a w).1 = Err e ∧ (should_retry e w').2 = true ∧ selected_id k2 ≠ selected_id k1.

(** C35: the helper submits at most twice; a second submission happens only after the first
    one failed with an error that permits a retry and for a keyset different from the
    first; a success reports its own attempt and whether it was the retry. *)
Theorem retry_at_most_once w w' log r :
  logged_retry (w, []) = (r, (w', log)) →
  (log = [] ∨ (∃ a, log = [a]) ∨
   ∃ a1 a2 k1 k2, log = [a1; a2] ∧ retryable a1 k1 k2 ∧
     (∃ v, (prepare k1 v).1 = Ok a1) ∧ (∃ v, (prepare k2 v).1 = Ok a2)) ∧
  (∀ s, r = Ok s → if krs_retried s then ∃ a1, log = [a1; krs_attempt s] else log = [krs_attempt s]).
Proof.
  unfold logged_retry, with_active_keyset_retry, mbind, M_bind, mmap_err, match_call, logged,
    logged_submit, logged_should_retry, lift. simpl.
  destruct (select w) as [[k1|e1|] w1] eqn:Hs1; [|intros [= <- <- <-]; naive_solver..]. simpl.
  destruct (prepare k1 w1) as [[a1|e2|] w2] eqn:Hp1; [|intros [= <- <- <-]; naive_solver..]. simpl.
  destruct (submit a1 w2) as [[v|e3|] w3] eqn:Hsub1; [intros [= <- <- <-]; naive_solver| |intros [= <- <- <-]; naive_solver].
  simpl.
  destruct (should_retry e3 w3) as [w4 []] eqn:Hr; [|intros [= <- <- <-]; naive_solver]. simpl.
  destruct (cleanup a1 e3 w4) as [[[]|e4|] w5] eqn:Hcl; [|intros [= <- <- <-]; naive_solver..]. simpl.
  destruct (refresh w5) as [[[]|e5|] w6] eqn:Href; [|intros [= <- <- <-]; naive_solver..]. simpl.
  destruct (select w6) as [[k2|e6|] w7] eqn:Hs2; [|intros [= <- <- <-]; naive_solver..]. simpl.
  case_bool_decide as Hid; [intros [= <- <- <-]; naive_solver|]. simpl.
  destruct (prepare k2 w7) as [[a2|e7|] w8] eqn:Hp2; [|intros [= <- <- <-]; naive_solver..]. simpl.
  assert (retryable a1 k1 k2) as Hretry by (exists w2, e3, w3; by rewrite Hsub1, Hr).
  assert (∃ v, (prepare k1 v).1 = Ok a1) as Hq1 by (exists w1; by rewrite Hp1).
  assert (∃ v, (prepare k2 v).1 = Ok a2) as Hq2 by (exists w7; by rewrite Hp2).
  destruct (submit a2 w8) as [[v|e8|] w9]; intros [= <- <- <-];
    (split; [right; right; by exists a1, a2, k1, k2|]); intros s Hs; try done.
  injection Hs as <-. simpl. eauto.
Qed.
End retry_theorems.

(** ** Concrete inputs *)

Module Examples.
#[local] Existing Instance Toy.types.
#[local] Existing Instance Toy.ops.

Definition meta (v : Value) : Result string (Id * CurrencyUnit * bool) :=
  id ← ok_or "id" (idx_str v "id"); u ← ok_or "unit" (idx_str v "unit");
  a ← ok_or "active" (idx_bool v "active"); Ok (id, u, a).
Definition entry (id unit : string) (active : bool) : Value :=
  json_obj [("id", json_str id); ("unit", json_str unit); ("active", GenLeaf (inr active))].
Definition listing : string :=
  json_print (json_obj [("keysets", GenNode 2 [entry "00aa" "sat" false; entry "02ff" "sat" true;
    entry "01bb" "usd" true; entry "00cc" "sat" true; entry "00dd" "sat" true])]).
Definition discovered : KeysetDiscovery :=
  match discovery_from_json meta listing with Ok d => d | _ => mk_KeysetDiscovery [] [] [] end.
Example selected : select_active meta discovered "sat" V1_AND_V2 = Ok "00cc".
Proof. vm_compute. reflexivity. Qed.

Lemma select_active_first_witness :
  ∃ pre e post, kd_keysets discovered = pre ++ e :: post ∧ eligible meta "sat" V1_AND_V2 e "00cc".
Proof.
  destruct (select_active_first meta listing discovered "sat" V1_AND_V2) as [H _].
  - vm_compute. reflexivity.
  - rewrite selected in H. destruct H as (pre & e & post & H1 & H2 & _). eauto.
Defined.

(** A mint that rejects the first keyset: the state counts selections. *)
Definition select : M nat string string :=
  λ n, (Ok (if bool_decide (n = 0%nat) then "00cc" else "00dd"), S n).
Definition submit (a : string) : M nat MintRequestError string :=
  λ n, (if bool_decide (a = "00cc") then Err (Rejected (mk_MintRejection 400 12002 "inactive"))
        else Ok "signed", n).
Definition run : _ :=
  logged_retry id select (λ k, lift (Ok k)) submit (λ e w, (w, permits_keyset_retry e)) (lift (Ok tt))
    (λ _ _, lift (Ok tt)) (0%nat, []).
Lemma retry_at_most_once_witness :
  ∃ w, run = (Ok (mk_KeysetRetrySuccess "00dd" "signed" true), (w, ["00cc"; "00dd"]))
  ∧ ∃ a1, ["00cc"; "00dd"] = [a1; "00dd"].
Proof.
  exists 2%nat. split; [vm_compute; reflexivity|].
  refine (proj2 (retry_at_most_once id select (λ k, lift (Ok k)) submit
    (λ e w, (w, permits_keyset_retry e)) (lift (Ok tt)) (λ _ _, lift (Ok tt)) 0%nat 2%nat _ _ _)
    (mk_KeysetRetrySuccess "00dd" "signed" true) eq_refl).
  vm_compute. reflexivity.
Defined.
Lemma versions_roundtrip_witness : versions_from_vec (versions_to_vec 2) = 2.
Proof. exact (proj1 versions_roundtrip 2 ltac:(lia)). Defined.
End Examples.
