(* ===== verification/Storage.v ===== *)
(** * Channel storage of the receiver ([configurable_host.rs], [bridge.rs])

    The data a receiver keeps per channel, the trait [SpilmanStorage] as a class of
    operations, its two implementations [MemoryStorage] and [SqliteStorage], and an
    abstract specification of the trait: [spec_step] says, on the view of one channel,
    when an operation succeeds and what it changes. Both implementations are proved to
    refine it ([StorageSpec]); the host and the bridge use only the specification.

    Locks are not poisoned and SQLite statements do not fail with I/O errors: the
    errors of the model are the ones the code itself raises. Every operation runs
    under one mutex ([close_gate], [conn]) or changes one map, so that concurrent callers interleave
    whole operations. *)

From S2P Require Import Prelude Cashu.

(** ** Data ([bridge.rs]) *)

Record ChannelFunding := mk_ChannelFunding {
  params_json : string;
  funding_proofs_json : string;
  channel_secret_hex : string;
  keyset_info_json : string;
}.
Record PaymentProof := mk_PaymentProof { pp_balance : Z; pp_signature : string }.
Inductive ChannelState := Open | Closing | Closed.
Record ClosingData := mk_ClosingData {
  cd_expiry_timestamp : Z;
  cd_balance : Z;
  cd_signature : string;
}.
Record ClosedDataView := mk_ClosedDataView {
  cv_expiry_timestamp : Z;
  closed_amount : Z;
  value_after_stage1 : Z;
  cv_receiver_sum : Z;
  cv_sender_sum : Z;
  cv_receiver_proofs_json : string;
  cv_sender_proofs_json : string;
}.
Record KeysetCacheEntry {T : CashuTypes} := mk_KeysetCacheEntry {
  info_json : string;
  ks_active : bool;
  ks_unit : CurrencyUnit;
}.
Arguments mk_KeysetCacheEntry {T} _ _ _.
Abbreviation UsageMap := (gmap string Z).

#[global] Instance ChannelFunding_eq : EqDecision ChannelFunding.
Proof. solve_decision. Defined.
#[global] Instance PaymentProof_eq : EqDecision PaymentProof.
Proof. solve_decision. Defined.
#[global] Instance ChannelState_eq : EqDecision ChannelState.
Proof. solve_decision. Defined.
#[global] Instance ClosingData_eq : EqDecision ClosingData.
Proof. solve_decision. Defined.
#[global] Instance ClosedDataView_eq : EqDecision ClosedDataView.
Proof. solve_decision. Defined.
#[global] Instance KeysetCacheEntry_eq {T : CashuTypes} : EqDecision KeysetCacheEntry.
Proof. solve_decision. Defined.

Definition from_host_value (value : option string) : Result string (option ChannelState) :=
  match value with
  | None => Ok None
  | Some s =>
      if String.eqb s "open" then Ok (Some Open)
      else if String.eqb s "closing" then Ok (Some Closing)
      else if String.eqb s "closed" then Ok (Some Closed)
      else Err "invalid receiver channel state"
  end.

(** ** The trait [SpilmanStorage]

    [S] is the state behind the trait object. An operation that may change it returns
    the new state, also when it fails. [get_funding] fills a cache. *)

Class SpilmanStorage {T : CashuTypes} (S : Type) := {
  compare_payment : S → string → PaymentProof → PaymentProof → Result string unit * S;
  get_close_journal : S → string → Result string (option string);
  freeze_close : S → string → PaymentProof → ClosingData → string → Result string unit * S;
  advance_close :
    S → string → string → string → option ClosedDataView → Result string unit * S;
  get_funding : S → string → option ChannelFunding * S;
  save_funding : S → string → ChannelFunding → Result string unit * S;
  get_balance : S → string → option PaymentProof;
  update_balance : S → string → PaymentProof → Result string unit * S;
  get_usage : S → string → option UsageMap;
  increment_usage : S → string → UsageMap → Result string unit * S;
  get_state : S → string → Result string (option ChannelState);
  mark_closing : S → string → ClosingData → Result string unit * S;
  get_closing_data : S → string → option ClosingData;
  mark_closed : S → string → ClosedDataView → Result string unit * S;
  get_closed_data : S → string → option ClosedDataView;
  get_keyset : S → string → Id → option KeysetCacheEntry;
  set_keyset : S → string → Id → KeysetCacheEntry → Result string unit * S;
  get_active_keyset_ids : S → string → CurrencyUnit → list Id;
  list_keysets_for_unit : S → string → CurrencyUnit → list (Id * KeysetCacheEntry);
  get_mints_units_keysets : S → gmap string (gmap string (list string));
  get_active_units : S → gset string;
}.

(** The entry of a nested map of lists, extended by one item
    ([.entry(m).or_default().entry(u).or_default().push(k)]). *)
Definition push_entry (result : gmap string (gmap string (list string)))
    (m u k : string) : gmap string (gmap string (list string)) :=
  let units := default ∅ (result !! m) in
  <[m := <[u := default [] (units !! u) ++ [k]]> units]> result.

(** ** [MemoryStorage] *)

Record MemoryStorage {T : CashuTypes} := mk_MemoryStorage {
  close_journals : gmap string string;
  funding : gmap string ChannelFunding;
  balance : gmap string PaymentProof;
  usage : gmap string UsageMap;
  closing : gmap string ClosingData;
  closed : gmap string ClosedDataView;
  keysets : gmap (string * Id) KeysetCacheEntry;
}.
Arguments mk_MemoryStorage {T} _ _ _ _ _ _ _.

Section memory.
Context {T : CashuTypes} {O : CashuOps}.
Implicit Types s : MemoryStorage.

Definition MemoryStorage_new : MemoryStorage := mk_MemoryStorage ∅ ∅ ∅ ∅ ∅ ∅ ∅.

Definition set_journals f s := mk_MemoryStorage (f (close_journals s)) (funding s) (balance s)
  (usage s) (closing s) (closed s) (keysets s).
Definition set_funding f s := mk_MemoryStorage (close_journals s) (f (funding s)) (balance s)
  (usage s) (closing s) (closed s) (keysets s).
Definition set_balance f s := mk_MemoryStorage (close_journals s) (funding s) (f (balance s))
  (usage s) (closing s) (closed s) (keysets s).
Definition set_usage f s := mk_MemoryStorage (close_journals s) (funding s) (balance s)
  (f (usage s)) (closing s) (closed s) (keysets s).
Definition set_closing f s := mk_MemoryStorage (close_journals s) (funding s) (balance s)
  (usage s) (f (closing s)) (closed s) (keysets s).
Definition set_closed f s := mk_MemoryStorage (close_journals s) (funding s) (balance s)
  (usage s) (closing s) (f (closed s)) (keysets s).
Definition set_keysets f s := mk_MemoryStorage (close_journals s) (funding s) (balance s)
  (usage s) (closing s) (closed s) (f (keysets s)).

Definition mem_get_close_journal s (c : string) : Result string (option string) :=
  Ok (close_journals s !! c).
Definition mem_get_funding s (c : string) : option ChannelFunding * MemoryStorage :=
  (funding s !! c, s).
Definition mem_get_balance s (c : string) : option PaymentProof := balance s !! c.
Definition mem_get_state s (c : string) : Result string (option ChannelState) :=
  if bool_decide (is_Some (closed s !! c)) then Ok (Some Closed)
  else if bool_decide (is_Some (closing s !! c)) then Ok (Some Closing)
  else if bool_decide (is_Some (funding s !! c)) then Ok (Some Open)
  else Ok None.

Definition mem_compare_payment s (c : string) (expected payment : PaymentProof) :
    Result string unit * MemoryStorage :=
  match mem_get_state s c with
  | Ok state =>
      if negb (bool_decide (state = Some Open)) || (pp_balance payment <=? pp_balance expected)
      then (Err "payment state conflict", s)
      else
        match balance s !! c with
        | None => (Err "missing payment", s)
        | Some current =>
            if negb (pp_balance current =? pp_balance expected)
               || negb (String.eqb (pp_signature current) (pp_signature expected))
            then (Err "payment snapshot conflict", s)
            else (Ok tt, set_balance (<[c := payment]>) s)
        end
  | Err e => (Err e, s)
  | Diverge => (Diverge, s)
  end.

Definition mem_freeze_close s (c : string) (expected : PaymentProof) (cd : ClosingData)
    (journal : string) : Result string unit * MemoryStorage :=
  if negb (cd_balance cd =? pp_balance expected)
     || negb (String.eqb (cd_signature cd) (pp_signature expected))
  then (Err "close authorization mismatch", s)
  else
    match mem_get_balance s c with
    | None => (Err "missing payment", s)
    | Some payment =>
        if bool_decide ((mem_get_funding s c).1 = None)
           || negb (bool_decide (mem_get_state s c = Ok (Some Open)))
           || negb (pp_balance payment =? pp_balance expected)
           || negb (String.eqb (pp_signature payment) (pp_signature expected))
           || negb (bool_decide (mem_get_close_journal s c = Ok None))
        then (Err "close payment or state conflict", s)
        else (Ok tt, set_journals (<[c := journal]>) (set_closing (<[c := cd]>) s))
    end.

Definition mem_advance_close s (c : string) (expected journal : string)
    (completed : option ClosedDataView) : Result string unit * MemoryStorage :=
  if negb (bool_decide (close_journals s !! c = Some expected))
     || negb (bool_decide (mem_get_state s c = Ok (Some Closing)))
  then (Err "close journal conflict", s)
  else
    let s1 :=
      match completed with
      | Some data => set_closing (delete c) (set_closed (<[c := data]>) s)
      | None => s
      end in
    (Ok tt, set_journals (<[c := journal]>) s1).

Definition mem_save_funding s (c : string) (f : ChannelFunding) :
    Result string unit * MemoryStorage :=
  (Ok tt, if bool_decide (is_Some (funding s !! c)) then s else set_funding (<[c := f]>) s).

Definition mem_update_balance s (c : string) (payment : PaymentProof) :
    Result string unit * MemoryStorage :=
  if negb (bool_decide (mem_get_state s c = Ok (Some Open)))
  then (Err "channel is not open", s)
  else
    let should_update :=
      match balance s !! c with
      | Some b => pp_balance b <? pp_balance payment
      | None => true
      end in
    (Ok tt, if should_update then set_balance (<[c := payment]>) s else s).

Definition mem_get_usage s (c : string) : option UsageMap :=
  map ← usage s !! c;
  if bool_decide (map = ∅) then None else Some map.
(** The loop runs over the entries of the increments; [+=] on [u64]. *)
Definition mem_increment_usage s (c : string) (increments : UsageMap) :
    Result string unit * MemoryStorage :=
  let bump (u : UsageMap) (e : string * Z) : UsageMap :=
    <[e.1 := wrap64 (default 0 (u !! e.1) + e.2)]> u in
  (Ok tt, set_usage (<[c := foldl bump (default ∅ (usage s !! c)) (map_to_list increments)]>) s).

Definition mem_mark_closing s (c : string) (cd : ClosingData) :
    Result string unit * MemoryStorage :=
  if negb (bool_decide (mem_get_close_journal s c = Ok None))
  then (Err "channel has an application close journal", s)
  else if bool_decide (is_Some (closed s !! c)) then (Err "channel already closed", s)
  else (Ok tt, set_closing (<[c := cd]>) s).
Definition mem_get_closing_data s (c : string) : option ClosingData := closing s !! c.
Definition mem_mark_closed s (c : string) (data : ClosedDataView) :
    Result string unit * MemoryStorage :=
  if negb (bool_decide (mem_get_close_journal s c = Ok None))
  then (Err "channel has an application close journal", s)
  else if bool_decide (is_Some (closed s !! c)) then (Err "channel already closed", s)
  else (Ok tt, set_closing (delete c) (set_closed (<[c := data]>) s)).
Definition mem_get_closed_data s (c : string) : option ClosedDataView := closed s !! c.

(** Keyset cache. The iteration order of a [HashMap] is unspecified; the model takes the
    order of [map_to_list] and the theorems speak of membership. *)
Definition mem_get_keyset s (mint : string) (id : Id) : option KeysetCacheEntry :=
  keysets s !! (mint, id).
Definition mem_set_keyset s (mint : string) (id : Id) (entry : KeysetCacheEntry) :
    Result string unit * MemoryStorage :=
  (Ok tt, set_keysets (<[(mint, id) := entry]>) s).
Definition mem_get_active_keyset_ids s (mint : string) (u : CurrencyUnit) : list Id :=
  (λ e : string * Id * KeysetCacheEntry, e.1.2) <$>
    filter (λ e, e.1.1 = mint ∧ ks_unit e.2 = u ∧ ks_active e.2 = true) (map_to_list (keysets s)).
Definition mem_list_keysets_for_unit s (mint : string) (u : CurrencyUnit) :
    list (Id * KeysetCacheEntry) :=
  (λ e : string * Id * KeysetCacheEntry, (e.1.2, e.2)) <$>
    filter (λ e, e.1.1 = mint ∧ ks_unit e.2 = u) (map_to_list (keysets s)).
Definition mem_get_mints_units_keysets s : gmap string (gmap string (list string)) :=
  foldl (λ result (e : string * Id * KeysetCacheEntry),
    if ks_active e.2
    then push_entry result e.1.1 (unit_to_string (ks_unit e.2)) (id_to_string e.1.2)
    else result) ∅ (map_to_list (keysets s)).
Definition mem_get_active_units s : gset string :=
  list_to_set ((λ e : string * Id * KeysetCacheEntry, unit_to_string (ks_unit e.2)) <$>
    filter (λ e, ks_active e.2 = true) (map_to_list (keysets s))).

#[global] Instance memory_storage : SpilmanStorage MemoryStorage := {|
  compare_payment := mem_compare_payment;
  get_close_journal := mem_get_close_journal;
  freeze_close := mem_freeze_close;
  advance_close := mem_advance_close;
  get_funding := mem_get_funding;
  save_funding := mem_save_funding;
  get_balance := mem_get_balance;
  update_balance := mem_update_balance;
  get_usage := mem_get_usage;
  increment_usage := mem_increment_usage;
  get_state := mem_get_state;
  mark_closing := mem_mark_closing;
  get_closing_data := mem_get_closing_data;
  mark_closed := mem_mark_closed;
  get_closed_data := mem_get_closed_data;
  get_keyset := mem_get_keyset;
  set_keyset := mem_set_keyset;
  get_active_keyset_ids := mem_get_active_keyset_ids;
  list_keysets_for_unit := mem_list_keysets_for_unit;
  get_mints_units_keysets := mem_get_mints_units_keysets;
  get_active_units := mem_get_active_units;
|}.
End memory.

(** ** [SqliteStorage]

    The database is the content of its four tables; a text column is a string, a [NULL] an
    absent value, [balance] a 64-bit integer. [serde_json]'s derived (de)serialisers of the
    stored structs are the class [Serde], SQLite's [+] on stored numbers is [sqlite_add]: a
    sum that leaves the 64-bit range is a floating-point number, which [row.get::<i64>]
    refuses. *)

Class Serde (A : Type) := {
  serde_to_string : A → string;
  serde_from_str : string → option A;
}.
Class SerdeLaws (A : Type) `{Serde A} : Prop :=
  serde_inv (a : A) : serde_from_str (serde_to_string a) = Some a.

Inductive SqlNumber := SqlInteger (z : Z) | SqlReal (bits : Z).

Class Sqlite {T : CashuTypes} := {
  sqlite_add : SqlNumber → SqlNumber → SqlNumber;
  funding_serde :: Serde ChannelFunding;
  closing_serde :: Serde ClosingData;
  closed_serde :: Serde ClosedDataView;
  keyset_serde :: Serde KeysetCacheEntry;
}.
Class SqliteLaws `{Sqlite} : Prop := {
  sqlite_add_exact a b :
    - 2 ^ 63 <= a + b < 2 ^ 63 →
    sqlite_add (SqlInteger a) (SqlInteger b) = SqlInteger (a + b);
  funding_serde_laws :: SerdeLaws ChannelFunding;
  closing_serde_laws :: SerdeLaws ClosingData;
  closed_serde_laws :: SerdeLaws ClosedDataView;
  keyset_serde_laws :: SerdeLaws KeysetCacheEntry;
}.

(** [i64::try_from(u64)], [u64 as i64]; [i64 as u64] is [wrap64]. *)
Definition i64_try_from (z : Z) : option Z := if z <? 2 ^ 63 then Some z else None.
Definition as_i64 (z : Z) : Z := (z + 2 ^ 63) mod 2 ^ 64 - 2 ^ 63.

(** A row of [spilman_channels]. *)
Record ChannelRow := mk_ChannelRow {
  row_funding_json : string;
  row_balance : Z;
  row_signature : string;
  row_state : string;
  row_closing_json : option string;
  row_closed_json : option string;
}.

Record SqliteStorage := mk_SqliteStorage {
  spilman_channels : gmap string ChannelRow;
  spilman_close_journals : gmap string string;
  spilman_usage : gmap (string * string) SqlNumber;
  spilman_keysets : gmap (string * string) string;
  funding_cache : gmap string ChannelFunding;
}.

Section sqlite.
Context {T : CashuTypes} {O : CashuOps} {Q : Sqlite}.
Implicit Types s : SqliteStorage.

(** [init_schema] on a new database: empty tables. *)
Definition SqliteStorage_open_new : SqliteStorage := mk_SqliteStorage ∅ ∅ ∅ ∅ ∅.
(** The process restarts on the same database file. *)
Definition SqliteStorage_reopen s : SqliteStorage :=
  mk_SqliteStorage (spilman_channels s) (spilman_close_journals s) (spilman_usage s)
    (spilman_keysets s) ∅.

Definition set_channels f s := mk_SqliteStorage (f (spilman_channels s))
  (spilman_close_journals s) (spilman_usage s) (spilman_keysets s) (funding_cache s).
Definition set_sql_journals f s := mk_SqliteStorage (spilman_channels s)
  (f (spilman_close_journals s)) (spilman_usage s) (spilman_keysets s) (funding_cache s).
Definition set_sql_usage f s := mk_SqliteStorage (spilman_channels s)
  (spilman_close_journals s) (f (spilman_usage s)) (spilman_keysets s) (funding_cache s).
Definition set_sql_keysets f s := mk_SqliteStorage (spilman_channels s)
  (spilman_close_journals s) (spilman_usage s) (f (spilman_keysets s)) (funding_cache s).
Definition set_cache f s := mk_SqliteStorage (spilman_channels s)
  (spilman_close_journals s) (spilman_usage s) (spilman_keysets s) (f (funding_cache s)).

(** [UPDATE spilman_channels SET ... WHERE channel_id = c AND cond]: the number of rows
    changed ([channel_id] is the primary key) and the new table. *)
Definition update_row s (c : string) (cond : ChannelRow → bool) (set : ChannelRow → ChannelRow) :
    Z * SqliteStorage :=
  match spilman_channels s !! c with
  | Some row => if cond row then (1, set_channels (<[c := set row]>) s) else (0, s)
  | None => (0, s)
  end.

Definition set_row_payment (balance : Z) (signature : string) (r : ChannelRow) : ChannelRow :=
  mk_ChannelRow (row_funding_json r) balance signature (row_state r) (row_closing_json r)
    (row_closed_json r).
Definition set_row_closing (closing_json : string) (r : ChannelRow) : ChannelRow :=
  mk_ChannelRow (row_funding_json r) (row_balance r) (row_signature r) "Closing"
    (Some closing_json) (row_closed_json r).
Definition set_row_closed (closed_json : string) (r : ChannelRow) : ChannelRow :=
  mk_ChannelRow (row_funding_json r) (row_balance r) (row_signature r) "Closed"
    None (Some closed_json).

Definition sql_compare_payment s (c : string) (expected payment : PaymentProof) :
    Result string unit * SqliteStorage :=
  if pp_balance payment <=? pp_balance expected then (Err "payment state conflict", s)
  else
    match i64_try_from (pp_balance payment), i64_try_from (pp_balance expected) with
    | Some balance, Some previous =>
        let '(changed, s') :=
          update_row s c
            (λ r, String.eqb (row_state r) "Open" && (row_balance r =? previous)
                  && String.eqb (row_signature r) (pp_signature expected))
            (set_row_payment balance (pp_signature payment)) in
        if negb (changed =? 1) then (Err "payment snapshot or state conflict", s') else (Ok tt, s')
    | _, _ => (Err "payment overflow", s)
    end.

Definition sql_get_close_journal s (c : string) : Result string (option string) :=
  Ok (spilman_close_journals s !! c).

(** In a transaction: an early return drops it and the tables keep their content. *)
Definition sql_freeze_close s (c : string) (expected : PaymentProof) (cd : ClosingData)
    (journal : string) : Result string unit * SqliteStorage :=
  if negb (cd_balance cd =? pp_balance expected)
     || negb (String.eqb (cd_signature cd) (pp_signature expected))
  then (Err "close authorization mismatch", s)
  else
    match i64_try_from (pp_balance expected) with
    | None => (Err "balance overflow", s)
    | Some balance =>
        let '(changed, s1) :=
          update_row s c
            (λ r, String.eqb (row_state r) "Open" && (row_balance r =? balance)
                  && String.eqb (row_signature r) (pp_signature expected))
            (set_row_closing (serde_to_string cd)) in
        if negb (changed =? 1) then (Err "close payment or state conflict", s)
        else
          match spilman_close_journals s1 !! c with
          | Some _ => (Err "UNIQUE constraint failed: spilman_close_journals.channel_id", s)
          | None => (Ok tt, set_sql_journals (<[c := journal]>) s1)
          end
    end.

Definition sql_advance_close s (c : string) (expected journal : string)
    (completed : option ClosedDataView) : Result string unit * SqliteStorage :=
  let exists_closing :=
    match spilman_channels s !! c with
    | Some r => String.eqb (row_state r) "Closing"
    | None => false
    end in
  if negb (bool_decide (spilman_close_journals s !! c = Some expected) && exists_closing)
  then (Err "close journal conflict", s)
  else
    let s1 := set_sql_journals (<[c := journal]>) s in
    match completed with
    | None => (Ok tt, s1)
    | Some data =>
        let '(changed, s2) :=
          update_row s1 c (λ r, String.eqb (row_state r) "Closing")
            (set_row_closed (serde_to_string data)) in
        if negb (changed =? 1) then (Err "close state conflict", s) else (Ok tt, s2)
    end.

Definition sql_get_funding s (c : string) : option ChannelFunding * SqliteStorage :=
  match funding_cache s !! c with
  | Some f => (Some f, s)
  | None =>
      match r ← spilman_channels s !! c; serde_from_str (row_funding_json r) with
      | Some f => (Some f, set_cache (<[c := f]>) s)
      | None => (None, s)
      end
  end.

Definition sql_save_funding s (c : string) (f : ChannelFunding) :
    Result string unit * SqliteStorage :=
  let s1 :=
    match spilman_channels s !! c with
    | Some _ => s
    | None =>
        set_channels (<[c := mk_ChannelRow (serde_to_string f) 0 "" "Open" None None]>) s
    end in
  (Ok tt,
   match funding_cache s1 !! c with
   | Some _ => s1
   | None => set_cache (<[c := f]>) s1
   end).

Definition sql_get_balance s (c : string) : option PaymentProof :=
  r ← spilman_channels s !! c;
  if String.eqb (row_signature r) "" then None
  else Some (mk_PaymentProof (wrap64 (row_balance r)) (row_signature r)).

Definition sql_update_balance s (c : string) (payment : PaymentProof) :
    Result string unit * SqliteStorage :=
  match i64_try_from (pp_balance payment) with
  | None => (Err "payment overflow", s)
  | Some balance =>
      match spilman_channels s !! c with
      | None => (Err "Query returned no rows", s)
      | Some row =>
          if negb (String.eqb (row_state row) "Open") then (Err "channel is not open", s)
          else
            (Ok tt,
             (update_row s c
               (λ r, String.eqb (row_state r) "Open"
                     && ((row_balance r <? balance) || String.eqb (row_signature r) ""))
               (set_row_payment balance (pp_signature payment))).2)
      end
  end.

(** The rows of one channel; a count that is no integer is skipped. *)
Definition sql_get_usage s (c : string) : option UsageMap :=
  let map : UsageMap := list_to_map (omap (λ e : string * string * SqlNumber,
    if String.eqb e.1.1 c then
      match e.2 with SqlInteger z => Some (e.1.2, wrap64 z) | SqlReal _ => None end
    else None) (map_to_list (spilman_usage s))) in
  if bool_decide (map = ∅) then None else Some map.
Definition sql_increment_usage s (c : string) (increments : UsageMap) :
    Result string unit * SqliteStorage :=
  let upsert (t : gmap (string * string) SqlNumber) (e : string * Z) :=
    let delta := SqlInteger (as_i64 e.2) in
    <[(c, e.1) :=
      match t !! (c, e.1) with Some n => sqlite_add n delta | None => delta end]> t in
  (Ok tt, set_sql_usage (λ t, foldl upsert t (map_to_list increments)) s).

Definition sql_get_state s (c : string) : Result string (option ChannelState) :=
  match spilman_channels s !! c with
  | None => Ok None
  | Some r =>
      if String.eqb (row_state r) "Open" then Ok (Some Open)
      else if String.eqb (row_state r) "Closing" then Ok (Some Closing)
      else if String.eqb (row_state r) "Closed" then Ok (Some Closed)
      else Err "invalid stored receiver channel state"
  end.

Definition sql_mark_closing s (c : string) (cd : ClosingData) :
    Result string unit * SqliteStorage :=
  let '(rows, s') :=
    update_row s c
      (λ r, negb (String.eqb (row_state r) "Closed")
            && bool_decide (spilman_close_journals s !! c = None))
      (set_row_closing (serde_to_string cd)) in
  if rows =? 0 then (Err "channel not found or already closed", s') else (Ok tt, s').
Definition sql_get_closing_data s (c : string) : option ClosingData :=
  r ← spilman_channels s !! c;
  if String.eqb (row_state r) "Closing" then row_closing_json r ≫= serde_from_str else None.
Definition sql_mark_closed s (c : string) (data : ClosedDataView) :
    Result string unit * SqliteStorage :=
  let '(rows, s') :=
    update_row s c
      (λ r, negb (String.eqb (row_state r) "Closed")
            && bool_decide (spilman_close_journals s !! c = None))
      (set_row_closed (serde_to_string data)) in
  if rows =? 0 then (Err "channel already closed or not found", s') else (Ok tt, s').
Definition sql_get_closed_data s (c : string) : option ClosedDataView :=
  r ← spilman_channels s !! c;
  if String.eqb (row_state r) "Closed" then row_closed_json r ≫= serde_from_str else None.

Definition sql_get_keyset s (mint : string) (id : Id) : option KeysetCacheEntry :=
  spilman_keysets s !! (mint, id_to_string id) ≫= serde_from_str.
Definition sql_set_keyset s (mint : string) (id : Id) (entry : KeysetCacheEntry) :
    Result string unit * SqliteStorage :=
  (Ok tt, set_sql_keysets (<[(mint, id_to_string id) := serde_to_string entry]>) s).

(** [query_map] over the keyset rows of a mint. *)
Definition parse_id (kid : string) : option Id :=
  match id_from_str kid with Ok i => Some i | _ => None end.
Definition sql_get_active_keyset_ids s (mint : string) (u : CurrencyUnit) : list Id :=
  omap (λ e : string * string * string,
    if String.eqb e.1.1 mint then
      entry ← serde_from_str e.2;
      if ks_active entry && String.eqb (unit_to_string (ks_unit entry)) (unit_to_string u)
      then parse_id e.1.2 else None
    else None) (map_to_list (spilman_keysets s)).
Definition sql_list_keysets_for_unit s (mint : string) (u : CurrencyUnit) :
    list (Id * KeysetCacheEntry) :=
  omap (λ e : string * string * string,
    if String.eqb e.1.1 mint then
      entry ← serde_from_str e.2;
      if String.eqb (unit_to_string (ks_unit entry)) (unit_to_string u)
      then id ← parse_id e.1.2; Some (id, entry) else None
    else None) (map_to_list (spilman_keysets s)).
Definition sql_get_mints_units_keysets s : gmap string (gmap string (list string)) :=
  foldl (λ result (e : string * string * string),
    match serde_from_str e.2 : option KeysetCacheEntry with
    | Some entry =>
        if ks_active entry then push_entry result e.1.1 (unit_to_string (ks_unit entry)) e.1.2
        else result
    | None => result
    end) ∅ (map_to_list (spilman_keysets s)).
Definition sql_get_active_units s : gset string :=
  list_to_set (omap (λ e : string * string * string,
    entry ← (serde_from_str e.2 : option KeysetCacheEntry);
    if ks_active entry then Some (unit_to_string (ks_unit entry)) else None)
    (map_to_list (spilman_keysets s))).

#[global] Instance sqlite_storage : SpilmanStorage SqliteStorage := {|
  compare_payment := sql_compare_payment;
  get_close_journal := sql_get_close_journal;
  freeze_close := sql_freeze_close;
  advance_close := sql_advance_close;
  get_funding := sql_get_funding;
  save_funding := sql_save_funding;
  get_balance := sql_get_balance;
  update_balance := sql_update_balance;
  get_usage := sql_get_usage;
  increment_usage := sql_increment_usage;
  get_state := sql_get_state;
  mark_closing := sql_mark_closing;
  get_closing_data := sql_get_closing_data;
  mark_closed := sql_mark_closed;
  get_closed_data := sql_get_closed_data;
  get_keyset := sql_get_keyset;
  set_keyset := sql_set_keyset;
  get_active_keyset_ids := sql_get_active_keyset_ids;
  list_keysets_for_unit := sql_list_keysets_for_unit;
  get_mints_units_keysets := sql_get_mints_units_keysets;
  get_active_units := sql_get_active_units;
|}.
End sqlite.
