(* ===== verification/StorageSpec.v ===== *)
(** * Specification of the channel storage, and its two refinements

    What the trait [SpilmanStorage] promises, on the view a caller has of one channel
    ([ChannelView]), as a partial function [spec_step] per operation; [MemoryStorage] and
    [SqliteStorage] refine it. The theorems about the life of a channel and about racing
    callers are proved for every storage that meets the specification. *)

From S2P Require Import Prelude Cashu Storage.

(** ** The specification *)

(** What the queries answer about one channel. *)
Record ChannelView := mk_ChannelView {
  v_funding : option ChannelFunding;
  v_payment : option PaymentProof;
  v_usage : option UsageMap;
  v_state : option ChannelState;
  v_closing : option ClosingData;
  v_closed : option ClosedDataView;
  v_journal : option string;
}.

(** The operations on one channel. *)
Inductive Command :=
| ComparePayment (expected payment : PaymentProof)
| FreezeClose (expected : PaymentProof) (cd : ClosingData) (journal : string)
| AdvanceClose (expected journal : string) (completed : option ClosedDataView)
| SaveFunding (f : ChannelFunding)
| UpdateBalance (payment : PaymentProof)
| IncrementUsage (increments : UsageMap)
| MarkClosing (cd : ClosingData)
| MarkClosed (data : ClosedDataView).

Definition with_payment p v := mk_ChannelView (v_funding v) (Some p) (v_usage v) (v_state v)
  (v_closing v) (v_closed v) (v_journal v).
Definition with_usage u v := mk_ChannelView (v_funding v) (v_payment v) u (v_state v)
  (v_closing v) (v_closed v) (v_journal v).
Definition with_closing cd v := mk_ChannelView (v_funding v) (v_payment v) (v_usage v)
  (Some Closing) (Some cd) (v_closed v) (v_journal v).
Definition with_closed d v := mk_ChannelView (v_funding v) (v_payment v) (v_usage v)
  (Some Closed) None (Some d) (v_journal v).
Definition with_journal j v := mk_ChannelView (v_funding v) (v_payment v) (v_usage v)
  (v_state v) (v_closing v) (v_closed v) (Some j).

(** Counters after an increment. *)
Definition add_usage (u : option UsageMap) (increments : UsageMap) : option UsageMap :=
  let m := union_with (λ a b, Some (a + b)) (default ∅ u) increments in
  if bool_decide (m = ∅) then None else Some m.

(** [spec_step cmd v]: the view after the operation, or [None] when it must fail. *)
Definition spec_step (cmd : Command) (v : ChannelView) : option ChannelView :=
  match cmd with
  | ComparePayment expected payment =>
      if bool_decide (v_state v = Some Open ∧ v_payment v = Some expected
                      ∧ pp_balance expected < pp_balance payment)
      then Some (with_payment payment v) else None
  | FreezeClose expected cd journal =>
      if bool_decide (v_state v = Some Open ∧ v_payment v = Some expected ∧ v_journal v = None
                      ∧ cd_balance cd = pp_balance expected
                      ∧ cd_signature cd = pp_signature expected)
      then Some (with_journal journal (with_closing cd v)) else None
  | AdvanceClose expected journal completed =>
      if bool_decide (v_state v = Some Closing ∧ v_journal v = Some expected)
      then Some (with_journal journal
                   (match completed with Some d => with_closed d v | None => v end))
      else None
  | SaveFunding f =>
      Some (match v_funding v with
            | Some _ => v
            | None => mk_ChannelView (Some f) (v_payment v) (v_usage v) (Some Open)
                        (v_closing v) (v_closed v) (v_journal v)
            end)
  | UpdateBalance payment =>
      if bool_decide (v_state v = Some Open) then
        Some (match v_payment v with
              | Some b => if pp_balance b <? pp_balance payment then with_payment payment v else v
              | None => with_payment payment v
              end)
      else None
  | IncrementUsage increments => Some (with_usage (add_usage (v_usage v) increments) v)
  | MarkClosing cd =>
      if bool_decide (v_journal v = None ∧ v_state v ≠ Some Closed)
      then Some (with_closing cd v) else None
  | MarkClosed d =>
      if bool_decide (v_journal v = None ∧ v_state v ≠ Some Closed)
      then Some (with_closed d v) else None
  end.

(** The arguments the specification speaks about: signed balances below [2^63] with a
    non-empty signature (an empty one is how the SQLite schema encodes "no payment"),
    counters that stay below [2^63], close marks for channels that exist, no second
    funding that differs from the stored one. *)
Definition is_i63 (z : Z) : Prop := 0 <= z < 2 ^ 63.
Definition in_domain (cmd : Command) (v : ChannelView) : Prop :=
  match cmd with
  | ComparePayment e p =>
      is_u64 (pp_balance e) ∧ pp_signature e ≠ "" ∧ is_i63 (pp_balance p) ∧ pp_signature p ≠ ""
  | FreezeClose e _ _ => is_u64 (pp_balance e) ∧ pp_signature e ≠ ""
  | UpdateBalance p => is_i63 (pp_balance p) ∧ pp_signature p ≠ ""
  | IncrementUsage inc =>
      map_Forall (λ k d, 0 <= d ∧ default 0 (default ∅ (v_usage v) !! k) + d < 2 ^ 63) inc
  | MarkClosing _ | MarkClosed _ => is_Some (v_funding v)
  | SaveFunding f => from_option (λ f0, f = f0) True (v_funding v)
  | AdvanceClose _ _ _ => True
  end.
#[global] Instance in_domain_dec cmd v : Decision (in_domain cmd v).
Proof.
  destruct cmd; simpl; unfold is_i63; try apply _. destruct (v_funding v); simpl; apply _.
Defined.

Section interface.
Context {T : CashuTypes} {S : Type} `{!SpilmanStorage S}.

Definition view (s : S) (c : string) : ChannelView :=
  mk_ChannelView (get_funding s c).1 (get_balance s c) (get_usage s c)
    (match get_state s c with Ok st => st | _ => None end)
    (get_closing_data s c) (get_closed_data s c)
    (match get_close_journal s c with Ok j => j | _ => None end).

Definition exec (s : S) (c : string) (cmd : Command) : Result string unit * S :=
  match cmd with
  | ComparePayment e p => compare_payment s c e p
  | FreezeClose e cd j => freeze_close s c e cd j
  | AdvanceClose e j d => advance_close s c e j d
  | SaveFunding f => save_funding s c f
  | UpdateBalance p => update_balance s c p
  | IncrementUsage inc => increment_usage s c inc
  | MarkClosing cd => mark_closing s c cd
  | MarkClosed d => mark_closed s c d
  end.

(** What an operation on channel [c] did: [v] is the view it must have afterwards. *)
Definition exec_meets (s : S) (c : string) (r : Result string unit * S) (v : option ChannelView) : Prop :=
  match v with
  | Some v => r.1 = Ok tt ∧ view r.2 c = v
  | None => (∃ e, r.1 = Err e) ∧ view r.2 c = view s c
  end ∧ (∀ d, d ≠ c → view r.2 d = view s d)
      ∧ (∀ m i, get_keyset r.2 m i = get_keyset s m i).
End interface.

Class StorageSpec {T : CashuTypes} {O : CashuOps} (S : Type) `{!SpilmanStorage S} := {
  st_wf : S → Prop;
  (** every operation meets [spec_step] *)
  exec_spec s c cmd :
    st_wf s → in_domain cmd (view s c) →
    st_wf (exec s c cmd).2 ∧ exec_meets s c (exec s c cmd) (spec_step cmd (view s c));
  (** channels whose funding is fixed: other funding offered for them is ignored *)
  funding_kept : S → string → bool;
  save_funding_kept s c f f0 :
    st_wf s → funding_kept s c = true → v_funding (view s c) = Some f0 →
    st_wf (save_funding s c f).2 ∧ exec_meets s c (save_funding s c f) (Some (view s c));
  (** queries do not fail; reading the funding changes no answer *)
  get_state_ok s c : st_wf s → get_state s c = Ok (v_state (view s c));
  get_journal_ok s c : st_wf s → get_close_journal s c = Ok (v_journal (view s c));
  get_funding_read s c :
    st_wf s → st_wf (get_funding s c).2 ∧ (∀ d, view (get_funding s c).2 d = view s d)
              ∧ (∀ m i, get_keyset (get_funding s c).2 m i = get_keyset s m i);
  (** a known channel has a state and conversely; payments and closes are of known channels *)
  view_known s c : st_wf s → v_state (view s c) = None ↔ v_funding (view s c) = None;
  view_closing s c : st_wf s → v_state (view s c) = Some Closing ↔ is_Some (v_closing (view s c));
  view_closed s c : st_wf s → v_state (view s c) = Some Closed ↔ is_Some (v_closed (view s c));
  view_payment s c p :
    st_wf s → v_payment (view s c) = Some p →
    is_Some (v_funding (view s c)) ∧ is_i63 (pp_balance p) ∧ pp_signature p ≠ "";
  (** keyset cache *)
  set_keyset_spec s m i e :
    st_wf s → (set_keyset s m i e).1 = Ok tt ∧ st_wf (set_keyset s m i e).2 ∧
    (∀ c, view (set_keyset s m i e).2 c = view s c) ∧
    (∀ m' i', get_keyset (set_keyset s m i e).2 m' i'
              = if bool_decide ((m', i') = (m, i)) then Some e else get_keyset s m' i');
  active_ids_spec s m u i :
    st_wf s → i ∈ get_active_keyset_ids s m u ↔
    ∃ e, get_keyset s m i = Some e ∧ ks_active e = true ∧ ks_unit e = u;
  list_keysets_spec s m u i e :
    st_wf s → (i, e) ∈ list_keysets_for_unit s m u ↔ get_keyset s m i = Some e ∧ ks_unit e = u;
  active_units_spec s n :
    st_wf s → n ∈ get_active_units s ↔
    ∃ m i e, get_keyset s m i = Some e ∧ ks_active e = true ∧ unit_to_string (ks_unit e) = n;
  mints_units_keysets_spec s m n k :
    st_wf s → (∃ us ks, get_mints_units_keysets s !! m = Some us ∧ us !! n = Some ks ∧ k ∈ ks) ↔
    ∃ i e, get_keyset s m i = Some e ∧ ks_active e = true ∧ unit_to_string (ks_unit e) = n
           ∧ id_to_string i = k;
}.

(** ** Shared lemmas *)

(** Splits on the condition of an [if] of the goal. *)
Ltac goal_if H := match goal with |- context [if ?b then _ else _] => destruct b eqn:H end.

(** A loop of upserts over a list with distinct keys. *)
Lemma foldl_upsert_lookup {K : Type} `{Countable K} {V D} (upd : option V → D → V)
    (l : list (K * D)) (m : gmap K V) k :
  NoDup l.*1 →
  foldl (λ m e, <[e.1 := upd (m !! e.1) e.2]> m) m l !! k =
  match (list_to_map l : gmap K D) !! k with
  | Some d => Some (upd (m !! k) d)
  | None => m !! k
  end.
Proof.
  revert m. induction l as [|[k' d] l IH]; intros m Hnd; [done|].
  apply NoDup_cons in Hnd as [Hk Hnd]. simpl. rewrite IH by done.
  destruct (decide (k = k')) as [->|].
  - rewrite lookup_insert_eq, (not_elem_of_list_to_map_1 l), lookup_insert_eq by done. done.
  - rewrite (lookup_insert_ne m), (lookup_insert_ne (list_to_map l)) by done. done.
Qed.

Lemma list_to_map_fmap_key {K K' D} `{Countable K, Countable K'} (f : K → K') `{!Inj (=) (=) f}
    (l : list (K * D)) k :
  (list_to_map (prod_map f id <$> l) : gmap K' D) !! f k = (list_to_map l : gmap K D) !! k.
Proof.
  induction l as [|[k' d] l IH]; [done|]. simpl.
  destruct (decide (k = k')) as [->|]; [by rewrite !lookup_insert_eq|].
  rewrite !lookup_insert_ne by (intros E; simplify_eq); done.
Qed.

Lemma push_entry_elem result m u k m' u' k' :
  (∃ us ks, push_entry result m u k !! m' = Some us ∧ us !! u' = Some ks ∧ k' ∈ ks) ↔
  (m' = m ∧ u' = u ∧ k' = k) ∨ ∃ us ks, result !! m' = Some us ∧ us !! u' = Some ks ∧ k' ∈ ks.
Proof.
  unfold push_entry. destruct (decide (m = m')) as [->|Hm].
  - setoid_rewrite lookup_insert_eq. destruct (decide (u = u')) as [->|Hu].
    + split.
      * intros (us & ks & [= <-] & Hks & Hk). rewrite lookup_insert_eq in Hks.
        simplify_eq. apply elem_of_app in Hk as [Hk|Hk%list_elem_of_singleton]; [|by left].
        right. destruct (result !! m') as [us|] eqn:?; simpl in *; [|set_solver].
        destruct (us !! u') as [ks|] eqn:?; simpl in *; [eauto|set_solver].
      * intros [(_ & _ & ->)|(us & ks & -> & Hus & ?)]; simpl;
          (eexists _, _; split; [done|]; rewrite lookup_insert_eq; split; [done|]).
        -- set_solver.
        -- rewrite Hus. set_solver.
    + split.
      * intros (us & ks & [= <-] & Hks & Hk). rewrite lookup_insert_ne in Hks by done.
        right. destruct (result !! m') as [us|] eqn:?; simpl in *; [|done]. eauto.
      * intros [?|(us & ks & -> & ? & ?)]; [naive_solver|].
        eexists _, _. split; [done|]. rewrite lookup_insert_ne by done. eauto.
  - setoid_rewrite lookup_insert_ne; [|done..]. naive_solver.
Qed.

(** The advertised keysets, collected from any list of rows. *)
Lemma push_entries_elem {A} (f : A → option (string * string * string))
    (g : gmap string (gmap string (list string)) → A → gmap string (gmap string (list string)))
    l acc m u k :
  (∀ r a, g r a = match f a with Some (m, u, k) => push_entry r m u k | None => r end) →
  (∃ us ks, foldl g acc l !! m = Some us ∧ us !! u = Some ks ∧ k ∈ ks) ↔
  (m, u, k) ∈ omap f l ∨ ∃ us ks, acc !! m = Some us ∧ us !! u = Some ks ∧ k ∈ ks.
Proof.
  intros Hg. revert acc. induction l as [|a l IH]; intros acc; simpl; [set_solver|].
  rewrite IH, Hg. destruct (f a) as [[[m' u'] k']|]; [|done].
  rewrite push_entry_elem, elem_of_cons. naive_solver.
Qed.

Lemma add_usage_lookup u inc k :
  default ∅ (add_usage u inc) !! k =
  match default ∅ u !! k, inc !! k with
  | Some a, Some b => Some (a + b)
  | Some a, None => Some a
  | None, o => o
  end.
Proof.
  unfold add_usage. set (m := union_with _ _ _).
  assert (default ∅ (if bool_decide (m = ∅) then None else Some m) = m) as ->
    by (by case_bool_decide as Hm; [rewrite Hm|]).
  subst m. rewrite lookup_union_with. by destruct (default ∅ u !! k), (inc !! k).
Qed.

(** A usage map is the one the specification gives when its lookups are. *)
Lemma add_usage_eq (u : option UsageMap) (inc m : UsageMap) :
  (∀ k, m !! k = match default ∅ u !! k, inc !! k with
                 | Some a, Some b => Some (a + b)
                 | Some a, None => Some a
                 | None, o => o
                 end) →
  (if bool_decide (m = ∅) then None else Some m) = add_usage u inc.
Proof.
  intros Hm. unfold add_usage.
  replace (union_with _ _ _) with m; [done|].
  apply map_eq. intros k. rewrite Hm, lookup_union_with.
  by destruct (default ∅ u !! k), (inc !! k).
Qed.

(** ** The life of a channel, for every storage that meets the specification *)

Definition state_rank (o : option ChannelState) : Z :=
  match o with None => 0 | Some Open => 1 | Some Closing => 2 | Some Closed => 3 end.

(** What may happen to a channel over time: it moves forward through its states; its
    funding, its closed record and the existence of its close journal are permanent; its
    payment only grows, and only before the channel leaves [Open]; a journaled close keeps
    its frozen data until it is completed; usage counters grow. *)
Record evolves (v v' : ChannelView) : Prop := {
  ev_state : state_rank (v_state v) <= state_rank (v_state v');
  ev_funding f : v_funding v = Some f → v_funding v' = Some f;
  ev_payment p :
    v_payment v = Some p →
    ∃ p', v_payment v' = Some p' ∧
      (p' = p ∨ state_rank (v_state v) <= 1 ∧ pp_balance p < pp_balance p');
  ev_closed d : v_closed v = Some d → v_closed v' = Some d;
  ev_journal : is_Some (v_journal v) → is_Some (v_journal v');
  ev_frozen cd :
    is_Some (v_journal v) → v_closing v = Some cd →
    v_closing v' = Some cd ∨ v_state v' = Some Closed;
  ev_usage k :
    default 0 (default ∅ (v_usage v) !! k) <= default 0 (default ∅ (v_usage v') !! k);
}.

(** The views the storages can show. *)
Record view_ok (v : ChannelView) : Prop := {
  vo_known : v_state v = None ↔ v_funding v = None;
  vo_closing : v_state v = Some Closing ↔ is_Some (v_closing v);
  vo_closed : v_state v = Some Closed ↔ is_Some (v_closed v);
  vo_payment p : v_payment v = Some p → is_Some (v_funding v);
}.

Lemma evolves_refl v : evolves v v.
Proof. split; eauto; lia. Qed.

Lemma evolves_trans v1 v2 v3 :
  view_ok v2 → view_ok v3 → evolves v1 v2 → evolves v2 v3 → evolves v1 v3.
Proof.
  intros Hv2 Hv3 [A1 A2 A3 A4 A5 A6 A7] [B1 B2 B3 B4 B5 B6 B7]. split; eauto.
  - lia.
  - intros p (p2 & Hp2 & H2)%A3. destruct (B3 p2 Hp2) as (p3 & Hp3 & H3).
    exists p3. split; [done|]. destruct H2 as [->|[? ?]], H3 as [->|[? ?]];
      [by left|right; split; lia..].
  - intros cd Hj Hcd. destruct (A6 cd Hj Hcd) as [Hc|Hc]; [eauto|].
    right. apply (vo_closed _ Hv2) in Hc as [d Hd]. apply (vo_closed _ Hv3). eauto.
  - intros k. specialize (A7 k). specialize (B7 k). lia.
Qed.

Lemma spec_step_evolves cmd v v' :
  view_ok v → in_domain cmd v → spec_step cmd v = Some v' → evolves v v'.
Proof.
  intros [Hk Hg Hd Hp] Hdom. destruct cmd; simpl; try case_bool_decide as Hc; intros [= <-].
  - destruct Hc as (Hst & Hpay & Hlt). split; simpl; eauto; [lia|..|intros; lia].
    intros p' Hp'. rewrite Hst. simpl. eexists. split; [done|]. right. split; [lia|congruence].
  - destruct Hc as (Hst & Hpay & Hj & _). split; simpl; rewrite ?Hst; simpl; eauto; try lia.
    intros cd' [? Hj']. congruence.
  - destruct Hc as (Hst & Hj). destruct completed as [d|]; split; simpl; rewrite ?Hst; simpl;
      eauto; try lia.
    intros d' Hd'. assert (v_state v = Some Closed) by (apply Hd; eauto). congruence.
  - destruct (v_funding v) as [f0|] eqn:Hf; [by apply evolves_refl|].
    assert (v_state v = None) as Hst by (by apply Hk).
    split; simpl; rewrite ?Hst; simpl; eauto; try lia; try congruence.
  - destruct (v_payment v) as [b|] eqn:Hpay; [destruct (Z.ltb_spec (pp_balance b) (pp_balance payment))|];
      try apply evolves_refl; split; simpl; eauto; try lia; rewrite Hc in *; simpl; try congruence.
    intros p' Hp'. eexists. split; [done|]. right. split; [lia|congruence].
  - split; simpl; eauto; [lia|]. intros k. rewrite add_usage_lookup. simpl in Hdom.
    destruct (increments !! k) as [d|] eqn:Hi;
      [|destruct (default ∅ (v_usage v) !! k); simpl; lia].
    specialize (Hdom k d Hi) as [? _]. destruct (default ∅ (v_usage v) !! k); simpl; lia.
  - destruct Hc as [Hj Hst]. split; simpl; eauto.
    + destruct (v_state v) as [[]|]; simpl; done || lia.
    + intros cd' [? Hj']. congruence.
    + lia.
  - destruct Hc as [Hj Hst]. split; simpl; eauto.
    + destruct (v_state v) as [[]|]; simpl; done || lia.
    + intros d' Hd'. destruct Hst. apply Hd. eauto.
    + lia.
Qed.

Section life.
Context {T : CashuTypes} {O : CashuOps} {S : Type} `{!SpilmanStorage S} `{!StorageSpec S}.
Implicit Types s : S.

Lemma st_view_ok s c : st_wf s → view_ok (view s c).
Proof.
  intros Hwf. split; [by apply view_known|by apply view_closing|by apply view_closed|].
  intros p Hp. by apply view_payment in Hp as [? _].
Qed.

(** The operations a history may contain: those of the domain, and any other funding for a
    channel whose funding is fixed. *)
Definition op_in_domain (s : S) (c : string) (cmd : Command) : Prop :=
  match cmd with
  | SaveFunding _ => funding_kept s c = true ∨ in_domain cmd (view s c)
  | _ => in_domain cmd (view s c)
  end.
#[global] Instance op_in_domain_dec s c cmd : Decision (op_in_domain s c cmd).
Proof. destruct cmd; unfold op_in_domain; apply _. Defined.
Lemma op_spec s c cmd :
  st_wf s → op_in_domain s c cmd →
  st_wf (exec s c cmd).2 ∧ exec_meets s c (exec s c cmd) (spec_step cmd (view s c)).
Proof.
  intros Hwf Hd. destruct (decide (in_domain cmd (view s c))) as [Hin|Hout]; [by apply exec_spec|].
  destruct cmd; try done. destruct Hd as [Hk|?]; [|done]. cbn [exec spec_step].
  destruct (v_funding (view s c)) as [f0|] eqn:Hf; [by eapply save_funding_kept|].
  destruct Hout. cbn [in_domain]. by rewrite Hf.
Qed.
Lemma spec_step_evolves_op s c cmd v' :
  st_wf s → op_in_domain s c cmd → spec_step cmd (view s c) = Some v' → evolves (view s c) v'.
Proof.
  intros Hwf Hd Hv. destruct (decide (in_domain cmd (view s c))) as [Hin|Hout].
  { eapply spec_step_evolves; [by apply st_view_ok|done..]. }
  destruct cmd; try done. cbn [spec_step in_domain] in Hv, Hout. destruct (v_funding (view s c)); [|by destruct Hout].
  injection Hv as <-. apply evolves_refl.
Qed.

(** A history of operations, by any callers on any channels. *)
Fixpoint run (s : S) (l : list (string * Command)) : S :=
  match l with [] => s | (c, cmd) :: l => run (exec s c cmd).2 l end.
Fixpoint run_in_domain (s : S) (l : list (string * Command)) : Prop :=
  match l with
  | [] => True
  | (c, cmd) :: l => op_in_domain s c cmd ∧ run_in_domain (exec s c cmd).2 l
  end.

#[global] Instance run_in_domain_dec s l : Decision (run_in_domain s l).
Proof. revert s. induction l as [|[c cmd] l IH]; intros s; simpl; apply _. Defined.

Lemma exec_evolves s c cmd d :
  st_wf s → op_in_domain s c cmd → evolves (view s d) (view (exec s c cmd).2 d).
Proof.
  intros Hwf Hd. destruct (op_spec s c cmd Hwf Hd) as (_ & Hm & Hframe & _).
  destruct (decide (d = c)) as [->|]; [|rewrite Hframe by done; apply evolves_refl].
  destruct (spec_step cmd (view s c)) as [v|] eqn:Hst.
  - destruct Hm as [_ ->]. by eapply spec_step_evolves_op.
  - destruct Hm as [_ ->]. apply evolves_refl.
Qed.
Lemma run_wf s l : st_wf s → run_in_domain s l → st_wf (run s l).
Proof.
  revert s. induction l as [|[c cmd] l IH]; intros s Hwf; [done|]. intros [Hd Hl].
  apply IH; [|done]. by apply op_spec.
Qed.
Lemma run_evolves s l c : st_wf s → run_in_domain s l → evolves (view s c) (view (run s l) c).
Proof.
  revert s. induction l as [|[c' cmd] l IH]; intros s Hwf; [intros; apply evolves_refl|].
  intros [Hd Hl]. simpl. assert (st_wf (exec s c' cmd).2) by (by apply op_spec).
  eapply evolves_trans; [by apply st_view_ok|by apply st_view_ok, run_wf|by apply exec_evolves|].
  by apply IH.
Qed.

(** An operation succeeds exactly when the specification has a next view. *)
Lemma exec_ok_iff s c cmd :
  st_wf s → in_domain cmd (view s c) →
  (exec s c cmd).1 = Ok tt ↔ is_Some (spec_step cmd (view s c)).
Proof.
  intros Hwf Hd. destruct (exec_spec s c cmd Hwf Hd) as (_ & Hm & _).
  destruct (spec_step cmd (view s c)).
  - destruct Hm as [-> _]. split; [by eexists|done].
  - destruct Hm as [[e ->] _]. split; [done|by intros []].
Qed.
Lemma exec_view s c cmd v :
  st_wf s → in_domain cmd (view s c) → spec_step cmd (view s c) = Some v →
  view (exec s c cmd).2 c = v.
Proof.
  intros Hwf Hd Hv. destruct (exec_spec s c cmd Hwf Hd) as (_ & Hm & _).
  rewrite Hv in Hm. apply Hm.
Qed.
Lemma exec_err s c cmd :
  st_wf s → in_domain cmd (view s c) → spec_step cmd (view s c) = None →
  ∃ e, (exec s c cmd).1 = Err e.
Proof.
  intros Hwf Hd Hv. destruct (exec_spec s c cmd Hwf Hd) as (_ & Hm & _).
  rewrite Hv in Hm. apply Hm.
Qed.

(** C9: whatever operations of its domain callers run, in whatever order, a channel only moves
    forward: Open to Closing to Closed, the closed record written once, the payment never
    lowered and never touched after the channel left Open, a journaled close never re-opened or
    overwritten, usage counters never lowered. Its funding is written once: other funding that
    is offered for it later is ignored, whenever [funding_kept] holds of the channel, that is
    always in memory, and in SQLite once the process has the channel in its cache. *)
Theorem channel_lifecycle s (l : list (string * Command)) (c : string) :
  st_wf s → run_in_domain s l →
  st_wf (run s l) ∧ evolves (view s c) (view (run s l) c).
Proof. intros. split; [by apply run_wf|by apply run_evolves]. Qed.

(** two callers that saw the same payment cannot both replace it, and a payment and a
    close that saw the same payment cannot both go through: the second to arrive is
    refused, whatever it wants to store. *)
Theorem payment_race_single_winner s c (e p : PaymentProof) (first : Command) (cd : ClosingData)
    (journal : string) :
  st_wf s →
  first = ComparePayment e p ∨ first = FreezeClose e cd journal →
  in_domain first (view s c) → (exec s c first).1 = Ok tt →
  ∀ second,
    (∃ p', second = ComparePayment e p') ∨ (∃ cd' j', second = FreezeClose e cd' j') →
    in_domain second (view (exec s c first).2 c) →
    ∃ err, (exec (exec s c first).2 c second).1 = Err err.
Proof.
  intros Hwf Hfirst Hd Hok second Hsecond Hd2.
  assert (st_wf (exec s c first).2) by (by apply exec_spec).
  apply exec_ok_iff in Hok as [v Hv]; [|done..].
  pose proof (exec_view _ _ _ _ Hwf Hd Hv) as Hview.
  apply exec_err; [done..|]. rewrite Hview.
  assert (v_state v ≠ Some Open ∨ v_payment v ≠ Some e) as Hno.
  { clear -Hfirst Hv. destruct Hfirst as [-> | ->]; simpl in Hv; case_bool_decide as Hc;
      try done; injection Hv as <-; simpl; [right|by left]. intros [= ->]. lia. }
  destruct Hsecond as [[p' ->]|(cd' & j' & ->)]; simpl;
    rewrite bool_decide_eq_false_2; try done; naive_solver.
Qed.

(** after a close has been frozen at a payment, no history of operations changes the
    receiver's payment or lets another close begin: the payment stays the frozen one, the
    channel is Closing with the frozen closing data until it is Closed, and the unjournaled
    close marks and further payments are refused. *)
Theorem frozen_close_is_final s c (e : PaymentProof) (cd : ClosingData) (journal : string)
    (l : list (string * Command)) :
  st_wf s → in_domain (FreezeClose e cd journal) (view s c) →
  (freeze_close s c e cd journal).1 = Ok tt →
  let s1 := (freeze_close s c e cd journal).2 in
  run_in_domain s1 l →
  let s2 := run s1 l in
  v_payment (view s2 c) = Some e ∧
  (get_state s2 c = Ok (Some Closing) ∧ get_closing_data s2 c = Some cd ∨
   get_state s2 c = Ok (Some Closed)) ∧
  ∀ cmd,
    (∃ cd', cmd = MarkClosing cd') ∨ (∃ d, cmd = MarkClosed d) ∨ (∃ p, cmd = UpdateBalance p)
    ∨ (∃ e' p, cmd = ComparePayment e' p) ∨ (∃ e' cd' j', cmd = FreezeClose e' cd' j') →
    in_domain cmd (view s2 c) → ∃ err, (exec s2 c cmd).1 = Err err.
Proof.
  intros Hwf Hd Hok s1 Hrun s2.
  assert (st_wf s1) as Hwf1 by (by apply (exec_spec s c (FreezeClose e cd journal))).
  assert (st_wf s2) as Hwf2 by (by apply run_wf).
  apply (exec_ok_iff s c (FreezeClose e cd journal)) in Hok as [v Hv]; [|done..].
  pose proof (exec_view _ _ _ _ Hwf Hd Hv) as Hview. change (view s1 c = v) in Hview.
  clearbody s1. simpl in Hv. case_bool_decide as Hc; [|done]. injection Hv as <-.
  destruct Hc as (Hst & Hp & _).
  destruct (run_evolves s1 l c Hwf1 Hrun) as [Hr _ Hpay _ Hj Hfr _].
  fold s2 in Hr, Hpay, Hj, Hfr. rewrite Hview in *.
  cbn [v_state v_payment v_journal v_closing with_journal with_closing state_rank] in *.
  destruct (Hpay e Hp) as (e2 & He2 & [->|[? _]]); [|lia].
  specialize (Hj ltac:(by eexists)). specialize (Hfr cd ltac:(by eexists) eq_refl).
  assert (state_rank (v_state (view s2 c)) >= 2) by lia.
  split; [done|]. split.
  - rewrite get_state_ok by done. destruct (v_state (view s2 c)) as [[]|] eqn:Hs2;
      cbn [state_rank] in *; try lia; [|by right].
    left. by destruct Hfr.
  - assert (v_state (view s2 c) ≠ Some Open) by (intros E; rewrite E in *; cbn [state_rank] in *; lia).
    assert (v_journal (view s2 c) ≠ None) by (destruct Hj as [? ->]; done).
    intros cmd Hcmd Hd2. apply exec_err; [done..|].
    destruct Hcmd as [[? ->]|[[? ->]|[[? ->]|[(? & ? & ->)|(? & ? & ? & ->)]]]]; simpl;
      by rewrite bool_decide_eq_false_2 by naive_solver.
Qed.
End life.
