(* ===== verification/StorageMemory.v ===== *)
(** * [MemoryStorage] refines the storage specification

    The well-formedness invariant of the in-memory maps, and the proof that every operation
    of [MemoryStorage] meets [spec_step]. *)

From S2P Require Import Prelude Cashu Toy Storage StorageSpec.

Section memory.
Context {T : CashuTypes} {O : CashuOps}.
Implicit Types s : MemoryStorage.

Record mem_wf s : Prop := {
  mem_wf_closing c : is_Some (closing s !! c) → is_Some (funding s !! c) ∧ closed s !! c = None;
  mem_wf_closed c : is_Some (closed s !! c) → is_Some (funding s !! c);
  mem_wf_balance c p :
    balance s !! c = Some p →
    is_Some (funding s !! c) ∧ is_i63 (pp_balance p) ∧ pp_signature p ≠ "";
  mem_wf_usage c m : usage s !! c = Some m → map_Forall (λ _, is_i63) m;
}.

Definition mem_state (d : option ClosedDataView) (g : option ClosingData)
    (f : option ChannelFunding) : option ChannelState :=
  match d, g, f with
  | Some _, _, _ => Some Closed
  | None, Some _, _ => Some Closing
  | None, None, Some _ => Some Open
  | None, None, None => None
  end.
Definition mem_view s c : ChannelView :=
  mk_ChannelView (funding s !! c) (balance s !! c) (mem_get_usage s c)
    (mem_state (closed s !! c) (closing s !! c) (funding s !! c))
    (closing s !! c) (closed s !! c) (close_journals s !! c).

Lemma mem_get_state_eq s c :
  mem_get_state s c = Ok (mem_state (closed s !! c) (closing s !! c) (funding s !! c)).
Proof.
  unfold mem_get_state, mem_state.
  destruct (closed s !! c), (closing s !! c), (funding s !! c); done.
Qed.
Lemma mem_view_eq s c : view s c = mem_view s c.
Proof. unfold view, mem_view. simpl. by rewrite mem_get_state_eq. Qed.

Lemma mem_state_Open s c :
  mem_state (closed s !! c) (closing s !! c) (funding s !! c) = Some Open ↔
  closed s !! c = None ∧ closing s !! c = None ∧ is_Some (funding s !! c).
Proof.
  unfold mem_state. destruct (closed s !! c), (closing s !! c), (funding s !! c);
    (split; [|intros (?&?&[])]); naive_solver.
Qed.
Lemma mem_state_Closing s c :
  mem_state (closed s !! c) (closing s !! c) (funding s !! c) = Some Closing ↔
  closed s !! c = None ∧ is_Some (closing s !! c).
Proof.
  unfold mem_state. destruct (closed s !! c), (closing s !! c), (funding s !! c);
    (split; [|intros (?&[])]); naive_solver.
Qed.

Lemma mem_usage_wf s c k z :
  mem_wf s → default ∅ (mem_get_usage s c) !! k = Some z → is_i63 z.
Proof.
  intros Hwf. unfold mem_get_usage. destruct (usage s !! c) as [m|] eqn:Hm; simpl; [|done].
  case_bool_decide; simpl; [done|]. intros. by eapply (mem_wf_usage _ Hwf c m Hm k).
Qed.
Lemma mem_usage_default s c :
  default ∅ (mem_get_usage s c) = default ∅ (usage s !! c).
Proof.
  unfold mem_get_usage. destruct (usage s !! c) as [m|]; simpl; [|done].
  by case_bool_decide.
Qed.

(** One field of a channel changed: what the other channels see. *)
Ltac mem_frame :=
  intros; rewrite !mem_view_eq; unfold mem_view, mem_get_usage; simpl;
  rewrite ?lookup_insert_ne, ?lookup_delete_ne by done; done.
(** ... and what the channel itself sees. *)
Ltac mem_self :=
  rewrite !mem_view_eq; unfold mem_view, mem_get_usage; simpl;
  rewrite ?lookup_insert_eq, ?lookup_delete_eq; simpl.
Ltac mem_keep_wf :=
  intros Hwf; split; simpl; intros c'; intros;
  repeat match goal with
  | c : string, H : context [<[?c:=_]> _ !! ?c'] |- _ =>
      destruct (decide (c = c')) as [->|];
      [rewrite ?lookup_insert_eq in H|rewrite ?lookup_insert_ne in H by done]
  end; try (by eapply (mem_wf_closing _ Hwf)); try (by eapply (mem_wf_closed _ Hwf));
  try (by eapply (mem_wf_balance _ Hwf)); try (by eapply (mem_wf_usage _ Hwf)).

Lemma mem_set_balance_wf s c p :
  is_Some (funding s !! c) → is_i63 (pp_balance p) → pp_signature p ≠ "" →
  mem_wf s → mem_wf (set_balance (<[c:=p]>) s).
Proof. intros ???. mem_keep_wf. naive_solver. Qed.
Lemma mem_set_closing_wf s c cd :
  is_Some (funding s !! c) → closed s !! c = None →
  mem_wf s → mem_wf (set_closing (<[c:=cd]>) s).
Proof. intros ??. mem_keep_wf. done. Qed.
Lemma mem_set_journals_wf s f : mem_wf s → mem_wf (set_journals f s).
Proof. mem_keep_wf. Qed.
Lemma mem_close_wf s c d :
  is_Some (funding s !! c) → mem_wf s →
  mem_wf (set_closing (delete c) (set_closed (<[c:=d]>) s)).
Proof.
  intros Hf Hwf. split; simpl.
  - intros c' Hc'. destruct (decide (c = c')) as [->|].
    + rewrite lookup_delete_eq in Hc'. by destruct Hc'.
    + rewrite lookup_delete_ne in Hc' by done. rewrite lookup_insert_ne by done.
      by apply (mem_wf_closing _ Hwf).
  - intros c' Hc'. destruct (decide (c = c')) as [->|]; [done|].
    rewrite lookup_insert_ne in Hc' by done. by apply (mem_wf_closed _ Hwf).
  - apply (mem_wf_balance _ Hwf).
  - apply (mem_wf_usage _ Hwf).
Qed.

Lemma mem_save_funding_wf s c f :
  mem_wf s → mem_wf (mem_save_funding s c f).2.
Proof.
  unfold mem_save_funding. simpl. case_bool_decide as Hf; [done|]. intros Hwf.
  assert (∀ c', is_Some (funding s !! c') → is_Some (<[c:=f]> (funding s) !! c')) as Hm.
  { intros c' ?. destruct (decide (c = c')) as [->|];
      [by rewrite lookup_insert_eq|by rewrite lookup_insert_ne]. }
  split; simpl; intros c'.
  - intros [? ?]%(mem_wf_closing _ Hwf). auto.
  - intros ?%(mem_wf_closed _ Hwf). auto.
  - intros p (? & ? & ?)%(mem_wf_balance _ Hwf). auto.
  - apply (mem_wf_usage _ Hwf).
Qed.

Lemma mem_increment_usage_lookup s c inc k :
  mem_wf s → in_domain (IncrementUsage inc) (view s c) →
  foldl (λ u e, <[e.1 := wrap64 (default 0 (u !! e.1) + e.2)]> u)
    (default ∅ (usage s !! c)) (map_to_list inc) !! k =
  match default ∅ (mem_get_usage s c) !! k, inc !! k with
  | Some a, Some b => Some (a + b)
  | Some a, None => Some a
  | None, o => o
  end.
Proof.
  intros Hwf Hd.
  rewrite (foldl_upsert_lookup (λ o d, wrap64 (default 0 o + d)) (map_to_list inc)),
    list_to_map_to_list by apply NoDup_fst_map_to_list.
  rewrite <-mem_usage_default.
  destruct (inc !! k) as [d|] eqn:Hk; [|by destruct (default ∅ _ !! k)].
  specialize (Hd k d Hk) as [? Hd]. rewrite mem_view_eq in Hd. simpl in Hd.
  destruct (default ∅ (mem_get_usage s c) !! k) as [a|] eqn:Ha; simpl in *;
    (rewrite wrap64_id; [f_equal; lia|unfold is_u64]).
  - apply mem_usage_wf in Ha; [|done]. unfold is_i63 in Ha. lia.
  - lia.
Qed.

Lemma mem_increment_usage_wf s c inc :
  mem_wf s → in_domain (IncrementUsage inc) (view s c) → mem_wf (mem_increment_usage s c inc).2.
Proof.
  intros Hwf Hd. split; simpl; [apply Hwf..|].
  intros c' m. destruct (decide (c = c')) as [->|].
  - rewrite lookup_insert_eq. intros [= <-] k z Hz.
    rewrite mem_increment_usage_lookup in Hz by done.
    destruct (default ∅ (mem_get_usage s c') !! k) as [a|] eqn:Ha, (inc !! k) as [d|] eqn:Hk;
      simplify_eq; [|by eapply mem_usage_wf|].
    + specialize (Hd k d Hk) as [? Hd]. rewrite mem_view_eq in Hd. simpl in Hd.
      rewrite Ha in Hd. apply mem_usage_wf in Ha; [|done]. unfold is_i63 in *. simpl in Hd. lia.
    + specialize (Hd k z Hk) as [? Hd]. rewrite mem_view_eq in Hd. simpl in Hd.
      rewrite Ha in Hd. unfold is_i63. simpl in Hd. lia.
  - rewrite lookup_insert_ne by done. apply (mem_wf_usage _ Hwf).
Qed.

Lemma mem_increment_usage_meets s c inc :
  mem_wf s → in_domain (IncrementUsage inc) (view s c) →
  exec_meets s c (mem_increment_usage s c inc) (spec_step (IncrementUsage inc) (view s c)).
Proof.
  intros Hwf Hd. split; [split; [done|]|split; [mem_frame|done]].
  rewrite !mem_view_eq. unfold mem_view, with_usage. simpl. f_equal.
  erewrite <-add_usage_eq by (intros k; by apply mem_increment_usage_lookup).
  unfold mem_get_usage at 1. simpl. by rewrite lookup_insert_eq.
Qed.

(** The proofs that no channel changed: the operation failed. *)
Lemma mem_fail_meets s c e : exec_meets s c (Err e, s) None.
Proof. split; [split; [by eexists|done]|done]. Qed.

Lemma mem_compare_payment_spec s c e p :
  mem_wf s → in_domain (ComparePayment e p) (view s c) →
  mem_wf (mem_compare_payment s c e p).2 ∧
  exec_meets s c (mem_compare_payment s c e p) (spec_step (ComparePayment e p) (view s c)).
Proof.
  intros Hwf (? & ? & ? & ?). unfold mem_compare_payment. rewrite mem_get_state_eq.
  rewrite mem_view_eq. simpl.
  destruct (bool_decide (mem_state _ _ _ = _)) eqn:Hst; simpl;
    [apply bool_decide_eq_true in Hst|apply bool_decide_eq_false in Hst].
  2:{ rewrite bool_decide_eq_false_2 by tauto. auto using mem_fail_meets. }
  destruct (Z.leb_spec (pp_balance p) (pp_balance e)).
  { rewrite bool_decide_eq_false_2 by (intros (_ & _ & ?); lia). auto using mem_fail_meets. }
  destruct (balance s !! c) as [cur|] eqn:Hcur.
  2:{ rewrite bool_decide_eq_false_2 by naive_solver. auto using mem_fail_meets. }
  destruct cur as [b g], e as [b' g']; simpl in *.
  destruct (Z.eqb_spec b b') as [->|]; simpl.
  2:{ rewrite bool_decide_eq_false_2 by naive_solver. auto using mem_fail_meets. }
  destruct (String.eqb_spec g g') as [->|]; simpl.
  2:{ rewrite bool_decide_eq_false_2 by naive_solver. auto using mem_fail_meets. }
  rewrite bool_decide_eq_true_2 by done.
  pose proof (mem_wf_balance _ Hwf _ _ Hcur) as (? & _).
  split; [by apply mem_set_balance_wf|].
  split; [split; [done|by mem_self]|split; [mem_frame|done]].
Qed.

Lemma mem_update_balance_spec s c p :
  mem_wf s → in_domain (UpdateBalance p) (view s c) →
  mem_wf (mem_update_balance s c p).2 ∧
  exec_meets s c (mem_update_balance s c p) (spec_step (UpdateBalance p) (view s c)).
Proof.
  intros Hwf (? & ?). unfold mem_update_balance. rewrite mem_get_state_eq.
  rewrite mem_view_eq. simpl.
  case_bool_decide as Hst; simpl.
  2:{ rewrite bool_decide_eq_false_2 by congruence. auto using mem_fail_meets. }
  injection Hst as Hst. rewrite bool_decide_eq_true_2 by done.
  apply mem_state_Open in Hst as (? & ? & ?).
  destruct (balance s !! c) as [cur|] eqn:Hcur; [destruct (_ <? _)|];
    (split; [by try apply mem_set_balance_wf|]; split; [split; [done|]|split; [try mem_frame|]; done]).
  - by mem_self.
  - apply mem_view_eq.
  - by mem_self.
Qed.

Lemma mem_freeze_close_spec s c e cd j :
  mem_wf s → in_domain (FreezeClose e cd j) (view s c) →
  mem_wf (mem_freeze_close s c e cd j).2 ∧
  exec_meets s c (mem_freeze_close s c e cd j) (spec_step (FreezeClose e cd j) (view s c)).
Proof.
  intros Hwf _. unfold mem_freeze_close, mem_get_balance, mem_get_close_journal.
  rewrite mem_get_state_eq. rewrite mem_view_eq. simpl.
  destruct (decide (mem_state (closed s !! c) (closing s !! c) (funding s !! c) = Some Open
    ∧ balance s !! c = Some e ∧ close_journals s !! c = None
    ∧ cd_balance cd = pp_balance e ∧ cd_signature cd = pp_signature e)) as [Hg|Hg];
    [rewrite (bool_decide_eq_true_2 _ Hg)|rewrite (bool_decide_eq_false_2 _ Hg)].
  - destruct Hg as (Hst & Hb & Hj & -> & ->).
    rewrite Z.eqb_refl, String.eqb_refl, Hb, Hj, Hst, Z.eqb_refl, String.eqb_refl. simpl.
    apply mem_state_Open in Hst as (? & ? & [f Hf]). rewrite Hf. simpl.
    split; [by apply mem_set_journals_wf, mem_set_closing_wf|].
    split; [split; [done|]|split; [mem_frame|done]].
    mem_self. unfold with_journal, with_closing. simpl. f_equal.
    unfold mem_state. by simplify_option_eq.
  - assert (∀ m, exec_meets s c (Err m, s) None) as Hfail by apply mem_fail_meets.
    goal_if Ha; [by auto|].
    destruct (balance s !! c) as [[b g]|] eqn:Hb; [|by auto]. simpl.
    goal_if Hc; [by auto|]. exfalso. apply Hg.
    rewrite !orb_false_iff, !negb_false_iff in *.
    destruct Ha as [Ha1 Ha2], Hc as ((((_ & Hc1) & Hc2) & Hc3) & Hc4).
    rewrite bool_decide_eq_true, Z.eqb_eq, String.eqb_eq in *. destruct e. naive_solver.
Qed.

Lemma mem_advance_close_spec s c e j d :
  mem_wf s →
  mem_wf (mem_advance_close s c e j d).2 ∧
  exec_meets s c (mem_advance_close s c e j d) (spec_step (AdvanceClose e j d) (view s c)).
Proof.
  intros Hwf. unfold mem_advance_close. rewrite mem_get_state_eq. rewrite mem_view_eq. simpl.
  case_bool_decide as Hj; simpl.
  2:{ rewrite bool_decide_eq_false_2 by tauto. auto using mem_fail_meets. }
  case_bool_decide as Hst; simpl.
  2:{ rewrite bool_decide_eq_false_2 by (intros [? _]; congruence). auto using mem_fail_meets. }
  injection Hst as Hst. rewrite bool_decide_eq_true_2 by done.
  apply mem_state_Closing in Hst as Hcl. destruct Hcl as [_ Hcl].
  destruct d as [d|]; (split; [apply mem_set_journals_wf|]).
  - apply mem_close_wf; [|done]. by apply (mem_wf_closing _ Hwf).
  - split; [split; [done|by mem_self]|split; [mem_frame|done]].
  - done.
  - split; [split; [done|by mem_self]|split; [mem_frame|done]].
Qed.

Lemma mem_mark_spec s c cmd :
  match cmd with MarkClosing _ | MarkClosed _ | SaveFunding _ => True | _ => False end →
  mem_wf s → in_domain cmd (view s c) →
  mem_wf (exec s c cmd).2 ∧ exec_meets s c (exec s c cmd) (spec_step cmd (view s c)).
Proof.
  intros Hcmd Hwf Hd. rewrite mem_view_eq in *. destruct cmd; try done; simpl in *.
  - split; [by apply mem_save_funding_wf|]. unfold mem_save_funding.
    destruct (funding s !! c) eqn:Hf; simpl.
    + split; [split; [done|apply mem_view_eq]|done].
    + split; [split; [done|]|split; [mem_frame|done]]. mem_self. f_equal.
      unfold mem_state. destruct (closed s !! c) eqn:Hc.
      { destruct (mem_wf_closed _ Hwf c); naive_solver. }
      destruct (closing s !! c) eqn:Hg; [|done].
      destruct (mem_wf_closing _ Hwf c) as [[] _]; naive_solver.
  - unfold mem_mark_closing, mem_get_close_journal.
    destruct (close_journals s !! c) eqn:Hj; simpl; [auto using mem_fail_meets|].
    destruct (closed s !! c) eqn:Hc; simpl; [auto using mem_fail_meets|].
    rewrite bool_decide_eq_true_2 by (split; [done|]; by destruct (closing s !! c), (funding s !! c)).
    split; [by apply mem_set_closing_wf|].
    split; [split; [done|]|split; [mem_frame|done]].
    mem_self. unfold with_closing. simpl. by rewrite Hc.
  - unfold mem_mark_closed, mem_get_close_journal.
    destruct (close_journals s !! c) eqn:Hj; simpl; [auto using mem_fail_meets|].
    destruct (closed s !! c) eqn:Hc; simpl; [auto using mem_fail_meets|].
    rewrite bool_decide_eq_true_2 by (split; [done|]; by destruct (closing s !! c), (funding s !! c)).
    split; [by apply mem_close_wf|].
    split; [split; [done|by mem_self]|split; [mem_frame|done]].
Qed.

Lemma mem_exec_spec s c cmd :
  mem_wf s → in_domain cmd (view s c) →
  mem_wf (exec s c cmd).2 ∧ exec_meets s c (exec s c cmd) (spec_step cmd (view s c)).
Proof.
  intros Hwf Hd. destruct cmd; try (by apply mem_mark_spec).
  - by apply mem_compare_payment_spec.
  - by apply mem_freeze_close_spec.
  - by apply mem_advance_close_spec.
  - by apply mem_update_balance_spec.
  - split; [by apply mem_increment_usage_wf|by apply mem_increment_usage_meets].
Qed.

Lemma mem_new_wf : mem_wf MemoryStorage_new.
Proof. split; simpl; intros c; rewrite ?lookup_empty; by (intros [] || intros). Qed.

Lemma mem_view_relations s c :
  mem_wf s →
  (v_state (view s c) = None ↔ v_funding (view s c) = None) ∧
  (v_state (view s c) = Some Closing ↔ is_Some (v_closing (view s c))) ∧
  (v_state (view s c) = Some Closed ↔ is_Some (v_closed (view s c))).
Proof.
  intros Hwf. rewrite mem_view_eq. simpl.
  pose proof (mem_wf_closing _ Hwf c) as Hg. pose proof (mem_wf_closed _ Hwf c) as Hd.
  destruct (closed s !! c) as [d|], (closing s !! c) as [g|], (funding s !! c) as [f|];
    simpl; try (by destruct (Hg ltac:(by eexists)) as [[] ?]);
    try (by destruct (Hd ltac:(by eexists)));
    repeat split; (done || by intros [] || by eexists || by intros).
Qed.

Lemma mem_push_entries s m n k :
  (∃ us ks, mem_get_mints_units_keysets s !! m = Some us ∧ us !! n = Some ks ∧ k ∈ ks) ↔
  ∃ i e, keysets s !! (m, i) = Some e ∧ ks_active e = true ∧ unit_to_string (ks_unit e) = n
         ∧ id_to_string i = k.
Proof.
  unfold mem_get_mints_units_keysets.
  rewrite (push_entries_elem (λ e : string * Id * KeysetCacheEntry, if ks_active e.2 then
    Some (e.1.1, unit_to_string (ks_unit e.2), id_to_string e.1.2) else None))
    by (intros ? e; by destruct (ks_active e.2)).
  rewrite list_elem_of_omap. split.
  - intros [([[m' i] e] & He%elem_of_map_to_list & Hf)|(us & ks & Hus & _)].
    + simpl in Hf. destruct (ks_active e) eqn:?; simplify_eq. eauto 10.
    + by rewrite lookup_empty in Hus.
  - intros (i & e & He & Ha & <- & <-). left. exists (m, i, e).
    rewrite elem_of_map_to_list. simpl. by rewrite Ha.
Qed.

#[global] Program Instance memory_storage_spec : StorageSpec MemoryStorage :=
  {| st_wf := mem_wf; funding_kept _ _ := true |}.
Next Obligation. intros. by apply mem_exec_spec. Qed.
Next Obligation.
  intros s c f f0 Hwf _ Hf. rewrite mem_view_eq in Hf. cbn in *. split; [by apply mem_save_funding_wf|].
  unfold mem_save_funding. rewrite Hf. by split; [split|].
Qed.
Next Obligation. intros s c _. rewrite mem_view_eq. apply mem_get_state_eq. Qed.
Next Obligation. done. Qed.
Next Obligation. done. Qed.
Next Obligation. intros. by apply mem_view_relations. Qed.
Next Obligation. intros. by apply mem_view_relations. Qed.
Next Obligation. intros. by apply mem_view_relations. Qed.
Next Obligation. intros s c p Hwf. apply (mem_wf_balance _ Hwf). Qed.
Next Obligation.
  intros s m i e Hwf. split; [done|]. split; [by split; apply Hwf|]. split; [done|].
  intros m' i'. simpl. unfold mem_get_keyset. simpl. case_bool_decide as H.
  - simplify_eq. by rewrite lookup_insert_eq.
  - by rewrite lookup_insert_ne.
Qed.
Next Obligation.
  intros s m u i _. simpl. unfold mem_get_active_keyset_ids, mem_get_keyset.
  rewrite list_elem_of_fmap. setoid_rewrite list_elem_of_filter.
  setoid_rewrite <-elem_of_map_to_list. split.
  - intros ([[m' i'] e] & -> & (<- & <- & ?) & ?). eauto.
  - intros (e & ? & ? & <-). by exists (m, i, e).
Qed.
Next Obligation.
  intros s m u i e _. simpl. unfold mem_list_keysets_for_unit, mem_get_keyset.
  rewrite list_elem_of_fmap. setoid_rewrite list_elem_of_filter.
  rewrite <-elem_of_map_to_list. split.
  - intros ([[m' i'] e'] & [= -> ->] & (<- & <-) & ?). done.
  - intros (? & <-). by exists (m, i, e).
Qed.
Next Obligation.
  intros s n _. simpl. unfold mem_get_active_units, mem_get_keyset.
  rewrite elem_of_list_to_set, list_elem_of_fmap. setoid_rewrite list_elem_of_filter.
  setoid_rewrite <-elem_of_map_to_list. split.
  - intros ([[m i] e] & -> & ? & ?). eauto 10.
  - intros (m & i & e & ? & ? & <-). by exists (m, i, e).
Qed.
Next Obligation. intros s m n k _. apply mem_push_entries. Qed.
End memory.


(** ** Concrete inputs *)

Module Examples.
#[local] Existing Instance Toy.types.
#[local] Existing Instance Toy.ops.

Definition fund : ChannelFunding := mk_ChannelFunding "params" "proofs" "secret" "keyset".
Definition other_fund : ChannelFunding := mk_ChannelFunding "other" "proofs" "secret" "keyset".
Definition pay3 : PaymentProof := mk_PaymentProof 3 "sig3".
Definition pay5 : PaymentProof := mk_PaymentProof 5 "sig5".
Definition closing3 : ClosingData := mk_ClosingData 2000 3 "sig3".
Definition closed3 : ClosedDataView := mk_ClosedDataView 2000 3 20 3 17 "[]" "[]".
Definition setup : list (string * Command) := [("c", SaveFunding fund); ("c", UpdateBalance pay3)].
Definition mem1 : MemoryStorage := run MemoryStorage_new setup.
Definition later : list (string * Command) :=
  [("c", AdvanceClose "j0" "j1" None); ("c", UpdateBalance pay5);
   ("c", AdvanceClose "j1" "j2" (Some closed3)); ("d", SaveFunding fund)].

Ltac in_domain_tac :=
  apply (bool_decide_unpack _); vm_compute; exact I.

Lemma mem1_wf : st_wf mem1.
Proof. apply (run_wf MemoryStorage_new setup); [exact mem_new_wf|in_domain_tac]. Qed.

Example mem1_view :
  view mem1 "c" = mk_ChannelView (Some fund) (Some pay3) None (Some Open) None None None.
Proof. vm_compute. reflexivity. Qed.
Example mem1_frozen_then_closed :
  v_state (view (run (freeze_close mem1 "c" pay3 closing3 "j0").2 later) "c") = Some Closed.
Proof. vm_compute. reflexivity. Qed.

Lemma channel_lifecycle_witness :
  evolves (view mem1 "c")
    (view (run mem1 [("c", ComparePayment pay3 pay5); ("c", SaveFunding other_fund);
                     ("c", MarkClosing closing3); ("c", UpdateBalance pay3)]) "c").
Proof. apply channel_lifecycle; [exact mem1_wf|in_domain_tac]. Defined.

Lemma payment_race_single_winner_witness :
  ∃ err, (exec (exec mem1 "c" (ComparePayment pay3 pay5)).2 "c"
            (FreezeClose pay3 closing3 "j0")).1 = Err err.
Proof.
  apply (payment_race_single_winner mem1 "c" pay3 pay5 (ComparePayment pay3 pay5) closing3 "j0").
  - exact mem1_wf.
  - by left.
  - in_domain_tac.
  - vm_compute. reflexivity.
  - right. eauto.
  - in_domain_tac.
Defined.

Lemma frozen_close_is_final_witness :
  v_payment (view (run (freeze_close mem1 "c" pay3 closing3 "j0").2 later) "c") = Some pay3.
Proof.
  apply (frozen_close_is_final mem1 "c" pay3 closing3 "j0" later).
  - exact mem1_wf.
  - in_domain_tac.
  - vm_compute. reflexivity.
  - in_domain_tac.
Defined.
End Examples.
