(* ===== verification/StorageSqlite.v ===== *)
(** * [SqliteStorage] refines the storage specification

    The well-formedness invariant of the tables and of the funding cache, the proof that
    every operation of [SqliteStorage] meets [spec_step], across restarts of the process,
    and the agreement of the two storages. *)

From S2P Require Import Prelude Cashu Toy Storage StorageSpec StorageMemory.

Section sqlite.
Context {T : CashuTypes} {O : CashuOps} {HE : EncodingLaws} {Q : Sqlite} {HQ : SqliteLaws}.
Implicit Types s : SqliteStorage.

Record row_wf (r : ChannelRow) : Prop := {
  row_wf_funding : is_Some (serde_from_str (A:=ChannelFunding) (row_funding_json r));
  row_wf_balance : is_i63 (row_balance r);
  row_wf_state : row_state r ∈ ["Open"; "Closing"; "Closed"];
  row_wf_closing :
    row_state r = "Closing" →
    is_Some (row_closing_json r ≫= serde_from_str (A:=ClosingData));
  row_wf_closed :
    row_state r = "Closed" →
    is_Some (row_closed_json r ≫= serde_from_str (A:=ClosedDataView));
}.
Record sql_wf s : Prop := {
  sql_wf_row c r : spilman_channels s !! c = Some r → row_wf r;
  sql_wf_cache c f :
    funding_cache s !! c = Some f →
    ∃ r, spilman_channels s !! c = Some r ∧ serde_from_str (row_funding_json r) = Some f;
  sql_wf_usage k n : spilman_usage s !! k = Some n → ∃ z, n = SqlInteger z ∧ is_i63 z;
  sql_wf_keysets m k j :
    spilman_keysets s !! (m, k) = Some j → ∃ i e, k = id_to_string i ∧ j = serde_to_string e;
}.

Definition row_payment (r : ChannelRow) : option PaymentProof :=
  if String.eqb (row_signature r) "" then None
  else Some (mk_PaymentProof (row_balance r) (row_signature r)).
Definition state_of_row (r : ChannelRow) : option ChannelState :=
  if String.eqb (row_state r) "Open" then Some Open
  else if String.eqb (row_state r) "Closing" then Some Closing
  else if String.eqb (row_state r) "Closed" then Some Closed
  else None.
Definition row_view (o : option ChannelRow) (u : option UsageMap) (j : option string) : ChannelView :=
  mk_ChannelView (o ≫= λ r, serde_from_str (row_funding_json r)) (o ≫= row_payment) u
    (o ≫= state_of_row)
    (o ≫= λ r, if String.eqb (row_state r) "Closing"
               then row_closing_json r ≫= serde_from_str else None)
    (o ≫= λ r, if String.eqb (row_state r) "Closed"
               then row_closed_json r ≫= serde_from_str else None) j.
Definition sql_view s c : ChannelView :=
  row_view (spilman_channels s !! c) (sql_get_usage s c) (spilman_close_journals s !! c).

Lemma sql_get_state_eq s c :
  sql_wf s → sql_get_state s c = Ok (spilman_channels s !! c ≫= state_of_row).
Proof.
  intros Hwf. unfold sql_get_state, state_of_row.
  destruct (spilman_channels s !! c) as [r|] eqn:Hr; simpl; [|done].
  pose proof (row_wf_state _ (sql_wf_row _ Hwf _ _ Hr)) as Hst.
  repeat case_match; try done. exfalso.
  rewrite !String.eqb_neq in *. set_solver.
Qed.
Lemma sql_get_funding_eq s c :
  sql_wf s →
  (sql_get_funding s c).1 = spilman_channels s !! c ≫= λ r, serde_from_str (row_funding_json r).
Proof.
  intros Hwf. unfold sql_get_funding. destruct (funding_cache s !! c) as [f|] eqn:Hc.
  - apply (sql_wf_cache _ Hwf) in Hc as (r & -> & ?). done.
  - by destruct (spilman_channels s !! c ≫= _).
Qed.
Lemma sql_view_eq s c : sql_wf s → view s c = sql_view s c.
Proof.
  intros Hwf. unfold view, sql_view, row_view. simpl.
  rewrite sql_get_state_eq, sql_get_funding_eq by done. f_equal.
  unfold sql_get_balance, row_payment.
  destruct (spilman_channels s !! c) as [r|] eqn:Hr; simpl; [|done].
  rewrite wrap64_id; [done|].
  pose proof (row_wf_balance _ (sql_wf_row _ Hwf _ _ Hr)) as Hb.
  unfold is_i63, is_u64 in *. lia.
Qed.

(** Replacing the row of a channel by one with the same funding. *)
Lemma sql_set_row_wf s c r r' :
  sql_wf s → spilman_channels s !! c = Some r → row_wf r' →
  row_funding_json r' = row_funding_json r → sql_wf (set_channels (<[c:=r']>) s).
Proof.
  intros Hwf Hr Hr' Hf. split; simpl.
  - intros c' q. destruct (decide (c = c')) as [->|].
    + rewrite lookup_insert_eq. by intros [= <-].
    + rewrite lookup_insert_ne by done. apply (sql_wf_row _ Hwf).
  - intros c' f Hc. apply (sql_wf_cache _ Hwf) in Hc as (q & Hq & Hp).
    destruct (decide (c = c')) as [->|].
    + rewrite lookup_insert_eq. simplify_eq. eexists. by rewrite Hf.
    + rewrite lookup_insert_ne by done. eauto.
  - apply (sql_wf_usage _ Hwf).
  - apply (sql_wf_keysets _ Hwf).
Qed.
Lemma sql_set_journals_wf s f : sql_wf s → sql_wf (set_sql_journals f s).
Proof. intros Hwf. by split; apply Hwf. Qed.

Lemma row_payment_wf r b g : row_wf r → is_i63 b → row_wf (set_row_payment b g r).
Proof. by intros [] ?; split. Qed.
Lemma row_closing_wf r cd : row_wf r → row_wf (set_row_closing (serde_to_string (A:=ClosingData) cd) r).
Proof. intros []; split; simpl; try done; [set_solver|]. intros _. rewrite serde_inv. by eexists. Qed.
Lemma row_closed_wf r d : row_wf r → row_wf (set_row_closed (serde_to_string (A:=ClosedDataView) d) r).
Proof. intros []; split; simpl; try done; [set_solver|]. intros _. rewrite serde_inv. by eexists. Qed.

(** An operation that replaced the row of [c] (and possibly its journal). *)
Lemma sql_row_meets s s' c r r' j' v :
  sql_wf s → sql_wf s' → spilman_channels s !! c = Some r →
  s' = set_sql_journals (λ m, match j' with Some j => <[c:=j]> m | None => m end)
         (set_channels (<[c:=r']>) s) →
  v = row_view (Some r') (sql_get_usage s c)
        (match j' with Some j => Some j | None => spilman_close_journals s !! c end) →
  exec_meets s c (Ok tt, s') (Some v).
Proof.
  intros Hwf Hwf' Hr Hs' ->. unfold exec_meets. simpl.
  rewrite sql_view_eq by done. repeat split.
  - subst s'. unfold sql_view. simpl. rewrite lookup_insert_eq.
    f_equal. destruct j'; [by rewrite lookup_insert_eq|done].
  - intros d Hd. rewrite !sql_view_eq by done. subst s'. unfold sql_view. simpl.
    rewrite lookup_insert_ne by done. f_equal. destruct j'; [by rewrite lookup_insert_ne|done].
  - intros m i. by subst s'.
Qed.
Lemma sql_fail_meets s c e : exec_meets s c (Err e, s) None.
Proof. split; [split; [by eexists|done]|done]. Qed.

Lemma state_of_row_Open r : state_of_row r = Some Open ↔ row_state r = "Open".
Proof.
  unfold state_of_row. split; [repeat case_match; rewrite ?String.eqb_eq in *; congruence|].
  by intros ->.
Qed.
Lemma state_of_row_Closing r : state_of_row r = Some Closing ↔ row_state r = "Closing".
Proof.
  unfold state_of_row. split; [repeat case_match; rewrite ?String.eqb_eq in *; congruence|].
  by intros ->.
Qed.
Lemma state_of_row_Closed r : state_of_row r = Some Closed ↔ row_state r = "Closed".
Proof.
  unfold state_of_row. split; [repeat case_match; rewrite ?String.eqb_eq in *; congruence|].
  by intros ->.
Qed.
Lemma row_payment_Some r p :
  pp_signature p ≠ "" →
  row_payment r = Some p ↔ row_balance r = pp_balance p ∧ row_signature r = pp_signature p.
Proof.
  intros Hp. unfold row_payment. destruct p as [b g]. simpl in *.
  destruct (String.eqb_spec (row_signature r) "") as [E|]; [rewrite E|]; naive_solver.
Qed.

Lemma sql_compare_payment_spec s c e p :
  sql_wf s → in_domain (ComparePayment e p) (view s c) →
  sql_wf (sql_compare_payment s c e p).2 ∧
  exec_meets s c (sql_compare_payment s c e p) (spec_step (ComparePayment e p) (view s c)).
Proof.
  intros Hwf ([He0 He] & Hes & [Hp0 Hp] & Hps). rewrite sql_view_eq by done.
  unfold sql_compare_payment, i64_try_from, sql_view. simpl.
  destruct (Z.leb_spec (pp_balance p) (pp_balance e)).
  { rewrite bool_decide_eq_false_2 by (intros (_ & _ & ?); lia). auto using sql_fail_meets. }
  rewrite (proj2 (Z.ltb_lt _ _) Hp), (proj2 (Z.ltb_lt (pp_balance e) _)) by lia.
  unfold update_row. destruct (spilman_channels s !! c) as [r|] eqn:Hr; simpl.
  2:{ auto using sql_fail_meets. }
  destruct (_ && _) eqn:Hc; simpl.
  - rewrite !andb_true_iff, !String.eqb_eq, Z.eqb_eq in Hc. destruct Hc as ((Hst & Hb) & Hg).
    rewrite bool_decide_eq_true_2.
    2:{ by rewrite state_of_row_Open, row_payment_Some. }
    assert (sql_wf (set_channels (<[c:=set_row_payment (pp_balance p) (pp_signature p) r]>) s)).
    { eapply sql_set_row_wf; [done..| |done]. apply row_payment_wf; [by eapply sql_wf_row|done]. }
    split; [done|]. eapply (sql_row_meets _ _ _ _ _ None); [done..|].
    unfold with_payment, row_view. simpl. f_equal. symmetry. by apply row_payment_Some.
  - rewrite bool_decide_eq_false_2; [auto using sql_fail_meets|].
    rewrite state_of_row_Open, row_payment_Some by done. intros (Hst & [Hb Hg] & _).
    by rewrite Hst, Hb, Hg, Z.eqb_refl, !String.eqb_refl in Hc.
Qed.

Lemma sql_update_balance_spec s c p :
  sql_wf s → in_domain (UpdateBalance p) (view s c) →
  sql_wf (sql_update_balance s c p).2 ∧
  exec_meets s c (sql_update_balance s c p) (spec_step (UpdateBalance p) (view s c)).
Proof.
  intros Hwf ([Hp0 Hp] & Hps). rewrite sql_view_eq by done.
  unfold sql_update_balance, i64_try_from, sql_view. simpl.
  rewrite (proj2 (Z.ltb_lt _ _) Hp).
  destruct (spilman_channels s !! c) as [r|] eqn:Hr; simpl; [|auto using sql_fail_meets].
  destruct (String.eqb_spec (row_state r) "Open") as [Hst|Hst]; simpl.
  2:{ rewrite bool_decide_eq_false_2 by (by rewrite state_of_row_Open). auto using sql_fail_meets. }
  rewrite bool_decide_eq_true_2 by (by apply state_of_row_Open).
  unfold update_row. rewrite Hr, Hst. simpl.
  assert (row_wf (set_row_payment (pp_balance p) (pp_signature p) r)).
  { apply row_payment_wf; [by eapply sql_wf_row|done]. }
  assert (row_payment (set_row_payment (pp_balance p) (pp_signature p) r) = Some p).
  { by apply row_payment_Some. }
  destruct ((row_balance r <? pp_balance p) || _) eqn:Hc; simpl.
  - assert (sql_wf (set_channels (<[c:=set_row_payment (pp_balance p) (pp_signature p) r]>) s)).
    { by eapply sql_set_row_wf. }
    split; [done|]. eapply (sql_row_meets _ _ _ _ _ None); [done..|].
    transitivity (with_payment p (row_view (Some r) (sql_get_usage s c) (spilman_close_journals s !! c))).
    + unfold row_payment. destruct (String.eqb_spec (row_signature r) ""); simpl; [done|].
      rewrite orb_false_r in Hc. by rewrite Hc.
    + unfold with_payment, row_view. simpl. by f_equal.
  - split; [done|]. split; [split; [done|]|done]. simpl. rewrite sql_view_eq by done.
    unfold sql_view. rewrite Hr. unfold row_payment.
    apply orb_false_iff in Hc as [Hc ->]. simpl. by rewrite Hc.
Qed.

Lemma sql_freeze_close_spec s c e cd j :
  sql_wf s → in_domain (FreezeClose e cd j) (view s c) →
  sql_wf (sql_freeze_close s c e cd j).2 ∧
  exec_meets s c (sql_freeze_close s c e cd j) (spec_step (FreezeClose e cd j) (view s c)).
Proof.
  intros Hwf ([He0 He] & Hes). rewrite sql_view_eq by done.
  unfold sql_freeze_close, i64_try_from, sql_view. simpl.
  destruct (Z.eqb_spec (cd_balance cd) (pp_balance e)) as [Hb|]; simpl.
  2:{ rewrite bool_decide_eq_false_2 by tauto. auto using sql_fail_meets. }
  destruct (String.eqb_spec (cd_signature cd) (pp_signature e)) as [Hg|]; simpl.
  2:{ rewrite bool_decide_eq_false_2 by tauto. auto using sql_fail_meets. }
  unfold update_row.
  destruct (spilman_channels s !! c) as [r|] eqn:Hr; simpl.
  2:{ destruct (_ <? _); auto using sql_fail_meets. }
  pose proof (sql_wf_row _ Hwf _ _ Hr) as Hrw. pose proof (row_wf_balance _ Hrw) as [_ Hlt].
  destruct (Z.ltb_spec (pp_balance e) (2 ^ 63)) as [He63|He63].
  2:{ rewrite bool_decide_eq_false_2; [auto using sql_fail_meets|].
      rewrite row_payment_Some by done. intros (_ & [Hrb _] & _). lia. }
  destruct (_ && _) eqn:Hc; simpl.
  - rewrite !andb_true_iff, !String.eqb_eq, Z.eqb_eq in Hc. destruct Hc as ((Hst & Hrb) & Hrg).
    destruct (spilman_close_journals s !! c) eqn:Hj.
    { rewrite bool_decide_eq_false_2 by (intros (_ & _ & ? & _); done). auto using sql_fail_meets. }
    rewrite bool_decide_eq_true_2.
    2:{ by rewrite state_of_row_Open, row_payment_Some. }
    assert (sql_wf (set_sql_journals (<[c:=j]>)
              (set_channels (<[c:=set_row_closing (serde_to_string cd) r]>) s))).
    { apply sql_set_journals_wf. eapply sql_set_row_wf; [done..| |done]. by apply row_closing_wf. }
    split; [done|]. eapply (sql_row_meets _ _ _ _ _ (Some j)); [done..|].
    unfold with_journal, with_closing, row_view. simpl. rewrite Hst, serde_inv. done.
  - rewrite bool_decide_eq_false_2; [auto using sql_fail_meets|].
    rewrite state_of_row_Open, row_payment_Some by done. intros (Hst & [Hrb Hrg] & _).
    by rewrite Hst, Hrb, Hrg, Z.eqb_refl, !String.eqb_refl in Hc.
Qed.

Lemma sql_advance_close_spec s c e j d :
  sql_wf s →
  sql_wf (sql_advance_close s c e j d).2 ∧
  exec_meets s c (sql_advance_close s c e j d) (spec_step (AdvanceClose e j d) (view s c)).
Proof.
  intros Hwf. rewrite sql_view_eq by done. unfold sql_advance_close, sql_view. simpl.
  destruct (spilman_channels s !! c) as [r|] eqn:Hr; simpl.
  2:{ rewrite andb_false_r. simpl. auto using sql_fail_meets. }
  pose proof (sql_wf_row _ Hwf _ _ Hr) as Hrw.
  case_bool_decide as Hj; simpl.
  2:{ rewrite bool_decide_eq_false_2 by tauto. auto using sql_fail_meets. }
  destruct (String.eqb_spec (row_state r) "Closing") as [Hst|Hst]; simpl.
  2:{ rewrite bool_decide_eq_false_2; [auto using sql_fail_meets|].
      rewrite state_of_row_Closing. tauto. }
  rewrite bool_decide_eq_true_2 by (by rewrite state_of_row_Closing).
  destruct d as [d|]; simpl.
  - unfold update_row. simpl. rewrite Hr, Hst. simpl.
    set (s2 := set_channels _ _).
    assert (sql_wf s2).
    { eapply sql_set_row_wf; [by apply sql_set_journals_wf|done| |done]. by apply row_closed_wf. }
    split; [done|]. eapply (sql_row_meets _ _ _ _ _ (Some j)); [done..|].
    unfold with_journal, with_closed, row_view. simpl. by rewrite serde_inv.
  - assert (sql_wf (set_sql_journals (<[c:=j]>) s)) by (by apply sql_set_journals_wf).
    split; [done|]. eapply (sql_row_meets _ _ _ _ r (Some j)); [done..| |].
    + unfold set_sql_journals, set_channels. simpl. by rewrite (insert_id (spilman_channels s)).
    + unfold with_journal, row_view. simpl. by rewrite Hst.
Qed.

Lemma sql_mark_spec s c cmd set :
  (∀ r, row_wf r → row_wf (set r)) → (∀ r, row_funding_json (set r) = row_funding_json r) →
  match cmd with
  | MarkClosing cd => set = set_row_closing (serde_to_string cd)
  | MarkClosed d => set = set_row_closed (serde_to_string d)
  | _ => False
  end →
  sql_wf s → in_domain cmd (view s c) →
  sql_wf (exec s c cmd).2 ∧ exec_meets s c (exec s c cmd) (spec_step cmd (view s c)).
Proof.
  intros Hset Hfj Hcmd Hwf Hd. rewrite sql_view_eq in * by done. unfold sql_view in *.
  destruct (spilman_channels s !! c) as [r|] eqn:Hr; [|by destruct cmd; try destruct Hd as [? ?]].
  pose proof (sql_wf_row _ Hwf _ _ Hr) as Hrw.
  assert (sql_wf (set_channels (<[c:=set r]>) s)) as Hwf'.
  { eapply sql_set_row_wf; [done..| |done]. by apply Hset. }
  destruct cmd; try done; subst set; simpl in *;
    unfold sql_mark_closing, sql_mark_closed, update_row; rewrite Hr;
    destruct (String.eqb_spec (row_state r) "Closed") as [Hst|Hst]; simpl.
  1,3: rewrite bool_decide_eq_false_2; [auto using sql_fail_meets|];
    rewrite state_of_row_Closed; tauto.
  all: destruct (spilman_close_journals s !! c) as [j|] eqn:Hj; simpl;
    [by auto using sql_fail_meets|];
    rewrite bool_decide_eq_true_2 by (by rewrite state_of_row_Closed);
    (split; [done|]); (eapply (sql_row_meets _ _ _ _ _ None); [done..|]);
    unfold with_closing, with_closed, row_view; simpl; rewrite serde_inv, ?Hj; try done.
  rewrite (proj2 (String.eqb_neq _ _) Hst). done.
Qed.

(** The usage rows of a channel, as a map. *)
Lemma sql_usage_NoDup (c : string) (l : list (string * string * SqlNumber)) :
  NoDup l.*1 →
  NoDup (omap (λ e : string * string * SqlNumber,
    if String.eqb e.1.1 c then
      match e.2 with SqlInteger z => Some (e.1.2, wrap64 z) | SqlReal _ => None end
    else None) l).*1.
Proof.
  induction l as [|[[c' k] n] l IH]; simpl; [constructor|].
  intros [Hk Hnd]%NoDup_cons. destruct (String.eqb_spec c' c) as [->|]; [|by apply IH].
  destruct n as [z|]; [|by apply IH]. simpl. constructor; [|by apply IH].
  intros ([k' y] & Hk' & (e & He & Hf)%list_elem_of_omap)%list_elem_of_fmap. simpl in Hk'. subst k'.
  apply Hk. apply list_elem_of_fmap. exists e. split; [|done].
  destruct e as [[c' k'] n]. simpl in *. destruct (String.eqb_spec c' c); [|done].
  destruct n; simplify_eq. done.
Qed.
Lemma sql_get_usage_lookup s c k :
  sql_wf s →
  default ∅ (sql_get_usage s c) !! k =
  match spilman_usage s !! (c, k) with Some (SqlInteger z) => Some z | _ => None end.
Proof.
  intros Hwf. unfold sql_get_usage. set (m := list_to_map _).
  assert (default ∅ (if bool_decide (m = ∅) then None else Some m) = m) as ->
    by (by case_bool_decide as Hm; [rewrite Hm|]).
  apply option_eq. intros z. subst m.
  rewrite <-elem_of_list_to_map by apply sql_usage_NoDup, NoDup_fst_map_to_list.
  rewrite list_elem_of_omap. split.
  - intros ([[c' k'] n] & He%elem_of_map_to_list & Hf). simpl in Hf.
    destruct (String.eqb_spec c' c) as [->|]; [|done].
    apply (sql_wf_usage _ Hwf) in He as He'. destruct He' as (y & -> & Hy). simplify_eq.
    rewrite He. rewrite wrap64_id; [done|]. unfold is_i63, is_u64 in *. lia.
  - intros Hz. destruct (spilman_usage s !! (c, k)) as [[y|]|] eqn:He; simplify_eq.
    exists (c, k, SqlInteger z). rewrite elem_of_map_to_list. split; [done|]. simpl.
    rewrite String.eqb_refl, wrap64_id; [done|].
    apply (sql_wf_usage _ Hwf) in He as (y & [= <-] & Hy). unfold is_i63, is_u64 in *. lia.
Qed.

Lemma sql_get_usage_norm s c :
  sql_get_usage s c =
  (let m := default ∅ (sql_get_usage s c) in if bool_decide (m = ∅) then None else Some m).
Proof.
  unfold sql_get_usage. set (m := list_to_map _). simpl.
  destruct (bool_decide (m = ∅)) eqn:E; simpl; [done|]. by rewrite E.
Qed.

Definition sql_upsert (c : string) (o : option SqlNumber) (d : Z) : SqlNumber :=
  match o with Some n => sqlite_add n (SqlInteger (as_i64 d)) | None => SqlInteger (as_i64 d) end.

Lemma sql_increment_rows s c inc c' k :
  spilman_usage (sql_increment_usage s c inc).2 !! (c', k) =
  match (if decide (c' = c) then inc !! k else None) with
  | Some d => Some (sql_upsert c (spilman_usage s !! (c', k)) d)
  | None => spilman_usage s !! (c', k)
  end.
Proof.
  simpl. set (f := λ (t : gmap (string * string) SqlNumber) (e : string * Z), _).
  assert (∀ l t, foldl f t l =
    foldl (λ t e, <[e.1 := sql_upsert c (t !! e.1) e.2]> t) t (prod_map (pair c) id <$> l)) as ->.
  { induction l as [|[v d] l IH]; intros t; simpl; [done|]. by rewrite IH. }
  assert (Inj (=) (=) (pair c : string → string * string)) by (by intros ?? [= ->]).
  rewrite foldl_upsert_lookup.
  2:{ replace ((prod_map (pair c) id <$> map_to_list inc).*1) with (pair c <$> (map_to_list inc).*1)
        by (by rewrite <-!list_fmap_compose).
      apply NoDup_fmap; [done|]. apply NoDup_fst_map_to_list. }
  destruct (decide (c' = c)) as [->|Hc].
  - by rewrite (list_to_map_fmap_key (pair c)), list_to_map_to_list.
  - rewrite not_elem_of_list_to_map_1; [done|].
    intros ([k' d] & Hk & ([v d'] & [= -> ->] & _)%list_elem_of_fmap)%list_elem_of_fmap. naive_solver.
Qed.

Lemma as_i64_id d : is_i63 d → as_i64 d = d.
Proof. unfold is_i63, as_i64. intros ?. rewrite Z.mod_small by lia. lia. Qed.

(** A counter of the domain stays an integer and is the exact sum. *)
Lemma sql_upsert_exact s c inc k d :
  sql_wf s → in_domain (IncrementUsage inc) (view s c) → inc !! k = Some d →
  ∃ a, default 0 (default ∅ (sql_get_usage s c) !! k) = a ∧ 0 <= a ∧ a + d < 2 ^ 63 ∧ 0 <= d ∧
    sql_upsert c (spilman_usage s !! (c, k)) d = SqlInteger (a + d).
Proof.
  intros Hwf Hd Hk. specialize (Hd k d Hk) as [? Hd]. rewrite sql_view_eq in Hd by done. simpl in Hd.
  eexists. split; [done|]. rewrite sql_get_usage_lookup in * by done. unfold sql_upsert.
  destruct (spilman_usage s !! (c, k)) as [n|] eqn:Hn; simpl in *.
  - apply (sql_wf_usage _ Hwf) in Hn as (z & -> & [? ?]). simpl in *.
    rewrite as_i64_id, sqlite_add_exact by (unfold is_i63; lia). done.
  - rewrite as_i64_id by (unfold is_i63; lia). done.
Qed.

Lemma sql_increment_usage_wf s c inc :
  sql_wf s → in_domain (IncrementUsage inc) (view s c) → sql_wf (sql_increment_usage s c inc).2.
Proof.
  intros Hwf Hd. split; [apply Hwf..| |apply Hwf].
  intros [c' k] n. rewrite sql_increment_rows.
  destruct (decide (c' = c)) as [->|]; [|apply (sql_wf_usage _ Hwf)].
  destruct (inc !! k) as [d|] eqn:Hk; [|apply (sql_wf_usage _ Hwf)].
  destruct (sql_upsert_exact s c inc k d) as (a & _ & ? & ? & ? & ->); [done..|].
  intros [= <-]. eexists. split; [done|]. unfold is_i63. lia.
Qed.
Lemma sql_increment_usage_spec s c inc :
  sql_wf s → in_domain (IncrementUsage inc) (view s c) →
  sql_wf (sql_increment_usage s c inc).2 ∧
  exec_meets s c (sql_increment_usage s c inc) (spec_step (IncrementUsage inc) (view s c)).
Proof.
  intros Hwf Hd. pose proof (sql_increment_usage_wf _ _ _ Hwf Hd) as Hwf'. split; [done|].
  assert (∀ c', sql_view (sql_increment_usage s c inc).2 c' =
    with_usage (sql_get_usage (sql_increment_usage s c inc).2 c') (sql_view s c')) as Hv by done.
  split; [split; [done|]|split; [|done]].
  - rewrite !sql_view_eq, Hv by done. f_equal.
    rewrite sql_get_usage_norm. apply add_usage_eq. intros k. cbn [v_usage sql_view row_view].
    rewrite sql_get_usage_lookup, sql_increment_rows, decide_True by done.
    destruct (inc !! k) as [d|] eqn:Hk.
    + destruct (sql_upsert_exact s c inc k d) as (a & Ha & ? & ? & ? & ->); [done..|].
      destruct (default ∅ (sql_get_usage s c) !! k); simpl in *; subst; done.
    + rewrite <-sql_get_usage_lookup by done. by destruct (default ∅ (sql_get_usage s c) !! k).
  - intros d Hne. rewrite !sql_view_eq, Hv by done. unfold with_usage, sql_view, row_view. simpl. f_equal.
    rewrite sql_get_usage_norm, (sql_get_usage_norm s d).
    replace (default ∅ (sql_get_usage (sql_increment_usage (Q:=Q) s c inc).2 d))
      with (default ∅ (sql_get_usage s d)); [done|].
    apply map_eq. intros k. rewrite !sql_get_usage_lookup, sql_increment_rows, decide_False by done.
    done.
Qed.

(** The funding cache: filling it changes no answer. *)
Lemma sql_set_cache_wf s c f r :
  sql_wf s → spilman_channels s !! c = Some r → serde_from_str (row_funding_json r) = Some f →
  sql_wf (set_cache (<[c:=f]>) s).
Proof.
  intros Hwf Hr Hf. split; simpl; [apply Hwf| |apply Hwf..].
  intros c' f'. destruct (decide (c = c')) as [->|].
  - rewrite lookup_insert_eq. intros [= <-]. eauto.
  - rewrite lookup_insert_ne by done. apply (sql_wf_cache _ Hwf).
Qed.
Lemma sql_get_funding_wf s c : sql_wf s → sql_wf (sql_get_funding s c).2.
Proof.
  intros Hwf. unfold sql_get_funding. destruct (funding_cache s !! c); [done|].
  destruct (spilman_channels s !! c) as [r|] eqn:Hr; simpl; [|done].
  destruct (serde_from_str _) as [f|] eqn:Hf; [|done]. simpl. by eapply sql_set_cache_wf.
Qed.
Lemma sql_get_funding_view s c d : sql_wf s → view (sql_get_funding s c).2 d = view s d.
Proof.
  intros Hwf. pose proof (sql_get_funding_wf s c Hwf). rewrite !sql_view_eq by done.
  unfold sql_get_funding. destruct (funding_cache s !! c); [done|].
  by destruct (spilman_channels s !! c ≫= _).
Qed.

Lemma sql_save_funding_spec s c f :
  sql_wf s → in_domain (SaveFunding f) (view s c) →
  sql_wf (sql_save_funding s c f).2 ∧
  exec_meets s c (sql_save_funding s c f) (spec_step (SaveFunding f) (view s c)).
Proof.
  intros Hwf Hd. rewrite sql_view_eq in * by done. unfold sql_save_funding, sql_view in *. simpl in *.
  destruct (spilman_channels s !! c) as [r|] eqn:Hr; simpl in *.
  - pose proof (row_wf_funding _ (sql_wf_row _ Hwf _ _ Hr)) as [f0 Hf0].
    rewrite Hf0 in *. simpl in Hd. subst f0.
    assert (view s c = row_view (Some r) (sql_get_usage s c) (spilman_close_journals s !! c)) as Hv.
    { rewrite sql_view_eq by done. unfold sql_view. by rewrite Hr. }
    destruct (funding_cache s !! c); [split; [done|]; by split; [split|]|].
    assert (sql_wf (set_cache (<[c:=f]>) s)) by (by eapply sql_set_cache_wf).
    split; [done|]. split; [split; [done|]|split; [|done]]; simpl; intros;
      rewrite ?sql_view_eq in * by done; done.
  - assert (funding_cache s !! c = None) as Hc.
    { destruct (funding_cache s !! c) eqn:E; [|done].
      apply (sql_wf_cache _ Hwf) in E as (? & ? & _). congruence. }
    rewrite Hc. set (row := mk_ChannelRow _ _ _ _ _ _).
    assert (sql_wf (set_channels (<[c:=row]>) s)) as Hwf1.
    { split; simpl; [| |apply Hwf..].
      - intros c' r'. destruct (decide (c = c')) as [->|];
          [rewrite lookup_insert_eq|rewrite lookup_insert_ne by done; apply (sql_wf_row _ Hwf)].
        intros [= <-]. split; simpl; try done; [rewrite serde_inv; by eexists|set_solver].
      - intros c' f' Hf'. apply (sql_wf_cache _ Hwf) in Hf' as (r' & ? & ?).
        assert (c ≠ c') by congruence. rewrite lookup_insert_ne by done. eauto. }
    assert (sql_wf (set_cache (<[c:=f]>) (set_channels (<[c:=row]>) s))) as Hwf2.
    { eapply sql_set_cache_wf; [done|by apply lookup_insert_eq|]. apply serde_inv. }
    split; [done|]. split; [split; [done|]|split; [|done]]; simpl; intros;
      rewrite !sql_view_eq by done; unfold sql_view; simpl.
    + rewrite lookup_insert_eq. unfold row_view. simpl. by rewrite serde_inv.
    + by rewrite lookup_insert_ne.
Qed.

Lemma sql_exec_spec s c cmd :
  sql_wf s → in_domain cmd (view s c) →
  sql_wf (exec s c cmd).2 ∧ exec_meets s c (exec s c cmd) (spec_step cmd (view s c)).
Proof.
  intros Hwf Hd. destruct cmd.
  - by apply sql_compare_payment_spec.
  - by apply sql_freeze_close_spec.
  - by apply sql_advance_close_spec.
  - by apply sql_save_funding_spec.
  - by apply sql_update_balance_spec.
  - by apply sql_increment_usage_spec.
  - by eapply sql_mark_spec; [intros; by apply row_closing_wf|..].
  - by eapply sql_mark_spec; [intros; by apply row_closed_wf|..].
Qed.

Lemma sql_new_wf : sql_wf SqliteStorage_open_new.
Proof. split; simpl; intros *; by rewrite lookup_empty. Qed.

Lemma sql_view_relations s c :
  sql_wf s →
  (v_state (view s c) = None ↔ v_funding (view s c) = None) ∧
  (v_state (view s c) = Some Closing ↔ is_Some (v_closing (view s c))) ∧
  (v_state (view s c) = Some Closed ↔ is_Some (v_closed (view s c))).
Proof.
  intros Hwf. rewrite sql_view_eq by done. unfold sql_view. simpl.
  destruct (spilman_channels s !! c) as [r|] eqn:Hr; simpl.
  2:{ repeat split; (done || by intros []). }
  destruct (sql_wf_row _ Hwf _ _ Hr) as [[f Hf] _ Hst Hg Hd]. rewrite Hf.
  unfold state_of_row. rewrite !elem_of_cons in Hst.
  destruct Hst as [Hst|[Hst|[Hst|[]%elem_of_nil]]]; rewrite Hst in *; simpl;
    repeat split; try done; try (by intros []); auto.
Qed.

Lemma sql_keyset_row s m i e :
  sql_wf s → sql_get_keyset s m i = Some e ↔
  spilman_keysets s !! (m, id_to_string i) = Some (serde_to_string e).
Proof.
  intros Hwf. unfold sql_get_keyset.
  destruct (spilman_keysets s !! (m, id_to_string i)) as [j|] eqn:Hj; simpl; [|done].
  apply (sql_wf_keysets _ Hwf) in Hj as (i' & e' & _ & ->). rewrite serde_inv.
  split; [by intros [= ->]|]. intros [= Hj].
  apply (f_equal serde_from_str) in Hj. by rewrite !serde_inv in Hj.
Qed.
Lemma parse_id_inv i : parse_id (id_to_string i) = Some i.
Proof. unfold parse_id. by rewrite id_inv. Qed.
Lemma unit_to_string_inj u v : unit_to_string u = unit_to_string v → u = v.
Proof. intros H. apply (f_equal unit_from_str) in H. rewrite !unit_inv in H. congruence. Qed.

(** A row of the keyset table is the row of a cached keyset. *)
Lemma sql_keyset_rows s m k j :
  sql_wf s → (m, k, j) ∈ map_to_list (spilman_keysets s) ↔
  ∃ i e, k = id_to_string i ∧ j = serde_to_string e ∧ sql_get_keyset s m i = Some e.
Proof.
  intros Hwf. rewrite elem_of_map_to_list. split.
  - intros Hj. pose proof (sql_wf_keysets _ Hwf _ _ _ Hj) as (i & e & -> & ->).
    exists i, e. by rewrite sql_keyset_row.
  - intros (i & e & -> & -> & He). by apply sql_keyset_row.
Qed.

Lemma sql_active_ids s m u i :
  sql_wf s → i ∈ sql_get_active_keyset_ids s m u ↔
  ∃ e, sql_get_keyset s m i = Some e ∧ ks_active e = true ∧ ks_unit e = u.
Proof.
  intros Hwf. unfold sql_get_active_keyset_ids. rewrite list_elem_of_omap. split.
  - intros ([[m' k] j] & (i' & e & -> & -> & He)%sql_keyset_rows & Hf); [|done]. simpl in Hf.
    destruct (String.eqb_spec m' m) as [->|]; [|done]. rewrite serde_inv in Hf. simpl in Hf.
    destruct (ks_active e) eqn:?; [|done]. simpl in Hf.
    destruct (String.eqb_spec (unit_to_string (ks_unit e)) (unit_to_string u)) as [Hu|]; [|done].
    rewrite parse_id_inv in Hf. simplify_eq. eauto using unit_to_string_inj.
  - intros (e & He & Ha & <-). exists (m, id_to_string i, serde_to_string e). split.
    + apply sql_keyset_rows; eauto 6.
    + simpl. rewrite String.eqb_refl, serde_inv. simpl.
      rewrite Ha, String.eqb_refl. apply parse_id_inv.
Qed.
Lemma sql_list_keysets s m u i e :
  sql_wf s → (i, e) ∈ sql_list_keysets_for_unit s m u ↔
  sql_get_keyset s m i = Some e ∧ ks_unit e = u.
Proof.
  intros Hwf. unfold sql_list_keysets_for_unit. rewrite list_elem_of_omap. split.
  - intros ([[m' k] j] & (i' & e' & -> & -> & He)%sql_keyset_rows & Hf); [|done]. simpl in Hf.
    destruct (String.eqb_spec m' m) as [->|]; [|done]. rewrite serde_inv in Hf. simpl in Hf.
    destruct (String.eqb_spec (unit_to_string (ks_unit e')) (unit_to_string u)) as [Hu|]; [|done].
    rewrite parse_id_inv in Hf. simpl in Hf. simplify_eq. eauto using unit_to_string_inj.
  - intros (He & <-). exists (m, id_to_string i, serde_to_string e). split.
    + apply sql_keyset_rows; eauto 6.
    + simpl. rewrite String.eqb_refl, serde_inv. simpl. by rewrite String.eqb_refl, parse_id_inv.
Qed.
Lemma sql_active_units s n :
  sql_wf s → n ∈ sql_get_active_units s ↔
  ∃ m i e, sql_get_keyset s m i = Some e ∧ ks_active e = true ∧ unit_to_string (ks_unit e) = n.
Proof.
  intros Hwf. unfold sql_get_active_units. rewrite elem_of_list_to_set, list_elem_of_omap. split.
  - intros ([[m k] j] & (i & e & -> & -> & He)%sql_keyset_rows & Hf); [|done]. simpl in Hf.
    rewrite serde_inv in Hf. simpl in Hf. destruct (ks_active e) eqn:?; simplify_eq. eauto 10.
  - intros (m & i & e & He & Ha & <-). exists (m, id_to_string i, serde_to_string e). split.
    + apply sql_keyset_rows; eauto 6.
    + simpl. rewrite serde_inv. simpl. by rewrite Ha.
Qed.
Lemma sql_push_entries s m n k :
  sql_wf s →
  (∃ us ks, sql_get_mints_units_keysets s !! m = Some us ∧ us !! n = Some ks ∧ k ∈ ks) ↔
  ∃ i e, sql_get_keyset s m i = Some e ∧ ks_active e = true ∧ unit_to_string (ks_unit e) = n
         ∧ id_to_string i = k.
Proof.
  intros Hwf. unfold sql_get_mints_units_keysets.
  rewrite (push_entries_elem (λ e : string * string * string,
    entry ← (serde_from_str e.2 : option KeysetCacheEntry);
    if ks_active entry then Some (e.1.1, unit_to_string (ks_unit entry), e.1.2) else None)).
  2:{ intros ? e. destruct (serde_from_str e.2) as [x|]; simpl; [|done]. by destruct (ks_active x). }
  rewrite list_elem_of_omap. split.
  - intros [([[m' k'] j] & (i & e & -> & -> & He)%sql_keyset_rows & Hf)|(us & ks & Hus & _)]; [|done|].
    + simpl in Hf. rewrite serde_inv in Hf. simpl in Hf.
      destruct (ks_active e) eqn:?; simplify_eq. eauto 10.
    + by rewrite lookup_empty in Hus.
  - intros (i & e & He & Ha & <- & <-). left. exists (m, id_to_string i, serde_to_string e). split.
    + apply sql_keyset_rows; eauto 6.
    + simpl. rewrite serde_inv. simpl. by rewrite Ha.
Qed.

Lemma sql_set_keyset_wf s m i e : sql_wf s → sql_wf (sql_set_keyset s m i e).2.
Proof.
  intros Hwf. split; [apply Hwf..|]. intros m' k j. simpl.
  destruct (decide ((m, id_to_string i) = (m', k))) as [[= -> <-]|].
  - rewrite lookup_insert_eq. intros [= <-]. eauto.
  - rewrite lookup_insert_ne by done. apply (sql_wf_keysets _ Hwf).
Qed.

#[global] Program Instance sqlite_storage_spec : StorageSpec SqliteStorage :=
  {| st_wf := sql_wf; funding_kept s c := bool_decide (is_Some (funding_cache s !! c)) |}.
Next Obligation. intros. by apply sql_exec_spec. Qed.
Next Obligation.
  intros s c f f0 Hwf [f1 Hc]%bool_decide_eq_true_1 _. pose proof Hc as (r & Hr & _)%(sql_wf_cache _ Hwf).
  assert (save_funding s c f = (Ok tt, s)) as ->; [|by split; [|split; [split|]]].
  cbn. unfold sql_save_funding. by rewrite Hr, Hc.
Qed.
Next Obligation. intros s c ?. rewrite sql_view_eq by done. by apply sql_get_state_eq. Qed.
Next Obligation. done. Qed.
Next Obligation.
  intros s c ?. split; [by apply sql_get_funding_wf|]. split; [intros; by apply sql_get_funding_view|].
  intros m i. simpl. unfold sql_get_funding, sql_get_keyset. by repeat case_match.
Qed.
Next Obligation. intros. by apply sql_view_relations. Qed.
Next Obligation. intros. by apply sql_view_relations. Qed.
Next Obligation. intros. by apply sql_view_relations. Qed.
Next Obligation.
  intros s c p Hwf. rewrite sql_view_eq by done. unfold sql_view. simpl.
  destruct (spilman_channels s !! c) as [r|] eqn:Hr; simpl; [|done].
  destruct (sql_wf_row _ Hwf _ _ Hr). unfold row_payment.
  destruct (String.eqb_spec (row_signature r) ""); [done|]. by intros [= <-].
Qed.
Next Obligation.
  intros s m i e Hwf. pose proof (sql_set_keyset_wf s m i e Hwf).
  split; [done|]. split; [done|]. split; [intros; by rewrite !sql_view_eq|].
  intros m' i'. simpl. unfold sql_get_keyset. simpl. case_bool_decide as Hk.
  - simplify_eq. rewrite lookup_insert_eq. simpl. apply serde_inv.
  - rewrite lookup_insert_ne; [done|]. intros [= -> Hi]. apply Hk.
    apply (f_equal id_from_str) in Hi. rewrite !id_inv in Hi. congruence.
Qed.
Next Obligation. intros. by apply sql_active_ids. Qed.
Next Obligation. intros. by apply sql_list_keysets. Qed.
Next Obligation. intros. by apply sql_active_units. Qed.
Next Obligation. intros. by apply sql_push_entries. Qed.

(** A restart loses only the cache. *)
Lemma sql_reopen_wf s : sql_wf s → sql_wf (SqliteStorage_reopen s).
Proof. intros Hwf. split; simpl; [apply Hwf| |apply Hwf..]. intros c f. by rewrite lookup_empty. Qed.
Lemma sql_reopen_view s c : sql_wf s → view (SqliteStorage_reopen s) c = view s c.
Proof. intros Hwf. rewrite !sql_view_eq by auto using sql_reopen_wf. done. Qed.
End sqlite.

(** ** The two storages agree *)

Inductive Event {T : CashuTypes} :=
| EvCommand (c : string) (cmd : Command)
| EvSetKeyset (mint : string) (id : Id) (entry : KeysetCacheEntry)
| EvRestart.
Arguments EvCommand {T} _ _.
Arguments EvSetKeyset {T} _ _ _.
Arguments EvRestart {T}.

Section agreement.
Context {T : CashuTypes} {O : CashuOps} {HE : EncodingLaws} {Q : Sqlite} {HQ : SqliteLaws}.

(** The outcome of every event and the final state; [restart] is what a restart does. *)
Fixpoint run_events {S} `{!SpilmanStorage S} (restart : S → S) (s : S) (l : list Event) :
    list bool * S :=
  match l with
  | [] => ([], s)
  | ev :: l =>
      let '(r, s1) :=
        match ev with
        | EvCommand c cmd => exec s c cmd
        | EvSetKeyset m i e => set_keyset s m i e
        | EvRestart => (Ok tt, restart s)
        end in
      let '(rs, s2) := run_events restart s1 l in
      (is_ok r :: rs, s2)
  end.

(** Every command is in the domain of the specification when it runs. *)
Fixpoint events_in_domain (s : MemoryStorage) (l : list Event) : Prop :=
  match l with
  | [] => True
  | EvCommand c cmd :: l => in_domain cmd (view s c) ∧ events_in_domain (exec s c cmd).2 l
  | EvSetKeyset m i e :: l => events_in_domain (set_keyset s m i e).2 l
  | EvRestart :: l => events_in_domain s l
  end.
#[global] Instance events_in_domain_dec s l : Decision (events_in_domain s l).
Proof. revert s. induction l as [|[] l IH]; intros s; simpl; apply _. Defined.

Definition same_answers (m : MemoryStorage) (q : SqliteStorage) : Prop :=
  (∀ c, view m c = view q c) ∧ (∀ mint i, get_keyset m mint i = get_keyset q mint i).

Lemma exec_meets_ok {S} `{!SpilmanStorage S} (s : S) c r v :
  exec_meets s c r v → is_ok r.1 = bool_decide (is_Some v).
Proof.
  destruct v; intros (Hm & _); [by destruct Hm as [-> _]|by destruct Hm as [[? ->] _]].
Qed.

Lemma same_answers_exec m q c cmd :
  mem_wf m → sql_wf q → same_answers m q → in_domain cmd (view m c) →
  is_ok (exec m c cmd).1 = is_ok (exec q c cmd).1 ∧
  same_answers (exec m c cmd).2 (exec q c cmd).2 ∧
  mem_wf (exec m c cmd).2 ∧ sql_wf (exec q c cmd).2.
Proof.
  intros Hm Hq [Hv Hk] Hd. assert (in_domain cmd (view q c)) as Hd' by (by rewrite <-Hv).
  destruct (mem_exec_spec m c cmd Hm Hd) as [? Hmm].
  destruct (sql_exec_spec q c cmd Hq Hd') as [? Hqm].
  split; [by rewrite (exec_meets_ok _ _ _ _ Hmm), (exec_meets_ok _ _ _ _ Hqm), Hv|].
  split; [|done]. destruct Hmm as (Hmc & Hmf & Hmk), Hqm as (Hqc & Hqf & Hqk). split.
  - intros d. destruct (decide (d = c)) as [->|]; [|by rewrite Hmf, Hqf].
    rewrite Hv in Hmc. destruct (spec_step cmd (view q c)).
    + destruct Hmc as [_ ->], Hqc as [_ ->]. done.
    + destruct Hmc as [_ ->], Hqc as [_ ->]. done.
  - intros. by rewrite Hmk, Hqk.
Qed.

Lemma run_events_agree l m q :
  mem_wf m → sql_wf q → same_answers m q → events_in_domain m l →
  (run_events (λ s, s) m l).1 = (run_events SqliteStorage_reopen q l).1 ∧
  same_answers (run_events (λ s, s) m l).2 (run_events SqliteStorage_reopen q l).2 ∧
  mem_wf (run_events (λ s, s) m l).2 ∧ sql_wf (run_events SqliteStorage_reopen q l).2.
Proof.
  revert m q. induction l as [|ev l IH]; intros m q Hm Hq Hs Hd; [done|].
  destruct ev as [c cmd|mint i e|]; cbn [run_events].
  - destruct Hd as [Hd Hl].
    destruct (same_answers_exec m q c cmd) as (Hok & Hs' & Hm' & Hq'); [done..|].
    specialize (IH _ _ Hm' Hq' Hs' Hl). destruct (exec m c cmd), (exec q c cmd). simpl in *.
    destruct (run_events _ _ l), (run_events _ _ l). simpl in *. naive_solver congruence.
  - assert (st_wf m) as Hm0 by exact Hm. assert (st_wf q) as Hq0 by exact Hq.
    destruct (set_keyset_spec m mint i e Hm0) as (Hmo & Hm' & Hmv & Hmk).
    destruct (set_keyset_spec q mint i e Hq0) as (Hqo & Hq' & Hqv & Hqk).
    assert (same_answers (set_keyset m mint i e).2 (set_keyset q mint i e).2) as Hs'.
    { destruct Hs as [Hv Hk]. split; intros; [by rewrite Hmv, Hqv|by rewrite Hmk, Hqk, Hk]. }
    specialize (IH _ _ Hm' Hq' Hs' Hd).
    destruct (set_keyset m mint i e), (set_keyset q mint i e). simpl in *. subst.
    destruct (run_events _ _ l), (run_events _ _ l). simpl in *. naive_solver congruence.
  - assert (same_answers m (SqliteStorage_reopen q)) as Hs'.
    { destruct Hs as [Hv Hk]. split; [intros; by rewrite sql_reopen_view|done]. }
    specialize (IH _ _ Hm (sql_reopen_wf _ Hq) Hs' Hd).
    destruct (run_events _ _ l), (run_events _ _ l). simpl in *. naive_solver congruence.
Qed.

(** C6: the SQLite storage behaves like the in-memory one: started empty and given the
    same history of operations and keyset updates, with restarts of the SQLite process
    anywhere in it, every operation succeeds in one exactly when it does in the other, and
    in the end all queries about channels and keysets have the same answers. *)
Theorem sqlite_agrees_with_memory (l : list Event) :
  events_in_domain MemoryStorage_new l →
  let '(results_m, m) := run_events (λ s, s) MemoryStorage_new l in
  let '(results_q, q) := run_events SqliteStorage_reopen SqliteStorage_open_new l in
  results_m = results_q ∧ same_answers m q ∧
  ∀ mint u i, i ∈ get_active_keyset_ids m mint u ↔ i ∈ get_active_keyset_ids q mint u.
Proof.
  intros Hd.
  assert (same_answers MemoryStorage_new SqliteStorage_open_new) as Hs.
  { split; [|done]. intros c. rewrite mem_view_eq, sql_view_eq by apply sql_new_wf. done. }
  pose proof (run_events_agree l _ _ mem_new_wf sql_new_wf Hs Hd) as H.
  destruct (run_events _ MemoryStorage_new l) as [rm m], (run_events _ SqliteStorage_open_new l) as [rq q].
  simpl in H. destruct H as (-> & Ha & Hm & Hq). split; [done|]. split; [done|].
  intros mint u i. assert (st_wf m) as Hm0 by exact Hm. assert (st_wf q) as Hq0 by exact Hq.
  rewrite (active_ids_spec m _ _ _ Hm0), (active_ids_spec q _ _ _ Hq0).
  destruct Ha as [_ Hk]. by setoid_rewrite Hk.
Qed.

(** outside the specification the two differ: asked to mark a channel nobody funded as
    closing, the in-memory storage agrees and from then on refuses its payments even after
    it is funded, where the SQLite storage reports that there is no such channel. *)
Theorem mark_closing_unknown_channel (m : MemoryStorage) (q : SqliteStorage) c cd f p :
  funding m !! c = None → closed m !! c = None → close_journals m !! c = None →
  spilman_channels q !! c = None →
  (mem_mark_closing m c cd).1 = Ok tt ∧
  (let m1 := (mem_save_funding (mem_mark_closing m c cd).2 c f).2 in
   mem_get_state m1 c = Ok (Some Closing) ∧
   (mem_update_balance m1 c p).1 = Err "channel is not open") ∧
  sql_mark_closing q c cd = (Err "channel not found or already closed", q).
Proof.
  intros Hf Hc Hj Hq. unfold mem_mark_closing, mem_get_close_journal, mem_save_funding.
  rewrite Hj, Hc. simpl. rewrite Hf. simpl.
  unfold mem_update_balance. rewrite !mem_get_state_eq. simpl. rewrite Hc, lookup_insert_eq. simpl.
  split; [done|]. split; [done|]. unfold sql_mark_closing, update_row. by rewrite Hq.
Qed.

(** after a restart the SQLite storage no longer keeps the first funding of a channel:
    a second [save_funding] with other data is reported as done, leaves the row as it was
    and yet makes every later [get_funding] of the process answer the new data. *)
Theorem sqlite_cache_overrides_row (q : SqliteStorage) c r (f f' : ChannelFunding) :
  sql_wf q → spilman_channels q !! c = Some r → serde_from_str (row_funding_json r) = Some f →
  f ≠ f' →
  let q1 := SqliteStorage_reopen q in
  let q2 := (sql_save_funding q1 c f').2 in
  (sql_get_funding q1 c).1 = Some f ∧
  (sql_save_funding q1 c f').1 = Ok tt ∧
  spilman_channels q2 !! c = Some r ∧
  (sql_get_funding q2 c).1 = Some f'.
Proof.
  intros Hwf Hr Hf Hne q1 q2.
  assert (spilman_channels q1 !! c = Some r) as Hr1 by done.
  split; [by rewrite sql_get_funding_eq, Hr1 by (by apply sql_reopen_wf)|].
  subst q2. unfold sql_save_funding. rewrite Hr1. simpl. rewrite lookup_empty. simpl.
  split; [done|]. split; [done|]. unfold sql_get_funding. simpl. by rewrite lookup_insert_eq.
Qed.
End agreement.

(** ** Concrete inputs *)

Module Examples.
#[local] Existing Instance Toy.types.
#[local] Existing Instance Toy.ops.
#[local] Existing Instance Toy.encoding_laws.
Import StorageMemory.Examples.

#[local] Instance funding_countable : Countable ChannelFunding.
Proof.
  refine (inj_countable' (A:=string * string * string * string)
    (λ f, (params_json f, funding_proofs_json f, channel_secret_hex f, keyset_info_json f))
    (λ '(a, b, c, d), mk_ChannelFunding a b c d) _). by intros [].
Defined.
#[local] Instance closing_countable : Countable ClosingData.
Proof.
  refine (inj_countable' (A:=Z * Z * string)
    (λ c, (cd_expiry_timestamp c, cd_balance c, cd_signature c))
    (λ '(a, b, c), mk_ClosingData a b c) _). by intros [].
Defined.
#[local] Instance closed_countable : Countable ClosedDataView.
Proof.
  refine (inj_countable' (A:=Z * Z * Z * Z * Z * string * string)
    (λ c, (cv_expiry_timestamp c, closed_amount c, value_after_stage1 c, cv_receiver_sum c,
           cv_sender_sum c, cv_receiver_proofs_json c, cv_sender_proofs_json c))
    (λ '(a, b, c, d, e, f, g), mk_ClosedDataView a b c d e f g) _). by intros [].
Defined.
#[local] Instance keyset_countable : Countable KeysetCacheEntry.
Proof.
  refine (inj_countable' (A:=string * bool * string)
    (λ k, (info_json k, ks_active k, ks_unit k))
    (λ '(a, b, c), mk_KeysetCacheEntry a b c) _). by intros [].
Defined.
Definition toy_serde (A : Type) `{Countable A} : Serde A := {|
  serde_to_string := Toy.print_countable;
  serde_from_str s := match Toy.parse_countable s with Ok a => Some a | _ => None end;
|}.
Lemma toy_serde_laws (A : Type) `{Countable A} : @SerdeLaws A (toy_serde A).
Proof. intros a. cbn. by rewrite Toy.parse_print_countable. Qed.

(** Integer sums that overflow become reals (their digits are not modelled). *)
Definition toy_add (a b : SqlNumber) : SqlNumber :=
  match a, b with
  | SqlInteger a, SqlInteger b =>
      if (- 2 ^ 63 <=? a + b) && (a + b <? 2 ^ 63) then SqlInteger (a + b) else SqlReal (a + b)
  | SqlReal a, SqlInteger b | SqlInteger a, SqlReal b | SqlReal a, SqlReal b => SqlReal (a + b)
  end.
Definition toy_sqlite : Sqlite := {|
  sqlite_add := toy_add;
  funding_serde := toy_serde _; closing_serde := toy_serde _;
  closed_serde := toy_serde _; keyset_serde := toy_serde _;
|}.
#[local] Existing Instance toy_sqlite.
#[local] Instance toy_sqlite_laws : SqliteLaws.
Proof.
  split; [|apply toy_serde_laws..]. intros a b Hab. simpl.
  by rewrite (proj2 (Z.leb_le _ _)), (proj2 (Z.ltb_lt _ _)) by lia.
Qed.

Definition history : list Event :=
  [EvSetKeyset "http://mint" "00ab" (mk_KeysetCacheEntry "info" true "sat");
   EvCommand "c" (SaveFunding fund); EvCommand "c" (UpdateBalance pay3);
   EvCommand "c" (IncrementUsage {[ "requests" := 2 ]}); EvRestart;
   EvCommand "c" (ComparePayment pay3 pay5); EvCommand "c" (UpdateBalance pay3);
   EvCommand "c" (FreezeClose pay5 (mk_ClosingData 2000 5 "sig5") "j0"); EvRestart;
   EvCommand "c" (MarkClosed closed3); EvCommand "c" (AdvanceClose "j0" "j1" (Some closed3))].

Example history_results :
  (run_events SqliteStorage_reopen SqliteStorage_open_new history).1
  = [true; true; true; true; true; true; true; true; true; false; true].
Proof. vm_compute. reflexivity. Qed.

Lemma sqlite_agrees_with_memory_witness :
  (run_events (λ s, s) MemoryStorage_new history).1
  = (run_events SqliteStorage_reopen SqliteStorage_open_new history).1.
Proof.
  pose proof (sqlite_agrees_with_memory history) as H.
  destruct (run_events _ MemoryStorage_new history), (run_events _ SqliteStorage_open_new history).
  apply H. in_domain_tac.
Defined.

Lemma mark_closing_unknown_channel_witness :
  (mem_mark_closing MemoryStorage_new "c" closing3).1 = Ok tt.
Proof.
  by apply (mark_closing_unknown_channel MemoryStorage_new SqliteStorage_open_new "c" closing3 fund pay3).
Defined.

Definition other_fund : ChannelFunding := mk_ChannelFunding "params2" "proofs" "secret" "keyset".
Definition sql1 : SqliteStorage := (sql_save_funding SqliteStorage_open_new "c" fund).2.
Lemma sqlite_cache_overrides_row_witness :
  (sql_get_funding (sql_save_funding (SqliteStorage_reopen sql1) "c" other_fund).2 "c").1
  = Some other_fund.
Proof.
  apply (sqlite_cache_overrides_row sql1 "c"
    (mk_ChannelRow (serde_to_string fund) 0 "" "Open" None None) fund other_fund).
  - by apply (sql_save_funding_spec SqliteStorage_open_new "c" fund sql_new_wf).
  - vm_compute. reflexivity.
  - apply serde_inv.
  - discriminate.
Defined.
End Examples.
