(* ===== verification/Host.v ===== *)
(** * The receiver's host ([configurable_host.rs], the trait of [bridge.rs])

    The trait [SpilmanHost], through which the bridge reaches storage, policy, pricing and
    signing; its implementation [ConfigurableHost] over any [SpilmanStorage]; and [HostSpec],
    what the bridge's theorems use of a host, which [ConfigurableHost] meets whenever its
    storage meets the storage specification. *)

From S2P Require Import Prelude Cashu Toy Amounts Params Storage StorageSpec.

(** ** The trait *)

Record ChannelPolicy := mk_ChannelPolicy {
  min_expiry_in_seconds : Z;
  pol_min_capacity : Z;
  pol_max_amount_per_output : option Z;
}.

(** [H] is the state behind the host, [C] the request context used in pricing. *)
Class SpilmanHost {T : CashuTypes} (H C : Type) := {
  receiver_key_is_acceptable : H → PublicKey → bool;
  mint_and_keyset_is_acceptable : H → string → Id → bool;
  host_get_funding : H → string → option ChannelFunding * H;
  host_save_funding : H → string → ChannelFunding → PaymentProof → H;
  get_amount_due : H → string → option C → Z * H;
  record_payment : H → string → PaymentProof → C → H;
  get_channel_state : H → string → Result string (option ChannelState);
  mark_channel_closing : H → string → Z → PaymentProof → Result string unit * H;
  host_get_closing_data : H → string → option ClosingData;
  get_channel_policy : H → string → option ChannelPolicy;
  now_seconds : H → Z;
  get_balance_and_signature_for_unilateral_exit : H → string → option PaymentProof;
  host_get_active_keyset_ids : H → string → CurrencyUnit → list Id;
  has_keysets_for_unit : H → string → CurrencyUnit → bool;
  get_keyset_info : H → string → Id → option string;
  mark_channel_closed : H → string → Z → Z → string → string → Z → Z → Result string unit * H;
  host_compute_channel_secret : H → string → string → Result string string;
  sign_with_tweaked_key : H → string → string → string → Result string string;
}.

(** ** Configuration *)

Record UnitPricingConfig := mk_UnitPricingConfig {
  min_capacity : Z;
  max_amount_per_output : option Z;
  variables : gmap string Z;
}.
Inductive StorageConfig := StorageMemory | StorageSqlite (path : string).
Record ConfigurableHostConfig := mk_ConfigurableHostConfig {
  mints : gmap string (list string);
  min_expiry_seconds : Z;
  config_pricing_scale : Z;
  config_storage : StorageConfig;
  pricing : gmap string UnitPricingConfig;
}.

(** [system_time] is what the clock of the machine reads during the call, [signing_aux m t]
    the auxiliary randomness its generator yields when the message [m] is signed under the
    tweak [t] during the call. *)
Record ConfigurableHost {T : CashuTypes} {S : Type} := mk_ConfigurableHost {
  config : ConfigurableHostConfig;
  server_pubkey : PublicKey;
  server_secret_hex : string;
  storage : S;
  system_time : Z;
  signing_aux : string → string → bytes;
}.
Arguments ConfigurableHost {T} S.
Arguments mk_ConfigurableHost {T S} _ _ _ _ _ _.

(** [{:?}] of a list of strings without characters to escape. *)
Definition debug_strings (l : list string) : string :=
  "[" +:+ String.concat ", " (quoted <$> l) +:+ "]".

Section host.
Context {T : CashuTypes} {O : CashuOps} {S : Type} {ST : SpilmanStorage S}.
(** [serde_json::from_str::<HashMap<String, u64>>]. *)
Context (usage_from_json : string → option UsageMap).
Abbreviation Host := (ConfigurableHost S).
Implicit Types h : Host.

Definition set_storage h (s : S) : Host :=
  mk_ConfigurableHost (config h) (server_pubkey h) (server_secret_hex h) s (system_time h) (signing_aux h).

(** [bindings.rs]. *)
Definition compute_channel_secret_from_hex (my_secret_hex their_pubkey_hex : string) :
    Result string string :=
  my_secret ← map_err (λ e, "Invalid secret key: " +:+ e) (secret_from_hex my_secret_hex);
  their_pubkey ← map_err (λ e, "Invalid pubkey: " +:+ e) (pubkey_from_str their_pubkey_hex);
  Ok (hex_encode (compute_channel_secret my_secret their_pubkey)).

(** [aux] is the auxiliary randomness [sign_schnorr] draws. *)
Definition sign_with_tweaked_key_util (aux : bytes) (secret_key_hex message_hex tweak_scalar_hex : string) :
    Result string string :=
  secret ← map_err (λ e, "Invalid secret key: " +:+ e) (secret_from_hex secret_key_hex);
  tweak_bytes ← map_err (λ e, "Invalid tweak hex: " +:+ e) (hex_decode tweak_scalar_hex);
  _ ← ensure (bool_decide (length tweak_bytes = 32%nat))
        ("Tweak must be 32 bytes, got " +:+ pretty (Z.of_nat (length tweak_bytes)));
  tweak ← ok_or "Invalid tweak scalar" (scalar_from_be_bytes tweak_bytes);
  msg_bytes ← map_err (λ e, "Invalid message hex: " +:+ e) (hex_decode message_hex);
  _ ← ensure (bool_decide (length msg_bytes = 32%nat))
        ("Message hash must be 32 bytes, got " +:+ pretty (Z.of_nat (length msg_bytes)));
  let effective_secret :=
    if pubkey_parity_odd (public_key secret) then secret_negate secret else secret in
  tweaked ← map_err (λ e, "Failed to add tweak: " +:+ e) (secret_add_tweak effective_secret tweak);
  Ok (signature_to_string (schnorr_sign aux tweaked msg_bytes)).

(** [ConfigurableHost::with_storage]. *)
Definition with_storage (cfg : ConfigurableHostConfig) (secret_key_hex : string) (st : S)
    (time : Z) (aux : string → string → bytes) : Result string Host :=
  secret_key ← map_err (λ e, "invalid secret key: " +:+ e) (secret_from_hex secret_key_hex);
  let trusted_units : gset string :=
    list_to_set (map_to_list (mints cfg) ≫= λ e, e.2) in
  let priced_units : gset string := dom (pricing cfg) in
  let missing := trusted_units ∖ priced_units in
  if bool_decide (missing ≠ ∅) then
    Err ("units trusted by at least one mint but missing from pricing: "
         +:+ debug_strings (merge_sort String.le (elements missing)))
  else Ok (mk_ConfigurableHost cfg (public_key secret_key) secret_key_hex st time aux).

Definition pricing_scale h : Z := Z.max (config_pricing_scale (config h)) 1.

(** The unit in stored channel parameters. *)
Definition stored_unit (f : ChannelFunding) : option string :=
  match json_parse (params_json f) with
  | Ok params => idx_str params "unit"
  | _ => None
  end.
Definition channel_unit h (channel_id : string) : option string * Host :=
  let '(funding, s) := get_funding (storage h) channel_id in
  (match funding with Some f => stored_unit f | None => None end, set_storage h s).

(** The loop of [compute_amount_due] over the priced variables. *)
Definition linear_combination (vars accumulated pending : UsageMap) : Z :=
  foldl (λ total (e : string * Z),
    let acc := default 0 (accumulated !! e.1) in
    let pend := default 0 (pending !! e.1) in
    saturating_add total (saturating_mul (wrap64 (acc + pend)) e.2)) 0 (map_to_list vars).
Definition compute_amount_due h (channel_id : string) (context_json : option string) : Z * Host :=
  let '(u, h) := channel_unit h channel_id in
  let unit := default "" u in
  (match pricing (config h) !! unit with
   | None => 0
   | Some unit_pricing =>
       let accumulated := default ∅ (get_usage (storage h) channel_id) in
       let pending := default ∅ (context_json ≫= usage_from_json) in
       let total := linear_combination (variables unit_pricing) accumulated pending in
       div_ceil total (pricing_scale h)
   end, h).

Definition apply_usage_increments h (channel_id context_json : string) : Host :=
  match usage_from_json context_json with
  | None => h
  | Some increments => set_storage h (increment_usage (storage h) channel_id increments).2
  end.

Definition get_active_pricing h : gmap string UnitPricingConfig :=
  filter (λ e, e.1 ∈ get_active_units (storage h)) (pricing (config h)).

(** The methods of [impl SpilmanHost for ConfigurableHost]; errors of the storage are
    logged and dropped by [save_funding] and [record_payment]. *)
Definition ch_mint_and_keyset_is_acceptable h (mint : string) (id : Id) : bool :=
  match mints (config h) !! mint with
  | None => false
  | Some trusted_units =>
      match get_keyset (storage h) mint id with
      | Some entry =>
          ks_active entry && existsb (λ u, String.eqb u (unit_to_string (ks_unit entry))) trusted_units
      | None => false
      end
  end.
Definition ch_save_funding h (channel_id : string) (f : ChannelFunding) (initial : PaymentProof) : Host :=
  match save_funding (storage h) channel_id f with
  | (Ok _, s) => set_storage h (update_balance s channel_id initial).2
  | (_, s) => set_storage h s
  end.
Definition ch_record_payment h (channel_id : string) (payment : PaymentProof) (context : string) : Host :=
  match update_balance (storage h) channel_id payment with
  | (Ok _, s) => apply_usage_increments (set_storage h s) channel_id context
  | (_, s) => set_storage h s
  end.
Definition ch_mark_channel_closing h (channel_id : string) (expiry_timestamp : Z)
    (payment : PaymentProof) : Result string unit * Host :=
  let '(r, s) := mark_closing (storage h) channel_id
    (mk_ClosingData expiry_timestamp (pp_balance payment) (pp_signature payment)) in
  (r, set_storage h s).
Definition ch_get_channel_policy h (unit : string) : option ChannelPolicy :=
  cfg ← pricing (config h) !! unit;
  Some (mk_ChannelPolicy (min_expiry_seconds (config h)) (min_capacity cfg)
          (max_amount_per_output cfg)).
Definition ch_mark_channel_closed h (channel_id : string) (expiry_timestamp balance : Z)
    (receiver_proofs_json sender_proofs_json : string) (receiver_sum sender_sum : Z) :
    Result string unit * Host :=
  let '(r, s) := mark_closed (storage h) channel_id
    (mk_ClosedDataView expiry_timestamp balance (wrap64 (receiver_sum + sender_sum))
       receiver_sum sender_sum receiver_proofs_json sender_proofs_json) in
  (r, set_storage h s).

#[global] Instance configurable_host : SpilmanHost Host string := {|
  receiver_key_is_acceptable h pk := bool_decide (pk = server_pubkey h);
  mint_and_keyset_is_acceptable := ch_mint_and_keyset_is_acceptable;
  host_get_funding h c := let '(f, s) := get_funding (storage h) c in (f, set_storage h s);
  host_save_funding := ch_save_funding;
  get_amount_due := compute_amount_due;
  record_payment := ch_record_payment;
  get_channel_state h c := get_state (storage h) c;
  mark_channel_closing := ch_mark_channel_closing;
  host_get_closing_data h c := get_closing_data (storage h) c;
  get_channel_policy := ch_get_channel_policy;
  now_seconds := system_time;
  get_balance_and_signature_for_unilateral_exit h c := get_balance (storage h) c;
  host_get_active_keyset_ids h := get_active_keyset_ids (storage h);
  has_keysets_for_unit h mint u := bool_decide (list_keysets_for_unit (storage h) mint u ≠ []);
  get_keyset_info h mint id := info_json <$> get_keyset (storage h) mint id;
  mark_channel_closed := ch_mark_channel_closed;
  host_compute_channel_secret h _ sender_pubkey_hex :=
    compute_channel_secret_from_hex (server_secret_hex h) sender_pubkey_hex;
  sign_with_tweaked_key h _ message_hex tweak_scalar_hex :=
    sign_with_tweaked_key_util (signing_aux h message_hex tweak_scalar_hex) (server_secret_hex h)
      message_hex tweak_scalar_hex;
|}.
End host.

(** ** What the bridge relies on *)

Section due.
Context {T : CashuTypes} {H C : Type} `{!SpilmanHost H C}.
Definition due (h : H) (c : string) (ctx : option C) : Z := (get_amount_due h c ctx).1.
End due.

Class HostSpec {T : CashuTypes} (H C : Type) `{!SpilmanHost H C} := {
  host_wf : H → Prop;
  (** the channel as the storage behind the host shows it *)
  hview : H → string → ChannelView;
  (** request contexts the host can account for *)
  context_ok : H → string → C → Prop;
  context_usage h h' c ctx :
    v_usage (hview h' c) = v_usage (hview h c) → context_ok h c ctx → context_ok h' c ctx;
  hs_view_ok h c : host_wf h → view_ok (hview h c);
  hs_state h c : host_wf h → get_channel_state h c = Ok (v_state (hview h c));
  hs_payment h c : host_wf h → get_balance_and_signature_for_unilateral_exit h c = v_payment (hview h c);
  (** reads *)
  hs_get_funding h c :
    host_wf h → (host_get_funding h c).1 = v_funding (hview h c) ∧
    host_wf (host_get_funding h c).2 ∧
    (∀ d, hview (host_get_funding h c).2 d = hview h d) ∧
    (∀ d ctx, due (host_get_funding h c).2 d ctx = due h d ctx);
  hs_amount_due h c ctx :
    host_wf h → host_wf (get_amount_due h c ctx).2 ∧
    (∀ d, hview (get_amount_due h c ctx).2 d = hview h d) ∧
    (∀ d ctx', due (get_amount_due h c ctx).2 d ctx' = due h d ctx');
  (** first funding of a channel *)
  hs_save_funding h c f p :
    host_wf h → v_funding (hview h c) = None → is_i63 (pp_balance p) → pp_signature p ≠ "" →
    let h' := host_save_funding h c f p in
    host_wf h' ∧
    hview h' c = mk_ChannelView (Some f) (Some p) (v_usage (hview h c)) (Some Open)
                   (v_closing (hview h c)) (v_closed (hview h c)) (v_journal (hview h c)) ∧
    (∀ d, d ≠ c → hview h' d = hview h d) ∧
    (∀ d ctx, d ≠ c → due h' d ctx = due h d ctx) ∧
    (v_usage (hview h c) = None → due h' c None = 0);
  (** an accepted payment: stored if it is the highest, and the usage counted *)
  hs_record_payment h c p ctx :
    host_wf h → v_state (hview h c) = Some Open → is_i63 (pp_balance p) → pp_signature p ≠ "" →
    context_ok h c ctx →
    let h' := record_payment h c p ctx in
    host_wf h' ∧
    v_funding (hview h' c) = v_funding (hview h c) ∧
    v_state (hview h' c) = Some Open ∧
    v_payment (hview h' c) =
      Some (match v_payment (hview h c) with
            | Some b => if pp_balance b <? pp_balance p then p else b
            | None => p
            end) ∧
    (∀ d, d ≠ c → hview h' d = hview h d) ∧
    (∀ d ctx', d ≠ c → due h' d ctx' = due h d ctx') ∧
    due h' c None = due h c (Some ctx);
  (** closing: the storage's two marks, for a funded channel *)
  hs_closing h c : host_wf h → host_get_closing_data h c = v_closing (hview h c);
  hs_mark_closing h c expiry p :
    host_wf h → is_Some (v_funding (hview h c)) →
    let r := mark_channel_closing h c expiry p in
    host_wf r.2 ∧ (∀ d, d ≠ c → hview r.2 d = hview h d) ∧
    (∀ d ctx, due r.2 d ctx = due h d ctx) ∧
    match spec_step (MarkClosing (mk_ClosingData expiry (pp_balance p) (pp_signature p))) (hview h c) with
    | Some v => r.1 = Ok tt ∧ hview r.2 c = v
    | None => (∃ e, r.1 = Err e) ∧ hview r.2 c = hview h c
    end;
  hs_mark_closed h c expiry balance receiver_proofs sender_proofs receiver_sum sender_sum :
    host_wf h → is_Some (v_funding (hview h c)) →
    let r := mark_channel_closed h c expiry balance receiver_proofs sender_proofs receiver_sum sender_sum in
    host_wf r.2 ∧ (∀ d, d ≠ c → hview r.2 d = hview h d) ∧
    (∀ d ctx, due r.2 d ctx = due h d ctx) ∧
    match spec_step (MarkClosed (mk_ClosedDataView expiry balance (wrap64 (receiver_sum + sender_sum))
            receiver_sum sender_sum receiver_proofs sender_proofs)) (hview h c) with
    | Some v => r.1 = Ok tt ∧ hview r.2 c = v
    | None => (∃ e, r.1 = Err e) ∧ hview r.2 c = hview h c
    end;
}.

(** ** Pricing *)

Lemma saturating_sum (l : list (string * Z)) (used : string → Z) acc :
  (∀ v p, (v, p) ∈ l → 0 <= used v ∧ 0 <= p) → 0 <= acc →
  foldl (λ total (e : string * Z), saturating_add total (saturating_mul (used e.1) e.2)) acc l
  = match l with [] => acc | _ => Z.min (acc + sumZ ((λ e, used e.1 * e.2) <$> l)) u64_max end.
Proof.
  revert acc. induction l as [|[v p] l IH]; intros acc Hl Hacc; [done|].
  destruct (Hl v p) as [Hu Hp]; [left|]. cbn [foldl].
  assert (0 <= saturating_add acc (saturating_mul (used v) p)).
  { unfold saturating_add, saturating_mul, u64_max. nia. }
  rewrite IH; [|intros; apply Hl; by right|done]. clear IH.
  assert (0 <= sumZ ((λ e, used e.1 * e.2) <$> l)).
  { apply sumZ_nonneg. apply Forall_fmap, Forall_forall. intros [v' p'] Hin.
    destruct (Hl v' p') as [? ?]; [by right|]. simpl. nia. }
  cbn [fmap list_fmap]. cbn [sumZ foldr fst snd]. fold (sumZ ((λ e, used e.1 * e.2) <$> l)).
  unfold saturating_add, saturating_mul in *. destruct l; [simpl|]; unfold u64_max in *; nia.
Qed.

Section pricing.
Context (usage_from_json : string → option UsageMap).

(** The usage of a variable and the raw price of all usage. *)
Definition used (accumulated pending : UsageMap) (v : string) : Z :=
  default 0 (accumulated !! v) + default 0 (pending !! v).
Definition raw_price (vars accumulated pending : UsageMap) : Z :=
  sumZ ((λ e : string * Z, used accumulated pending e.1 * e.2) <$> map_to_list vars).

Lemma linear_combination_eq vars accumulated pending :
  map_Forall (λ v p, is_u64 (used accumulated pending v) ∧ 0 <= p) vars →
  linear_combination vars accumulated pending
  = Z.min (raw_price vars accumulated pending) u64_max.
Proof.
  intros Hv. unfold linear_combination, raw_price.
  assert (∀ v p, (v, p) ∈ map_to_list vars → is_u64 (used accumulated pending v) ∧ 0 <= p) as Hl.
  { intros v p Hin%elem_of_map_to_list. apply (Hv v p Hin). }
  rewrite (foldl_ext_in _ (λ total (e : string * Z), saturating_add total
    (saturating_mul (used accumulated pending e.1) e.2))).
  2:{ intros t [v p] Hin. simpl. by rewrite wrap64_id by apply (Hl v p Hin). }
  rewrite saturating_sum; [|intros v p Hin; destruct (Hl v p Hin) as [[? ?] ?]; done|done].
  destruct (map_to_list vars); simpl; unfold u64_max; lia.
Qed.

Lemma linear_combination_ext vars a p a' p' :
  (∀ v, wrap64 (used a p v) = wrap64 (used a' p' v)) →
  linear_combination vars a p = linear_combination vars a' p'.
Proof.
  unfold used, linear_combination. intros Hu. apply foldl_ext_in.
  intros t [v q] _. simpl. by rewrite Hu.
Qed.
End pricing.

(** ** [ConfigurableHost] meets [HostSpec] *)

Section spec.
Context {T : CashuTypes} {O : CashuOps} {S : Type} {ST : SpilmanStorage S} {SS : StorageSpec S}.
Context (usage_from_json : string → option UsageMap).
#[local] Existing Instance configurable_host.
Implicit Types h : ConfigurableHost S.
Abbreviation CH := (configurable_host usage_from_json).

Definition due_of (cfg : ConfigurableHostConfig) (v : ChannelView) (ctx : option string) : Z :=
  match pricing cfg !! default "" (v_funding v ≫= stored_unit) with
  | None => 0
  | Some unit_pricing =>
      div_ceil (linear_combination (variables unit_pricing) (default ∅ (v_usage v))
                  (default ∅ (ctx ≫= usage_from_json)))
        (Z.max (config_pricing_scale cfg) 1)
  end.

Lemma ch_due_eq h c ctx :
  st_wf (storage h) →
  due (SpilmanHost0:=CH) h c ctx = due_of (config h) (view (storage h) c) ctx.
Proof.
  intros Hwf. unfold due, due_of. cbn [get_amount_due configurable_host].
  unfold compute_amount_due, channel_unit.
  destruct (get_funding_read (storage h) c Hwf) as (_ & Hv & _).
  assert (v_funding (view (storage h) c) = (get_funding (storage h) c).1) as -> by done.
  destruct (get_funding (storage h) c) as [f s]. simpl in *.
  assert (get_usage s c = v_usage (view (storage h) c)) as Hu by (by rewrite <-(Hv c)).
  unfold set_storage, pricing_scale. simpl. rewrite Hu. by destruct f.
Qed.

(** Replacing the storage by one with the same answers about [c]. *)
Lemma ch_due_storage h s c ctx :
  st_wf (storage h) → st_wf s → view s c = view (storage h) c →
  due (SpilmanHost0:=CH) (set_storage h s) c ctx = due (SpilmanHost0:=CH) h c ctx.
Proof. intros ?? Hv. rewrite !ch_due_eq by done. simpl. by rewrite Hv. Qed.

Definition ch_context_ok h (c ctx : string) : Prop :=
  match usage_from_json ctx with
  | Some inc => in_domain (IncrementUsage inc) (view (storage h) c)
  | None => True
  end.

(** Usage counted is usage priced: once the increments are stored, the amount due is the
    one computed with them pending. *)
Lemma due_of_counted cfg v ctx inc :
  usage_from_json ctx = Some inc →
  due_of cfg (with_usage (add_usage (v_usage v) inc) v) None = due_of cfg v (Some ctx).
Proof.
  intros Hinc. unfold due_of. simpl. destruct (pricing cfg !! _); [|done]. f_equal.
  apply linear_combination_ext. intros k. unfold used. simpl. rewrite Hinc, lookup_empty. simpl.
  rewrite add_usage_lookup. f_equal.
  destruct (default ∅ (v_usage v) !! k), (inc !! k); simpl; lia.
Qed.
Lemma due_of_ctx_None cfg v ctx :
  usage_from_json ctx = None → due_of cfg v (Some ctx) = due_of cfg v None.
Proof. intros Hc. unfold due_of. simpl. by rewrite Hc. Qed.
Lemma due_of_payment cfg v p ctx : due_of cfg (with_payment p v) ctx = due_of cfg v ctx.
Proof. done. Qed.
Lemma due_of_unused cfg v : v_usage v = None → due_of cfg v None = 0.
Proof.
  intros Hu. unfold due_of. rewrite Hu. simpl. destruct (pricing cfg !! _) as [up|]; [|done].
  replace (linear_combination (variables up) ∅ ∅) with 0; [by unfold div_ceil; rewrite Z.mod_0_l by lia|].
  unfold linear_combination. induction (map_to_list (variables up)) as [|e l IH]; [done|].
  simpl. by rewrite !lookup_empty.
Qed.

(** [update_balance] on an open channel, as [save_funding] and [record_payment] use it. *)
Lemma st_update_balance (s : S) c p :
  st_wf s → v_state (view s c) = Some Open → is_i63 (pp_balance p) → pp_signature p ≠ "" →
  (update_balance s c p).1 = Ok tt ∧ st_wf (update_balance s c p).2 ∧
  view (update_balance s c p).2 c =
    (match v_payment (view s c) with
     | Some b => if pp_balance b <? pp_balance p then with_payment p (view s c) else view s c
     | None => with_payment p (view s c)
     end) ∧
  (∀ d, d ≠ c → view (update_balance s c p).2 d = view s d).
Proof.
  intros Hwf Hst Hb Hg.
  destruct (exec_spec s c (UpdateBalance p) Hwf) as (Hwf' & Hm & Hframe & _); [done|].
  cbn [spec_step exec] in *. rewrite bool_decide_eq_true_2 in Hm by done.
  destruct Hm as [? ?]. done.
Qed.

Lemma ch_save_funding_spec h c f p :
  st_wf (storage h) → v_funding (view (storage h) c) = None →
  is_i63 (pp_balance p) → pp_signature p ≠ "" →
  let h' := ch_save_funding h c f p in
  config h' = config h ∧ st_wf (storage h') ∧
  view (storage h') c = mk_ChannelView (Some f) (Some p) (v_usage (view (storage h) c)) (Some Open)
    (v_closing (view (storage h) c)) (v_closed (view (storage h) c)) (v_journal (view (storage h) c)) ∧
  (∀ d, d ≠ c → view (storage h') d = view (storage h) d).
Proof.
  intros Hwf Hf Hb Hg. unfold ch_save_funding.
  assert (in_domain (SaveFunding f) (view (storage h) c)) as Hd by (cbn [in_domain]; by rewrite Hf).
  destruct (exec_spec (storage h) c (SaveFunding f) Hwf Hd) as (Hwf1 & Hm & Hframe & _).
  cbn [spec_step exec] in *. rewrite Hf in Hm. destruct Hm as [Hr Hv].
  destruct (save_funding (storage h) c f) as [r s]. cbn [fst snd] in *. subst r.
  destruct (st_update_balance s c p) as (_ & Hwf2 & Hv2 & Hframe2); [done|by rewrite Hv|done..|].
  split; [done|]. split; [done|]. split.
  - cbn [storage set_storage]. rewrite Hv2, Hv. cbn [v_payment].
    assert (v_payment (view (storage h) c) = None) as ->; [|done].
    destruct (v_payment (view (storage h) c)) as [q|] eqn:Hq; [|done].
    apply view_payment in Hq as [[? ?] _]; [congruence|done].
  - intros d Hd'. cbn [storage set_storage]. by rewrite Hframe2, Hframe.
Qed.

Lemma ch_record_payment_spec h c p ctx :
  st_wf (storage h) → v_state (view (storage h) c) = Some Open →
  is_i63 (pp_balance p) → pp_signature p ≠ "" → ch_context_ok h c ctx →
  let h' := ch_record_payment usage_from_json h c p ctx in
  let v1 := match v_payment (view (storage h) c) with
            | Some b => if pp_balance b <? pp_balance p then with_payment p (view (storage h) c)
                        else view (storage h) c
            | None => with_payment p (view (storage h) c)
            end in
  config h' = config h ∧ st_wf (storage h') ∧
  view (storage h') c =
    match usage_from_json ctx with
    | Some inc => with_usage (add_usage (v_usage (view (storage h) c)) inc) v1
    | None => v1
    end ∧
  (∀ d, d ≠ c → view (storage h') d = view (storage h) d).
Proof.
  intros Hwf Hst Hb Hg Hctx. unfold ch_record_payment, ch_context_ok in *.
  destruct (st_update_balance (storage h) c p) as (Hr & Hwf1 & Hv1 & Hframe1); [done..|].
  destruct (update_balance (storage h) c p) as [r s]. cbn [fst snd] in *. subst r.
  unfold apply_usage_increments. destruct (usage_from_json ctx) as [inc|]; [|done].
  assert (v_usage (view s c) = v_usage (view (storage h) c)) as Hu.
  { rewrite Hv1. destruct (v_payment _); [|done]. by destruct (_ <? _). }
  assert (in_domain (IncrementUsage inc) (view s c)) as Hd.
  { cbn [in_domain] in *. by rewrite Hu. }
  cbn [storage set_storage].
  destruct (exec_spec s c (IncrementUsage inc) Hwf1 Hd) as (Hwf2 & [_ Hm] & Hframe2 & _).
  cbn [spec_step exec] in *. split; [done|]. split; [done|]. split.
  - by rewrite Hm, Hu, Hv1.
  - intros d Hne. by rewrite Hframe2, Hframe1.
Qed.

(** The marks leave usage and funding alone, so nothing becomes due. *)
Lemma ch_mark_spec h c cmd :
  match cmd with MarkClosing _ | MarkClosed _ => True | _ => False end →
  st_wf (storage h) → is_Some (v_funding (view (storage h) c)) →
  let r := exec (storage h) c cmd in
  let h' := set_storage h r.2 in
  st_wf (storage h') ∧ (∀ d, d ≠ c → view (storage h') d = view (storage h) d) ∧
  (∀ d ctx, due (SpilmanHost0:=CH) h' d ctx = due (SpilmanHost0:=CH) h d ctx) ∧
  match spec_step cmd (view (storage h) c) with
  | Some v => r.1 = Ok tt ∧ view (storage h') c = v
  | None => (∃ e, r.1 = Err e) ∧ view (storage h') c = view (storage h) c
  end.
Proof.
  intros Hcmd Hwf Hf r h'.
  destruct (exec_spec (storage h) c cmd Hwf) as (Hwf' & Hm & Hframe & _); [by destruct cmd|].
  fold r in Hwf', Hm, Hframe. split; [done|]. split; [done|]. split; [|done].
  intros d ctx. rewrite !ch_due_eq by done. unfold due_of, h'. cbn [storage set_storage config].
  destruct (decide (d = c)) as [->|Hd]; [|by rewrite Hframe].
  destruct cmd; try done; cbn [spec_step] in Hm; case_bool_decide; destruct Hm as [_ ->]; done.
Qed.

#[global] Program Instance configurable_host_spec : @HostSpec T (ConfigurableHost S) string CH := {|
  host_wf h := st_wf (storage h);
  hview h c := view (storage h) c;
  context_ok := ch_context_ok;
|}.
Next Obligation.
  intros h h' c ctx Hu. unfold ch_context_ok. destruct (usage_from_json ctx); [|done].
  cbn [in_domain]. by rewrite Hu.
Qed.
Next Obligation. intros. by apply st_view_ok. Qed.
Next Obligation. intros. by apply get_state_ok. Qed.
Next Obligation. done. Qed.
Next Obligation.
  intros h c Hwf. cbn [host_get_funding configurable_host].
  destruct (get_funding_read (storage h) c Hwf) as (Hwf' & Hv & _).
  assert (v_funding (view (storage h) c) = (get_funding (storage h) c).1) as -> by done.
  destruct (get_funding (storage h) c) as [f s]. cbn [fst snd] in *.
  split; [done|]. split; [done|]. split; [done|]. intros. by apply ch_due_storage.
Qed.
Next Obligation.
  intros h c ctx Hwf. cbn [get_amount_due configurable_host]. unfold compute_amount_due, channel_unit.
  destruct (get_funding_read (storage h) c Hwf) as (Hwf' & Hv & _).
  destruct (get_funding (storage h) c) as [f s]. cbn [fst snd] in *.
  split; [done|]. split; [done|]. intros. by apply ch_due_storage.
Qed.
Next Obligation.
  intros h c f p Hwf Hf Hb Hg. cbn [host_save_funding configurable_host].
  destruct (ch_save_funding_spec h c f p) as (Hc & Hwf' & Hv & Hframe); [done..|].
  set (h' := ch_save_funding h c f p) in *.
  split; [done|]. split; [done|]. split; [done|]. split.
  - intros d ctx Hd. rewrite !ch_due_eq, Hc, Hframe by done. done.
  - intros Hu. rewrite ch_due_eq, Hv by done. by apply due_of_unused.
Qed.
Next Obligation.
  intros h c p ctx Hwf Hst Hb Hg Hctx. cbn [record_payment configurable_host].
  destruct (ch_record_payment_spec h c p ctx) as (Hc & Hwf' & Hv & Hframe); [done..|].
  set (h' := ch_record_payment usage_from_json h c p ctx) in *.
  rewrite Hv. split; [done|].
  assert (∀ d ctx', d ≠ c → due (SpilmanHost0:=CH) h' d ctx' = due (SpilmanHost0:=CH) h d ctx').
  { intros. rewrite !ch_due_eq, Hc, Hframe by done. done. }
  assert (due (SpilmanHost0:=CH) h' c None = due (SpilmanHost0:=CH) h c (Some ctx)).
  { rewrite !ch_due_eq, Hc, Hv by done. destruct (usage_from_json ctx) as [inc|] eqn:Hi.
    - rewrite <-(due_of_counted _ _ _ _ Hi). destruct (v_payment _); [|done]. by destruct (_ <? _).
    - rewrite due_of_ctx_None by done. destruct (v_payment _); [|done]. by destruct (_ <? _). }
  destruct (usage_from_json ctx), (v_payment (view (storage h) c)) as [b|] eqn:Hp;
    try destruct (pp_balance b <? pp_balance p); split_and!; try done.
Qed.
Next Obligation. done. Qed.
Next Obligation.
  intros h c expiry p Hwf Hf. cbn [mark_channel_closing configurable_host]. unfold ch_mark_channel_closing.
  pose proof (ch_mark_spec h c (MarkClosing (mk_ClosingData expiry (pp_balance p) (pp_signature p)))
    I Hwf Hf) as Hs. cbn [exec] in Hs. by destruct (mark_closing _ _ _).
Qed.
Next Obligation.
  intros h c expiry balance rp sp rs ss Hwf Hf. cbn [mark_channel_closed configurable_host].
  unfold ch_mark_channel_closed.
  pose proof (ch_mark_spec h c (MarkClosed (mk_ClosedDataView expiry balance (wrap64 (rs + ss)) rs ss rp sp))
    I Hwf Hf) as Hs. cbn [exec] in Hs. by destruct (mark_closed _ _ _).
Qed.

(** the amount due is the price of all recorded and pending usage, rounded up: it is
    the least number of units that covers the raw total at the pricing scale. *)
Theorem amount_due_formula h c ctx unit_pricing f :
  let v := view (storage h) c in
  let accumulated := default ∅ (v_usage v) in
  let pending := default ∅ (ctx ≫= usage_from_json) in
  let total := raw_price (variables unit_pricing) accumulated pending in
  st_wf (storage h) → v_funding v = Some f →
  pricing (config h) !! default "" (stored_unit f) = Some unit_pricing →
  map_Forall (λ k price, is_u64 (used accumulated pending k) ∧ 0 <= price) (variables unit_pricing) →
  total <= u64_max →
  ∀ d, (compute_amount_due usage_from_json h c ctx).1 <= d ↔ total <= d * pricing_scale h.
Proof.
  intros v accumulated pending total Hwf Hf Hp Hu Ht d.
  change (compute_amount_due usage_from_json h c ctx).1 with (due (SpilmanHost0:=CH) h c ctx).
  rewrite ch_due_eq by done. unfold due_of. fold v. rewrite Hf. cbn [mbind option_bind]. rewrite Hp.
  rewrite linear_combination_eq by done. fold accumulated pending total.
  rewrite Z.min_l by done. apply (div_ceil_le_iff _ (Z.max (config_pricing_scale (config h)) 1)). lia.
Qed.
End spec.
