(* ===== verification/Bridge.v ===== *)
(** * The receiver's bridge: funding and payments ([bridge.rs])

    The errors of the bridge and their HTTP forms, the validation of new channels and of
    payments, and the operations that record them, over any host. A call is a function of
    the state behind the host ([M]); the theorems use the host through [HostSpec]. *)

From S2P Require Import Prelude Cashu Toy Amounts Params SwapCompletion Deterministic Channel Storage StorageSpec Host.
From S2P Require Import StorageMemory.

(** ** Messages and results *)

Record Payment {T : CashuTypes} := mk_Payment {
  pay_channel_id : string;
  pay_balance : Z;
  pay_signature : string;
  pay_params : option Value;
  pay_funding_proofs : option (list Proof);
}.
Arguments mk_Payment {T} _ _ _ _ _.
Definition Payment_new {T : CashuTypes} (channel_id : string) (balance : Z) (signature : string) : Payment :=
  mk_Payment channel_id balance signature None None.
Definition with_funding {T : CashuTypes} (channel_id : string) (balance : Z) (signature : string)
    (params : Value) (funding_proofs : list Proof) : Payment :=
  mk_Payment channel_id balance signature (Some params) (Some funding_proofs).
Definition has_funding {T : CashuTypes} (p : Payment) : bool :=
  match pay_params p, pay_funding_proofs p with Some _, Some _ => true | _, _ => false end.

Record PaymentSuccess := mk_PaymentSuccess {
  ps_channel_id : string;
  ps_balance : Z;
  ps_amount_due : Z;
  ps_capacity : Z;
}.
Record PaymentValidationResult := mk_PaymentValidationResult {
  pv_channel_id : string;
  pv_balance : Z;
  pv_amount_due : Z;
  pv_capacity : Z;
  pv_sender_signature : string;
}.
Record FundChannelResult := mk_FundChannelResult {
  fc_channel_id : string;
  fc_capacity : Z;
  already_known : bool;
}.
Record ValidatedNewChannel := mk_ValidatedNewChannel {
  vn_channel_id : string;
  vn_balance : Z;
  vn_capacity : Z;
  vn_sender_signature : string;
  vn_funding : ChannelFunding;
}.

(** ** Errors *)

Inductive BridgeError :=
| InvalidRequest (s : string)
| ChannelClosed
| ChannelClosing
| ServerMisconfigured (s : string)
| CapacityTooSmall (capacity min_capacity : Z)
| ExpiryTooSoon (expiry_timestamp min_expiry now : Z)
| MaxAmountExceeded (amount max_allowed : Z)
| BalanceExceedsCapacity (balance capacity : Z)
| UnsupportedUnit (u : string)
| ChannelIdMismatch
| ValidationFailed (s : string)
| UnknownChannel
| InvalidSignature (s : string)
| InsufficientBalance (balance amount_due : Z)
| BalanceMismatch (expected actual : Z)
| Internal (s : string)
| ReceiverKeyNotAcceptable
| MintOrKeysetNotAcceptable.

(** [Display]. *)
Definition BridgeError_to_string (e : BridgeError) : string :=
  match e with
  | InvalidRequest s => s
  | ChannelClosed => "channel closed"
  | ChannelClosing => "channel closing, swap pending"
  | ServerMisconfigured s => "server misconfigured: " +:+ s
  | CapacityTooSmall capacity min_capacity =>
      "capacity too small: " +:+ pretty capacity +:+ " < " +:+ pretty min_capacity
  | ExpiryTooSoon expiry_timestamp min_expiry now =>
      "expiry too soon: " +:+ pretty expiry_timestamp +:+ " < " +:+ pretty min_expiry
      +:+ " (" +:+ pretty (saturating_sub expiry_timestamp now) +:+ "s remaining)"
  | MaxAmountExceeded amount max_allowed =>
      "max_amount_per_output exceeded: " +:+ pretty amount +:+ " > " +:+ pretty max_allowed
  | BalanceExceedsCapacity balance capacity =>
      "balance exceeds capacity: " +:+ pretty balance +:+ " > " +:+ pretty capacity
  | UnsupportedUnit u => "unsupported unit: " +:+ u
  | ChannelIdMismatch => "channel_id mismatch"
  | ValidationFailed s => "channel validation failed: " +:+ s
  | UnknownChannel => "unknown channel"
  | InvalidSignature s => "invalid signature: " +:+ s
  | InsufficientBalance balance amount_due =>
      "insufficient balance: " +:+ pretty balance +:+ " < " +:+ pretty amount_due
  | BalanceMismatch expected actual =>
      "balance mismatch: expected " +:+ pretty expected +:+ ", got " +:+ pretty actual
  | Internal s => "internal error: " +:+ s
  | ReceiverKeyNotAcceptable => "receiver key not acceptable"
  | MintOrKeysetNotAcceptable => "mint or keyset not acceptable"
  end.

(** [extra] is a JSON object of numbers. *)
Record BridgeErrorResponse := mk_BridgeErrorResponse {
  ber_error : string;
  ber_reason : string;
  ber_status : Z;
  ber_code : string;
  ber_extra : option (list (string * Z));
}.
Definition BridgeErrorResponse_from (err : BridgeError) : BridgeErrorResponse :=
  let reason := BridgeError_to_string err in
  let required code extra := mk_BridgeErrorResponse "Payment required" reason 402 code extra in
  match err with
  | InvalidRequest _ => mk_BridgeErrorResponse "Bad request" reason 400 "invalid_request" None
  | UnknownChannel => mk_BridgeErrorResponse "Not found" reason 404 "unknown_channel" None
  | ChannelClosing => mk_BridgeErrorResponse "Channel closing" reason 409 "channel_closing" None
  | ChannelClosed => mk_BridgeErrorResponse "Channel closed" reason 410 "channel_closed" None
  | ServerMisconfigured _ =>
      mk_BridgeErrorResponse "Internal error" reason 500 "server_misconfigured" None
  | Internal _ => mk_BridgeErrorResponse "Internal error" reason 500 "internal" None
  | BalanceMismatch expected actual =>
      required "balance_mismatch" (Some [("expected", expected); ("actual", actual)])
  | BalanceExceedsCapacity balance capacity =>
      required "balance_exceeds_capacity" (Some [("balance", balance); ("capacity", capacity)])
  | InsufficientBalance balance amount_due =>
      required "insufficient_balance" (Some [("balance", balance); ("amount_due", amount_due)])
  | CapacityTooSmall capacity min_capacity =>
      required "capacity_too_small" (Some [("capacity", capacity); ("min_capacity", min_capacity)])
  | ExpiryTooSoon expiry_timestamp min_expiry now =>
      required "expiry_too_soon"
        (Some [("expiry_timestamp", expiry_timestamp); ("min_expiry", min_expiry); ("now", now)])
  | MaxAmountExceeded amount max_allowed =>
      required "max_amount_exceeded" (Some [("amount", amount); ("max_allowed", max_allowed)])
  | UnsupportedUnit _ => required "unsupported_unit" None
  | ChannelIdMismatch => required "channel_id_mismatch" None
  | ValidationFailed _ => required "validation_failed" None
  | InvalidSignature _ => required "invalid_signature" None
  | ReceiverKeyNotAcceptable => required "receiver_key_not_acceptable" None
  | MintOrKeysetNotAcceptable => required "mint_or_keyset_not_acceptable" None
  end.

Record ClosePreparationError := mk_ClosePreparationError {
  cpe_error : string;
  cpe_reason : string;
  cpe_status : Z;
  cpe_extra : option (list (string * Z));
}.
Definition bad_request (reason : string) := mk_ClosePreparationError "Bad request" reason 400 None.
Definition payment_required (reason : string) :=
  mk_ClosePreparationError "Payment required" reason 402 None.
Definition not_found (reason : string) := mk_ClosePreparationError reason reason 404 None.
Definition internal (reason : string) := mk_ClosePreparationError "Internal error" reason 500 None.
Definition conflict (reason : string) := mk_ClosePreparationError "Channel closing" reason 409 None.
Definition gone (reason : string) := mk_ClosePreparationError "Channel closed" reason 410 None.
Definition with_extra (e : ClosePreparationError) (extra : list (string * Z)) :=
  mk_ClosePreparationError (cpe_error e) (cpe_reason e) (cpe_status e) (Some extra).

(** [str::contains]. *)
Definition str_contains (s sub : string) : bool :=
  match String.index 0 sub s with Some _ => true | None => false end.
Definition ClosePreparationError_from (err : BridgeError) : ClosePreparationError :=
  let reason := BridgeError_to_string err in
  match err with
  | ChannelClosed => gone reason
  | ChannelClosing => conflict reason
  | UnknownChannel => not_found reason
  | InvalidRequest msg =>
      if str_contains msg "no payment proof" then bad_request reason else payment_required reason
  | Internal _ | ServerMisconfigured _ => internal reason
  | BalanceMismatch expected actual =>
      with_extra (payment_required reason) [("expected", expected); ("actual", actual)]
  | _ => payment_required reason
  end.

(** ** Operations *)

Section bridge.
Context {T : CashuTypes} {O : CashuOps} {H C : Type} `{!SpilmanHost H C}.
(** Derived parsers and printers of [serde], and the base64 crate. *)
Context (errors_to_json : list ChannelVerificationError → string).
Context (payment_from_json : string → Result string Payment).
Context (base64_decode : string → Result string bytes).
Context (utf8_decode : bytes → Result string string).

Definition ask_funding {E} (channel_id : string) : M H E (option ChannelFunding) :=
  modify (λ h, host_get_funding h channel_id).
Definition ask_amount_due {E} (channel_id : string) (ctx : option C) : M H E Z :=
  modify (λ h, get_amount_due h channel_id ctx).
Definition ask_state (channel_id : string) : M H BridgeError (option ChannelState) :=
  λ h, (map_err Internal (get_channel_state h channel_id), h).

Definition decode_payment_header (base64_header : string) : Result BridgeError Payment :=
  decoded ← map_err InvalidRequest (base64_decode base64_header);
  json ← map_err InvalidRequest (utf8_decode decoded);
  map_err InvalidRequest (payment_from_json json).

(** The channel secret of 32 bytes and the parameters built with it. *)
Definition decode_secret (secret_hex : string) : Result string bytes :=
  secret ← hex_decode secret_hex;
  _ ← ensure (bool_decide (length secret = 32%nat)) "Invalid secret length";
  Ok secret.
Definition load_params (params_json secret_hex keyset_json : string) : Result string ChannelParameters :=
  secret ← decode_secret secret_hex;
  keyset ← parse_keyset_info_from_json keyset_json;
  from_json_with_channel_secret params_json keyset secret.

Definition verify_signature (params_json proofs_json secret_hex keyset_json channel_id : string)
    (balance : Z) (signature : string) : Result string unit :=
  params ← load_params params_json secret_hex keyset_json;
  proofs ← proofs_from_json proofs_json;
  channel ← EstablishedChannel_new params proofs;
  sig ← signature_from_str signature;
  verify_sender_signature (mk_BalanceUpdateMessage channel_id balance sig) channel.

Definition validate_payment_request (channel_id signature : string) :
    M H BridgeError (option ChannelState) :=
  if String.eqb channel_id "" then lift (Err (InvalidRequest "missing channel_id"))
  else if String.eqb signature "" then lift (Err (InvalidRequest "missing signature"))
  else
    state ← ask_state channel_id;
    match state with
    | Some Closed => lift (Err ChannelClosed)
    | Some Closing => lift (Err ChannelClosing)
    | Some Open => lift (Ok (Some Open))
    | None => lift (Ok None)
    end.

(** [params_val["capacity"].as_u64().unwrap_or(0)] of stored parameters. *)
Definition stored_capacity (params_json : string) : Result BridgeError Z :=
  params_val ← map_err Internal (json_parse params_json);
  Ok (default 0 (idx_u64 params_val "capacity")).

Definition validate_payment (channel_id : string) (balance : Z) (signature : string) (context : C) :
    M H BridgeError PaymentValidationResult :=
  state ← validate_payment_request channel_id signature;
  match state with
  | None => lift (Err UnknownChannel)
  | Some _ =>
      f ← ask_funding channel_id;
      funding ← lift (ok_or UnknownChannel f);
      capacity ← lift (stored_capacity (params_json funding));
      _ ← lift (ensure (balance <=? capacity) (BalanceExceedsCapacity balance capacity));
      _ ← lift (map_err InvalidSignature
            (verify_signature (params_json funding) (funding_proofs_json funding)
               (channel_secret_hex funding) (keyset_info_json funding) channel_id balance signature));
      amount_due ← ask_amount_due channel_id (Some context);
      _ ← lift (ensure (amount_due <=? balance) (InsufficientBalance balance amount_due));
      lift (Ok (mk_PaymentValidationResult channel_id balance amount_due capacity signature))
  end.

Definition validate_existing_channel_funding (channel_id : string) (balance : Z) (signature : string) :
    M H BridgeError FundChannelResult :=
  if String.eqb channel_id "" then lift (Err (InvalidRequest "missing channel_id"))
  else if String.eqb signature "" then lift (Err (InvalidRequest "missing signature"))
  else
    state ← ask_state channel_id;
    match state with
    | Some Closed => lift (Err ChannelClosed)
    | Some Closing => lift (Err ChannelClosing)
    | None => lift (Err UnknownChannel)
    | Some Open =>
        f ← ask_funding channel_id;
        funding ← lift (ok_or UnknownChannel f);
        capacity ← lift (stored_capacity (params_json funding));
        _ ← lift (map_err InvalidSignature
              (verify_signature (params_json funding) (funding_proofs_json funding)
                 (channel_secret_hex funding) (keyset_info_json funding) channel_id balance signature));
        lift (Ok (mk_FundChannelResult channel_id capacity true))
    end.

(** A required field of the supplied parameters. *)
Definition param_str (v : Value) (k : string) : Result BridgeError string :=
  ok_or (InvalidRequest ("Missing " +:+ k)) (idx_str v k).
Definition param_u64 (v : Value) (k : string) : Result BridgeError Z :=
  ok_or (InvalidRequest ("Missing " +:+ k)) (idx_u64 v k).

(** The policy checks of [validate_new_channel_funding]. *)
Definition check_policy (h : H) (policy : ChannelPolicy)
    (capacity expiry_timestamp maximum_amount balance : Z) : Result BridgeError unit :=
  _ ← ensure (pol_min_capacity policy <=? capacity)
        (CapacityTooSmall capacity (pol_min_capacity policy));
  _ ← match pol_max_amount_per_output policy with
      | Some max => ensure (negb ((0 <? max) && (max <? maximum_amount)))
                      (MaxAmountExceeded maximum_amount max)
      | None => Ok tt
      end;
  let now := now_seconds h in
  let min_expiry := wrap64 (now + min_expiry_in_seconds policy) in
  _ ← ensure (min_expiry <=? expiry_timestamp) (ExpiryTooSoon expiry_timestamp min_expiry now);
  ensure (balance <=? capacity) (BalanceExceedsCapacity balance capacity).

Definition validate_new_channel_funding (h : H) (channel_id : string) (params_val : Value)
    (proofs : list Proof) (balance : Z) (signature : string) :
    Result BridgeError ValidatedNewChannel :=
  unit ← param_str params_val "unit";
  capacity ← param_u64 params_val "capacity";
  expiry_timestamp ← param_u64 params_val "expiry_timestamp";
  maximum_amount ← param_u64 params_val "maximum_amount_for_one_output";
  receiver_pubkey_hex ← param_str params_val "receiver_pubkey";
  receiver_pubkey ← map_err InvalidRequest (pubkey_from_str receiver_pubkey_hex);
  _ ← ensure (receiver_key_is_acceptable h receiver_pubkey) ReceiverKeyNotAcceptable;
  sender_pubkey_hex ← param_str params_val "sender_pubkey";
  keyset_id_str ← param_str params_val "keyset_id";
  keyset_id ← map_err InvalidRequest (id_from_str keyset_id_str);
  mint ← param_str params_val "mint";
  _ ← ensure (mint_and_keyset_is_acceptable h mint keyset_id) MintOrKeysetNotAcceptable;
  keyset_info_json ← ok_or MintOrKeysetNotAcceptable (get_keyset_info h mint keyset_id);
  policy ← ok_or (UnsupportedUnit unit) (get_channel_policy h unit);
  _ ← check_policy h policy capacity expiry_timestamp maximum_amount balance;
  channel_secret_hex ← map_err ServerMisconfigured
    (host_compute_channel_secret h receiver_pubkey_hex sender_pubkey_hex);
  channel_secret ← map_err Internal (decode_secret channel_secret_hex);
  keyset ← map_err InvalidRequest (parse_keyset_info_from_json keyset_info_json);
  params ← map_err Internal
    (from_json_with_channel_secret (json_print params_val) keyset channel_secret);
  _ ← ensure (String.eqb (get_channel_id params) channel_id) ChannelIdMismatch;
  verif ← map_err Internal (verify_valid_channel proofs params);
  _ ← ensure (valid verif) (ValidationFailed (errors_to_json (errors verif)));
  let proofs_json := proofs_to_json proofs in
  _ ← map_err InvalidSignature
    (verify_signature (json_print params_val) proofs_json channel_secret_hex keyset_info_json
       channel_id balance signature);
  Ok (mk_ValidatedNewChannel channel_id balance capacity signature
        (mk_ChannelFunding (json_print params_val) proofs_json channel_secret_hex keyset_info_json)).

Definition record_validated_new_channel (validated : ValidatedNewChannel) : M H BridgeError unit :=
  modify (λ h, (tt, host_save_funding h (vn_channel_id validated) (vn_funding validated)
                      (mk_PaymentProof (vn_balance validated) (vn_sender_signature validated)))).

Definition fund_channel (channel_id : string) (balance : Z) (signature : string)
    (params : option Value) (funding_proofs : option (list Proof)) : M H BridgeError FundChannelResult :=
  if String.eqb channel_id "" then lift (Err (InvalidRequest "missing channel_id"))
  else if String.eqb signature "" then lift (Err (InvalidRequest "missing signature"))
  else
    state ← ask_state channel_id;
    match state with
    | Some Closed => lift (Err ChannelClosed)
    | Some Closing => lift (Err ChannelClosing)
    | Some Open => validate_existing_channel_funding channel_id balance signature
    | None =>
        params ← lift (ok_or (InvalidRequest "Missing params") params);
        proofs ← lift (ok_or (InvalidRequest "Missing proofs") funding_proofs);
        validated ← (λ h, (validate_new_channel_funding h channel_id params proofs balance signature, h));
        _ ← record_validated_new_channel validated;
        capacity ← lift (stored_capacity (params_json (vn_funding validated)));
        lift (Ok (mk_FundChannelResult channel_id capacity false))
    end.

(** The first payment of an unknown channel registers it. *)
Definition register_if_unknown (state : option ChannelState) (channel_id : string) (balance : Z)
    (signature : string) (params : option Value) (funding_proofs : option (list Proof)) :
    M H BridgeError unit :=
  match state with
  | Some _ => lift (Ok tt)
  | None =>
      params ← lift (ok_or UnknownChannel params);
      proofs ← lift (ok_or UnknownChannel funding_proofs);
      validated ← (λ h, (validate_new_channel_funding h channel_id params proofs balance signature, h));
      record_validated_new_channel validated
  end.
Definition validate_and_record (channel_id : string) (balance : Z) (signature : string) (context : C) :
    M H BridgeError PaymentSuccess :=
  val ← validate_payment channel_id balance signature context;
  _ ← modify (λ h, (tt, record_payment h (pv_channel_id val)
                          (mk_PaymentProof (pv_balance val) (pv_sender_signature val)) context));
  lift (Ok (mk_PaymentSuccess (pv_channel_id val) (pv_balance val) (pv_amount_due val) (pv_capacity val))).
Definition process_payment (channel_id : string) (balance : Z) (signature : string)
    (params : option Value) (funding_proofs : option (list Proof)) (context : C) :
    M H BridgeError PaymentSuccess :=
  state ← validate_payment_request channel_id signature;
  _ ← register_if_unknown state channel_id balance signature params funding_proofs;
  validate_and_record channel_id balance signature context.

Definition process_payment_via_json (payment_json : string) (context : C) : M H BridgeError PaymentSuccess :=
  p ← lift (map_err InvalidRequest (payment_from_json payment_json));
  process_payment (pay_channel_id p) (pay_balance p) (pay_signature p) (pay_params p)
    (pay_funding_proofs p) context.
Definition process_payment_via_base64_header (base64_header : string) (context : C) :
    M H BridgeError PaymentSuccess :=
  p ← lift (decode_payment_header base64_header);
  process_payment (pay_channel_id p) (pay_balance p) (pay_signature p) (pay_params p)
    (pay_funding_proofs p) context.
Definition validate_payment_via_json (payment_json : string) (context : C) :
    M H BridgeError PaymentValidationResult :=
  p ← lift (map_err InvalidRequest (payment_from_json payment_json));
  validate_payment (pay_channel_id p) (pay_balance p) (pay_signature p) context.
Definition validate_payment_via_base64_header (base64_header : string) (context : C) :
    M H BridgeError PaymentValidationResult :=
  p ← lift (decode_payment_header base64_header);
  validate_payment (pay_channel_id p) (pay_balance p) (pay_signature p) context.
Definition verify_payment_covers_amount_due (channel_id : string) (balance : Z) (signature : string)
    (context : C) : M H BridgeError Z :=
  val ← validate_payment channel_id balance signature context;
  lift (Ok (pv_amount_due val)).
Definition payment_covers_amount_due (channel_id : string) (balance : Z) (signature : string)
    (context : C) : M H BridgeError bool :=
  λ h,
    match verify_payment_covers_amount_due channel_id balance signature context h with
    | (Ok _, h') => (Ok true, h')
    | (Err (InsufficientBalance _ _), h') => (Ok false, h')
    | (Err e, h') => (Err e, h')
    | (Diverge, h') => (Diverge, h')
    end.
Definition fund_channel_via_json (json : string) : M H BridgeError FundChannelResult :=
  p ← lift (map_err InvalidRequest (payment_from_json json));
  fund_channel (pay_channel_id p) (pay_balance p) (pay_signature p) (pay_params p) (pay_funding_proofs p).
Definition fund_channel_via_base64_header (base64_header : string) : M H BridgeError FundChannelResult :=
  p ← lift (decode_payment_header base64_header);
  fund_channel (pay_channel_id p) (pay_balance p) (pay_signature p) (pay_params p) (pay_funding_proofs p).
End bridge.

(** ** Theorems *)

(** The sender's authorization of [balance] on a funded channel: a signature, under her
    blinded stage-1 key, of the swap that spends the funding proofs into the commitment
    outputs for that balance. *)
Definition authorized `{O : CashuOps} (f : ChannelFunding) (balance : Z) (signature : string) : Prop :=
  ∃ params proofs commitment request pubkey sig,
    load_params (params_json f) (channel_secret_hex f) (keyset_info_json f) = Ok params ∧
    proofs_from_json (funding_proofs_json f) = Ok proofs ∧
    EstablishedChannel_new params proofs = Ok (mk_EstablishedChannel params proofs) ∧
    for_balance balance params = Ok commitment ∧
    create_swap_request commitment proofs None = Ok request ∧
    get_sender_blinded_pubkey_for_stage1 params = Ok pubkey ∧
    signature_from_str signature = Ok sig ∧
    verify_schnorr sig (sig_all_message_hash request) pubkey = Ok tt.

Lemma EstablishedChannel_new_fields `{O : CashuOps} params proofs ch :
  EstablishedChannel_new params proofs = Ok ch → ec_params ch = params ∧ funding_proofs ch = proofs.
Proof. unfold EstablishedChannel_new. intros Hch. by result_inv. Qed.
Lemma verify_signature_iff `{O : CashuOps} f c balance signature :
  verify_signature (params_json f) (funding_proofs_json f) (channel_secret_hex f)
    (keyset_info_json f) c balance signature = Ok tt ↔ authorized f balance signature.
Proof.
  unfold verify_signature, verify_sender_signature, verify_swap_signature, authorized. split.
  - intros Hv. result_inv. destruct a1 as [p ps]. cbn [bu_amount bu_signature ec_params funding_proofs] in *.
    match goal with E : EstablishedChannel_new _ _ = Ok _ |- _ => destruct (EstablishedChannel_new_fields _ _ _ E) as [? ?]; cbn in *; subst end.
    eauto 20.
  - intros (params & proofs & cm & req & k & sig & -> & Hpr & Hec & Hb & Hreq & Hk & Hs & Hv). cbn [mbind Result_bind].
    rewrite Hpr. cbn [mbind Result_bind]. rewrite Hec. cbn [mbind Result_bind]. rewrite Hs.
    cbn [mbind Result_bind bu_amount bu_signature ec_params funding_proofs]. rewrite Hb. cbn [mbind Result_bind].
    rewrite Hreq. cbn [mbind Result_bind]. rewrite Hk. cbn [mbind Result_bind]. by rewrite Hv.
Qed.

Section theorems.
Context {T : CashuTypes} {O : CashuOps} {H C : Type} {SH : SpilmanHost H C} {HS : HostSpec H C}.
Context (errors_to_json : list ChannelVerificationError → string).
Implicit Types h : H.

(** Nothing a caller can ask changed. *)
Definition same h h' : Prop :=
  host_wf h' ∧ (∀ d, hview h' d = hview h d) ∧ (∀ d ctx, due h' d ctx = due h d ctx).
Lemma same_refl h : host_wf h → same h h.
Proof. by split. Qed.
Lemma same_trans h1 h2 h3 : same h1 h2 → same h2 h3 → same h1 h3.
Proof. intros (?&Hv&Hd) (?&Hv'&Hd'). split_and!; [done|..]; intros; by rewrite ?Hv', ?Hd'. Qed.

Lemma ask_funding_eq {E} h c :
  host_wf h → ∃ h', ask_funding (E:=E) c h = (Ok (v_funding (hview h c)), h') ∧ same h h'.
Proof.
  intros Hwf. destruct (hs_get_funding h c Hwf) as (Hf & Hwf' & Hv & Hd).
  exists (host_get_funding h c).2. unfold ask_funding, modify. by rewrite Hf.
Qed.
Lemma ask_amount_due_eq {E} h c ctx :
  host_wf h → ∃ h', ask_amount_due (E:=E) c ctx h = (Ok (due h c ctx), h') ∧ same h h'.
Proof.
  intros Hwf. destruct (hs_amount_due h c ctx Hwf) as (Hwf' & Hv & Hd).
  by exists (get_amount_due h c ctx).2.
Qed.
Lemma ask_state_eq h c : host_wf h → ask_state c h = (Ok (v_state (hview h c)), h).
Proof. intros Hwf. unfold ask_state. by rewrite hs_state. Qed.

Lemma validate_payment_request_eq h c sig :
  host_wf h → c ≠ "" → sig ≠ "" →
  validate_payment_request c sig h =
    (match v_state (hview h c) with
     | Some Closed => Err ChannelClosed
     | Some Closing => Err ChannelClosing
     | o => Ok o
     end, h).
Proof.
  intros Hwf Hc Hs. unfold validate_payment_request.
  rewrite (proj2 (String.eqb_neq _ _) Hc), (proj2 (String.eqb_neq _ _) Hs).
  unfold mbind, M_bind. rewrite ask_state_eq by done.
  by destruct (v_state (hview h c)) as [[]|].
Qed.
Lemma validate_payment_request_empty h c sig :
  c = "" ∨ sig = "" → ∃ m, validate_payment_request c sig h = (Err (InvalidRequest m), h).
Proof.
  unfold validate_payment_request. intros [->| ->]; simpl; [eauto|].
  destruct (c =? "")%string; eauto.
Qed.

(** What a successful validation has checked. *)
Record payment_checks h (c : string) (balance : Z) (signature : string) (ctx : C)
    (r : PaymentValidationResult) : Prop := {
  pc_channel : c ≠ "";
  pc_signature : signature ≠ "";
  pc_open : v_state (hview h c) = Some Open;
  pc_funding : ∃ f capacity, v_funding (hview h c) = Some f ∧
    stored_capacity (params_json f) = Ok capacity ∧
    due h c (Some ctx) <= balance <= capacity ∧ authorized f balance signature ∧
    r = mk_PaymentValidationResult c balance (due h c (Some ctx)) capacity signature;
}.

Lemma validate_payment_spec h c balance signature ctx :
  host_wf h →
  let '(res, h') := validate_payment c balance signature ctx h in
  same h h' ∧ ∀ r, res = Ok r → payment_checks h c balance signature ctx r.
Proof.
  intros Hwf. unfold validate_payment, mbind at 1, M_bind at 1.
  destruct (decide (c = "" ∨ signature = "")) as [Hm|Hm].
  { destruct (validate_payment_request_empty h c signature Hm) as [m ->].
    split; [by apply same_refl|done]. }
  apply Decidable.not_or in Hm as [Hc Hs]. rewrite validate_payment_request_eq by done.
  destruct (v_state (hview h c)) as [[]|] eqn:Hst; try (split; [by apply same_refl|done]).
  destruct (ask_funding_eq (E:=BridgeError) h c Hwf) as (h1 & Hf & Hs1).
  unfold mbind at 1, M_bind at 1. rewrite Hf.
  unfold mbind, M_bind, lift.
  destruct (v_funding (hview h c)) as [f|] eqn:Hfu; cbn [ok_or]; [|split; done].
  destruct (stored_capacity (params_json f)) as [cap|e|] eqn:Hcap; [|split; done..].
  destruct (balance <=? cap) eqn:Hle; [|split; done]. cbn [ensure].
  destruct (verify_signature _ _ _ _ c balance signature) as [[]|e|] eqn:Hv; [|split; done..].
  apply verify_signature_iff in Hv. cbn [map_err]. destruct (ask_amount_due_eq (E:=BridgeError) h1 c (Some ctx)) as (h2 & -> & Hs2);
    [apply Hs1|].
  assert (due h1 c (Some ctx) = due h c (Some ctx)) as -> by apply Hs1.
  assert (same h h2) by (by eapply same_trans).
  destruct (due h c (Some ctx) <=? balance) eqn:Hd; [|split; done]. cbn [ensure fst snd].
  split; [done|]. intros r [= <-]. split; [done..|].
  exists f, cap. split_and!; try done; lia.
Qed.

Lemma validate_payment_complete h c balance signature ctx r :
  host_wf h → payment_checks h c balance signature ctx r →
  (validate_payment c balance signature ctx h).1 = Ok r.
Proof.
  intros Hwf [Hc Hs Hst (f & cap & Hfu & Hcap & [Hd Hle] & Hv & ->)].
  unfold validate_payment, mbind at 1, M_bind at 1. rewrite validate_payment_request_eq, Hst by done.
  destruct (ask_funding_eq (E:=BridgeError) h c Hwf) as (h1 & Hf & Hs1).
  unfold mbind at 1, M_bind at 1. rewrite Hf, Hfu. unfold mbind, M_bind, lift. cbn [ok_or].
  rewrite Hcap, (proj2 (Z.leb_le _ _) Hle). cbn [ensure].
  rewrite (proj2 (verify_signature_iff f c balance signature) Hv). cbn [map_err].
  destruct (ask_amount_due_eq (E:=BridgeError) h1 c (Some ctx)) as (h2 & -> & Hs2); [apply Hs1|].
  assert (due h1 c (Some ctx) = due h c (Some ctx)) as -> by apply Hs1.
  by rewrite (proj2 (Z.leb_le _ _) Hd).
Qed.

(** The checks of a new channel that the recorded data depend on. *)
Lemma validate_new_channel_facts {HJ : JsonLaws} h c params proofs balance signature v :
  validate_new_channel_funding errors_to_json h c params proofs balance signature = Ok v →
  vn_channel_id v = c ∧ vn_balance v = balance ∧ vn_sender_signature v = signature ∧
  stored_capacity (params_json (vn_funding v)) = Ok (vn_capacity v) ∧ balance <= vn_capacity v ∧
  authorized (vn_funding v) balance signature.
Proof.
  unfold validate_new_channel_funding, check_policy, param_u64. intros Hv. result_inv.
  unfold stored_capacity. cbn [vn_channel_id vn_balance vn_sender_signature vn_funding vn_capacity params_json].
  rewrite json_print_inv. cbn.
  match goal with E : idx_u64 params "capacity" = Some ?n |- _ => rewrite E end.
  cbn. split_and!; try done; [lia|].
  match goal with E : verify_signature _ _ _ _ _ _ _ = Ok ?u |- _ => destruct u; by eapply verify_signature_iff end.
Qed.

(** What the receiver can count on at any time: the payment it holds for a channel is one
    the sender signed for that channel's funding and within its capacity, so that it can be
    redeemed; every open channel has one; and it covers everything the channel has used. *)
Record receiver_inv h : Prop := {
  ri_wf : host_wf h;
  ri_authorized c f p :
    v_funding (hview h c) = Some f → v_payment (hview h c) = Some p →
    authorized f (pp_balance p) (pp_signature p) ∧
    ∃ capacity, stored_capacity (params_json f) = Ok capacity ∧ 0 <= pp_balance p <= capacity;
  ri_covered c :
    v_state (hview h c) = Some Open →
    ∃ p, v_payment (hview h c) = Some p ∧ due h c None <= pp_balance p;
  ri_fresh c : v_funding (hview h c) = None → v_usage (hview h c) = None;
}.

Lemma receiver_inv_same h h' : receiver_inv h → same h h' → receiver_inv h'.
Proof.
  intros [Hwf Ha Hc Hf] (Hwf' & Hv & Hd).
  split; [done|..]; intros c; rewrite Hv, ?Hd; [apply Ha|apply Hc|apply Hf].
Qed.

Lemma record_new_inv {HJ : JsonLaws} h c params proofs balance signature v :
  receiver_inv h → v_funding (hview h c) = None → is_i63 balance → signature ≠ "" →
  validate_new_channel_funding errors_to_json h c params proofs balance signature = Ok v →
  let h' := (record_validated_new_channel v h).2 in
  receiver_inv h' ∧ v_usage (hview h' c) = v_usage (hview h c).
Proof.
  intros [Hwf Ha Hc Hfr] Hf Hb Hs Hv h'.
  apply validate_new_channel_facts in Hv as (Hvc & Hvb & Hvs & Hcap & Hle & Hau).
  set (p := mk_PaymentProof balance signature).
  assert (h' = host_save_funding h c (vn_funding v) p) as ->.
  { subst h' p. by rewrite <-Hvc, <-Hvb, <-Hvs. }
  destruct (hs_save_funding h c (vn_funding v) p) as (Hwf' & Hvw & Hframe & Hdf & Hdn); [done..|].
  set (h' := host_save_funding h c (vn_funding v) p) in *.
  split; [|by rewrite Hvw]. split; [done|..].
  - intros d f q. destruct (decide (d = c)) as [->|]; [|rewrite Hframe by done; apply Ha].
    rewrite Hvw. cbn [v_funding v_payment]. intros [= <-] [= <-]. destruct Hb. eauto.
  - intros d. destruct (decide (d = c)) as [->|].
    + intros _. rewrite Hvw. cbn [v_payment]. eexists. split; [done|].
      rewrite Hdn by auto. destruct Hb. done.
    + rewrite Hframe, Hdf by done. apply Hc.
  - intros d. destruct (decide (d = c)) as [->|]; [by rewrite Hvw|].
    rewrite Hframe by done. apply Hfr.
Qed.

Lemma record_payment_inv h c balance signature ctx r :
  receiver_inv h → is_i63 balance → context_ok h c ctx →
  payment_checks h c balance signature ctx r →
  let h' := record_payment h c (mk_PaymentProof balance signature) ctx in
  receiver_inv h' ∧ v_state (hview h' c) = Some Open ∧
  v_funding (hview h' c) = v_funding (hview h c) ∧ due h' c None = due h c (Some ctx) ∧
  ∃ p, v_payment (hview h' c) = Some p ∧ balance <= pp_balance p ∧
       (p = mk_PaymentProof balance signature ∨ v_payment (hview h c) = Some p).
Proof.
  intros [Hwf Ha Hc Hfr] Hb Hctx [Hcn Hsn Hst (f & cap & Hfu & Hcap & Hbal & Hau & _)] h'.
  destruct (hs_record_payment h c (mk_PaymentProof balance signature) ctx)
    as (Hwf' & Hfu' & Hst' & Hp' & Hframe & Hdf & Hdc); [done..|].
  fold h' in Hwf', Hfu', Hst', Hp', Hframe, Hdf, Hdc.
  assert (∃ p, v_payment (hview h' c) = Some p ∧ balance <= pp_balance p ∧
    (p = mk_PaymentProof balance signature ∨ v_payment (hview h c) = Some p)) as (p & Hp & Hple & Hpe).
  { eexists. split; [exact Hp'|]. destruct (v_payment (hview h c)) as [b|];
      cbn [pp_balance]; [destruct (Z.ltb_spec (pp_balance b) balance)|]; cbn [pp_balance];
      split; auto; lia. }
  split; [|eauto 10]. split; [done|..].
  - intros d f' q. destruct (decide (d = c)) as [->|]; [|rewrite Hframe by done; apply Ha].
    rewrite Hfu', Hp, Hfu. intros [= <-] [= <-]. destruct Hpe as [->|Hpe]; [|by eapply Ha].
    split; [done|]. exists cap. split; [done|]. destruct Hb. cbn. lia.
  - intros d. destruct (decide (d = c)) as [->|]; [|rewrite Hframe, Hdf by done; apply Hc].
    intros _. exists p. split; [done|]. rewrite Hdc. lia.
  - intros d. destruct (decide (d = c)) as [->|]; [rewrite Hfu', Hfu; done|].
    rewrite Hframe by done. apply Hfr.
Qed.

(** What a settled payment reports and leaves behind; [h0] is the host before it. *)
Record payment_settled h0 h' (c : string) (balance : Z) (signature : string) (r : PaymentSuccess) : Prop := {
  st_open : v_state (hview h' c) = Some Open;
  st_authorized : ∃ f, v_funding (hview h' c) = Some f ∧ authorized f balance signature ∧
    stored_capacity (params_json f) = Ok (ps_capacity r) ∧
    (∀ f0, v_funding (hview h0 c) = Some f0 → f = f0);
  st_stored : ∃ p, v_payment (hview h' c) = Some p ∧ balance <= pp_balance p;
  st_channel : ps_channel_id r = c;
  st_balance : ps_balance r = balance;
  st_amounts : ps_amount_due r <= balance <= ps_capacity r;
  st_due : due h' c None = ps_amount_due r;
}.

Lemma validate_and_record_spec h c balance signature ctx :
  receiver_inv h → is_i63 balance → context_ok h c ctx →
  let '(res, h') := validate_and_record c balance signature ctx h in
  receiver_inv h' ∧ ∀ r, res = Ok r → payment_settled h h' c balance signature r.
Proof.
  intros Hinv Hb Hctx. unfold validate_and_record, mbind at 1, M_bind at 1.
  pose proof (validate_payment_spec h c balance signature ctx (ri_wf _ Hinv)) as Hval.
  destruct (validate_payment c balance signature ctx h) as [[val|e|] h2]; destruct Hval as [Hsame Hval];
    try (split; [by eapply receiver_inv_same|done]).
  specialize (Hval val eq_refl) as Hpc. destruct Hpc as [Hc Hs Hst (f & cap & Hfu & Hcap & Hbal & Hau & ->)].
  pose proof Hsame as (_ & Hv2 & Hd2).
  unfold mbind, M_bind, modify, lift. cbn [fst snd pv_channel_id pv_balance pv_sender_signature].
  destruct (record_payment_inv h2 c balance signature ctx
    (mk_PaymentValidationResult c balance (due h2 c (Some ctx)) cap signature))
    as (Hinv3 & Hst3 & Hfu3 & Hd3 & p & Hp3 & Hple & _).
  - by eapply receiver_inv_same.
  - done.
  - apply (context_usage h); [|done]. by rewrite Hv2.
  - split; [done..|by rewrite Hv2|]. exists f, cap. by rewrite Hv2, Hd2.
  - split; [done|]. intros r [= <-]. split; try done.
    + rewrite Hfu3, Hv2. exists f. split_and!; try done. congruence.
    + eauto.
    + by rewrite Hd3, Hd2.
Qed.

Lemma register_spec {HJ : JsonLaws} h c balance signature params proofs :
  receiver_inv h → is_i63 balance → signature ≠ "" →
  let '(res, h') :=
    register_if_unknown errors_to_json (v_state (hview h c)) c balance signature params proofs h in
  receiver_inv h' ∧ v_usage (hview h' c) = v_usage (hview h c) ∧
  (∀ f, v_funding (hview h c) = Some f → v_funding (hview h' c) = Some f) ∧
  (∀ d, d ≠ c → hview h' d = hview h d).
Proof.
  intros Hinv Hb Hs. pose proof (ri_wf _ Hinv) as Hwf.
  unfold register_if_unknown. destruct (v_state (hview h c)) as [st|] eqn:Hst; [done|].
  assert (v_funding (hview h c) = None) as Hf by (by apply (vo_known _ (hs_view_ok h c Hwf))).
  destruct params as [pv|]; [|done]. destruct proofs as [prs|]; [|done].
  unfold mbind, M_bind, lift. cbn [ok_or].
  destruct (validate_new_channel_funding _ h c pv prs balance signature) as [v|e|] eqn:Hv; [|done..].
  destruct (record_new_inv h c pv prs balance signature v) as [Hinv1 Hu1]; [done..|].
  unfold record_validated_new_channel, modify in *. cbn [fst snd] in *.
  split; [done|]. split; [done|]. split; [by rewrite Hf|]. intros d Hd.
  apply validate_new_channel_facts in Hv as (-> & -> & -> & _).
  by apply (hs_save_funding h c (vn_funding v) (mk_PaymentProof balance signature)).
Qed.

(** A payment request and what it leaves behind, whatever its outcome. *)
Lemma process_payment_spec {HJ : JsonLaws} h c balance signature params proofs ctx :
  receiver_inv h → is_i63 balance → context_ok h c ctx →
  let '(res, h') := process_payment errors_to_json c balance signature params proofs ctx h in
  receiver_inv h' ∧
  ∀ r, res = Ok r →
    c ≠ "" ∧ signature ≠ "" ∧
    v_state (hview h c) ≠ Some Closing ∧ v_state (hview h c) ≠ Some Closed ∧
    payment_settled h h' c balance signature r.
Proof.
  intros Hinv Hb Hctx. pose proof (ri_wf _ Hinv) as Hwf.
  unfold process_payment, mbind at 1, M_bind at 1.
  destruct (decide (c = "" ∨ signature = "")) as [Hm|Hm].
  { destruct (validate_payment_request_empty h c signature Hm) as [m ->]. done. }
  apply Decidable.not_or in Hm as [Hc Hs]. rewrite validate_payment_request_eq by done.
  pose proof (register_spec h c balance signature params proofs Hinv Hb Hs) as Hreg.
  destruct (v_state (hview h c)) as [[]|]; try done; unfold mbind, M_bind;
    (destruct (register_if_unknown _ _ c balance signature params proofs h) as [[[]|e|] h1];
     destruct Hreg as (Hinv1 & Hu1 & Hfu1 & _); try done;
     pose proof (validate_and_record_spec h1 c balance signature ctx Hinv1 Hb
       (context_usage h h1 c ctx Hu1 Hctx)) as Hval;
     destruct (validate_and_record c balance signature ctx h1) as [res h2];
     destruct Hval as [Hinv2 Hval]; split; [done|]; intros r Hr;
     destruct (Hval r Hr) as [? (f & ? & ? & ? & Hff) ? ? ? ? ?]; split_and!; try done;
     split; try done; exists f; split_and!; try done; intros f0 Hf0; by apply Hff, Hfu1).
Qed.

Lemma validate_existing_same h c balance signature :
  host_wf h → same h (validate_existing_channel_funding c balance signature h).2.
Proof.
  intros Hwf. unfold validate_existing_channel_funding.
  destruct (c =? "")%string; [by apply same_refl|].
  destruct (signature =? "")%string; [by apply same_refl|].
  unfold mbind at 1, M_bind at 1. rewrite ask_state_eq by done.
  destruct (v_state (hview h c)) as [[]|]; try (by apply same_refl).
  destruct (ask_funding_eq (E:=BridgeError) h c Hwf) as (h1 & Hf & Hs1).
  unfold mbind, M_bind, lift. rewrite Hf. cbn [ok_or].
  destruct (v_funding (hview h c)) as [f|]; cbn [ok_or]; [|done].
  destruct (stored_capacity (params_json f)); [|done..].
  by destruct (map_err _ _).
Qed.

Lemma fund_channel_spec {HJ : JsonLaws} h c balance signature params proofs :
  receiver_inv h → is_i63 balance →
  receiver_inv (fund_channel errors_to_json c balance signature params proofs h).2.
Proof.
  intros Hinv Hb. pose proof (ri_wf _ Hinv) as Hwf. unfold fund_channel.
  destruct (String.eqb_spec c ""); [done|].
  destruct (String.eqb_spec signature "") as [|Hs]; [done|].
  unfold mbind at 1, M_bind at 1. rewrite ask_state_eq by done.
  destruct (v_state (hview h c)) as [[]|] eqn:Hst; try done.
  { eapply receiver_inv_same; [done|]. by apply validate_existing_same. }
  assert (v_funding (hview h c) = None) as Hf by (by apply (vo_known _ (hs_view_ok h c Hwf))).
  destruct params as [pv|]; [|done]. destruct proofs as [prs|]; [|done].
  unfold mbind, M_bind, lift. cbn [ok_or].
  destruct (validate_new_channel_funding _ h c pv prs balance signature) as [v|e|] eqn:Hv; [|done..].
  destruct (record_new_inv h c pv prs balance signature v) as [Hinv1 _]; [done..|].
  unfold record_validated_new_channel, modify in *. cbn [fst snd] in *.
  by destruct (stored_capacity _).
Qed.

(** Requests to the bridge, and the host after a sequence of them. *)
Inductive BridgeCall :=
| CallPayment (c : string) (balance : Z) (signature : string) (params : option Value)
    (proofs : option (list Proof)) (ctx : C)
| CallFund (c : string) (balance : Z) (signature : string) (params : option Value)
    (proofs : option (list Proof))
| CallValidate (c : string) (balance : Z) (signature : string) (ctx : C).

Definition serve (h : H) (call : BridgeCall) : H :=
  match call with
  | CallPayment c b g ps prs ctx => (process_payment errors_to_json c b g ps prs ctx h).2
  | CallFund c b g ps prs => (fund_channel errors_to_json c b g ps prs h).2
  | CallValidate c b g ctx => (validate_payment c b g ctx h).2
  end.
(** Balances fit SQLite's integers, and the usage of a request can be counted. *)
Definition call_ok (h : H) (call : BridgeCall) : Prop :=
  match call with
  | CallPayment c b _ _ _ ctx => is_i63 b ∧ context_ok h c ctx
  | CallFund _ b _ _ _ => is_i63 b
  | CallValidate _ _ _ _ => True
  end.
Fixpoint serve_all (h : H) (l : list BridgeCall) : H :=
  match l with [] => h | call :: l => serve_all (serve h call) l end.
Fixpoint calls_ok (h : H) (l : list BridgeCall) : Prop :=
  match l with [] => True | call :: l => call_ok h call ∧ calls_ok (serve h call) l end.

Definition no_channel : ChannelView := mk_ChannelView None None None None None None None.
Lemma receiver_inv_init h : host_wf h → (∀ c, hview h c = no_channel) → receiver_inv h.
Proof. intros Hwf Hv. split; [done|..]; intros c; by rewrite Hv. Qed.

Lemma serve_inv {HJ : JsonLaws} h call : receiver_inv h → call_ok h call → receiver_inv (serve h call).
Proof.
  intros Hinv Hok. destruct call as [c b g ps prs ctx|c b g ps prs|c b g ctx]; cbn [serve call_ok] in *.
  - destruct Hok as [Hb Hctx].
    pose proof (process_payment_spec h c b g ps prs ctx Hinv Hb Hctx) as Hp.
    destruct (process_payment _ _ _ _ _ _ _ h). apply Hp.
  - by apply fund_channel_spec.
  - pose proof (validate_payment_spec h c b g ctx (ri_wf _ Hinv)) as Hv.
    destruct (validate_payment c b g ctx h). eapply receiver_inv_same; [done|]. apply Hv.
Qed.

Lemma serve_all_inv {HJ : JsonLaws} h (l : list BridgeCall) :
  receiver_inv h → calls_ok h l → receiver_inv (serve_all h l).
Proof.
  revert h. induction l as [|call l IH]; intros h Hi Hok; [done|].
  destruct Hok as [Hok Hl]. cbn [serve_all]. apply IH; [|done]. by apply serve_inv.
Qed.

(** What the invariant says of an open channel. *)
Lemma receiver_inv_open h c :
  receiver_inv h → v_state (hview h c) = Some Open →
  ∃ f p capacity,
    v_funding (hview h c) = Some f ∧ v_payment (hview h c) = Some p ∧
    authorized f (pp_balance p) (pp_signature p) ∧
    stored_capacity (params_json f) = Ok capacity ∧
    due h c None <= pp_balance p <= capacity.
Proof.
  intros Hinv Hst. destruct (ri_covered _ Hinv c Hst) as (p & Hp & Hdue).
  destruct (v_funding (hview h c)) as [f|] eqn:Hf.
  - destruct (ri_authorized _ Hinv c f p Hf Hp) as (Ha & cap & Hcap & Hle).
    exists f, p, cap. split_and!; try done; lia.
  - pose proof (vo_known _ (hs_view_ok h c (ri_wf _ Hinv))) as Hk.
    apply Hk in Hf. congruence.
Qed.

(** C2: a receiver that starts with no channels and serves any sequence of funding,
    validation and payment requests, honest or not, is never underpaid: for every open
    channel it holds a payment that the sender signed for this channel's funding, that is
    within the channel's capacity, and that covers everything the channel has used. *)
Theorem receiver_always_covered {HJ : JsonLaws} h (l : list BridgeCall) :
  host_wf h → (∀ c, hview h c = no_channel) → calls_ok h l →
  let h' := serve_all h l in
  ∀ c, v_state (hview h' c) = Some Open →
  ∃ f p capacity,
    v_funding (hview h' c) = Some f ∧ v_payment (hview h' c) = Some p ∧
    authorized f (pp_balance p) (pp_signature p) ∧
    stored_capacity (params_json f) = Ok capacity ∧
    due h' c None <= pp_balance p <= capacity.
Proof.
  intros Hwf Hv Hok h' c. apply receiver_inv_open. apply serve_all_inv; [|done]. by apply receiver_inv_init.
Qed.

(** C14: a payment is accepted only if it was signed by the sender for this channel and
    balance, covers the amount due including the current request, and is within capacity;
    then it, or a higher one, is what the receiver holds, the request has been counted, and
    the channel's funding is the one it had before. *)
Theorem accepted_payment_is_sound {HJ : JsonLaws} h c balance signature params proofs ctx r h' :
  receiver_inv h → is_i63 balance → context_ok h c ctx →
  process_payment errors_to_json c balance signature params proofs ctx h = (Ok r, h') →
  v_state (hview h c) ≠ Some Closing ∧ v_state (hview h c) ≠ Some Closed ∧
  payment_settled h h' c balance signature r.
Proof.
  intros Hinv Hb Hctx Hp. pose proof (process_payment_spec h c balance signature params proofs ctx Hinv Hb Hctx) as Hs.
  rewrite Hp in Hs. destruct Hs as [_ Hs]. destruct (Hs r eq_refl) as (_ & _ & ? & ? & ?). done.
Qed.

(** a channel that is closing or closed takes no payments: the request is refused with
    the matching error and the host is exactly as before. *)
Theorem closing_channel_takes_no_payment h c balance signature params proofs ctx :
  host_wf h → c ≠ "" → signature ≠ "" →
  (v_state (hview h c) = Some Closing →
   process_payment errors_to_json c balance signature params proofs ctx h = (Err ChannelClosing, h)) ∧
  (v_state (hview h c) = Some Closed →
   process_payment errors_to_json c balance signature params proofs ctx h = (Err ChannelClosed, h)).
Proof.
  intros Hwf Hc Hs. unfold process_payment, mbind, M_bind.
  rewrite validate_payment_request_eq by done. split; by intros ->.
Qed.

(** An authorized balance that covers the amount due and is within capacity is accepted. *)
Lemma authorized_payment_accepted h c f capacity balance signature ctx :
  host_wf h → c ≠ "" → signature ≠ "" →
  v_state (hview h c) = Some Open → v_funding (hview h c) = Some f →
  stored_capacity (params_json f) = Ok capacity → authorized f balance signature →
  due h c (Some ctx) <= balance <= capacity →
  ∃ r, (process_payment errors_to_json c balance signature None None ctx h).1 = Ok r ∧
       ps_balance r = balance ∧ ps_amount_due r = due h c (Some ctx).
Proof.
  intros Hwf Hc Hs Hst Hf Hcap Hau Hbal.
  pose proof (validate_payment_complete h c balance signature ctx
    (mk_PaymentValidationResult c balance (due h c (Some ctx)) capacity signature) Hwf) as Hval.
  unfold process_payment, mbind at 1, M_bind at 1. rewrite validate_payment_request_eq, Hst by done.
  unfold mbind, M_bind. cbn [register_if_unknown lift].
  unfold validate_and_record, mbind, M_bind.
  destruct (validate_payment c balance signature ctx h) as [res h1]. cbn [fst] in Hval.
  rewrite Hval by (split; [done..|]; eauto 10). cbn. eauto.
Qed.

(** C19: an honest sender is never turned away: on an open channel, a balance the sender
    signed with [create_signed_balance_update] that covers the amount due and is within
    capacity is accepted. *)
Theorem honest_payment_accepted {HL : SecpLaws} {HB : SchnorrLaws} h c f capacity params proof proofs aux s
    balance update req ctx :
  host_wf h → c ≠ "" → signature_to_string (bu_signature update) ≠ "" →
  v_state (hview h c) = Some Open → v_funding (hview h c) = Some f →
  stored_capacity (params_json f) = Ok capacity →
  load_params (params_json f) (channel_secret_hex f) (keyset_info_json f) = Ok params →
  proofs_from_json (funding_proofs_json f) = Ok (proof :: proofs) → proof_witness proof = None →
  EstablishedChannel_new params (proof :: proofs) = Ok (channel s) →
  public_key (alice_secret s) = sender_pubkey params →
  create_signed_balance_update aux s balance = Ok (update, req) →
  due h c (Some ctx) <= balance <= capacity →
  ∃ r, (process_payment errors_to_json c balance (signature_to_string (bu_signature update))
          None None ctx h).1 = Ok r ∧
       ps_balance r = balance ∧ ps_amount_due r = due h c (Some ctx).
Proof.
  intros Hwf Hc Hs Hst Hf Hcap Hload Hproofs Hw Hch Hpk Hcr Hbal.
  destruct (EstablishedChannel_new_fields _ _ _ Hch) as [Hpar Hfp].
  destruct (created_update_verifies aux s balance update req proof proofs) as [Ham Hver];
    [by rewrite Hpar|done..|].
  set (sig := signature_to_string (bu_signature update)) in *.
  assert (authorized f balance sig) as Hau.
  { apply (verify_signature_iff f c). unfold verify_signature. rewrite Hload. cbn [mbind Result_bind].
    rewrite Hproofs. cbn [mbind Result_bind]. rewrite Hch. cbn [mbind Result_bind].
    unfold sig. rewrite signature_str_inv. cbn [mbind Result_bind]. unfold verify_sender_signature in *.
    cbn [bu_amount bu_signature]. by rewrite Ham in Hver. }
  by eapply authorized_payment_accepted.
Qed.



End theorems.

(** the HTTP status of an error says who is at fault: a 5xx status is given exactly to
    the receiver's own failures, a missing channel is 404, a closing one 409, a closed one
    410, a malformed request 400, and everything the payer can fix by paying differently 402. *)
Theorem error_status_classes (e : BridgeError) :
  ber_reason (BridgeErrorResponse_from e) = BridgeError_to_string e ∧
  ber_status (BridgeErrorResponse_from e) ∈ [400; 402; 404; 409; 410; 500] ∧
  (ber_status (BridgeErrorResponse_from e) = 500 ↔
     (∃ s, e = Internal s) ∨ (∃ s, e = ServerMisconfigured s)) ∧
  (ber_status (BridgeErrorResponse_from e) = 400 ↔ ∃ s, e = InvalidRequest s) ∧
  (ber_status (BridgeErrorResponse_from e) = 404 ↔ e = UnknownChannel) ∧
  (ber_status (BridgeErrorResponse_from e) = 409 ↔ e = ChannelClosing) ∧
  (ber_status (BridgeErrorResponse_from e) = 410 ↔ e = ChannelClosed).
Proof. destruct e; cbn; split_and!; (done || set_solver || naive_solver). Qed.

(** Finding: a unilateral close of a channel without a stored payment is reported as a payment
    problem (402), not as the bad request (400) the conversion has a case for: the case looks
    for the text "no payment proof", the error says "No payment proof". *)
Lemma no_payment_proof_is_402 :
  cpe_status (ClosePreparationError_from (InvalidRequest "No payment proof")) = 402 ∧
  cpe_status (ClosePreparationError_from (InvalidRequest "no payment proof")) = 400.
Proof. by vm_compute. Qed.

(** ** Concrete inputs *)

Module Examples.
#[local] Existing Instance Toy.types.
#[local] Existing Instance Toy.ops.
#[local] Existing Instance Toy.secp_laws.
#[local] Existing Instance Toy.schnorr_laws.
#[local] Existing Instance Toy.json_laws.
Import Channel.Examples.

(** A context is the name of a request; each counts one unit of "requests". *)
Definition usage_of (s : string) : option UsageMap :=
  if String.eqb s "req" then Some {[ "requests" := 1 ]} else None.
#[local] Instance toy_host : SpilmanHost (ConfigurableHost MemoryStorage) string :=
  configurable_host usage_of.
#[local] Instance toy_host_spec : HostSpec (ConfigurableHost MemoryStorage) string :=
  configurable_host_spec usage_of.
Definition show_errors (l : list ChannelVerificationError) : string := "errors".

Definition keys_value : Value := json_obj [("1", json_str (pubkey_to_hex (11 : PublicKey)));
  ("2", json_str (pubkey_to_hex (12 : PublicKey))); ("4", json_str (pubkey_to_hex (14 : PublicKey)));
  ("8", json_str (pubkey_to_hex (18 : PublicKey))); ("16", json_str (pubkey_to_hex (26 : PublicKey)))].
Definition info (unit : string) : string :=
  json_print (json_obj [("keysetId", json_str (id_to_string (keyset_id keyset)));
    ("unit", json_str unit); ("inputFeePpk", json_num 100); ("keys", keys_value)]).
Definition cfg : ConfigurableHostConfig :=
  mk_ConfigurableHostConfig {[ "http://mint" := ["sat"; "msat"] ]} 100 1 StorageMemory
    {[ "sat" := mk_UnitPricingConfig 10 None {[ "requests" := 2 ]};
       "msat" := mk_UnitPricingConfig 10 None {[ "requests" := 2000 ]} ]}.
Definition host (unit : string) : ConfigurableHost MemoryStorage :=
  mk_ConfigurableHost cfg (8 : PublicKey) (Toy.print_countable (8 : Z))
    (mem_set_keyset MemoryStorage_new "http://mint" (keyset_id keyset)
       (mk_KeysetCacheEntry (info unit) true unit)).2 1000 (λ m t, bytes_of_string m).

Definition pv : Value := json_obj (json_entries params).
Definition sign (balance : Z) : string :=
  match create_signed_balance_update [7] sender balance with
  | Ok (u, _) => signature_to_string (bu_signature u)
  | _ => ""
  end.
Definition sig0 : string := Eval vm_compute in sign 0.
Definition cid : string := Eval vm_compute in get_channel_id params.

Example fund_ok :
  (fund_channel show_errors cid 0 sig0 (Some pv) (Some proofs) (host "sat")).1
  = Ok (mk_FundChannelResult cid 20 false).
Proof. vm_compute. reflexivity. Qed.

(** The host after the channel has been funded, and a payment of 10 for one request. *)
Definition funded : ConfigurableHost MemoryStorage :=
  (fund_channel show_errors cid 0 sig0 (Some pv) (Some proofs) (host "sat")).2.
Definition sig10 : string := Eval vm_compute in sign 10.
Definition paid : Result BridgeError PaymentSuccess * ConfigurableHost MemoryStorage :=
  process_payment show_errors cid 10 sig10 None None "req" funded.
Example paid_ok : paid.1 = Ok (mk_PaymentSuccess cid 10 2 20).
Proof. vm_compute. reflexivity. Qed.
Example replayed_for_other_balance :
  (process_payment show_errors cid 11 sig10 None None "req" funded).1
  = Err (InvalidSignature "Invalid signature: Alice did not authorize this balance update").
Proof. vm_compute. reflexivity. Qed.
Example unpaid_request :
  (process_payment show_errors cid 0 sig0 None None "req" funded).1 = Err (InsufficientBalance 0 2).
Proof. vm_compute. reflexivity. Qed.

Lemma host_empty c : hview (host "sat") c = no_channel.
Proof. done. Qed.
Lemma host_wf0 : host_wf (host "sat").
Proof.
  assert (st_wf MemoryStorage_new) as Hwf by exact mem_new_wf.
  destruct (set_keyset_spec MemoryStorage_new "http://mint" (keyset_id keyset)
    (mk_KeysetCacheEntry (T:=Toy.types) (info "sat") true "sat") Hwf) as (_ & Hs & _). exact Hs.
Qed.
Lemma funded_inv : receiver_inv funded.
Proof.
  unfold funded.
  apply (fund_channel_spec show_errors (host "sat") cid 0 sig0 (Some pv) (Some proofs)); [|unfold is_i63; lia]. apply receiver_inv_init; [exact host_wf0|exact host_empty].
Qed.
Lemma usage_ok h c ctx :
  v_usage (hview h c) = None → context_ok (HostSpec:=toy_host_spec) h c ctx.
Proof.
  intros Hu. cbn. unfold ch_context_ok, usage_of. destruct (ctx =? "req")%string; [|done].
  cbn [in_domain]. intros k d Hk.
  change (v_usage (view (storage h) c) = None) in Hu. rewrite Hu. cbn. rewrite lookup_empty.
  apply lookup_singleton_Some in Hk as [_ <-]. done.
Qed.
Lemma funded_context_ok : context_ok (HostSpec:=toy_host_spec) funded cid "req".
Proof. apply usage_ok. vm_compute. reflexivity. Qed.

Definition calls : list (BridgeCall (C:=string)) :=
  [CallFund cid 0 sig0 (Some pv) (Some proofs); CallPayment cid 10 sig10 None None "req"].
Lemma receiver_always_covered_witness :
  let h' := serve_all show_errors (host "sat") calls in
  ∃ f p capacity, v_funding (hview h' cid) = Some f ∧ v_payment (hview h' cid) = Some p ∧
    authorized f (pp_balance p) (pp_signature p) ∧
    stored_capacity (params_json f) = Ok capacity ∧
    due h' cid None <= pp_balance p <= capacity.
Proof.
  refine (receiver_always_covered show_errors (host "sat") calls host_wf0 host_empty _ cid _).
  - split; [unfold call_ok, is_i63; lia|]. split; [|exact I].
    split; [unfold is_i63; lia|]. exact funded_context_ok.
  - vm_compute. reflexivity.
Defined.

Lemma accepted_payment_is_sound_witness :
  payment_settled funded paid.2 cid 10 sig10 (mk_PaymentSuccess cid 10 2 20).
Proof.
  apply (accepted_payment_is_sound show_errors funded cid 10 sig10 None None "req").
  - exact funded_inv.
  - unfold is_i63. lia.
  - exact funded_context_ok.
  - rewrite <-paid_ok. apply surjective_pairing.
Defined.

Definition closing_host : ConfigurableHost MemoryStorage :=
  mk_ConfigurableHost cfg (8 : PublicKey) "" (run MemoryStorage_new
    [("c", SaveFunding StorageMemory.Examples.fund); ("c", MarkClosing StorageMemory.Examples.closing3)]) 1000 (λ _ _, []).
Lemma closing_channel_takes_no_payment_witness :
  process_payment show_errors "c" 10 "sig" None None "req" closing_host = (Err ChannelClosing, closing_host).
Proof.
  apply closing_channel_takes_no_payment.
  - apply (run_wf MemoryStorage_new [("c", SaveFunding StorageMemory.Examples.fund);
      ("c", MarkClosing StorageMemory.Examples.closing3)]); [exact mem_new_wf|].
    StorageMemory.Examples.in_domain_tac.
  - discriminate.
  - discriminate.
  - vm_compute. reflexivity.
Defined.

Definition update10 : BalanceUpdateMessage * SwapRequest :=
  Deterministic.Examples.get_ok (mk_BalanceUpdateMessage "" 0 (""%string : Signature), SwapRequest_new [] [])
    (create_signed_balance_update [7] sender 10).
Definition stored : ChannelFunding :=
  default (mk_ChannelFunding "" "" "" "") (v_funding (hview funded cid)).
Definition proof0 : Proof := hd (mk_Proof (T:=Toy.types) 0 "" "" 0 None None None) proofs.
Lemma Some_default {A} (d : A) (o : option A) :
  match o with Some _ => true | None => false end = true → o = Some (default d o).
Proof. by destruct o. Qed.
Lemma honest_payment_accepted_witness :
  ∃ r, (process_payment show_errors cid 10 (signature_to_string (bu_signature update10.1)) None None
          "req" funded).1 = Ok r ∧ ps_balance r = 10 ∧ ps_amount_due r = due funded cid (Some "req").
Proof.
  refine (honest_payment_accepted show_errors funded cid stored 20 params proof0 (tl proofs) [7] sender 10
    update10.1 update10.2 "req" (ri_wf _ funded_inv) _ _ _ _ _ _ _ _ _ _ _ _).
  4: apply Some_default; vm_compute; reflexivity.
  all: try (vm_compute; (reflexivity || discriminate)).
  split; vm_compute; discriminate.
Defined.


(** Seven requests counted and one pending, at 2 per request and a scale of 3. *)
Definition due_storage : list (string * Command) :=
  [("c", SaveFunding (mk_ChannelFunding (json_print (json_obj [("unit", json_str "sat")])) "" "" ""));
   ("c", IncrementUsage {[ "requests" := 7 ]})].
Definition due_host : ConfigurableHost MemoryStorage :=
  mk_ConfigurableHost (mk_ConfigurableHostConfig ∅ 100 3 StorageMemory
      {[ "sat" := mk_UnitPricingConfig 10 None {[ "requests" := 2 ]} ]})
    (8 : PublicKey) "" (run MemoryStorage_new due_storage) 1000 (λ _ _, []).
Lemma amount_due_formula_witness :
  (compute_amount_due usage_of due_host "c" (Some "req")).1 <= 6 ↔ 16 <= 6 * 3.
Proof.
  refine (amount_due_formula usage_of due_host "c" (Some "req")
    (mk_UnitPricingConfig 10 None {[ "requests" := 2 ]})
    (mk_ChannelFunding (json_print (json_obj [("unit", json_str "sat")])) "" "" "") _ _ _ _ _ 6).
  - apply (run_wf MemoryStorage_new due_storage); [exact mem_new_wf|].
    StorageMemory.Examples.in_domain_tac.
  - vm_compute. reflexivity.
  - vm_compute. reflexivity.
  - apply (bool_decide_unpack _). vm_compute. exact I.
  - apply (bool_decide_unpack _). vm_compute. exact I.
Defined.

(** nothing ties the unit a channel is priced in to the unit of the keyset that funds
    it: at a mint trusted for both, a channel "in sat" over a keyset in msat is accepted,
    with the policy of sat, and its capacity of 20 "sat" is backed by 25 msat. *)
Theorem channel_unit_not_tied_to_keyset :
  ∃ v params,
    validate_new_channel_funding show_errors (host "msat") cid pv proofs 0 sig0 = Ok v ∧
    load_params (params_json (vn_funding v)) (channel_secret_hex (vn_funding v))
      (keyset_info_json (vn_funding v)) = Ok params ∧
    cp_unit params = "sat" ∧ ki_unit (keyset_info params) = "msat" ∧
    capacity params = 20 ∧ sumZ (proof_amount <$> proofs) = 25.
Proof.
  assert (match validate_new_channel_funding show_errors (host "msat") cid pv proofs 0 sig0 with
    | Ok v => match load_params (params_json (vn_funding v)) (channel_secret_hex (vn_funding v))
        (keyset_info_json (vn_funding v)) with
      | Ok p => String.eqb (cp_unit p) "sat" && String.eqb (ki_unit (keyset_info p)) "msat"
                && (capacity p =? 20)
      | _ => false end
    | _ => false end = true) as Hok by (vm_compute; reflexivity).
  destruct (validate_new_channel_funding _ _ _ _ _ _ _) as [v| |]; [|discriminate Hok..].
  destruct (load_params _ _ _) as [p| |] eqn:Hp; [|discriminate Hok..].
  rewrite !andb_true_iff, !String.eqb_eq, Z.eqb_eq in Hok. destruct Hok as [[? ?] ?].
  exists v, p. by rewrite Hp.
Qed.
End Examples.
