(* ===== verification/Close.v ===== *)
(** * Closing a channel: the receiver's side ([bridge.rs])

    A close spends the funding proofs in one swap at the mint. The bridge prepares the swap
    from a payment the sender signed (the stored one, or the one of a cooperative close),
    marks the channel [Closing], submits the swap, opens the mint's answer, and marks the
    channel [Closed] with both parties' proofs. This file models every step; the theorems
    are in [CloseProofs.v]. *)

From S2P Require Import Prelude Cashu Toy Amounts Params SwapCompletion Deterministic Channel Mint Storage StorageSpec Host Bridge.

(** ** Data *)

Record CloseData {T : CashuTypes} := mk_CloseData {
  cl_swap_request : SwapRequest;
  cl_sig_all_message_hash : string;
  cl_blinded_receiver_pubkey : string;
  cl_expected_total : Z;
  cl_secrets_with_blinding : list (DeterministicSecretWithBlinding * bool);
  cl_output_keyset_info : KeysetInfo;
}.
Arguments mk_CloseData {T}.
Record ProofWithMeta {T : CashuTypes} := mk_ProofWithMeta {
  pwm_proof : Proof;
  pwm_amount : Z;
  pwm_index : Z;
  pwm_is_receiver : bool;
}.
Arguments mk_ProofWithMeta {T}.
Record UnblindResult {T : CashuTypes} := mk_UnblindResult {
  ur_receiver_proofs : list ProofWithMeta;
  ur_sender_proofs : list ProofWithMeta;
  ur_receiver_sum : Z;
  ur_sender_sum : Z;
}.
Arguments mk_UnblindResult {T}.
Record PreparedClose {T : CashuTypes} := mk_PreparedClose {
  pc_channel_id : string;
  pc_balance : Z;
  pc_mint_url : string;
  pc_swap_request : Value;
  pc_sig_all_message_hash : string;
  pc_blinded_receiver_pubkey : string;
  pc_secrets_with_blinding : Value;
  pc_output_keyset_info : Value;
  pc_params_json : string;
  pc_keyset_info_json : string;
  pc_channel_secret : string;
}.
Arguments mk_PreparedClose {T}.
Record PreparedCloseTransition {T : CashuTypes} := mk_PreparedCloseTransition {
  pt_prepared_close : PreparedClose;
  pt_expiry_timestamp : Z;
  pt_payment : PaymentProof;
}.
Arguments mk_PreparedCloseTransition {T}.
Record CompletedClose := mk_CompletedClose {
  cc_channel_id : string;
  cc_expiry_timestamp : Z;
  cc_balance : Z;
  cc_receiver_proofs_json : string;
  cc_sender_proofs_json : string;
  cc_receiver_sum : Z;
  cc_sender_sum : Z;
}.
Record CloseSuccess := mk_CloseSuccess {
  cs_channel_id : string;
  cs_total_value : Z;
  cs_receiver_sum : Z;
  cs_sender_sum : Z;
  cs_sender_proofs : string;
  cs_already_closed : bool;
}.

Inductive CloseError {T : CashuTypes} :=
| CloseValidationFailed (reason : string) (status : Z) (expected_balance actual_balance : option Z)
| CloseUnknownChannel (status : Z)
| AlreadyClosed (closed_balance requested_balance status : Z)
| MintRejected (mint_error : Value) (status : Z)
| MintRejectedAfterRetry (original_error retry_error : Value) (status : Z)
| MintRequestFailed (mint_error : MintRequestError) (original_error : option MintRequestError) (status : Z)
| UnblindFailed (reason : string) (status : Z)
| StorageFailed (reason : string) (status : Z).

Section errors.
Context {T : CashuTypes} {O : CashuOps}.

Definition status_code (e : CloseError) : Z :=
  match e with
  | CloseValidationFailed _ status _ _ | CloseUnknownChannel status | AlreadyClosed _ _ status
  | MintRejected _ status | MintRejectedAfterRetry _ _ status | MintRequestFailed _ _ status
  | UnblindFailed _ status | StorageFailed _ status => status
  end.
Definition from_preparation_error (err : ClosePreparationError) : CloseError :=
  let '(expected_balance, actual_balance) :=
    match cpe_extra err with
    | Some extra => (alist_get extra "expected", alist_get extra "actual")
    | None => (None, None)
    end in
  CloseValidationFailed (cpe_reason err) (cpe_status err) expected_balance actual_balance.
Definition unknown_channel : CloseError := CloseUnknownChannel 404.
Definition mint_rejected (mint_error : Value) : CloseError := MintRejected mint_error 502.
Definition mint_rejected_after_retry (original_error retry_error : Value) : CloseError :=
  MintRejectedAfterRetry original_error retry_error 502.
Definition unblind_failed (reason : string) : CloseError := UnblindFailed reason 500.
Definition storage_failed (reason : string) : CloseError := StorageFailed reason 500.
Definition not_closing : CloseError := CloseValidationFailed "Not closing" 400 None None.

(** The derived wire forms of a rejection and of a failed request. *)
Definition rejection_value (r : MintRejection) : Value :=
  json_obj [("status", json_num (rej_status r)); ("code", json_num (rej_code r));
            ("detail", json_str (rej_detail r))].
Definition request_error_value (e : MintRequestError) : Value :=
  match e with
  | Rejected r => json_obj [("type", json_str "rejected"); ("rejection", rejection_value r)]
  | Http r => json_obj [("type", json_str "http");
      ("response", json_obj [("status", json_num (mr_status r)); ("body", json_str (mr_body r))])]
  | Transport m => json_obj [("type", json_str "transport"); ("message", json_str m)]
  end.
Definition parse_mint_error_value (error : MintRequestError) : Value :=
  match rejection error with
  | Some r => rejection_value r
  | None => request_error_value error
  end.
Definition should_retry_swap_error (error : MintRequestError) : bool := permits_keyset_retry error.

(** [Display]. *)
Definition CloseError_to_string (e : CloseError) : string :=
  match e with
  | MintRequestFailed mint_error _ _ =>
      "mint request failed: " +:+ MintRequestError_to_string mint_error
  | CloseValidationFailed reason _ _ _ => "validation failed: " +:+ reason
  | CloseUnknownChannel _ => "unknown channel"
  | AlreadyClosed closed_balance requested_balance _ =>
      "channel already closed with balance " +:+ pretty closed_balance +:+ " (requested "
      +:+ pretty requested_balance +:+ ")"
  | MintRejected mint_error _ => "mint rejected swap: " +:+ json_print mint_error
  | MintRejectedAfterRetry original_error retry_error _ =>
      "mint rejected swap after retry: original=" +:+ json_print original_error +:+ ", retry="
      +:+ json_print retry_error
  | UnblindFailed reason _ => "unblind failed: " +:+ reason
  | StorageFailed reason _ => "storage failed: " +:+ reason
  end.
End errors.

(** ** Wire forms *)

Section wire.
Context {T : CashuTypes} {O : CashuOps}.

Definition or_null (r : Result string Value) : Value := match r with Ok v => v | _ => json_null end.

Definition swb_value (item : DeterministicSecretWithBlinding * bool) : Value :=
  let '(s, is_receiver) := item in
  json_obj [("secret", json_str (ds_secret s));
            ("blinding_factor", json_str (hex_encode (secret_bytes (ds_blinding_factor s))));
            ("amount", json_num (ds_amount s));
            ("index", json_num (ds_index s));
            ("is_receiver", json_bool is_receiver)].

(** [CloseData::to_json_value]. *)
Definition to_json_value (d : CloseData) : Value :=
  json_obj [("success", json_bool true);
            ("swap_request", or_null (swap_request_to_value (cl_swap_request d)));
            ("sig_all_message_hash", json_str (cl_sig_all_message_hash d));
            ("blinded_receiver_pubkey", json_str (cl_blinded_receiver_pubkey d));
            ("expected_total", json_num (cl_expected_total d));
            ("secrets_with_blinding", json_arr (swb_value <$> cl_secrets_with_blinding d));
            ("output_keyset_info", KeysetInfo_to_value (cl_output_keyset_info d))].

(** Wraps a [CloseData] and the funding into a [PreparedClose]. *)
Definition wrap_close_data (close_data : CloseData) (channel_id : string) (balance : Z)
    (funding : ChannelFunding) : Result ClosePreparationError PreparedClose :=
  params ← map_err internal (json_parse (params_json funding));
  mint_url ← ok_or (internal "Missing mint") (idx_str params "mint");
  Ok (mk_PreparedClose channel_id balance mint_url
        (or_null (swap_request_to_value (cl_swap_request close_data)))
        (cl_sig_all_message_hash close_data) (cl_blinded_receiver_pubkey close_data)
        (json_arr (swb_value <$> cl_secrets_with_blinding close_data))
        (KeysetInfo_to_value (cl_output_keyset_info close_data))
        (params_json funding) (keyset_info_json funding) (channel_secret_hex funding)).

Definition close_expiry_timestamp (prep : PreparedClose) : Z :=
  match json_parse (pc_params_json prep) with
  | Ok v => default 0 (idx_u64 v "expiry_timestamp")
  | _ => 0
  end.

(** One entry of [secrets_with_blinding] read back. *)
Definition parse_swb (swb : Value) : Result CloseError (DeterministicSecretWithBlinding * bool) :=
  secret ← ok_or (unblind_failed "Missing secret") (idx_str swb "secret");
  blinding_hex ← ok_or (unblind_failed "Missing blinding") (idx_str swb "blinding_factor");
  blinding_bytes ← map_err unblind_failed (hex_decode blinding_hex);
  blinding_factor ← map_err unblind_failed (secret_from_slice blinding_bytes);
  amount ← ok_or (unblind_failed "Missing amount") (idx_u64 swb "amount");
  index ← ok_or (unblind_failed "Missing index") (idx_u64 swb "index");
  is_receiver ← ok_or (unblind_failed "Missing is_receiver") (idx_bool swb "is_receiver");
  Ok (mk_DeterministicSecretWithBlinding secret blinding_factor amount index, is_receiver).
End wire.

(** ** Opening the mint's answer *)

Section unblind.
Context {T : CashuTypes} {O : CashuOps}.

(** What the mint was asked to sign for one secret. *)
Definition expected_output (id : Id) (item : DeterministicSecretWithBlinding * bool) :
    Result BridgeError PreparedSwapOutput :=
  let '(swb, _) := item in
  blinded_secret ← map_err Internal (blind_message (bytes_of_string (ds_secret swb)) (ds_blinding_factor swb));
  Ok (mk_PreparedSwapOutput (BlindedMessage_new (ds_amount swb) id blinded_secret)
        (ds_secret swb) (ds_blinding_factor swb)).

(** [secret_json.get(0)] and [secret_json.get(1).get("data")] as texts. *)
Definition secret_kind (v : Value) : option string :=
  json_as_array v ≫= λ l, l !! 0%nat ≫= json_as_str.
Definition secret_data (v : Value) : option string :=
  json_as_array v ≫= λ l, l !! 1%nat ≫= λ o, json_get o "data" ≫= json_as_str.

(** One turn of the loop that hands the proofs to their owners. *)
Definition unblind_one (params : ChannelParameters) (acc : UnblindResult)
    (item : Proof * (DeterministicSecretWithBlinding * bool)) : Result BridgeError UnblindResult :=
  let '(proof, (swb, is_receiver)) := item in
  let amount := ds_amount swb in let index := ds_index swb in
  let role := if is_receiver : bool then RoleReceiver else RoleSender in
  proof ← map_err Internal (attach_stage2_p2pk_e params proof role amount index);
  if is_receiver then
    expected_pubkey ← map_err Internal (get_receiver_blinded_pubkey_for_stage2_output params amount index);
    secret_json ← map_err Internal (json_parse (proof_secret proof));
    if bool_decide (secret_kind secret_json ≠ Some "P2PK")
       || bool_decide (secret_data secret_json ≠ Some (pubkey_to_hex expected_pubkey))
    then Err (ValidationFailed "Receiver proof locked to wrong pubkey")
    else Ok (mk_UnblindResult (ur_receiver_proofs acc ++ [mk_ProofWithMeta proof amount index true])
               (ur_sender_proofs acc) (wrap64 (ur_receiver_sum acc + proof_amount proof))
               (ur_sender_sum acc))
  else Ok (mk_UnblindResult (ur_receiver_proofs acc)
             (ur_sender_proofs acc ++ [mk_ProofWithMeta proof amount index false])
             (ur_receiver_sum acc) (wrap64 (ur_sender_sum acc + proof_amount proof))).

Definition unblind_and_verify_stage1_swap_response (response : SwapResponse)
    (secrets_with_blinding : list (DeterministicSecretWithBlinding * bool))
    (params : ChannelParameters) (output_keyset_info : KeysetInfo) (balance : Z) :
    Result BridgeError UnblindResult :=
  _ ← ensure (bool_decide (length (resp_signatures response) = length secrets_with_blinding))
        (Internal "Length mismatch between signatures and secrets");
  expected ← try_map (expected_output (keyset_id output_keyset_info)) secrets_with_blinding;
  let request := SwapRequest_new [] (ps_blinded_message <$> expected) in
  let request := match commitment_mode params with
                 | Ordinary => request | Rerandomized => with_rerandomization request end in
  proofs ← map_err ValidationFailed
    (complete_swap_response request expected response output_keyset_info);
  r ← try_fold (unblind_one params) (mk_UnblindResult [] [] 0 0) (zip proofs secrets_with_blinding);
  inverse ← map_err Internal (inverse_deterministic_value_after_fees (keyset_info params) balance
                                (maximum_amount_for_one_output params));
  let expected_nominal := nominal_value inverse in
  _ ← ensure (ur_receiver_sum r =? expected_nominal)
        (ValidationFailed ("Receiver nominal mismatch: expected " +:+ pretty expected_nominal
                           +:+ ", got " +:+ pretty (ur_receiver_sum r)));
  Ok r.
Definition unblind_and_verify_stage1_response (blind_signatures : list BlindSignature)
    (secrets_with_blinding : list (DeterministicSecretWithBlinding * bool))
    (params : ChannelParameters) (output_keyset_info : KeysetInfo) (balance : Z) :
    Result BridgeError UnblindResult :=
  unblind_and_verify_stage1_swap_response (mk_SwapResponse blind_signatures None)
    secrets_with_blinding params output_keyset_info balance.
End unblind.

(** ** Preparing a close *)

Section prepare.
Context {T : CashuTypes} {O : CashuOps} {H C : Type} `{!SpilmanHost H C}.
Context (payment_from_json : string → Result string Payment).

Definition sig_all_message_hash_hex (swap : SwapRequest) : string :=
  hex_encode (sig_all_message_hash swap).

(** The balance of a cooperative close has to be the amount due. *)
Definition check_due (channel_id : string) (balance : Z) : M H BridgeError unit :=
  due ← ask_amount_due channel_id None;
  if negb (balance =? due) then
    expected ← ask_amount_due channel_id None;
    lift (Err (BalanceMismatch expected balance))
  else lift (Ok tt).

(** The swap of a close: the sender's signature is checked, the receiver's is added. *)
Definition build_close_data (h : H) (params : ChannelParameters) (proofs : list Proof)
    (channel_id : string) (balance : Z) (signature : string) (out_keyset : KeysetInfo) :
    Result BridgeError CloseData :=
  sig ← map_err InvalidSignature (signature_from_str signature);
  commitment ← map_err Internal (for_balance balance params);
  swap ← map_err Internal (create_swap_request commitment proofs (Some (keyset_id out_keyset)));
  swap ← map_err Internal (attach_signature_to_first_input swap (signature_to_string sig));
  channel ← map_err Internal (EstablishedChannel_new params proofs);
  _ ← map_err InvalidSignature
    (verify_sender_signature (mk_BalanceUpdateMessage channel_id balance sig) channel);
  tweak_scalar ← map_err Internal (derive_receiver_blinding_scalar_for_stage1 params);
  let tweak := hex_encode (scalar_to_be_bytes tweak_scalar) in
  let sig_all_message_hash := sig_all_message_hash_hex swap in
  blinded_receiver ← map_err Internal (get_receiver_blinded_pubkey_for_stage1 params);
  let blinded_receiver_pubkey := pubkey_to_hex blinded_receiver in
  server_sig ← map_err ServerMisconfigured
    (sign_with_tweaked_key h (pubkey_to_hex (receiver_pubkey params)) sig_all_message_hash tweak);
  swap ← map_err Internal (attach_signature_to_first_input swap server_sig);
  expected_total ← map_err Internal (get_value_after_stage1_with_keyset params out_keyset);
  receiver ← map_err Internal (get_secrets_with_blinding (receiver_outputs commitment));
  sender ← map_err Internal (get_secrets_with_blinding (sender_outputs commitment));
  Ok (mk_CloseData swap sig_all_message_hash blinded_receiver_pubkey expected_total
        (all_outputs receiver sender) out_keyset).

Definition prepare_close_data_impl (channel_id : string) (balance : Z) (signature : string)
    (funding : ChannelFunding) (out_keyset : KeysetInfo) (validate_due : bool) :
    M H BridgeError CloseData :=
  params ← lift (map_err Internal
    (load_params (params_json funding) (channel_secret_hex funding) (keyset_info_json funding)));
  proofs ← lift (map_err Internal (proofs_from_json (funding_proofs_json funding)));
  _ ← lift (ensure (balance <=? capacity params) (BalanceExceedsCapacity balance (capacity params)));
  _ ← (if validate_due then check_due channel_id balance else lift (Ok tt));
  asks (λ h, build_close_data h params proofs channel_id balance signature out_keyset).

(** The first active, unexpired keyset of the channel's mint and unit. *)
Definition usable_keyset (h : H) (params : ChannelParameters) (id : Id) : option KeysetInfo :=
  json ← get_keyset_info h (mint params) id;
  info ← (match parse_keyset_info_from_json json with Ok info => Some info | _ => None end);
  if bool_decide (keyset_id info = id) && bool_decide (ki_unit info = cp_unit params)
     && is_unexpired_at info (now_seconds h)
  then Some info else None.
Definition select_close_output_keyset_from_funding (funding : ChannelFunding) :
    M H BridgeError KeysetInfo :=
  params ← lift (map_err Internal
    (load_params (params_json funding) (channel_secret_hex funding) (keyset_info_json funding)));
  asks (λ h, ok_or (Internal "No usable active close keysets")
          (head (omap (usable_keyset h params)
                   (host_get_active_keyset_ids h (mint params) (cp_unit params))))).

Definition prepare_close_data (channel_id : string) (balance : Z) (signature : string)
    (validate_due : bool) : M H BridgeError CloseData :=
  state ← ask_state channel_id;
  match state with
  | Some Closed => lift (Err ChannelClosed)
  | None => lift (Err UnknownChannel)
  | Some _ =>
      f ← ask_funding channel_id;
      funding ← lift (ok_or UnknownChannel f);
      out_keyset ← select_close_output_keyset_from_funding funding;
      prepare_close_data_impl channel_id balance signature funding out_keyset validate_due
  end.

Definition funding_or_internal (channel_id : string) : M H ClosePreparationError ChannelFunding :=
  f ← ask_funding channel_id;
  lift (ok_or (internal "Missing funding") f).

Definition close_mint_unit_for_channel (channel_id : string) :
    M H ClosePreparationError (string * CurrencyUnit) :=
  funding ← funding_or_internal channel_id;
  params ← lift (map_err internal
    (load_params (params_json funding) (channel_secret_hex funding) (keyset_info_json funding)));
  lift (Ok (mint params, cp_unit params)).

Definition select_close_output_keyset_for_channel (channel_id : string) :
    M H ClosePreparationError SelectedOutputKeyset :=
  funding ← funding_or_internal channel_id;
  keyset ← mmap_err ClosePreparationError_from (select_close_output_keyset_from_funding funding);
  lift (Ok (mk_SelectedOutputKeyset (id_to_string (keyset_id keyset))
              (json_print (KeysetInfo_to_value keyset)))).
Definition selected_output_keyset_info (selected : SelectedOutputKeyset) :
    Result ClosePreparationError KeysetInfo :=
  map_err internal (parse_keyset_info_from_json (sok_info_json selected)).

Definition validate_and_prepare_cooperative_close (json : string) : M H BridgeError CloseData :=
  p ← lift (map_err InvalidRequest (payment_from_json json));
  if String.eqb (pay_channel_id p) "" then lift (Err (InvalidRequest "missing channel_id"))
  else if String.eqb (pay_signature p) "" then lift (Err (InvalidRequest "missing signature"))
  else prepare_close_data (pay_channel_id p) (pay_balance p) (pay_signature p) true.
Definition create_unilateral_close_data (channel_id : string) : M H BridgeError CloseData :=
  f ← ask_funding channel_id;
  match f with
  | None => lift (Err UnknownChannel)
  | Some _ =>
      p ← asks (λ h, ok_or (InvalidRequest "No payment proof")
                   (get_balance_and_signature_for_unilateral_exit h channel_id));
      prepare_close_data channel_id (pp_balance p) (pp_signature p) false
  end.

Definition prepare_cooperative_close_for_execution (json : string) :
    M H ClosePreparationError PreparedClose :=
  p ← lift (map_err bad_request (json_parse json));
  channel_id ← lift (ok_or (bad_request "Missing ID") (idx_str p "channel_id"));
  close_data ← mmap_err ClosePreparationError_from (validate_and_prepare_cooperative_close json);
  let balance := default 0 (idx_u64 p "balance") in
  funding ← funding_or_internal channel_id;
  lift (wrap_close_data close_data channel_id balance funding).
Definition stored_payment (e : ClosePreparationError) (channel_id : string) :
    M H ClosePreparationError PaymentProof :=
  asks (λ h, ok_or e (get_balance_and_signature_for_unilateral_exit h channel_id)).
Definition prepare_unilateral_close_for_execution (channel_id : string) :
    M H ClosePreparationError PreparedClose :=
  close_data ← mmap_err ClosePreparationError_from (create_unilateral_close_data channel_id);
  funding ← funding_or_internal channel_id;
  p ← stored_payment (internal "Missing payment") channel_id;
  lift (wrap_close_data close_data channel_id (pp_balance p) funding).
Definition prepare_cooperative_close_transition (json : string) :
    M H ClosePreparationError PreparedCloseTransition :=
  prepared_close ← prepare_cooperative_close_for_execution json;
  let expiry_timestamp := close_expiry_timestamp prepared_close in
  let sig := match json_parse json with Ok v => default "" (idx_str v "signature") | _ => "" end in
  lift (Ok (mk_PreparedCloseTransition prepared_close expiry_timestamp
              (mk_PaymentProof (pc_balance prepared_close) sig))).
Definition prepare_unilateral_close_transition (channel_id : string) :
    M H ClosePreparationError PreparedCloseTransition :=
  prepared_close ← prepare_unilateral_close_for_execution channel_id;
  let expiry_timestamp := close_expiry_timestamp prepared_close in
  payment ← stored_payment (bad_request "No payment") channel_id;
  lift (Ok (mk_PreparedCloseTransition prepared_close expiry_timestamp payment)).

Definition prepare_close_for_closing_channel_with_keyset (channel_id : string) (balance : Z)
    (signature : string) (selected : SelectedOutputKeyset) : M H ClosePreparationError PreparedClose :=
  funding ← funding_or_internal channel_id;
  out_keyset ← lift (selected_output_keyset_info selected);
  close_data ← mmap_err ClosePreparationError_from
    (prepare_close_data_impl channel_id balance signature funding out_keyset false);
  funding ← funding_or_internal channel_id;
  lift (wrap_close_data close_data channel_id balance funding).
Definition prepare_close_for_closing_channel_with_output_keyset (channel_id : string)
    (selected : SelectedOutputKeyset) : M H ClosePreparationError PreparedClose :=
  state ← asks (λ h, map_err internal (get_channel_state h channel_id));
  if bool_decide (state ≠ Some Closing) then lift (Err (bad_request "Not closing"))
  else
    cd ← asks (λ h, ok_or (internal "Missing closing data") (host_get_closing_data h channel_id));
    prepare_close_for_closing_channel_with_keyset channel_id (cd_balance cd) (cd_signature cd) selected.

Definition mark_prepared_close_closing (transition : PreparedCloseTransition) : M H CloseError unit :=
  λ h, let '(r, h') := mark_channel_closing h (pc_channel_id (pt_prepared_close transition))
                         (pt_expiry_timestamp transition) (pt_payment transition) in
       (map_err storage_failed r, h').
End prepare.

(** ** Completing a close *)

Section complete.
Context {T : CashuTypes} {O : CashuOps} {H C : Type} `{!SpilmanHost H C}.

Definition sign_receiver_close_proof (h : H) (params : ChannelParameters) (proof_meta : ProofWithMeta) :
    Result CloseError Proof :=
  proof ← map_err (λ e, unblind_failed ("Failed to attach stage2 metadata: " +:+ e))
    (attach_stage2_p2pk_e params (pwm_proof proof_meta) RoleReceiver (pwm_amount proof_meta)
       (pwm_index proof_meta));
  tweak_info ← map_err (λ e, unblind_failed ("Failed to derive stage2 tweak: " +:+ e))
    (stage2_tweak_info_for_role params RoleReceiver (pwm_amount proof_meta) (pwm_index proof_meta));
  let tweak_hex := hex_encode (scalar_to_be_bytes (stage2_tweak_scalar tweak_info)) in
  let msg_hex := hex_encode (sha256 (bytes_of_string (proof_secret proof))) in
  sig ← map_err (λ e, unblind_failed ("Failed to sign receiver proof: " +:+ e))
    (sign_with_tweaked_key h (pubkey_to_hex (receiver_pubkey params)) msg_hex tweak_hex);
  Ok (set_witness proof (Some (P2PKWitness [sig]))).

(** The request's outputs are the ones the secrets open. *)
Definition check_output (id : Id) (item : BlindedMessage * (DeterministicSecretWithBlinding * bool)) :
    Result CloseError unit :=
  let '(output, (secret, _)) := item in
  blinded_secret ← map_err (λ _, unblind_failed "Invalid prepared close output")
    (blind_message (bytes_of_string (ds_secret secret)) (ds_blinding_factor secret));
  ensure (bool_decide (output = BlindedMessage_new (ds_amount secret) id blinded_secret))
    (unblind_failed "Prepared close outputs do not match secrets").

(** The preparation read back and checked against the commitment it belongs to. (The text of
    the error for a value that is not an array is serde's.) *)
Record OpenedClose := mk_OpenedClose {
  oc_close_params : ChannelParameters;
  oc_output_keyset : KeysetInfo;
  oc_secrets : list (DeterministicSecretWithBlinding * bool);
}.
Definition open_prepared_close (prep : PreparedClose) : Result CloseError OpenedClose :=
  keyset_info ← map_err unblind_failed (parse_keyset_info_from_json (pc_keyset_info_json prep));
  output_keyset_info ← map_err unblind_failed
    (parse_keyset_info_from_json (json_print (pc_output_keyset_info prep)));
  channel_secret_bytes ← map_err unblind_failed (hex_decode (pc_channel_secret prep));
  _ ← ensure (bool_decide (length channel_secret_bytes = 32%nat))
        (unblind_failed "Invalid channel secret length");
  params ← map_err unblind_failed
    (from_json_with_channel_secret (pc_params_json prep) keyset_info channel_secret_bytes);
  swb_raw ← ok_or (unblind_failed "invalid type: expected a sequence")
    (json_as_array (pc_secrets_with_blinding prep));
  secrets_with_blinding ← try_map parse_swb swb_raw;
  _ ← ensure (bool_decide (get_channel_id params = pc_channel_id prep)
              && bool_decide (mint params = pc_mint_url prep)
              && bool_decide (cp_unit params = ki_unit output_keyset_info)
              && (pc_balance prep <=? capacity params))
        (unblind_failed "Prepared close binding mismatch");
  commitment ← map_err (λ _, unblind_failed "Invalid close commitment")
    (for_balance (pc_balance prep) params);
  receiver ← map_err (λ _, unblind_failed "Invalid receiver close secrets")
    (get_secrets_with_blinding (receiver_outputs commitment));
  sender ← map_err (λ _, unblind_failed "Invalid sender close secrets")
    (get_secrets_with_blinding (sender_outputs commitment));
  _ ← ensure (bool_decide (all_outputs receiver sender = secrets_with_blinding))
        (unblind_failed "Prepared close secrets do not match commitment");
  request ← map_err (λ _, unblind_failed "Invalid prepared close request")
    (swap_request_from_value (pc_swap_request prep));
  _ ← ensure (bool_decide (sr_rerandomized request = bool_decide (commitment_mode params = Rerandomized)
                           ∧ length (sr_outputs request) = length secrets_with_blinding))
        (unblind_failed "Prepared close output count mismatch");
  _ ← try_map (check_output (keyset_id output_keyset_info)) (zip (sr_outputs request) secrets_with_blinding);
  Ok (mk_OpenedClose params output_keyset_info secrets_with_blinding).

Definition complete_prepared_close (h : H) (resp_json : string) (prep : PreparedClose) :
    Result CloseError CompletedClose :=
  response ← map_err (λ _, unblind_failed "Invalid close swap response")
    (swap_response_from_json resp_json);
  opened ← open_prepared_close prep;
  result ← map_err (λ e, unblind_failed (BridgeError_to_string e))
    (unblind_and_verify_stage1_swap_response response (oc_secrets opened) (oc_close_params opened)
       (oc_output_keyset opened) (pc_balance prep));
  signed_receiver_proofs ← try_map (sign_receiver_close_proof h (oc_close_params opened))
    (ur_receiver_proofs result);
  Ok (mk_CompletedClose (pc_channel_id prep) (close_expiry_timestamp prep) (pc_balance prep)
        (proofs_to_json signed_receiver_proofs)
        (proofs_to_json (pwm_proof <$> ur_sender_proofs result))
        (ur_receiver_sum result) (ur_sender_sum result)).

Definition complete_prepared_close_restore_with_randomness (h : H) (resp_json : string)
    (prep : PreparedClose) (randomness : option RerandomizationR) :
    Result CloseError (option CompletedClose) :=
  response ← map_err (λ _, unblind_failed "Invalid close restore response")
    (restore_response_from_json resp_json);
  request ← map_err (λ _, unblind_failed "Invalid prepared close request")
    (swap_request_from_value (pc_swap_request prep));
  restore ← map_err unblind_failed (swap_restore_request request randomness);
  if bool_decide (rr_outputs response = []) && bool_decide (rr_signatures response = []) then Ok None
  else
    signatures ← map_err unblind_failed (match_restore_response response restore "close");
    json ← map_err (λ _, unblind_failed "Invalid restored swap response")
      (swap_response_to_json (mk_SwapResponse signatures randomness));
    Some <$> complete_prepared_close h json prep.
Definition complete_prepared_close_restore (h : H) (resp_json : string) (prep : PreparedClose) :
    Result CloseError (option CompletedClose) :=
  complete_prepared_close_restore_with_randomness h resp_json prep None.

Definition mark_completed_close (completed : CompletedClose) : M H CloseError CloseSuccess :=
  state ← asks (λ h, map_err storage_failed (get_channel_state h (cc_channel_id completed)));
  if bool_decide (state ≠ Some Closing) then lift (Err not_closing)
  else
    _ ← mmap_err storage_failed (λ h, mark_channel_closed h (cc_channel_id completed)
          (cc_expiry_timestamp completed) (cc_balance completed) (cc_receiver_proofs_json completed)
          (cc_sender_proofs_json completed) (cc_receiver_sum completed) (cc_sender_sum completed));
    lift (Ok (mk_CloseSuccess (cc_channel_id completed)
                (wrap64 (cc_receiver_sum completed + cc_sender_sum completed))
                (cc_receiver_sum completed) (cc_sender_sum completed)
                (cc_sender_proofs_json completed) false)).
Definition finalize_close (resp_json : string) (prep : PreparedClose) : M H CloseError CloseSuccess :=
  completed ← asks (λ h, complete_prepared_close h resp_json prep);
  mark_completed_close completed.

(** ** Authenticating a stored preparation *)

Definition invalid_binding : CloseError := unblind_failed "Invalid immutable close binding".
(** [.map_err(|_| invalid())]. *)
Definition or_invalid {E A} (r : Result E A) : Result CloseError A := map_err (λ _, invalid_binding) r.

(** The two signatures of a prepared request: the sender's payment and the receiver's own,
    which has to verify. *)
Definition check_close_signatures (params : ChannelParameters) (payment : PaymentProof)
    (request : SwapRequest) : Result CloseError unit :=
  _ ← ensure (match sr_inputs request with
              | p :: _ => match proof_witness p with
                          | Some (P2PKWitness [s0; s1]) => bool_decide (s0 = pp_signature payment)
                          | _ => false
                          end
              | [] => false
              end) invalid_binding;
  signatures ← or_invalid (get_signatures_from_swap_request request);
  match signatures with
  | [s0; s1] =>
      _ ← ensure (bool_decide (signature_to_string s0 = pp_signature payment)) invalid_binding;
      receiver ← or_invalid (get_receiver_blinded_pubkey_for_stage1 params);
      or_invalid (verify_swap_signature request receiver s1)
  | _ => Err invalid_binding
  end.

(** What does not depend on the host: the parts of the stored preparation that have to
    agree with the funding and with the preparation computed again, [expected]. *)
Definition check_close_request (params : ChannelParameters) (prepared expected : PreparedClose)
    (payment : PaymentProof) : Result CloseError unit :=
  _ ← ensure (bool_decide (pc_secrets_with_blinding expected = pc_secrets_with_blinding prepared))
        invalid_binding;
  request ← or_invalid (swap_request_from_value (pc_swap_request prepared));
  value ← or_invalid (swap_request_to_value request);
  _ ← ensure (bool_decide (value = pc_swap_request prepared)) invalid_binding;
  receiver ← (if bool_decide (sig_all_message_hash_hex request = pc_sig_all_message_hash prepared)
              then or_invalid (get_receiver_blinded_pubkey_for_stage1 params)
              else Err invalid_binding);
  _ ← ensure (bool_decide (pubkey_to_hex receiver = pc_blinded_receiver_pubkey prepared)) invalid_binding;
  _ ← check_close_signatures params payment request;
  expected_request ← or_invalid (swap_request_from_value (pc_swap_request expected));
  _ ← ensure (bool_decide (sr_inputs request ≠ [])) invalid_binding;
  _ ← ensure (bool_decide (sr_inputs expected_request ≠ [])) invalid_binding;
  v1 ← or_invalid (swap_request_to_value (set_first_witness request None));
  v2 ← or_invalid (swap_request_to_value (set_first_witness expected_request None));
  ensure (bool_decide (v1 = v2)) invalid_binding.

Definition verify_prepared_close (prepared : PreparedClose) (funding : ChannelFunding)
    (payment : PaymentProof) (receiver : PublicKey) : M H CloseError unit :=
  _ ← lift (ensure (bool_decide (pc_balance prepared = pp_balance payment
                                 ∧ pc_params_json prepared = params_json funding
                                 ∧ pc_keyset_info_json prepared = keyset_info_json funding
                                 ∧ pc_channel_secret prepared = channel_secret_hex funding))
              invalid_binding);
  params ← lift (or_invalid
    (load_params (params_json funding) (channel_secret_hex funding) (keyset_info_json funding)));
  output_keyset ← lift (or_invalid
    (parse_keyset_info_from_json (json_print (pc_output_keyset_info prepared))));
  _ ← lift (ensure (bool_decide (receiver_pubkey params = receiver
                                 ∧ get_channel_id params = pc_channel_id prepared
                                 ∧ mint params = pc_mint_url prepared
                                 ∧ cp_unit params = ki_unit output_keyset)) invalid_binding);
  expected ← mmap_err (λ _, invalid_binding)
    (prepare_close_data_impl (pc_channel_id prepared) (pp_balance payment) (pp_signature payment)
       funding output_keyset false);
  expected ← lift (or_invalid
    (wrap_close_data expected (pc_channel_id prepared) (pp_balance payment) funding));
  lift (check_close_request params prepared expected payment).
End complete.

(** ** Executing a close

    The state is the host and the rest of the world [W] (the mint, the network). The mint
    client and the keyset refresher are the caller's; both may change the whole state: the
    refresher writes the host's keyset cache, and while a call is in flight other requests
    may be served. The [async] versions of these functions make the same calls in the same
    order and await each one. *)

Section execute.
Context {T : CashuTypes} {O : CashuOps} {H C W : Type} `{!SpilmanHost H C}.
Context (errors_to_json : list ChannelVerificationError → string).
Context (payment_from_json : string → Result string Payment).
Context (call_mint_swap : string → string → M (H * W) MintRequestError string).
Context (refresh : string → M (H * W) string unit).

Definition on_host {E A} (m : M H E A) : M (H * W) E A :=
  λ x, let '(r, h) := m x.1 in (r, (h, x.2)).

Definition ensure_close_keysets_cached (channel_id : string) : M (H * W) CloseError unit :=
  mu ← on_host (mmap_err from_preparation_error (close_mint_unit_for_channel channel_id));
  match_call (E := ClosePreparationError) (on_host (select_close_output_keyset_for_channel channel_id))
    (λ _, lift (Ok tt))
    (λ _, mmap_err (λ e, storage_failed ("refresh keysets before close: " +:+ e)) (refresh mu.1)).

Definition close_retry_result
    (result : Result (KeysetRetryError PreparedClose CloseError MintRequestError)
                (KeysetRetrySuccess PreparedClose string))
    (first_rejection : option MintRequestError) :
    Result CloseError (KeysetRetrySuccess PreparedClose string) :=
  match result with
  | Ok success => Ok success
  | Err (RetrySelect error) | Err (RetryPrepare error) | Err (RetryRefresh error)
  | Err (RetryCleanup error) => Err error
  | Err (RetrySubmit _ error false) =>
      match rejection error with
      | Some _ => Err (mint_rejected (parse_mint_error_value error))
      | None => Err (MintRequestFailed error None 502)
      end
  | Err (RetrySubmit _ error true) =>
      match rejection error with
      | Some _ => Err (mint_rejected_after_retry
                         (default json_null (parse_mint_error_value <$> first_rejection))
                         (parse_mint_error_value error))
      | None => Err (MintRequestFailed error first_rejection 502)
      end
  | Err (RetryKeysetUnchanged _ error _) => Err (mint_rejected (parse_mint_error_value error))
  | Diverge => Diverge
  end.

(** The two mutex-protected locals the closures share; a lock held by no other thread is
    never poisoned. *)
Record CloseLocals := mk_CloseLocals {
  first_rejection : option MintRequestError;
  retry_mint_url : option string;
}.
Definition in_scope {E A} (m : M (H * W) E A) : M (H * W * CloseLocals) E A :=
  λ x, let '(r, y) := m x.1 in (r, (y, x.2)).

(** The closures given to [with_active_keyset_retry]. *)
Definition close_select (channel_id : string) : M (H * W * CloseLocals) CloseError SelectedOutputKeyset :=
  in_scope (on_host (mmap_err from_preparation_error (select_close_output_keyset_for_channel channel_id))).
Definition close_prepare (channel_id : string) (cd : ClosingData) (selected : SelectedOutputKeyset) :
    M (H * W * CloseLocals) CloseError PreparedClose :=
  in_scope (on_host (mmap_err from_preparation_error
    (prepare_close_for_closing_channel_with_keyset channel_id (cd_balance cd) (cd_signature cd) selected))).
Definition close_submit (prep : PreparedClose) : M (H * W * CloseLocals) MintRequestError string :=
  in_scope (call_mint_swap (pc_mint_url prep) (json_print (pc_swap_request prep))).
Definition close_should_retry (error : MintRequestError) (x : H * W * CloseLocals) :
    (H * W * CloseLocals) * bool :=
  if should_retry_swap_error error
  then ((x.1, mk_CloseLocals (Some error) (retry_mint_url x.2)), true)
  else (x, false).
Definition close_refresh : M (H * W * CloseLocals) CloseError unit := λ x,
  match retry_mint_url x.2 with
  | Some mint_url => let '(r, y) := refresh mint_url x.1 in
                     (match r with Diverge => Diverge | _ => Ok tt end, (y, x.2))
  | None => (Ok tt, x)
  end.
Definition close_cleanup (attempt : PreparedClose) (_ : MintRequestError) :
    M (H * W * CloseLocals) CloseError unit :=
  λ x, (Ok tt, (x.1, mk_CloseLocals (first_rejection x.2) (Some (pc_mint_url attempt)))).

Definition submit_close (channel_id : string) (cd : ClosingData) :
    M (H * W) CloseError (KeysetRetrySuccess PreparedClose string) := λ x,
  let '(result, (y, locals)) :=
    with_active_keyset_retry sok_id (close_select channel_id) (close_prepare channel_id cd)
      close_submit close_should_retry close_refresh close_cleanup (x, mk_CloseLocals None None) in
  (close_retry_result result (first_rejection locals), y).

Definition execute_close_for_closing_channel (channel_id : string) : M (H * W) CloseError CloseSuccess :=
  state ← on_host (asks (λ h, map_err storage_failed (get_channel_state h channel_id)));
  if bool_decide (state ≠ Some Closing) then lift (Err not_closing)
  else
    cd ← on_host (asks (λ h, ok_or (CloseValidationFailed "Missing closing data" 500 None None)
                               (host_get_closing_data h channel_id)));
    _ ← ensure_close_keysets_cached channel_id;
    success ← submit_close channel_id cd;
    on_host (finalize_close (krs_value success) (krs_attempt success)).

Definition record_cooperative_close_first_use_funding (json : string) : M H CloseError unit :=
  p ← lift (map_err (λ e, from_preparation_error (bad_request e)) (payment_from_json json));
  if String.eqb (pay_channel_id p) "" || String.eqb (pay_signature p) "" then lift (Ok tt)
  else
    state ← asks (λ h, map_err storage_failed (get_channel_state h (pay_channel_id p)));
    match state, pay_params p, pay_funding_proofs p with
    | None, Some params, Some proofs =>
        validated ← asks (λ h, map_err (λ e, from_preparation_error (ClosePreparationError_from e))
          (validate_new_channel_funding errors_to_json h (pay_channel_id p) params proofs
             (pay_balance p) (pay_signature p)));
        mmap_err (λ e, from_preparation_error (ClosePreparationError_from e))
          (record_validated_new_channel validated)
    | _, _, _ => lift (Ok tt)
    end.

Definition execute_cooperative_close (json : string) : M (H * W) CloseError CloseSuccess :=
  _ ← on_host (record_cooperative_close_first_use_funding json);
  transition ← on_host (mmap_err from_preparation_error
    (prepare_cooperative_close_transition payment_from_json json));
  _ ← on_host (mark_prepared_close_closing transition);
  execute_close_for_closing_channel (pc_channel_id (pt_prepared_close transition)).
Definition execute_unilateral_close (channel_id : string) : M (H * W) CloseError CloseSuccess :=
  transition ← on_host (mmap_err from_preparation_error
    (prepare_unilateral_close_transition channel_id));
  _ ← on_host (mark_prepared_close_closing transition);
  execute_close_for_closing_channel channel_id.
End execute.
