(* ===== verification/CloseProofs.v ===== *)
(** * Closing a channel: theorems

    A close moves the channel forward or changes nothing that a caller can see; a completed
    close pays the receiver the value of the balance it closes at, and hands every unit of
    the funding token after the swap's fee to one of the two parties. *)

From S2P Require Import Prelude Cashu Toy Amounts Params SwapCompletion Deterministic Channel Mint Storage StorageSpec StorageMemory Host Bridge Close.

(** ** Calls that only read *)

Create HintDb host_reads.

Section reads.
Context {T : CashuTypes} {O : CashuOps} {H C : Type} {SH : SpilmanHost H C} {HS : HostSpec H C}.
Implicit Types h : H.

(** The call changes nothing a caller can ask about. *)
Definition reads_only {E A} (m : M H E A) : Prop := ∀ h, host_wf h → same h (m h).2.

Lemma reads_bind {E A B} (f : A → M H E B) (m : M H E A) :
  reads_only m → (∀ a, reads_only (f a)) → reads_only (m ≫= f).
Proof.
  intros Hm Hf h Hwf. specialize (Hm h Hwf) as Hs. unfold mbind, M_bind.
  destruct (m h) as [[a|e|] h1]; cbn [snd] in *; [|done..].
  eapply same_trans; [done|]. apply Hf, Hs.
Qed.
Lemma reads_lift {E A} (r : Result E A) : reads_only (lift r).
Proof. intros h. apply same_refl. Qed.
Lemma reads_asks {E A} (f : H → Result E A) : reads_only (asks f).
Proof. intros h. apply same_refl. Qed.
Lemma reads_mmap_err {E F A} (g : E → F) (m : M H E A) : reads_only m → reads_only (mmap_err g m).
Proof. intros Hm h Hwf. by apply Hm. Qed.
Lemma reads_funding {E} c : reads_only (E:=E) (ask_funding c).
Proof. intros h Hwf. by destruct (ask_funding_eq (E:=E) h c Hwf) as (h' & -> & ?). Qed.
Lemma reads_due {E} c ctx : reads_only (E:=E) (ask_amount_due c ctx).
Proof. intros h Hwf. by destruct (ask_amount_due_eq (E:=E) h c ctx Hwf) as (h' & -> & ?). Qed.
Lemma reads_state c : reads_only (ask_state c).
Proof. intros h Hwf. rewrite ask_state_eq by done. by apply same_refl. Qed.
End reads.

#[export] Hint Resolve reads_lift reads_asks reads_mmap_err reads_funding reads_due reads_state : host_reads.

(** Walks through the calls of a definition that only reads. *)
Ltac reads_step :=
  match goal with
  | |- reads_only (_ ≫= _) => apply reads_bind; [|intros]
  | |- reads_only (if ?b then _ else _) => destruct b
  | |- reads_only (match ?x with _ => _ end) => destruct x
  | |- reads_only (let '_ := ?x in _) => destruct x
  | |- reads_only (mmap_err _ _) => apply reads_mmap_err
  | |- reads_only _ => solve [eauto with host_reads]
  end.
Ltac solve_reads := repeat reads_step.

Section prepare_reads.
Context {T : CashuTypes} {O : CashuOps} {H C : Type} {SH : SpilmanHost H C} {HS : HostSpec H C}.
Context (payment_from_json : string → Result string Payment).

Lemma prepare_close_data_impl_reads c b g f ks due :
  reads_only (prepare_close_data_impl c b g f ks due).
Proof. unfold prepare_close_data_impl, check_due. solve_reads. Qed.
Hint Resolve prepare_close_data_impl_reads : host_reads.
Lemma select_from_funding_reads f : reads_only (select_close_output_keyset_from_funding f).
Proof. unfold select_close_output_keyset_from_funding. solve_reads. Qed.
Hint Resolve select_from_funding_reads : host_reads.
Lemma prepare_close_data_reads c b g due : reads_only (prepare_close_data c b g due).
Proof. unfold prepare_close_data. solve_reads. Qed.
Hint Resolve prepare_close_data_reads : host_reads.
Lemma funding_or_internal_reads c : reads_only (funding_or_internal c).
Proof. unfold funding_or_internal. solve_reads. Qed.
Hint Resolve funding_or_internal_reads : host_reads.
Lemma close_mint_unit_reads c : reads_only (close_mint_unit_for_channel c).
Proof. unfold close_mint_unit_for_channel. solve_reads. Qed.
Lemma select_for_channel_reads c : reads_only (select_close_output_keyset_for_channel c).
Proof. unfold select_close_output_keyset_for_channel. solve_reads. Qed.
Lemma prepare_with_keyset_reads c b g sel :
  reads_only (prepare_close_for_closing_channel_with_keyset c b g sel).
Proof. unfold prepare_close_for_closing_channel_with_keyset. solve_reads. Qed.
Lemma prepare_cooperative_reads json :
  reads_only (prepare_cooperative_close_transition payment_from_json json).
Proof.
  unfold prepare_cooperative_close_transition, prepare_cooperative_close_for_execution,
    validate_and_prepare_cooperative_close. solve_reads.
Qed.
Lemma prepare_unilateral_reads c : reads_only (prepare_unilateral_close_transition c).
Proof.
  unfold prepare_unilateral_close_transition, prepare_unilateral_close_for_execution,
    create_unilateral_close_data, stored_payment. solve_reads.
Qed.
Lemma verify_prepared_close_reads prep f p r : reads_only (verify_prepared_close prep f p r).
Proof. unfold verify_prepared_close. solve_reads. Qed.
End prepare_reads.
#[export] Hint Resolve prepare_close_data_impl_reads select_from_funding_reads prepare_close_data_reads
  funding_or_internal_reads close_mint_unit_reads select_for_channel_reads prepare_with_keyset_reads
  prepare_cooperative_reads prepare_unilateral_reads verify_prepared_close_reads : host_reads.

(** ** What may happen while a close runs

    [R] relates the host before and after: it holds of every call that only reads, and of
    what the mint client and the keyset refresher let happen. *)

Class HostOrder {T : CashuTypes} {H C : Type} `{!SpilmanHost H C, !HostSpec H C} (R : H → H → Prop) : Prop := {
  ho_same h h' : host_wf h → same h h' → R h h';
  ho_trans h1 h2 h3 : R h1 h2 → R h2 h3 → R h1 h3;
  ho_wf h h' : R h h' → host_wf h';
}.

Section order.
Context {T : CashuTypes} {O : CashuOps} {H C W : Type} {SH : SpilmanHost H C} {HS : HostSpec H C}.

(** No channel changed. *)
Definition quiet (h h' : H) : Prop := host_wf h' ∧ ∀ c, hview h' c = hview h c.
(** Every channel moved forward. *)
Definition grows (h h' : H) : Prop := host_wf h ∧ host_wf h' ∧ ∀ c, evolves (hview h c) (hview h' c).

#[global] Instance quiet_order : HostOrder quiet.
Proof.
  split.
  - intros h h' _ (? & ? & _). done.
  - intros h1 h2 h3 [_ Hv] [? Hv']. split; [done|]. intros c. by rewrite Hv', Hv.
  - intros h h' [? _]. done.
Qed.

#[global] Instance grows_order : HostOrder grows.
Proof.
  split.
  - intros h h' Hwf (Hwf' & Hv & _). split_and!; [done..|]. intros c. rewrite Hv. apply evolves_refl.
  - intros h1 h2 h3 (? & ? & Hv) (_ & ? & Hv'). split_and!; [done..|]. intros c.
    exact (evolves_trans _ _ _ (hs_view_ok h2 c ltac:(done)) (hs_view_ok h3 c ltac:(done)) (Hv c) (Hv' c)).
  - by intros h h' (_ & ? & _).
Qed.

Context (R : H → H → Prop) {HR : HostOrder R}.

(** A call on a state whose host is [π s] stays within [R]. *)
Definition within {S E A} (π : S → H) (m : M S E A) : Prop :=
  ∀ s, host_wf (π s) → R (π s) (π (m s).2).

Lemma within_bind {S E A B} (π : S → H) (f : A → M S E B) (m : M S E A) :
  within π m → (∀ a, within π (f a)) → within π (m ≫= f).
Proof.
  intros Hm Hf s Hwf. specialize (Hm s Hwf) as Hs. unfold mbind, M_bind.
  destruct (m s) as [[a|e|] s1]; cbn [snd] in *; [|done..].
  eapply ho_trans; [done|]. apply Hf. by eapply ho_wf.
Qed.
Lemma within_lift {S E A} (π : S → H) (r : Result E A) : within π (lift r).
Proof. intros s Hwf. apply ho_same; [done|]. by apply same_refl. Qed.
Lemma within_mmap_err {S E F A} (π : S → H) (g : E → F) (m : M S E A) :
  within π m → within π (mmap_err g m).
Proof. intros Hm s Hwf. by apply Hm. Qed.
Lemma within_match_call {S E F A B} (π : S → H) (m : M S E A) (f : A → M S F B) (g : E → M S F B) :
  within π m → (∀ a, within π (f a)) → (∀ e, within π (g e)) → within π (match_call m f g).
Proof.
  intros Hm Hf Hg s Hwf. specialize (Hm s Hwf) as Hs. unfold match_call.
  destruct (m s) as [[a|e|] s1]; cbn [snd] in *; [..|done];
    (eapply ho_trans; [done|]); [apply Hf|apply Hg]; by eapply ho_wf.
Qed.
Lemma within_on_host {E A} (m : M H E A) : reads_only m → within (S:=H * W) fst (on_host m).
Proof.
  intros Hm [h w] Hwf. specialize (Hm h Hwf). unfold on_host. cbn [fst] in *.
  destruct (m h). by apply ho_same.
Qed.
Lemma within_in_scope {E A} (m : M (H * W) E A) :
  within fst m → within (λ x : H * W * CloseLocals, x.1.1) (in_scope m).
Proof. intros Hm [x l] Hwf. specialize (Hm x Hwf). unfold in_scope. cbn [fst] in *. by destruct (m x). Qed.
End order.

(** ** Preparations *)

Section prepared.
Context {T : CashuTypes} {O : CashuOps} {H C : Type} {SH : SpilmanHost H C} {HS : HostSpec H C}.
Implicit Types h : H.

(** A close at [balance] of the channel funded by [f]: within capacity, and signed by the
    sender. *)
Record close_authorized (f : ChannelFunding) (balance : Z) (signature : string)
    (params : ChannelParameters) : Prop := {
  ca_params : load_params (params_json f) (channel_secret_hex f) (keyset_info_json f) = Ok params;
  ca_capacity : balance <= capacity params;
  ca_signed : authorized f balance signature;
}.

Lemma prepare_impl_Ok h c balance signature f ks due cd :
  (prepare_close_data_impl c balance signature f ks due h).1 = Ok cd →
  ∃ params proofs h1, close_authorized f balance signature params ∧
    proofs_from_json (funding_proofs_json f) = Ok proofs ∧
    build_close_data h1 params proofs c balance signature ks = Ok cd.
Proof.
  unfold prepare_close_data_impl, mbind at 1, M_bind at 1, lift.
  destruct (load_params _ _ _) as [params|e|] eqn:Hp; cbn [map_err]; [|done..].
  unfold mbind at 1, M_bind at 1.
  destruct (proofs_from_json _) as [proofs|e|] eqn:Hpr; cbn [map_err]; [|done..].
  unfold mbind at 1, M_bind at 1. destruct (balance <=? capacity params) eqn:Hcap; cbn [ensure]; [|done].
  unfold mbind, M_bind. 
  match goal with |- context [let (_, _) := ?m in _] => destruct m as [[[]|e|] h1] end; [|done..].
  unfold asks. cbn [fst]. intros Hb. exists params, proofs, h1. split; [|done].
  split; [done|lia|]. apply (verify_signature_iff f c). unfold verify_signature. rewrite Hp. cbn [mbind Result_bind].
  rewrite Hpr. cbn [mbind Result_bind].
  unfold build_close_data in Hb. result_inv.
  repeat match goal with E : EstablishedChannel_new _ _ = Ok _ |- _ => rewrite E; clear E
  | E : signature_from_str _ = Ok _ |- _ => rewrite E; clear E end. cbn [mbind Result_bind].
  match goal with E : verify_sender_signature _ _ = Ok ?u |- _ => destruct u; exact E end.
Qed.

(** What a preparation carries of the channel it is for. *)
Record prepared_for (prep : PreparedClose) (f : ChannelFunding) (c : string) (balance : Z) : Prop := {
  pf_channel : pc_channel_id prep = c;
  pf_balance : pc_balance prep = balance;
  pf_params : pc_params_json prep = params_json f;
  pf_keyset : pc_keyset_info_json prep = keyset_info_json f;
  pf_secret : pc_channel_secret prep = channel_secret_hex f;
}.
Lemma wrap_close_data_Ok cd c balance f prep :
  wrap_close_data cd c balance f = Ok prep → prepared_for prep f c balance.
Proof. unfold wrap_close_data. intros Hw. result_inv. done. Qed.

Lemma funding_or_internal_eq h c :
  host_wf h → ∃ h', funding_or_internal c h = (ok_or (internal "Missing funding") (v_funding (hview h c)), h')
    ∧ same h h'.
Proof.
  intros Hwf. destruct (ask_funding_eq (E:=ClosePreparationError) h c Hwf) as (h' & Hf & Hs).
  exists h'. split; [|done]. unfold funding_or_internal, mbind, M_bind. by rewrite Hf.
Qed.

Lemma prepare_with_keyset_Ok h c balance signature sel prep :
  host_wf h →
  (prepare_close_for_closing_channel_with_keyset c balance signature sel h).1 = Ok prep →
  ∃ f params, v_funding (hview h c) = Some f ∧ prepared_for prep f c balance ∧
    close_authorized f balance signature params.
Proof.
  intros Hwf. unfold prepare_close_for_closing_channel_with_keyset.
  destruct (funding_or_internal_eq h c Hwf) as (h1 & Hf & Hs1).
  unfold mbind at 1, M_bind at 1. rewrite Hf.
  destruct (v_funding (hview h c)) as [f|] eqn:Hfu; cbn [ok_or]; [|done].
  unfold mbind at 1, M_bind at 1, lift.
  destruct (selected_output_keyset_info sel) as [ks|e|]; [|done..].
  unfold mbind at 1, M_bind at 1, mmap_err.
  pose proof (prepare_close_data_impl_reads c balance signature f ks false h1 (proj1 Hs1)) as Hs2.
  destruct (prepare_close_data_impl c balance signature f ks false h1) as [[cd|e|] h2] eqn:Himpl;
    cbn [fst snd map_err] in *; [|done..].
  destruct (funding_or_internal_eq h2 c (proj1 Hs2)) as (h3 & Hf3 & _).
  unfold mbind, M_bind. rewrite Hf3. destruct Hs1 as (_ & Hv1 & _), Hs2 as (_ & Hv2 & _).
  rewrite Hv2, Hv1, Hfu. cbn [ok_or fst]. intros Hw.
  destruct (prepare_impl_Ok h1 c balance signature f ks false cd) as (params & _ & _ & Hca & _);
    [by rewrite Himpl|].
  exists f, params. split_and!; [done| |done]. by eapply wrap_close_data_Ok.
Qed.
End prepared.

(** ** Executions *)

Lemma close_retry_result_Ok {T : CashuTypes} {O : CashuOps} r first s :
  close_retry_result r first = Ok s → r = Ok s.
Proof. unfold close_retry_result. intros. repeat case_match; congruence. Qed.

Section finalize.
Context {T : CashuTypes} {O : CashuOps} {H C : Type} {SH : SpilmanHost H C} {HS : HostSpec H C}.

(** The record of a completed close, and the summary returned for it. *)
Definition closed_view (cc : CompletedClose) : ClosedDataView :=
  mk_ClosedDataView (cc_expiry_timestamp cc) (cc_balance cc)
    (wrap64 (cc_receiver_sum cc + cc_sender_sum cc)) (cc_receiver_sum cc) (cc_sender_sum cc)
    (cc_receiver_proofs_json cc) (cc_sender_proofs_json cc).
Definition close_summary (cc : CompletedClose) : CloseSuccess :=
  mk_CloseSuccess (cc_channel_id cc) (wrap64 (cc_receiver_sum cc + cc_sender_sum cc))
    (cc_receiver_sum cc) (cc_sender_sum cc) (cc_sender_proofs_json cc) false.

Lemma complete_prepared_close_fields h resp prep cc :
  complete_prepared_close h resp prep = Ok cc →
  cc_channel_id cc = pc_channel_id prep ∧ cc_balance cc = pc_balance prep.
Proof. unfold complete_prepared_close. intros Hc. result_inv. done. Qed.

Lemma finalize_close_spec (h h' : H) resp prep r :
  host_wf h → finalize_close resp prep h = (r, h') →
  let c := pc_channel_id prep in
  host_wf h' ∧ (∀ d, d ≠ c → hview h' d = hview h d) ∧
  match r with
  | Ok s => ∃ cc, complete_prepared_close h resp prep = Ok cc ∧ s = close_summary cc ∧
      v_state (hview h c) = Some Closing ∧ v_journal (hview h c) = None ∧
      hview h' c = with_closed (closed_view cc) (hview h c)
  | _ => hview h' c = hview h c
  end.
Proof.
  intros Hwf. unfold finalize_close, mbind at 1, M_bind at 1, asks at 1. cbv zeta.
  destruct (complete_prepared_close h resp prep) as [cc|e|] eqn:Hcc; [|by intros [= <- <-]..].
  destruct (complete_prepared_close_fields _ _ _ _ Hcc) as [Hid _].
  unfold mark_completed_close, mbind at 1, M_bind at 1, asks. rewrite hs_state by done.
  cbn [map_err]. case_bool_decide as Hst; [by intros [= <- <-]|].
  rewrite Hid in *. set (c := pc_channel_id prep) in *.
  assert (is_Some (v_funding (hview h c))) as Hf.
  { pose proof (vo_known _ (hs_view_ok h c Hwf)) as Hk. destruct (v_funding (hview h c)); [done|].
    assert (v_state (hview h c) = None) by (by apply Hk). congruence. }
  pose proof (hs_mark_closed h c (cc_expiry_timestamp cc) (cc_balance cc) (cc_receiver_proofs_json cc)
    (cc_sender_proofs_json cc) (cc_receiver_sum cc) (cc_sender_sum cc) Hwf Hf) as Hm.
  cbv zeta in Hm. unfold mbind, M_bind, mmap_err.
  destruct (mark_channel_closed h c _ _ _ _ _ _) as [rm hm]. cbn [fst snd] in *.
  destruct Hm as (Hwf' & Hframe & _ & Hm). cbn [spec_step] in Hm. case_bool_decide as Hj.
  - destruct Hm as [-> Hv]. cbn [map_err lift]. intros [= <- <-]. split; [done|]. split; [done|].
    exists cc. unfold close_summary. rewrite Hid. naive_solver.
  - destruct Hm as [[e ->] Hv]. by intros [= <- <-].
Qed.
End finalize.

Section run.
Context {T : CashuTypes} {O : CashuOps} {H C W : Type} {SH : SpilmanHost H C} {HS : HostSpec H C}.
Context (call_mint_swap : string → string → M (H * W) MintRequestError string).
Context (refresh : string → M (H * W) string unit).
Context (R : H → H → Prop) {HR : HostOrder R}.
Context (mint_within : ∀ url body, within R fst (call_mint_swap url body)).
Context (refresh_within : ∀ url, within R fst (refresh url)).

Lemma ensure_cached_within c : within R fst (ensure_close_keysets_cached refresh c).
Proof.
  unfold ensure_close_keysets_cached. apply within_bind; [done| |intros mu].
  - apply within_on_host; [done|]. solve_reads.
  - apply within_match_call; [done|..].
    + apply within_on_host; [done|]. solve_reads.
    + intros _. by apply within_lift.
    + intros _. apply within_mmap_err, refresh_within.
Qed.

(** Submitting stays within [R]; what it reports is a preparation for the frozen balance and
    the answer the mint gave to it. *)
Lemma submit_close_spec c cd x :
  host_wf x.1 →
  let r := submit_close call_mint_swap refresh c cd x in
  R x.1 r.2.1 ∧ ∀ s, r.1 = Ok s →
    ∃ h1 sel, R x.1 h1 ∧ host_wf h1 ∧
      (prepare_close_for_closing_channel_with_keyset c (cd_balance cd) (cd_signature cd) sel h1).1
      = Ok (krs_attempt s).
Proof.
  intros Hwf. unfold submit_close.
  set (inv (y : H * W * CloseLocals) := host_wf y.1.1 ∧ R x.1 y.1.1).
  assert (∀ E A (m : M (H * W * CloseLocals) E A), within R (λ y, y.1.1) m → ∀ y, inv y → inv (m y).2) as Hstep.
  { intros E A m Hm y [Hy Hxy]. specialize (Hm y Hy). split; [by eapply ho_wf|by eapply ho_trans]. }
  pose proof (retry_invariant sok_id (close_select c) (close_prepare c cd) (close_submit call_mint_swap)
    close_should_retry (close_refresh refresh) close_cleanup inv (x, mk_CloseLocals None None)) as Hr.
  cbv zeta in Hr |- *.
  destruct (with_active_keyset_retry _ _ _ _ _ _ _ _) as [res [y l]] eqn:Eres. cbn [fst snd] in *.
  destruct Hr as [[_ HRy] Hok].
  - split; [done|]. apply ho_same; [done|]. by apply same_refl.
  - apply Hstep. unfold close_select. apply within_in_scope, within_on_host; [done|]. solve_reads.
  - intros k. apply Hstep. unfold close_prepare. apply within_in_scope, within_on_host; [done|]. solve_reads.
  - intros a. apply Hstep. unfold close_submit. apply within_in_scope, mint_within.
  - intros e y' Hy'. unfold close_should_retry. by destruct (should_retry_swap_error e).
  - apply Hstep. intros y' Hy'. unfold close_refresh. destruct (retry_mint_url y'.2) as [u|]; cbn [snd].
    + pose proof (refresh_within u y'.1 Hy') as Hu. by destruct (refresh u y'.1).
    + apply ho_same; [done|]. by apply same_refl.
  - intros a e y' Hy'. exact Hy'.
  - split; [done|]. intros s Hs.
    apply close_retry_result_Ok in Hs as ->.
    destruct (Hok s eq_refl) as (sel & v & _ & [Hv HRv] & Hp & _). exists v.1.1, sel. split_and!; [done..|].
    unfold close_prepare, in_scope, on_host, mmap_err in Hp.
    destruct (prepare_close_for_closing_channel_with_keyset c _ _ sel v.1.1) as [rp h'].
    cbn [fst] in *. by apply map_err_Ok in Hp.
Qed.

(** The outcome of closing a channel that is marked [Closing]. *)
Lemma execute_close_spec c x r x' :
  host_wf x.1 → execute_close_for_closing_channel call_mint_swap refresh c x = (r, x') →
  match r with
  | Ok s => ∃ cd f params h1 h2 resp prep cc,
      v_closing (hview x.1 c) = Some cd ∧
      R x.1 h1 ∧ v_funding (hview h1 c) = Some f ∧ prepared_for prep f c (cd_balance cd) ∧
      close_authorized f (cd_balance cd) (cd_signature cd) params ∧
      R x.1 h2 ∧ complete_prepared_close h2 resp prep = Ok cc ∧ s = close_summary cc ∧
      host_wf x'.1 ∧ (∀ d, d ≠ c → hview x'.1 d = hview h2 d) ∧
      v_state (hview h2 c) = Some Closing ∧ v_journal (hview h2 c) = None ∧
      hview x'.1 c = with_closed (closed_view cc) (hview h2 c)
  | _ => ∃ h2, R x.1 h2 ∧ host_wf x'.1 ∧ ∀ d, hview x'.1 d = hview h2 d
  end.
Proof.
  intros Hwf. assert (R x.1 x.1) as Hrefl by (apply ho_same; [done|by apply same_refl]).
  assert ((x.1, x.2) = x) as Hx by (by destruct x).
  unfold execute_close_for_closing_channel, mbind at 1, M_bind at 1, on_host at 1, asks at 1.
  rewrite hs_state by done. cbn [map_err]. rewrite Hx.
  case_bool_decide as Hst; [intros [= <- <-]; by exists x.1|].
  unfold mbind at 1, M_bind at 1, on_host at 1, asks at 1. rewrite hs_closing, Hx by done.
  destruct (v_closing (hview x.1 c)) as [cd|] eqn:Hcd; cbn [ok_or]; [|intros [= <- <-]; by exists x.1].
  unfold mbind at 1, M_bind at 1.
  pose proof (ensure_cached_within c x Hwf) as H1.
  destruct (ensure_close_keysets_cached refresh c x) as [[[]|e|] x1]; cbn [fst snd] in *;
    [|intros [= <- <-]; exists x1.1; split_and!; [done|by eapply ho_wf|done]..].
  unfold mbind, M_bind.
  pose proof (submit_close_spec c cd x1 (ho_wf _ _ H1)) as [H2 Hs].
  destruct (submit_close call_mint_swap refresh c cd x1) as [[s|e|] x2]; cbn [fst snd] in *;
    [|intros [= <- <-]; exists x2.1; split_and!; [by eapply ho_trans|by eapply ho_wf|done]..].
  destruct (Hs s eq_refl) as (h1 & sel & Hh1 & Hwf1 & Hprep).
  destruct (prepare_with_keyset_Ok h1 c _ _ sel _ Hwf1 Hprep) as (f & params & Hf & Hpf & Hca).
  unfold on_host. destruct (finalize_close (krs_value s) (krs_attempt s) x2.1) as [rf h'] eqn:Efin.
  intros [= <- <-]. cbn [fst].
  apply finalize_close_spec in Efin as (Hwf' & Hframe & Hfin); [|by eapply ho_wf].
  rewrite (pf_channel _ _ _ _ Hpf) in *.
  assert (R x.1 x2.1) as Hx2 by (by eapply ho_trans).
  destruct rf as [sum|e|].
  - destruct Hfin as (cc & Hcc & -> & Hst2 & Hj & Hv).
    exists cd, f, params, h1, x2.1, (krs_value s), (krs_attempt s), cc.
    split_and!; try done. by apply (ho_trans _ x1.1).
  - exists x2.1. split_and!; [done..|]. intros d. destruct (decide (d = c)) as [->|]; auto.
  - exists x2.1. split_and!; [done..|]. intros d. destruct (decide (d = c)) as [->|]; auto.
Qed.
End run.

(** ** What a completed close pays *)

Section pays.
Context {T : CashuTypes} {O : CashuOps}.

(** A proof as it is handed to the owner of its output. *)
Definition handed (item : Proof * (DeterministicSecretWithBlinding * bool)) (pm : ProofWithMeta) : Prop :=
  pwm_amount pm = ds_amount item.2.1 ∧ pwm_index pm = ds_index item.2.1 ∧
  proof_amount (pwm_proof pm) = proof_amount item.1 ∧ proof_secret (pwm_proof pm) = proof_secret item.1.
Abbreviation owned b items := (filter (λ item : Proof * (DeterministicSecretWithBlinding * bool), item.2.2 = b) items).
Abbreviation total items := (sumZ ((λ item : Proof * (DeterministicSecretWithBlinding * bool), proof_amount item.1) <$> items)).

Lemma unblind_one_Ok params acc item r :
  unblind_one params acc item = Ok r →
  ∃ pm, handed item pm ∧
    if item.2.2
    then r = mk_UnblindResult (ur_receiver_proofs acc ++ [pm]) (ur_sender_proofs acc)
               (wrap64 (ur_receiver_sum acc + proof_amount item.1)) (ur_sender_sum acc)
    else r = mk_UnblindResult (ur_receiver_proofs acc) (ur_sender_proofs acc ++ [pm])
               (ur_receiver_sum acc) (wrap64 (ur_sender_sum acc + proof_amount item.1)).
Proof.
  destruct item as [p [o b]]. unfold unblind_one, attach_stage2_p2pk_e. intros Hr.
  destruct b; cbn [snd]; result_inv; (eexists; split; [|reflexivity]); done.
Qed.

Lemma unblind_fold_spec params items acc r :
  try_fold (unblind_one params) acc items = Ok r →
  Forall (λ item : Proof * (DeterministicSecretWithBlinding * bool), 0 <= proof_amount item.1) items →
  0 <= ur_receiver_sum acc → 0 <= ur_sender_sum acc →
  ur_receiver_sum acc + ur_sender_sum acc + total items <= u64_max →
  ∃ rp sp,
    ur_receiver_proofs r = ur_receiver_proofs acc ++ rp ∧ Forall2 handed (owned true items) rp ∧
    ur_sender_proofs r = ur_sender_proofs acc ++ sp ∧ Forall2 handed (owned false items) sp ∧
    ur_receiver_sum r = ur_receiver_sum acc + total (owned true items) ∧
    ur_sender_sum r = ur_sender_sum acc + total (owned false items).
Proof.
  intros Hr Hpos. revert acc Hr. induction Hpos as [|item items Hi Hpos IH]; intros acc Hr Ha Hb Hs.
  { injection Hr as <-. exists [], []. rewrite !app_nil_r. cbn. split_and!; try done; lia. }
  cbn [try_fold] in Hr. apply bind_Ok in Hr as (acc1 & H1 & Hr).
  assert (0 <= total items) by (apply sumZ_nonneg, Forall_fmap; done).
  rewrite fmap_cons in Hs. cbn [sumZ foldr] in Hs. fold (total items) in Hs.
  apply unblind_one_Ok in H1 as (pm & Hh & Hacc). rewrite !filter_cons.
  destruct item as [p [o b]], b; cbn [fst snd] in *; subst acc1;
    rewrite wrap64_id in Hr by (unfold is_u64, u64_max in *; lia);
    destruct (IH _ Hr) as (rp & sp & H1 & H2 & H3 & H4 & H5 & H6); cbn in *; try lia;
    rewrite <-app_assoc in *; cbn [app] in *.
  - exists (pm :: rp), sp. rewrite decide_True, decide_False by done.
    rewrite fmap_cons. unfold sumZ in *. cbn in *. split_and!; try done; [by constructor|lia].
  - exists rp, (pm :: sp). rewrite decide_False, decide_True by done.
    rewrite fmap_cons. unfold sumZ in *. cbn in *. split_and!; try done; [by constructor|lia].
Qed.

Lemma total_owned b proofs (swb : list (DeterministicSecretWithBlinding * bool)) :
  proof_amount <$> proofs = (λ os, ds_amount os.1) <$> swb →
  total (owned b (zip proofs swb)) = sumZ ((λ os, ds_amount os.1) <$> filter (λ os, os.2 = b) swb) ∧
  total (zip proofs swb) = sumZ ((λ os, ds_amount os.1) <$> swb).
Proof.
  revert swb. induction proofs as [|p proofs IH]; intros [|[o f] swb] Hp; try done.
  rewrite !fmap_cons in Hp. injection Hp as Hp Hps. destruct (IH swb Hps) as [IH1 IH2].
  cbn [zip_with]. rewrite !filter_cons. cbn [snd]. rewrite !fmap_cons. cbn [sumZ foldr fst].
  split; [|unfold sumZ in *; cbn in *; lia].
  case_decide; [|done]. rewrite !fmap_cons. cbn [sumZ foldr fst]. unfold sumZ in *. cbn in *. lia.
Qed.
Lemma handed_total items pms :
  Forall2 handed items pms → sumZ ((λ pm, proof_amount (pwm_proof pm)) <$> pms) = total items.
Proof.
  induction 1 as [|item pm items pms (_ & _ & Ha & _) _ IH]; [done|].
  rewrite !fmap_cons. cbn [sumZ foldr]. unfold sumZ in *. lia.
Qed.

Lemma expected_output_amounts id swb expected :
  try_map (expected_output id) swb = Ok expected →
  bm_amount <$> (ps_blinded_message <$> expected) = (λ os, ds_amount os.1) <$> swb.
Proof.
  intros He%try_map_Ok. induction He as [|[o b] e swb es H1 _ IH]; [done|].
  unfold expected_output in H1. result_inv. cbn. by f_equal.
Qed.

(** The sums of an accepted answer are the totals of the two parties' outputs. *)
Lemma unblind_Ok {HC : ConstructLaws} {HR : RerandomizeLaws} response swb params ks balance r :
  unblind_and_verify_stage1_swap_response response swb params ks balance = Ok r →
  Forall (λ os : DeterministicSecretWithBlinding * bool, 0 <= ds_amount os.1) swb →
  sumZ ((λ os, ds_amount os.1) <$> swb) <= u64_max →
  (∃ inv, inverse_deterministic_value_after_fees (keyset_info params) balance
     (maximum_amount_for_one_output params) = Ok inv ∧ ur_receiver_sum r = nominal_value inv) ∧
  sumZ ((λ pm, proof_amount (pwm_proof pm)) <$> ur_receiver_proofs r) = ur_receiver_sum r ∧
  sumZ ((λ pm, proof_amount (pwm_proof pm)) <$> ur_sender_proofs r) = ur_sender_sum r ∧
  ur_receiver_sum r = sumZ ((λ os, ds_amount os.1) <$> filter (λ os, os.2 = true) swb) ∧
  ur_sender_sum r = sumZ ((λ os, ds_amount os.1) <$> filter (λ os, os.2 = false) swb).
Proof.
  unfold unblind_and_verify_stage1_swap_response. intros Hr Hpos Hsum.
  apply bind_Ok in Hr as (_ & _ & (expected & Hexp & (proofs & Hcomp%map_err_Ok & Hr)%bind_Ok)%bind_Ok).
  apply bind_Ok in Hr as (r' & Hfold & (inv & Hinv%map_err_Ok & (_ & Hn%ensure_Ok & [= ->])%bind_Ok)%bind_Ok).
  apply complete_swap_response_Ok in Hcomp as (_ & _ & _ & _ & _ & _ & _ & _ & Ham & _).
  assert (proof_amount <$> proofs = (λ os, ds_amount os.1) <$> swb) as Hamounts.
  { rewrite Ham, <-(expected_output_amounts _ _ _ Hexp). by destruct (commitment_mode params). }
  destruct (total_owned true proofs swb Hamounts) as [Ht Hall].
  destruct (total_owned false proofs swb Hamounts) as [Hf _].
  destruct (unblind_fold_spec _ _ _ _ Hfold) as (rp & sp & H1 & H2 & H3 & H4 & H5 & H6);
    [|done|done|cbn [ur_receiver_sum ur_sender_sum]; lia|].
  { apply Forall_forall. intros [p [o b]] Hin. cbn.
    assert (p ∈ proofs) as Hp by (apply elem_of_zip_l in Hin; done).
    apply (list_elem_of_fmap_2 proof_amount) in Hp. rewrite Hamounts in Hp.
    apply list_elem_of_fmap in Hp as (os & -> & Hos). rewrite Forall_forall in Hpos. by apply Hpos. }
  cbn in *. rewrite H1, H3, (handed_total _ _ H2), (handed_total _ _ H4).
  split; [eexists; split; [done|lia]|]. split_and!; lia.
Qed.

Lemma open_prepared_close_Ok prep opened :
  open_prepared_close prep = Ok opened →
  load_params (pc_params_json prep) (pc_channel_secret prep) (pc_keyset_info_json prep)
    = Ok (oc_close_params opened) ∧
  parse_keyset_info_from_json (json_print (pc_output_keyset_info prep)) = Ok (oc_output_keyset opened) ∧
  get_channel_id (oc_close_params opened) = pc_channel_id prep ∧
  mint (oc_close_params opened) = pc_mint_url prep ∧
  pc_balance prep <= capacity (oc_close_params opened) ∧
  ∃ commitment r s, for_balance (pc_balance prep) (oc_close_params opened) = Ok commitment ∧
    get_secrets_with_blinding (receiver_outputs commitment) = Ok r ∧
    get_secrets_with_blinding (sender_outputs commitment) = Ok s ∧
    oc_secrets opened = all_outputs r s.
Proof.
  unfold open_prepared_close. intros Ho. result_inv. cbn [oc_close_params oc_output_keyset oc_secrets].
  repeat match goal with E : _ && _ = true |- _ => apply andb_true_iff in E as [? ?] end.
  repeat match goal with E : bool_decide _ = true |- _ => apply bool_decide_eq_true_1 in E end.
  unfold load_params, decode_secret.
  match goal with E : hex_decode _ = Ok _ |- _ => rewrite E end. cbn [mbind Result_bind].
  rewrite (bool_decide_eq_true_2 (length _ = 32%nat)) by done. cbn [ensure mbind Result_bind].
  match goal with E : parse_keyset_info_from_json (pc_keyset_info_json prep) = Ok _ |- _ => rewrite E end.
  split_and!; try done; [lia|]. do 3 eexists. split_and!; [done|done|done|by symmetry].
Qed.
End pays.

(** ** Theorems *)

Section theorems.
Context {T : CashuTypes} {O : CashuOps} {H C W : Type} {SH : SpilmanHost H C} {HS : HostSpec H C}.

(** The amounts of the secrets of a commitment: nonnegative, and the receiver's and sender's
    totals are the two parts. *)
Lemma commitment_totals p balance c r s :
  sound_params p → 0 <= balance → for_balance balance p = Ok c →
  get_secrets_with_blinding (receiver_outputs c) = Ok r →
  get_secrets_with_blinding (sender_outputs c) = Ok s →
  let amounts b := sumZ ((λ os, ds_amount os.1) <$> filter (λ os, os.2 = b) (all_outputs r s)) in
  Forall (λ os : DeterministicSecretWithBlinding * bool, 0 <= ds_amount os.1) (all_outputs r s) ∧
  sumZ ((λ os, ds_amount os.1) <$> all_outputs r s) <= u64_max ∧
  amounts true + amounts false = fwd p (funding_token_amount p) ∧
  balance <= fwd p (amounts true) ∧ ∀ n, 0 <= n < amounts true → fwd p n < balance.
Proof.
  intros Hp Hb Hc Hr Hs amounts.
  destruct (for_balance_Ok p balance c Hp Hb Hc) as (nr & ns & Hdr & Hds & Hnr & Hns & Hlt & Hsum & Hfw & Hmin & _).
  destruct (commitment_amounts p nr ns _ _ _ _ Hp Hnr Hns Hlt Hdr Hds Hr Hs) as (_ & Hrs & Hss & Hall & Htot).
  unfold amounts. rewrite (sum_owned true), (sum_owned false), Hrs, Hss.
  assert ((λ os, ds_amount os.1) <$> all_outputs r s ≡ₚ (ds_amount <$> r) ++ (ds_amount <$> s)) as Hperm.
  { unfold all_outputs. rewrite sort_by_key_perm, fmap_app, <-!list_fmap_compose. done. }
  split_and!; [| |done..].
  - enough (Forall (λ a, 0 <= a) ((λ os, ds_amount os.1) <$> all_outputs r s)) as Hf
      by exact (proj1 (Forall_fmap _ _ _) Hf).
    rewrite Hperm. eapply Forall_impl; [exact Hall|]. simpl. lia.
  - rewrite (sumZ_perm _ _ Hperm), sumZ_app. done.
Qed.

(** The record of a close at [balance] that conserves the money and pays the receiver in
    full: the proofs of the two parties add up to the value of the funding token after the
    swap's fee, the receiver's proofs are worth at least [balance] after the fee of spending
    them, and no smaller amount would be. Every receiver proof carries a signature. *)
Record settlement (params : ChannelParameters) (balance : Z) (d : ClosedDataView) : Prop := {
  st_proofs : ∃ receiver sender,
    cv_receiver_proofs_json d = proofs_to_json receiver ∧
    cv_sender_proofs_json d = proofs_to_json sender ∧
    sumZ (proof_amount <$> receiver) = cv_receiver_sum d ∧
    sumZ (proof_amount <$> sender) = cv_sender_sum d ∧
    Forall (λ p, ∃ sig, proof_witness p = Some (P2PKWitness [sig])) receiver;
  st_nonneg : 0 <= cv_receiver_sum d ∧ 0 <= cv_sender_sum d;
  st_conserved : cv_receiver_sum d + cv_sender_sum d = fwd params (funding_token_amount params);
  st_covers : balance <= fwd params (cv_receiver_sum d);
  st_least n : 0 <= n < cv_receiver_sum d → fwd params n < balance;
}.

Lemma complete_settlement {HC : ConstructLaws} {HR : RerandomizeLaws} (h : H) resp prep cc params :
  complete_prepared_close h resp prep = Ok cc →
  load_params (pc_params_json prep) (pc_channel_secret prep) (pc_keyset_info_json prep) = Ok params →
  sound_params params → 0 <= pc_balance prep → settlement params (pc_balance prep) (closed_view cc).
Proof.
  unfold complete_prepared_close. intros Hc Hl Hp Hb. result_inv.
  match goal with E : open_prepared_close _ = Ok ?o |- _ => rename o into opened;
    apply open_prepared_close_Ok in E as (Hl' & _ & _ & _ & _ & c & r & s & Hfb & Hr & Hs & Hsec) end.
  rewrite Hl in Hl'. injection Hl' as ->.
  destruct (commitment_totals (oc_close_params opened) (pc_balance prep) c r s Hp Hb Hfb Hr Hs) as (Hpos & Htot & Hsum & Hfw & Hmin).
  match goal with E : unblind_and_verify_stage1_swap_response _ _ _ _ _ = Ok ?u |- _ => rename u into res;
    rewrite Hsec in E; apply unblind_Ok in E as (_ & Hrp & Hsp & Hrs & Hss); [|done..] end.
  match goal with E : try_map _ _ = Ok ?u |- _ => rename u into signed; apply try_map_Ok in E; rename E into Hsigned end.
  assert (proof_amount <$> signed = (λ pm, proof_amount (pwm_proof pm)) <$> ur_receiver_proofs res ∧
    Forall (λ p, ∃ sig, proof_witness p = Some (P2PKWitness [sig])) signed) as [Hsa Hsw].
  { clear -Hsigned. induction Hsigned as [|pm p pms ps Hone _ [IH1 IH2]]; [done|].
    unfold sign_receiver_close_proof, attach_stage2_p2pk_e in Hone. result_inv.
    rewrite !fmap_cons. split; [by f_equal|]. constructor; [by eexists|done]. }
  assert (∀ b, 0 <= sumZ ((λ os, ds_amount os.1) <$> filter (λ os, os.2 = b) (all_outputs r s))) as Hnn.
  { intros b. apply sumZ_nonneg, Forall_fmap, Forall_forall. intros os [_ Hin]%list_elem_of_filter.
    rewrite Forall_forall in Hpos. exact (Hpos os Hin). }
  split; cbn; rewrite ?Hrs, ?Hss; try done.
  exists signed, (pwm_proof <$> ur_sender_proofs res). rewrite Hsa, <-list_fmap_compose.
  split_and!; try done; by rewrite <-?Hrs, <-?Hss.
Qed.

(** C37: the sums of a finished close are exact: for parameters in range, the additions that
    make them stay far below [2^64], the reported total is the sum of the two parts and at
    most the funding token, and the receiver's part is at least the balance. *)
Theorem close_sums_bounded {HC : ConstructLaws} {HR : RerandomizeLaws} (h h' : H) resp prep s params :
  host_wf h → finalize_close resp prep h = (Ok s, h') →
  load_params (pc_params_json prep) (pc_channel_secret prep) (pc_keyset_info_json prep) = Ok params →
  sound_params params → 0 <= pc_balance prep →
  pc_balance prep <= cs_receiver_sum s ∧ 0 <= cs_sender_sum s ∧
  cs_total_value s = cs_receiver_sum s + cs_sender_sum s ∧
  cs_total_value s <= funding_token_amount params < 2 ^ 54.
Proof.
  intros Hwf Hfin Hl Hp Hb. apply finalize_close_spec in Hfin as (_ & _ & cc & Hcc & -> & _); [|done].
  destruct (complete_settlement _ _ _ _ _ Hcc Hl Hp Hb) as [_ [Hr0 Hs0] Hsum Hcov _].
  destruct (sound_params_facts params Hp) as (Hpos & _ & Hppk & _ & Hfw & _).
  pose proof Hp as (_ & _ & _ & _ & Hf & _). cbn in *.
  assert (fwd params (cc_receiver_sum cc) <= cc_receiver_sum cc) by (apply forward_bounds; [done|lia..]).
  rewrite wrap64_id by (unfold is_u64; lia). lia.
Qed.

Context (call_mint_swap : string → string → M (H * W) MintRequestError string).
Context (refresh : string → M (H * W) string unit).

(** The record [d] of channel [c] closed at [balance], and the summary [s] returned for it. *)
Record closed_at (c : string) (f : ChannelFunding) (balance : Z) (s : CloseSuccess) (v : ChannelView)
    (d : ClosedDataView) : Prop := {
  cl_state : v_state v = Some Closed;
  cl_record : v_closed v = Some d;
  cl_funding : v_funding v = Some f;
  cl_balance : closed_amount d = balance;
  cl_summary : cs_channel_id s = c ∧ cs_receiver_sum s = cv_receiver_sum d ∧
    cs_sender_sum s = cv_sender_sum d ∧ cs_total_value s = value_after_stage1 d ∧
    cs_sender_proofs s = cv_sender_proofs_json d;
  cl_settled {HC : ConstructLaws} {HR : RerandomizeLaws} params :
    load_params (params_json f) (channel_secret_hex f) (keyset_info_json f) = Ok params →
    sound_params params → 0 <= balance → settlement params balance d;
}.

(** What a successful close of a channel marked [Closing] leaves. *)
Lemma execute_close_closed c x s x' :
  host_wf x.1 →
  (∀ url body, within grows fst (call_mint_swap url body)) → (∀ url, within grows fst (refresh url)) →
  execute_close_for_closing_channel call_mint_swap refresh c x = (Ok s, x') →
  ∃ cd f params d,
    v_closing (hview x.1 c) = Some cd ∧ v_funding (hview x.1 c) = Some f ∧
    close_authorized f (cd_balance cd) (cd_signature cd) params ∧
    closed_at c f (cd_balance cd) s (hview x'.1 c) d ∧ grows x.1 x'.1.
Proof.
  intros Hwf Hm Hr Hex.
  apply (execute_close_spec call_mint_swap refresh grows Hm Hr) in Hex; [|done].
  destruct Hex as (cd & f & params & h1 & h2 & resp & prep & cc & Hcd & (_ & Hwf1 & Hg1) & Hf1 & Hpf & Hca
    & (_ & Hwf2 & Hg2) & Hcc & -> & Hwf' & Hframe & Hst & Hj & Hv).
  destruct (complete_prepared_close_fields _ _ _ _ Hcc) as [Hid Hbal].
  assert (v_funding (hview x.1 c) = Some f) as Hf.
  { destruct (v_funding (hview x.1 c)) as [f0|] eqn:Hf0.
    - apply (ev_funding _ _ (Hg1 c)) in Hf0. congruence.
    - pose proof (vo_known _ (hs_view_ok x.1 c Hwf)) as Hk. apply Hk in Hf0.
      assert (v_state (hview x.1 c) = Some Closing) by (by apply (vo_closing _ (hs_view_ok x.1 c Hwf)); eexists).
      congruence. }
  assert (evolves (hview x.1 c) (hview x'.1 c)) as Hev.
  { rewrite Hv. eapply evolves_trans; [exact (hs_view_ok h2 c Hwf2)|rewrite <-Hv; exact (hs_view_ok x'.1 c Hwf')|apply Hg2|].
    apply (spec_step_evolves (MarkClosed (closed_view cc))); [exact (hs_view_ok h2 c Hwf2)|..].
    { by exists f; apply (ev_funding _ _ (Hg2 c)). }
    cbn [spec_step]. rewrite bool_decide_eq_true_2; [done|]. split; [done|congruence]. }
  exists cd, f, params, (closed_view cc). split_and!; [done..| |].
  - destruct Hpf as [P1 P2 P3 P4 P5]. rewrite Hv. split; [done|done|by apply (ev_funding _ _ (Hg2 c))| | |].
    + cbn. by rewrite Hbal.
    + cbn. by rewrite Hid.
    + intros HC HRr q Hq Hs H0. rewrite <-P2. eapply complete_settlement; [done| |done|by rewrite P2].
      by rewrite P3, P4, P5.
  - split_and!; [done..|]. intros e. destruct (decide (e = c)) as [->|He]; [done|].
    rewrite Hframe by done. apply Hg2.
Qed.

(** The same, from the mark on. *)
Lemma marked_close_closed t x s x' :
  let c := pc_channel_id (pt_prepared_close t) in
  host_wf x.1 → is_Some (v_funding (hview x.1 c)) →
  (∀ url body, within grows fst (call_mint_swap url body)) → (∀ url, within grows fst (refresh url)) →
  (on_host (mark_prepared_close_closing t) ≫= λ _,
     execute_close_for_closing_channel call_mint_swap refresh c) x = (Ok s, x') →
  ∃ f params d, v_funding (hview x.1 c) = Some f ∧
    close_authorized f (pp_balance (pt_payment t)) (pp_signature (pt_payment t)) params ∧
    closed_at c f (pp_balance (pt_payment t)) s (hview x'.1 c) d ∧ grows x.1 x'.1.
Proof.
  intros c Hwf [f Hf] Hm Hr. unfold on_host, mark_prepared_close_closing, mbind, M_bind. fold c.
  pose proof (hs_mark_closing x.1 c (pt_expiry_timestamp t) (pt_payment t) Hwf ltac:(by eexists)) as Hc.
  cbv zeta in Hc. destruct (mark_channel_closing x.1 c _ _) as [r h1]. cbn [fst snd] in Hc.
  destruct Hc as (Hwf1 & Hframe & _ & Hc). set (cd := mk_ClosingData _ _ _) in Hc.
  destruct (spec_step (MarkClosing cd) (hview x.1 c)) as [v|] eqn:Hs; [|by destruct Hc as [[e ->] _]].
  destruct Hc as [-> Hv1]. cbn [map_err]. intros Hex.
  destruct (execute_close_closed c (h1, x.2) s x' Hwf1 Hm Hr Hex)
    as (cd' & f' & params & d & Hcd & Hf' & Hca & Hcl & Hg). cbn [fst] in *.
  assert (cd' = cd ∧ f' = f) as [-> ->].
  { cbn [spec_step] in Hs. case_bool_decide; [|done]. injection Hs as <-. rewrite Hv1 in Hcd, Hf'.
    cbn in Hcd, Hf'. split; congruence. }
  exists f, params, d. split_and!; [done..|].
  apply (ho_trans _ h1); [|done]. split_and!; [done..|]. intros e.
  destruct (decide (e = c)) as [->|He]; [|rewrite Hframe by done; apply evolves_refl].
  rewrite Hv1. apply (spec_step_evolves (MarkClosing cd)); [by apply hs_view_ok|by eexists|done].
Qed.

Lemma prepare_unilateral_Ok (h : H) c t :
  host_wf h → (prepare_unilateral_close_transition c h).1 = Ok t →
  ∃ f p, v_funding (hview h c) = Some f ∧ v_payment (hview h c) = Some p ∧ pt_payment t = p ∧
    pc_channel_id (pt_prepared_close t) = c.
Proof.
  intros Hwf. unfold prepare_unilateral_close_transition, prepare_unilateral_close_for_execution.
  assert (reads_only (create_unilateral_close_data c)) as Hrd.
  { unfold create_unilateral_close_data. solve_reads. }
  specialize (Hrd h Hwf). unfold mbind, M_bind, mmap_err.
  destruct (create_unilateral_close_data c h) as [[cd|e|] h1]; cbn [fst snd map_err] in *; [|done..].
  destruct (funding_or_internal_eq h1 c (proj1 Hrd)) as (h2 & -> & Hs2).
  pose proof (same_trans _ _ _ Hrd Hs2) as Hs. destruct Hrd as (Hwf1 & Hv1 & _). rewrite Hv1.
  destruct (v_funding (hview h c)) as [f|]; cbn [ok_or]; [|done].
  unfold stored_payment, asks. rewrite hs_payment, (proj1 (proj2 Hs) c) by apply Hs.
  destruct (v_payment (hview h c)) as [p|] eqn:Hp; cbn [ok_or]; [|done]. unfold lift.
  destruct (wrap_close_data cd c (pp_balance p) f) as [pc|e|] eqn:Hw; [|done..].
  rewrite hs_payment, (proj1 (proj2 Hs) c), Hp by apply Hs.
  intros [= <-]. exists f, p. split_and!; [done..|].
  by apply wrap_close_data_Ok, pf_channel in Hw.
Qed.

(** A cooperative close is prepared for the balance of the request only if that is what is
    due. [payment_from_json] is the parser [serde] derives for [Payment]: read from an object,
    it takes the payment's fields from the entries of their names. *)
Context (payment_from_json : string → Result string Payment).
Definition payment_fields : Prop := ∀ json p v c,
  payment_from_json json = Ok p → json_parse json = Ok v → idx_str v "channel_id" = Some c →
  c = pay_channel_id p ∧ idx_u64 v "balance" = Some (pay_balance p) ∧
  idx_str v "signature" = Some (pay_signature p).

Lemma prepare_close_data_due (h : H) c balance signature cd :
  host_wf h → (prepare_close_data c balance signature true h).1 = Ok cd →
  is_Some (v_funding (hview h c)) ∧ balance = due h c None.
Proof.
  intros Hwf. unfold prepare_close_data, mbind at 1, M_bind at 1. rewrite ask_state_eq by done.
  assert (((f ← ask_funding c; funding ← lift (ok_or UnknownChannel f);
     out_keyset ← select_close_output_keyset_from_funding funding;
     prepare_close_data_impl c balance signature funding out_keyset true) h).1 = Ok cd →
    is_Some (v_funding (hview h c)) ∧ balance = due h c None) as Hgo.
  { unfold mbind at 1, M_bind at 1. destruct (ask_funding_eq (E:=BridgeError) h c Hwf) as (h1 & -> & Hs1).
    destruct (v_funding (hview h c)) as [f|]; unfold mbind at 1, M_bind at 1, lift at 1; cbn [ok_or]; [|done].
    unfold mbind at 1, M_bind at 1.
    pose proof (select_from_funding_reads f h1 (proj1 Hs1)) as Hs2.
    destruct (select_close_output_keyset_from_funding f h1) as [[ks|e|] h2]; [|done..]. cbn [snd] in Hs2.
    pose proof (same_trans _ _ _ Hs1 Hs2) as Hs. unfold prepare_close_data_impl, mbind, M_bind, lift, check_due.
    destruct (map_err Internal (load_params _ _ _)) as [params|e|]; [|done..].
    destruct (map_err Internal (proofs_from_json _)) as [proofs|e|]; [|done..].
    destruct (ensure (balance <=? capacity params) _); [|done..]. unfold mbind, M_bind.
    destruct (ask_amount_due_eq (E:=BridgeError) h2 c None (proj1 Hs)) as (h3 & -> & Hs3).
    destruct (Z.eqb_spec balance (due h2 c None)) as [->|]; cbn [negb].
    - intros _. split; [by eexists|]. apply Hs.
    - destruct (ask_amount_due_eq (E:=BridgeError) h3 c None (proj1 Hs3)) as (h4 & -> & _). done. }
  destruct (v_state (hview h c)) as [[]|]; done || exact Hgo.
Qed.

Lemma prepare_cooperative_Ok (h : H) json t :
  host_wf h → payment_fields →
  (prepare_cooperative_close_transition payment_from_json json h).1 = Ok t →
  ∃ p f, payment_from_json json = Ok p ∧ pc_channel_id (pt_prepared_close t) = pay_channel_id p ∧
    pt_payment t = mk_PaymentProof (pay_balance p) (pay_signature p) ∧
    v_funding (hview h (pay_channel_id p)) = Some f ∧ pay_balance p = due h (pay_channel_id p) None.
Proof.
  intros Hwf Hlaw. unfold prepare_cooperative_close_transition, prepare_cooperative_close_for_execution,
    validate_and_prepare_cooperative_close, mbind, M_bind, mmap_err, lift.
  destruct (json_parse json) as [v|e|] eqn:Hv; cbn [map_err]; [|done..].
  destruct (idx_str v "channel_id") as [c|] eqn:Hc; cbn [ok_or]; [|done].
  destruct (payment_from_json json) as [p|e|] eqn:Hp; cbn [map_err]; [|done..].
  destruct (Hlaw json p v c Hp Hv Hc) as (-> & Hb & Hs). rewrite Hb, Hs. cbn [default]. unfold id.
  destruct (pay_channel_id p =? "")%string; [done|]. destruct (pay_signature p =? "")%string; [done|].
  pose proof (prepare_close_data_reads (pay_channel_id p) (pay_balance p) (pay_signature p) true h Hwf) as Hrd.
  destruct (prepare_close_data _ _ _ true h) as [[cd|e|] h1] eqn:Hpd; cbn [map_err snd] in *; [|done..].
  destruct (prepare_close_data_due h _ _ _ cd Hwf (f_equal fst Hpd)) as [[f Hf] Hdue].
  destruct (funding_or_internal_eq h1 (pay_channel_id p) (proj1 Hrd)) as (h2 & -> & _).
  destruct Hrd as (_ & Hv1 & _). rewrite Hv1, Hf. cbn [ok_or map_err fst].
  destruct (wrap_close_data cd (pay_channel_id p) (pay_balance p) f) as [pc|e|] eqn:Hw; [|done..].
  apply wrap_close_data_Ok in Hw as [P1 P2 _ _ _]. intros [= <-]. exists p, f. cbn. by rewrite P1, P2.
Qed.

(** The first step of a cooperative close: a channel that is not known yet is funded with the
    data of the request, and nothing is due on it; a known one is left alone. *)
Context (errors_to_json : list ChannelVerificationError → string).
Lemma record_first_use_spec {HJ : JsonLaws} json (h h1 : H) p :
  receiver_inv h → payment_from_json json = Ok p → is_i63 (pay_balance p) →
  record_cooperative_close_first_use_funding errors_to_json payment_from_json json h = (Ok tt, h1) →
  host_wf h1 ∧
  let c := pay_channel_id p in
  (v_funding (hview h1 c) ≠ None →
   due h1 c None = match v_funding (hview h c) with Some _ => due h c None | None => 0 end).
Proof.
  intros Hinv Hp Hb. pose proof (ri_wf _ Hinv) as Hwf.
  unfold record_cooperative_close_first_use_funding, mbind at 1, M_bind at 1, lift at 1.
  rewrite Hp. cbn [map_err]. set (c := pay_channel_id p).
  assert (host_wf h ∧ (v_funding (hview h c) ≠ None →
    due h c None = match v_funding (hview h c) with Some _ => due h c None | None => 0 end)) as Hsame.
  { split; [done|]. by destruct (v_funding (hview h c)). }
  destruct (c =? "")%string; [by intros [= <-]|]. cbn [orb].
  destruct (String.eqb_spec (pay_signature p) "") as [|Hsig]; [by intros [= <-]|].
  unfold mbind at 1, M_bind at 1, asks at 1. rewrite hs_state by done. cbn [map_err].
  destruct (v_state (hview h c)) as [st|] eqn:Hst; [by intros [= <-]|].
  destruct (pay_params p) as [pv|]; [|by intros [= <-]].
  destruct (pay_funding_proofs p) as [prs|]; [|by intros [= <-]].
  assert (v_funding (hview h c) = None) as Hf by (by apply (vo_known _ (hs_view_ok h c Hwf))).
  unfold mbind at 1, M_bind at 1, asks at 1.
  destruct (validate_new_channel_funding _ h c pv prs _ _) as [v|e|] eqn:Hv; cbn [map_err]; [|done..].
  destruct (validate_new_channel_facts _ _ _ _ _ _ _ _ Hv) as (Hvc & Hvb & Hvs & _).
  unfold mmap_err, record_validated_new_channel, modify. rewrite Hvc, Hvb, Hvs. cbn [map_err].
  destruct (hs_save_funding h c (vn_funding v) (mk_PaymentProof (pay_balance p) (pay_signature p)))
    as (Hwf1 & _ & _ & _ & Hd); [done..|].
  intros [= <-]. split; [done|]. intros _. rewrite Hf. apply Hd, (ri_fresh _ Hinv c Hf).
Qed.

(** C3: a unilateral close collects what the receiver is owed. From any state the invariant
    allows, with other requests only moving channels forward while the close runs, a
    unilateral close that returns [Ok] leaves the channel [Closed] at the balance of the
    latest payment it holds, which covers what is due if the channel was open; the stored
    settlement pays the receiver at least that balance after fees and hands the rest of the
    funding token to the sender. *)
Theorem unilateral_close_collects c x s x' :
  receiver_inv x.1 →
  (∀ url body, within grows fst (call_mint_swap url body)) → (∀ url, within grows fst (refresh url)) →
  execute_unilateral_close call_mint_swap refresh c x = (Ok s, x') →
  ∃ f p params d,
    v_funding (hview x.1 c) = Some f ∧ v_payment (hview x.1 c) = Some p ∧
    (v_state (hview x.1 c) = Some Open → due x.1 c None <= pp_balance p) ∧
    close_authorized f (pp_balance p) (pp_signature p) params ∧
    closed_at c f (pp_balance p) s (hview x'.1 c) d ∧
    (ConstructLaws → RerandomizeLaws → sound_params params → settlement params (pp_balance p) d) ∧
    grows x.1 x'.1.
Proof.
  intros Hinv Hm Hr. unfold execute_unilateral_close, mbind at 1, M_bind at 1, on_host at 1, mmap_err.
  pose proof (ri_wf _ Hinv) as Hwf. pose proof (prepare_unilateral_reads c x.1 Hwf) as Hrd.
  destruct (prepare_unilateral_close_transition c x.1) as [[t|e|] h1] eqn:Ht; [|done..].
  cbn [map_err snd] in *.
  destruct (prepare_unilateral_Ok x.1 c t Hwf (f_equal fst Ht)) as (f & p & Hf & Hp & Htp & Hc).
  pose proof Hrd as (Hwf1 & Hv1 & _). intros Hex. rewrite <-Hc in Hex.
  apply marked_close_closed in Hex as (f' & params & d & Hf' & Hca & Hcl & Hg); [|done| |done..];
    rewrite Hc in *; cbn [fst] in *; rewrite Hv1, Hf in *; [|by eexists].
  injection Hf' as <-. rewrite Htp in *. exists f, p, params, d.
  destruct (ri_authorized _ Hinv c f p Hf Hp) as (_ & _ & _ & H0 & _).
  split_and!; [done|done| |done|done| |].
  - intros Ho. destruct (ri_covered _ Hinv c Ho) as (p' & Hp' & Hd). congruence.
  - intros HC HRr Hs. by apply (cl_settled _ _ _ _ _ _ Hcl); [apply Hca|..].
  - apply (ho_trans _ h1); [|done]. by apply ho_same.
Qed.

(** What a cooperative close that succeeds was asked for and leaves. *)
Lemma cooperative_close_Ok {HJ : JsonLaws} json p x s x' :
  receiver_inv x.1 → payment_fields → payment_from_json json = Ok p → is_i63 (pay_balance p) →
  (∀ url body, within grows fst (call_mint_swap url body)) → (∀ url, within grows fst (refresh url)) →
  execute_cooperative_close errors_to_json payment_from_json call_mint_swap refresh json x = (Ok s, x') →
  let c := pay_channel_id p in
  pay_balance p = match v_funding (hview x.1 c) with Some _ => due x.1 c None | None => 0 end ∧
  ∃ f params d,
    close_authorized f (pay_balance p) (pay_signature p) params ∧
    closed_at c f (pay_balance p) s (hview x'.1 c) d ∧
    (ConstructLaws → RerandomizeLaws → sound_params params → settlement params (pay_balance p) d).
Proof.
  intros Hinv Hlaw Hp Hb Hm Hr.
  unfold execute_cooperative_close, mbind at 1, M_bind at 1, on_host at 1.
  destruct (record_cooperative_close_first_use_funding _ _ json x.1) as [[[]|e|] h0] eqn:H0; [|done..].
  destruct (record_first_use_spec json x.1 h0 p Hinv Hp Hb H0) as [Hwf0 Hd0].
  unfold mbind at 1, M_bind at 1, on_host at 1, mmap_err. cbn [fst snd].
  pose proof (prepare_cooperative_reads payment_from_json json h0 Hwf0) as Hrd.
  destruct (prepare_cooperative_close_transition _ json h0) as [[t|e|] h1] eqn:Ht; [|done..].
  cbn [map_err snd] in *.
  destruct (prepare_cooperative_Ok h0 json t Hwf0 Hlaw (f_equal fst Ht)) as (p' & f & Hp' & Hc & Htp & Hf & Hdue).
  assert (p' = p) as -> by congruence. clear Hp'.
  pose proof Hrd as (Hwf1 & Hv1 & _). intros Hex.
  apply marked_close_closed in Hex as (f' & params & d & Hf' & Hca & Hcl & _); [|done| |done..];
    rewrite Hc in *; cbn [fst] in *; rewrite Hv1, Hf in *; [|by eexists].
  injection Hf' as <-. rewrite Htp in *. split; [rewrite Hdue; by apply Hd0|].
  exists f, params, d. split_and!; [done..|]. intros HC HRr Hs.
  apply (cl_settled _ _ _ _ _ _ Hcl); [apply Hca|done|apply Hb].
Qed.
(** C7: a cooperative close settles for exactly what is due. With other requests only moving
    channels forward while it runs, a cooperative close that returns [Ok] was asked for the
    amount due on the channel (nothing, for a channel it had to fund first), signed by the
    sender, and leaves the channel [Closed] at that balance with a settlement that pays it. *)
Theorem cooperative_close_exact {HJ : JsonLaws} json p x s x' :
  receiver_inv x.1 → payment_fields → payment_from_json json = Ok p → is_i63 (pay_balance p) →
  (∀ url body, within grows fst (call_mint_swap url body)) → (∀ url, within grows fst (refresh url)) →
  execute_cooperative_close errors_to_json payment_from_json call_mint_swap refresh json x = (Ok s, x') →
  let c := pay_channel_id p in
  pay_balance p = match v_funding (hview x.1 c) with Some _ => due x.1 c None | None => 0 end ∧
  ∃ f params d,
    close_authorized f (pay_balance p) (pay_signature p) params ∧
    closed_at c f (pay_balance p) s (hview x'.1 c) d ∧
    (ConstructLaws → RerandomizeLaws → sound_params params → settlement params (pay_balance p) d).
Proof. apply cooperative_close_Ok. Qed.

(** ** Closes that fail *)

(** What a failed close may leave behind: the channel as it was, or marked [Closing] for a
    payment; and, before that, the funding of a channel that was not known. *)
Definition perhaps_marked (p : PaymentProof) (v v' : ChannelView) : Prop :=
  v' = v ∨ ∃ expiry, spec_step (MarkClosing (mk_ClosingData expiry (pp_balance p) (pp_signature p))) v = Some v'.
Definition perhaps_funded (p : PaymentProof) (v v' : ChannelView) : Prop :=
  v' = v ∨ v_state v = None ∧ ∃ f,
    v' = mk_ChannelView (Some f) (Some p) (v_usage v) (Some Open) (v_closing v) (v_closed v) (v_journal v).
Definition elsewhere (c : string) (h h' : H) : Prop := ∀ d, d ≠ c → hview h' d = hview h d.
Definition left_by_cooperative (p : Payment) (h h' : H) : Prop :=
  let c := pay_channel_id p in let pp := mk_PaymentProof (pay_balance p) (pay_signature p) in
  elsewhere c h h' ∧ ∃ h0, perhaps_funded pp (hview h c) (hview h0 c) ∧
    (hview h' c = hview h0 c ∨ pay_balance p = due h0 c None ∧ perhaps_marked pp (hview h0 c) (hview h' c)).

Context (mint_quiet : ∀ url body, within quiet fst (call_mint_swap url body)).
Context (refresh_quiet : ∀ url, within quiet fst (refresh url)).
Lemma execute_close_failed c x e x' :
  host_wf x.1 → execute_close_for_closing_channel call_mint_swap refresh c x = (Err e, x') →
  host_wf x'.1 ∧ ∀ d, hview x'.1 d = hview x.1 d.
Proof.
  intros Hwf Hex. apply (execute_close_spec call_mint_swap refresh quiet mint_quiet refresh_quiet) in Hex; [|done].
  destruct Hex as (h2 & [_ Hq] & Hwf' & Hv). split; [done|]. intros d. by rewrite Hv, Hq.
Qed.
Lemma marked_close_failed t x e x' :
  let c := pc_channel_id (pt_prepared_close t) in
  host_wf x.1 → is_Some (v_funding (hview x.1 c)) →
  (on_host (mark_prepared_close_closing t) ≫= λ _,
     execute_close_for_closing_channel call_mint_swap refresh c) x = (Err e, x') →
  host_wf x'.1 ∧ elsewhere c x.1 x'.1 ∧ perhaps_marked (pt_payment t) (hview x.1 c) (hview x'.1 c).
Proof.
  intros c Hwf Hf. unfold on_host, mark_prepared_close_closing, mbind, M_bind. fold c.
  pose proof (hs_mark_closing x.1 c (pt_expiry_timestamp t) (pt_payment t) Hwf Hf) as Hc.
  cbv zeta in Hc. destruct (mark_channel_closing x.1 c _ _) as [r h1]. cbn [fst snd] in Hc.
  destruct Hc as (Hwf1 & Hframe & _ & Hc). destruct (spec_step _ _) as [v|] eqn:Hs.
  - destruct Hc as [-> Hv1]. cbn [map_err]. intros [Hwf' Hv]%execute_close_failed; [|done]. cbn [fst] in *.
    split_and!; [done|intros d Hd; by rewrite Hv, Hframe|]. right. eexists. by rewrite Hv, Hv1.
  - destruct Hc as [[e' ->] Hv1]. intros [= _ <-]. by split_and!; [..|left].
Qed.
Lemma record_first_use_view {HJ : JsonLaws} json (h h1 : H) r :
  host_wf h → (∀ p, payment_from_json json = Ok p → is_i63 (pay_balance p)) →
  record_cooperative_close_first_use_funding errors_to_json payment_from_json json h = (r, h1) →
  host_wf h1 ∧ (h1 = h ∨ ∃ p, payment_from_json json = Ok p ∧ elsewhere (pay_channel_id p) h h1 ∧
    perhaps_funded (mk_PaymentProof (pay_balance p) (pay_signature p)) (hview h (pay_channel_id p)) (hview h1 (pay_channel_id p))).
Proof.
  intros Hwf Hb. unfold record_cooperative_close_first_use_funding, mbind at 1, M_bind at 1, lift at 1.
  destruct (payment_from_json json) as [p|e|]; cbn [map_err]; [|intros [= _ <-]; by split; [|left]..].
  specialize (Hb p eq_refl). destruct (_ || _) eqn:He; [intros [= _ <-]; by split; [|left]|].
  apply orb_false_iff in He as [_ Hsig]. apply String.eqb_neq in Hsig.
  unfold mbind at 1, M_bind at 1, asks at 1. rewrite hs_state by done. cbn [map_err].
  destruct (v_state (hview h (pay_channel_id p))) as [st|] eqn:Hst; [intros [= _ <-]; by split; [|left]|].
  destruct (pay_params p) as [pv|]; [|intros [= _ <-]; by split; [|left]].
  destruct (pay_funding_proofs p) as [prs|]; [|intros [= _ <-]; by split; [|left]].
  unfold mbind at 1, M_bind at 1, asks at 1.
  destruct (validate_new_channel_funding _ h _ pv prs _ _) as [v|e|] eqn:Hv; cbn [map_err]; [|intros [= _ <-]; by split; [|left]..].
  destruct (validate_new_channel_facts _ _ _ _ _ _ _ _ Hv) as (Hvc & Hvb & Hvs & _).
  unfold mmap_err, record_validated_new_channel, modify. rewrite Hvc, Hvb, Hvs. cbn [map_err].
  destruct (hs_save_funding h (pay_channel_id p) (vn_funding v) (mk_PaymentProof (pay_balance p) (pay_signature p)))
    as (Hwf1 & Hview & Hframe & _); [done|by apply (vo_known _ (hs_view_ok h _ Hwf))|done..|].
  intros [= _ <-]. split; [done|]. right. exists p. split_and!; [done..|]. right. eauto.
Qed.

Lemma cooperative_close_failed {HJ : JsonLaws} json x e x' :
  host_wf x.1 → payment_fields → (∀ p, payment_from_json json = Ok p → is_i63 (pay_balance p)) →
  execute_cooperative_close errors_to_json payment_from_json call_mint_swap refresh json x = (Err e, x') →
  host_wf x'.1 ∧ ((∀ d, hview x'.1 d = hview x.1 d) ∨ ∃ p, payment_from_json json = Ok p ∧ left_by_cooperative p x.1 x'.1).
Proof.
  intros Hwf Hlaw Hb. unfold execute_cooperative_close, mbind at 1, M_bind at 1, on_host at 1.
  destruct (record_cooperative_close_first_use_funding _ _ json x.1) as [r0 h0] eqn:H0.
  destruct (record_first_use_view json x.1 h0 r0 Hwf Hb H0) as [Hwf0 Hv0].
  assert (∀ y : H, (∀ d, hview y d = hview h0 d) → (∀ d, hview y d = hview x.1 d) ∨
    ∃ p, payment_from_json json = Ok p ∧ left_by_cooperative p x.1 y) as Hearly.
  { intros y Hy. destruct Hv0 as [->|(p & Hp & Hel & Hfd)]; [by left|]. right. exists p. split; [done|].
    split; [intros d Hd; by rewrite Hy, Hel|]. exists h0. split; [done|by left]. }
  destruct r0 as [[]|e0|]; [|intros [= _ <-]; by split; [|apply Hearly]|done].
  unfold mbind at 1, M_bind at 1, on_host at 1, mmap_err. cbn [fst snd].
  pose proof (prepare_cooperative_reads payment_from_json json h0 Hwf0) as Hrd.
  destruct (prepare_cooperative_close_transition _ json h0) as [[t|e'|] h1] eqn:Ht; cbn [map_err snd] in *;
    [|intros [= _ <-]; destruct Hrd as (? & Hv & _); by split; [|apply Hearly]|done].
  destruct (prepare_cooperative_Ok h0 json t Hwf0 Hlaw (f_equal fst Ht)) as (p & f & Hp & Hc & Htp & Hf & Hdue).
  destruct Hrd as (Hwf1 & Hv1 & _). intros Hex.
  apply marked_close_failed in Hex as (Hwf' & Hel & Hm); [|done|cbn; rewrite Hc, Hv1, Hf; by eexists].
  cbn [fst] in *. rewrite Hc, Htp, Hv1 in *. split; [done|]. right. exists p. split; [done|].
  assert (elsewhere (pay_channel_id p) x.1 h0 ∧ perhaps_funded (mk_PaymentProof (pay_balance p) (pay_signature p))
    (hview x.1 (pay_channel_id p)) (hview h0 (pay_channel_id p))) as [Hel0 Hfd].
  { destruct Hv0 as [->|(p' & Hp' & ? & ?)]; [split; [by intros ? _|by left]|]. rewrite Hp in Hp'. by injection Hp' as <-. }
  split; [intros d Hd; by rewrite Hel, Hv1, Hel0|]. exists h0. eauto.
Qed.

(** C34: a close that fails, at any step and for any reason, loses nothing. If nothing else
    touches the channels meanwhile, then a failed close of a channel that was already marked
    [Closing] leaves every channel as it was; a failed unilateral close at most marks its
    channel [Closing] for the payment that it holds; and a failed cooperative close at most
    records the channel of the request, if it was not known, and marks it [Closing] for the
    payment of the request, which is the amount due. Other channels stay as they were. *)
Theorem failed_close_loses_nothing {HJ : JsonLaws} x :
  host_wf x.1 → payment_fields →
  (∀ c e x', execute_close_for_closing_channel call_mint_swap refresh c x = (Err e, x') →
     host_wf x'.1 ∧ ∀ d, hview x'.1 d = hview x.1 d) ∧
  (∀ c e x', execute_unilateral_close call_mint_swap refresh c x = (Err e, x') →
     host_wf x'.1 ∧ elsewhere c x.1 x'.1 ∧
     (hview x'.1 c = hview x.1 c ∨
      ∃ p, v_payment (hview x.1 c) = Some p ∧ perhaps_marked p (hview x.1 c) (hview x'.1 c))) ∧
  (∀ json e x', (∀ p, payment_from_json json = Ok p → is_i63 (pay_balance p)) →
     execute_cooperative_close errors_to_json payment_from_json call_mint_swap refresh json x = (Err e, x') →
     host_wf x'.1 ∧
     ((∀ d, hview x'.1 d = hview x.1 d) ∨
      ∃ p, payment_from_json json = Ok p ∧ left_by_cooperative p x.1 x'.1)).
Proof.
  intros Hwf Hlaw. split_and!.
  - intros c e x'. by apply execute_close_failed.
  - intros c e x'. unfold execute_unilateral_close, mbind at 1, M_bind at 1, on_host at 1, mmap_err.
    pose proof (prepare_unilateral_reads c x.1 Hwf) as Hrd.
    destruct (prepare_unilateral_close_transition c x.1) as [[t|e'|] h1] eqn:Ht; cbn [map_err snd] in *;
      [|intros [= _ <-]; destruct Hrd as (? & Hv & _); split_and!; [done|intros ? _; apply Hv|left; apply Hv]|done].
    destruct (prepare_unilateral_Ok x.1 c t Hwf (f_equal fst Ht)) as (f & p & Hf & Hp & Htp & Hc).
    destruct Hrd as (Hwf1 & Hv1 & _). intros Hex. rewrite <-Hc in Hex.
    apply marked_close_failed in Hex as (Hwf' & Hel & Hm); [|done|cbn; rewrite Hc, Hv1, Hf; by eexists].
    cbn [fst] in *. rewrite Hc, Htp, Hv1 in *. split_and!; [done|intros d Hd; by rewrite Hel, Hv1|eauto].
  - intros json e x'. by apply cooperative_close_failed.
Qed.
End theorems.

Module Examples.
#[local] Existing Instance Toy.types.
#[local] Existing Instance Toy.ops.
#[local] Existing Instance Toy.json_laws.
#[local] Existing Instance Toy.construct_laws.
#[local] Existing Instance Toy.rerandomize_laws.
Import Bridge.Examples.
#[local] Existing Instance toy_host.
#[local] Existing Instance toy_host_spec.
Abbreviation HostState := (ConfigurableHost MemoryStorage).

(** A mint that signs every request with its keys and leaves the host alone, one that cannot
    be reached, and a refresher that finds nothing new. *)
Definition answer (body : string) : Result string string :=
  v ← json_parse body;
  r ← swap_request_from_value v;
  swap_response_to_json (mk_SwapResponse ((λ m, Toy.sign (bm_amount m + 10) m) <$> sr_outputs r) None).
Definition honest_mint (url body : string) : M (HostState * unit) MintRequestError string :=
  λ x, (map_err Transport (answer body), x).
Definition dead_mint (url body : string) : M (HostState * unit) MintRequestError string :=
  λ x, (Err (Transport "timeout"), x).
Definition no_refresh (url : string) : M (HostState * unit) string unit := λ x, (Ok tt, x).

Lemma unchanged_within {E A} (R : HostState → HostState → Prop) `{!HostOrder R} (r : Result E A) :
  within (S:=HostState * unit) R fst (λ x, (r, x)).
Proof. intros x Hwf. apply ho_same; [done|]. by apply same_refl. Qed.

Lemma paid_inv : receiver_inv paid.2.
Proof.
  pose proof (process_payment_spec show_errors funded cid 10 sig10 None None "req" funded_inv) as Hp.
  unfold paid. destruct (process_payment show_errors cid 10 sig10 None None "req" funded).
  apply Hp; [unfold is_i63; lia|exact funded_context_ok].
Qed.

(** The parameters that the receiver stored are in the range of the theorems. *)
Lemma stored_sound q f :
  v_funding (hview paid.2 cid) = Some f →
  load_params (params_json f) (channel_secret_hex f) (keyset_info_json f) = Ok q → sound_params q.
Proof.
  assert (match v_funding (hview paid.2 cid) with
          | Some f => match load_params (params_json f) (channel_secret_hex f) (keyset_info_json f) with
                      | Ok q => bool_decide (q = Channel.Examples.params) | _ => false end
          | None => false end = true) as Hl by (vm_compute; reflexivity).
  intros Hf Hq. rewrite Hf, Hq in Hl. apply bool_decide_eq_true_1 in Hl as ->. exact Channel.Examples.example_params_sound.
Qed.

(** The channel of [Bridge.Examples], paid up to 10, closed by the receiver. *)
Definition closed : Result CloseError CloseSuccess * (HostState * unit) :=
  execute_unilateral_close honest_mint no_refresh cid (paid.2, tt).
Lemma unilateral_close_collects_witness :
  ∃ s d q, closed.1 = Ok s ∧ v_closed (hview closed.2.1 cid) = Some d ∧
    closed_amount d = 10 ∧ settlement q 10 d.
Proof.
  assert (is_ok closed.1 = true) as Hok by (vm_compute; reflexivity).
  assert (pp_balance <$> v_payment (hview paid.2 cid) = Some 10) as Hp10 by (vm_compute; reflexivity).
  destruct closed as [[s|e|] x'] eqn:Hc; [|discriminate Hok..]. clear Hok.
  destruct (unilateral_close_collects honest_mint no_refresh cid (paid.2, tt) s x' paid_inv
    (λ _ _, unchanged_within _ _) (λ _, unchanged_within _ _) Hc)
    as (f & p & q & d & Hf & Hp & _ & Hca & Hcl & Hs & _).
  cbn [fst] in Hp, Hf. rewrite Hp in Hp10. injection Hp10 as Hp10. rewrite Hp10 in *.
  exists s, d, q. split_and!; [reflexivity|exact (cl_record _ _ _ _ _ _ Hcl)|exact (cl_balance _ _ _ _ _ _ Hcl)|].
  apply Hs; [exact _|exact _|]. exact (stored_sound q f Hf (ca_params _ _ _ _ Hca)).
Defined.

(** The sender asks for a close at 2, which is what the one request served has cost. *)
Definition payment_of (json : string) : Result string Payment :=
  v ← json_parse json;
  c ← ok_or "channel_id" (idx_str v "channel_id");
  b ← ok_or "balance" (idx_u64 v "balance");
  g ← ok_or "signature" (idx_str v "signature");
  Ok (mk_Payment c b g None None).
Lemma payment_of_fields : payment_fields payment_of.
Proof.
  intros json p v c Hp Hv Hc. unfold payment_of in Hp. rewrite Hv in Hp. cbn [mbind Result_bind] in Hp.
  rewrite Hc in Hp. cbn [ok_or mbind Result_bind] in Hp.
  destruct (idx_u64 v "balance"); cbn [ok_or mbind Result_bind] in Hp; [|discriminate Hp].
  destruct (idx_str v "signature"); cbn [ok_or mbind Result_bind] in Hp; [|discriminate Hp].
  by injection Hp as <-.
Qed.
Definition sig2 : string := Eval vm_compute in sign 2.
Definition close_json : string :=
  json_print (json_obj [("channel_id", json_str cid); ("balance", json_num 2); ("signature", json_str sig2)]).
Definition agreed : Result CloseError CloseSuccess * (HostState * unit) :=
  execute_cooperative_close show_errors payment_of honest_mint no_refresh close_json (paid.2, tt).
Lemma cooperative_close_exact_witness :
  due paid.2 cid None = 2 ∧ v_state (hview agreed.2.1 cid) = Some Closed.
Proof.
  assert (is_ok agreed.1 = true) as Hok by (vm_compute; reflexivity).
  destruct agreed as [[s|e|] x'] eqn:Hc; [|discriminate Hok..]. clear Hok.
  destruct (cooperative_close_exact honest_mint no_refresh payment_of show_errors close_json
    (mk_Payment cid 2 sig2 None None) (paid.2, tt) s x' paid_inv payment_of_fields
    ltac:(vm_compute; reflexivity) ltac:(split; [discriminate|reflexivity])
    (λ _ _, unchanged_within _ _) (λ _, unchanged_within _ _) Hc) as (Hdue & f & params & d & _ & Hcl & _).
  split; [|exact (cl_state _ _ _ _ _ _ Hcl)]. cbn [pay_balance pay_channel_id fst] in Hdue.
  destruct (v_funding (hview paid.2 cid)); [by symmetry|discriminate Hdue].
Defined.

(** The receiver closes while the mint cannot be reached. *)
Definition marked : HostState :=
  (mark_channel_closing paid.2 cid 2000 (mk_PaymentProof 10 sig10)).2.
Definition stuck : Result CloseError CloseSuccess * (HostState * unit) :=
  execute_close_for_closing_channel dead_mint no_refresh cid (marked, tt).
Example stuck_error : stuck.1 = Err (MintRequestFailed (Transport "timeout") None 502).
Proof. vm_compute. reflexivity. Qed.
Lemma paid_funding : is_Some (v_funding (hview paid.2 cid)).
Proof.
  assert (is_ok (ok_or "" (v_funding (hview paid.2 cid))) = true) as Hb by (vm_compute; reflexivity).
  destruct (v_funding (hview paid.2 cid)); [by eexists|discriminate Hb].
Qed.
Lemma marked_wf : host_wf marked.
Proof.
  unfold marked. generalize (ri_wf _ paid_inv), paid_funding. generalize paid.2. intros h Hwf Hf.
  exact (proj1 (hs_mark_closing h cid 2000 (mk_PaymentProof 10 sig10) Hwf Hf)).
Qed.
Definition stuck_unilateral : Result CloseError CloseSuccess * (HostState * unit) :=
  execute_unilateral_close dead_mint no_refresh cid (paid.2, tt).
Example stuck_unilateral_error : stuck_unilateral.1 = Err (MintRequestFailed (Transport "timeout") None 502).
Proof. vm_compute. reflexivity. Qed.
Lemma failed_close_loses_nothing_witness :
  (∃ e, stuck.1 = Err e ∧ hview stuck.2.1 cid = hview marked cid) ∧
  (∃ e, stuck_unilateral.1 = Err e ∧
     (hview stuck_unilateral.2.1 cid = hview paid.2 cid ∨
      ∃ p, v_payment (hview paid.2 cid) = Some p ∧ perhaps_marked p (hview paid.2 cid) (hview stuck_unilateral.2.1 cid))).
Proof.
  split.
  - pose proof stuck_error as He. destruct stuck as [r x'] eqn:Hs. cbn [fst] in He. subst r.
    eexists. split; [reflexivity|]. unfold stuck in Hs.
    destruct (failed_close_loses_nothing dead_mint no_refresh payment_of show_errors
      (λ _ _, unchanged_within _ _) (λ _, unchanged_within _ _) (marked, tt) marked_wf payment_of_fields) as [Hv _].
    exact (proj2 (Hv cid _ x' Hs) cid).
  - pose proof stuck_unilateral_error as He. destruct stuck_unilateral as [r x'] eqn:Hs. cbn [fst] in He. subst r.
    eexists. split; [reflexivity|]. unfold stuck_unilateral in Hs.
    destruct (failed_close_loses_nothing dead_mint no_refresh payment_of show_errors
      (λ _ _, unchanged_within _ _) (λ _, unchanged_within _ _) (paid.2, tt) (ri_wf _ paid_inv) payment_of_fields) as (_ & Hv & _).
    exact (proj2 (proj2 (Hv cid _ x' Hs))).
Defined.

(** The last step of the unilateral close on its own. *)
Definition transition10 : Result ClosePreparationError PreparedCloseTransition :=
  (prepare_unilateral_close_transition cid paid.2).1.
Lemma close_sums_bounded_witness :
  ∃ prep resp s, transition10 = Ok prep ∧
    answer (json_print (pc_swap_request (pt_prepared_close prep))) = Ok resp ∧
    (finalize_close resp (pt_prepared_close prep) marked).1 = Ok s ∧
    cs_total_value s = cs_receiver_sum s + cs_sender_sum s.
Proof.
  assert (match transition10 with
          | Ok t => let prep := pt_prepared_close t in
              match answer (json_print (pc_swap_request prep)) with
              | Ok resp => is_ok (finalize_close resp prep marked).1 && (pc_balance prep =? 10)
                  && match load_params (pc_params_json prep) (pc_channel_secret prep)
                             (pc_keyset_info_json prep) with
                     | Ok q => bool_decide (q = Channel.Examples.params)
                     | _ => false end
              | _ => false end
          | _ => false end = true) as Hok by (vm_compute; reflexivity).
  destruct transition10 as [t| |]; [|discriminate Hok..].
  cbv zeta in Hok. destruct (answer (json_print _)) as [resp| |] eqn:Ha; [|discriminate Hok..].
  rewrite !andb_true_iff, Z.eqb_eq in Hok. destruct Hok as [[Hok Hb] Hl].
  destruct (finalize_close resp (pt_prepared_close t) marked) as [[s| |] h'] eqn:Hfin; [|discriminate Hok..].
  destruct (load_params _ _ _) as [q| |] eqn:Hq; [|discriminate Hl..].
  apply bool_decide_eq_true_1 in Hl as ->. exists t, resp, s. rewrite Hfin. split_and!; [reflexivity|exact Ha|reflexivity|].
  refine (proj1 (proj2 (proj2 (close_sums_bounded marked h' resp (pt_prepared_close t) s
    Channel.Examples.params marked_wf Hfin Hq Channel.Examples.example_params_sound _)))). rewrite Hb. discriminate.
Defined.
End Examples.
