(* ===== verification/ClientStorage.v ===== *)
(** * The sender's channel storage ([client_storage.rs], [sqlite_client_storage.rs])

    The records a client keeps of a channel, the trait [ClientStorage], and its two
    implementations, in memory and in SQLite. The specification they share and the theorems
    are in [ClientStorageSpec.v]. *)

From S2P Require Import Prelude Cashu Storage.

(** ** Data *)

Record ClientChannelOpeningFromSwap := mk_ClientChannelOpeningFromSwap {
  op_params_json : string;
  op_channel_secret_hex : string;
  op_keyset_info_json : string;
  op_sender_pubkey_hex : string;
  op_receiver_pubkey_hex : string;
  op_capacity : Z;
  op_funding_token_amount : Z;
  op_mint_url : string;
  op_unit : string;
  op_input_token : string;
  op_change_secrets_json : string;
  op_change_amount_raw : Z;
  op_created_at : Z;
}.
Record ClientChannelFunding := mk_ClientChannelFunding {
  cf_params_json : string;
  cf_funding_proofs_json : string;
  cf_channel_secret_hex : string;
  cf_keyset_info_json : string;
  cf_sender_pubkey_hex : string;
  cf_capacity : Z;
  cf_funding_token_amount : Z;
  cf_mint_url : string;
  cf_created_at : Z;
}.
Record ClientPaymentState := mk_ClientPaymentState {
  ps_balance : Z;
  ps_signature : string;
  ps_payment_count : Z;
  ps_last_payment_at : Z;
}.
Record ClientKeysetCacheEntry {T : CashuTypes} := mk_ClientKeysetCacheEntry {
  ck_info_json : string;
  ck_active : bool;
  ck_unit : CurrencyUnit;
}.
Arguments mk_ClientKeysetCacheEntry {T} _ _ _.
Record ClientOpeningFailure := mk_ClientOpeningFailure {
  fl_stage : string;
  fl_message : string;
  fl_failed_at : Z;
}.
Inductive ClientChannelState :=
| OpeningFromSwap | OpeningFailed | ClientOpen | ClientClosing | ClientClosed.

Definition is_payable (st : ClientChannelState) : bool :=
  match st with ClientOpen => true | _ => false end.

#[global] Instance ClientChannelOpeningFromSwap_eq : EqDecision ClientChannelOpeningFromSwap.
Proof. solve_decision. Defined.
#[global] Instance ClientChannelFunding_eq : EqDecision ClientChannelFunding.
Proof. solve_decision. Defined.
#[global] Instance ClientPaymentState_eq : EqDecision ClientPaymentState.
Proof. solve_decision. Defined.
#[global] Instance ClientOpeningFailure_eq : EqDecision ClientOpeningFailure.
Proof. solve_decision. Defined.
#[global] Instance ClientChannelState_eq : EqDecision ClientChannelState.
Proof. solve_decision. Defined.
#[global] Instance ClientKeysetCacheEntry_eq {T : CashuTypes} : EqDecision ClientKeysetCacheEntry.
Proof. solve_decision. Defined.

(** The funding record of an opening that completes with the given proofs. *)
Definition funding_of_opening (o : ClientChannelOpeningFromSwap) (funding_proofs_json : string) :
    ClientChannelFunding :=
  mk_ClientChannelFunding (op_params_json o) funding_proofs_json (op_channel_secret_hex o)
    (op_keyset_info_json o) (op_sender_pubkey_hex o) (op_capacity o) (op_funding_token_amount o)
    (op_mint_url o) (op_created_at o).

(** ** The trait [ClientStorage] *)

Class ClientStorage {T : CashuTypes} (S : Type) := {
  save_opening_from_swap : S → string → ClientChannelOpeningFromSwap → Result string unit * S;
  set_open : S → string → string → Result string unit * S;
  get_opening_from_swap : S → string → Result string (option ClientChannelOpeningFromSwap);
  set_opening_failed : S → string → ClientOpeningFailure → Result string unit * S;
  get_opening_failure : S → string → option ClientOpeningFailure;
  client_get_funding : S → string → option ClientChannelFunding;
  get_payment_state : S → string → option ClientPaymentState;
  save_payment_state : S → string → ClientPaymentState → Result string unit * S;
  client_get_state : S → string → option ClientChannelState;
  client_set_closed : S → string → Result string unit * S;
  client_set_closing : S → string → Result string unit * S;
  list_channel_ids : S → list string;
  client_delete : S → string → Result string unit * S;
  client_get_keyset : S → string → Id → option ClientKeysetCacheEntry;
  client_set_keyset : S → string → Id → ClientKeysetCacheEntry → Result string unit * S;
  client_get_active_keyset_ids : S → string → CurrencyUnit → list Id;
  client_list_keysets_for_unit : S → string → CurrencyUnit → list (Id * ClientKeysetCacheEntry);
}.

(** ** [MemoryClientStorage] *)

Record MemoryClientStorage {T : CashuTypes} := mk_MemoryClientStorage {
  cm_opening : gmap string ClientChannelOpeningFromSwap;
  cm_funding : gmap string ClientChannelFunding;
  cm_payments : gmap string ClientPaymentState;
  cm_states : gmap string ClientChannelState;
  cm_failures : gmap string ClientOpeningFailure;
  cm_keysets : gmap (string * Id) ClientKeysetCacheEntry;
}.
Arguments mk_MemoryClientStorage {T} _ _ _ _ _ _.

Section memory.
Context {T : CashuTypes} {O : CashuOps}.
Implicit Types s : MemoryClientStorage.

Definition MemoryClientStorage_new : MemoryClientStorage := mk_MemoryClientStorage ∅ ∅ ∅ ∅ ∅ ∅.
(** [HashSet] of the keys of both maps. *)
Definition cmem_channel_count s : Z := Z.of_nat (size (dom (cm_opening s) ∪ dom (cm_funding s) : gset string)).

Definition cmem_save_opening s (c : string) (opening : ClientChannelOpeningFromSwap) :
    Result string unit * MemoryClientStorage :=
  match cm_states s !! c with
  | None =>
      (Ok tt, mk_MemoryClientStorage (<[c := opening]> (cm_opening s)) (cm_funding s) (cm_payments s)
                (<[c := OpeningFromSwap]> (cm_states s)) (cm_failures s) (cm_keysets s))
  | Some st =>
      if bool_decide (st = OpeningFromSwap ∨ st = OpeningFailed)
         && bool_decide (cm_opening s !! c = Some opening)
      then (Ok tt, mk_MemoryClientStorage (cm_opening s) (cm_funding s) (cm_payments s)
                     (<[c := OpeningFromSwap]> (cm_states s)) (delete c (cm_failures s)) (cm_keysets s))
      else (Err ("channel " +:+ c +:+ " already exists with different opening or lifecycle state"), s)
  end.

Definition cmem_set_open s (c funding_proofs_json : string) : Result string unit * MemoryClientStorage :=
  match cm_states s !! c with
  | Some OpeningFromSwap =>
      match cm_opening s !! c with
      | None => (Err ("channel " +:+ c +:+ " has corrupt OpeningFromSwap state"), s)
      | Some opening =>
          (Ok tt, mk_MemoryClientStorage (delete c (cm_opening s))
                    (<[c := funding_of_opening opening funding_proofs_json]> (cm_funding s)) (cm_payments s)
                    (<[c := ClientOpen]> (cm_states s)) (delete c (cm_failures s)) (cm_keysets s))
      end
  | Some ClientOpen | Some ClientClosing | Some ClientClosed =>
      match cm_funding s !! c with
      | None => (Err ("channel " +:+ c +:+ " has corrupt completed funding state"), s)
      | Some funding =>
          if String.eqb (cf_funding_proofs_json funding) funding_proofs_json then (Ok tt, s)
          else (Err ("channel " +:+ c +:+ " was completed with different funding proofs"), s)
      end
  | _ => (Err ("channel " +:+ c +:+ " is not in OpeningFromSwap state"), s)
  end.

Definition cmem_get_opening s (c : string) : Result string (option ClientChannelOpeningFromSwap) :=
  if bool_decide (cm_states s !! c ≠ Some OpeningFromSwap) then Ok None
  else Some <$> ok_or ("channel " +:+ c +:+ " has corrupt OpeningFromSwap state") (cm_opening s !! c).

Definition cmem_set_opening_failed s (c : string) (failure : ClientOpeningFailure) :
    Result string unit * MemoryClientStorage :=
  if negb (bool_decide (is_Some (cm_opening s !! c)))
  then (Err ("channel " +:+ c +:+ " is not in OpeningFromSwap state"), s)
  else (Ok tt, mk_MemoryClientStorage (cm_opening s) (cm_funding s) (cm_payments s)
                 (<[c := OpeningFailed]> (cm_states s)) (<[c := failure]> (cm_failures s)) (cm_keysets s)).

Definition cmem_get_opening_failure s (c : string) : option ClientOpeningFailure :=
  if bool_decide (cm_states s !! c ≠ Some OpeningFailed) then None else cm_failures s !! c.

Definition cmem_save_payment_state s (c : string) (st : ClientPaymentState) :
    Result string unit * MemoryClientStorage :=
  (Ok tt, mk_MemoryClientStorage (cm_opening s) (cm_funding s) (<[c := st]> (cm_payments s))
            (cm_states s) (cm_failures s) (cm_keysets s)).

Definition cmem_set_state s (c : string) (st : ClientChannelState) : Result string unit * MemoryClientStorage :=
  (Ok tt, mk_MemoryClientStorage (cm_opening s) (cm_funding s) (cm_payments s)
            (<[c := st]> (cm_states s)) (cm_failures s) (cm_keysets s)).
Definition cmem_set_closed s (c : string) : Result string unit * MemoryClientStorage :=
  cmem_set_state s c ClientClosed.
Definition cmem_set_closing s (c : string) : Result string unit * MemoryClientStorage :=
  cmem_set_state s c ClientClosing.

(** The iteration order of a [HashSet] or [HashMap] is unspecified; the model takes one and
    the theorems speak of membership. *)
Definition cmem_list_channel_ids s : list string :=
  elements (dom (cm_opening s) ∪ dom (cm_funding s) : gset string).
Definition cmem_delete s (c : string) : Result string unit * MemoryClientStorage :=
  (Ok tt, mk_MemoryClientStorage (delete c (cm_opening s)) (delete c (cm_funding s))
            (delete c (cm_payments s)) (delete c (cm_states s)) (delete c (cm_failures s)) (cm_keysets s)).

Definition cmem_get_keyset s (mint : string) (id : Id) : option ClientKeysetCacheEntry :=
  cm_keysets s !! (mint, id).
Definition cmem_set_keyset s (mint : string) (id : Id) (entry : ClientKeysetCacheEntry) :
    Result string unit * MemoryClientStorage :=
  (Ok tt, mk_MemoryClientStorage (cm_opening s) (cm_funding s) (cm_payments s) (cm_states s)
            (cm_failures s) (<[(mint, id) := entry]> (cm_keysets s))).
Definition cmem_get_active_keyset_ids s (mint : string) (u : CurrencyUnit) : list Id :=
  (λ e : string * Id * ClientKeysetCacheEntry, e.1.2) <$>
    filter (λ e, e.1.1 = mint ∧ ck_active e.2 = true ∧ ck_unit e.2 = u) (map_to_list (cm_keysets s)).
Definition cmem_list_keysets_for_unit s (mint : string) (u : CurrencyUnit) :
    list (Id * ClientKeysetCacheEntry) :=
  (λ e : string * Id * ClientKeysetCacheEntry, (e.1.2, e.2)) <$>
    filter (λ e, e.1.1 = mint ∧ ck_unit e.2 = u) (map_to_list (cm_keysets s)).

#[global] Instance memory_client_storage : ClientStorage MemoryClientStorage := {|
  save_opening_from_swap := cmem_save_opening;
  set_open := cmem_set_open;
  get_opening_from_swap := cmem_get_opening;
  set_opening_failed := cmem_set_opening_failed;
  get_opening_failure := cmem_get_opening_failure;
  client_get_funding s c := cm_funding s !! c;
  get_payment_state s c := cm_payments s !! c;
  save_payment_state := cmem_save_payment_state;
  client_get_state s c := cm_states s !! c;
  client_set_closed := cmem_set_closed;
  client_set_closing := cmem_set_closing;
  list_channel_ids := cmem_list_channel_ids;
  client_delete := cmem_delete;
  client_get_keyset := cmem_get_keyset;
  client_set_keyset := cmem_set_keyset;
  client_get_active_keyset_ids := cmem_get_active_keyset_ids;
  client_list_keysets_for_unit := cmem_list_keysets_for_unit;
|}.
End memory.

(** ** [SqliteClientStorage]

    The content of the two tables. A text column is a string, [NULL] an absent value; the
    derived (de)serialisers of the stored structs are [Serde] instances, SQLite's clock a
    function of the database it is asked on. *)

Class SqliteClient {T : CashuTypes} := {
  opening_serde :: Serde ClientChannelOpeningFromSwap;
  client_funding_serde :: Serde ClientChannelFunding;
  payment_serde :: Serde ClientPaymentState;
  failure_serde :: Serde ClientOpeningFailure;
}.
Class SqliteClientLaws `{SqliteClient} : Prop := {
  opening_serde_laws :: SerdeLaws ClientChannelOpeningFromSwap;
  client_funding_serde_laws :: SerdeLaws ClientChannelFunding;
  payment_serde_laws :: SerdeLaws ClientPaymentState;
  failure_serde_laws :: SerdeLaws ClientOpeningFailure;
}.

(** A row of [spilman_client_channels], and one of [spilman_client_keysets] with its rowid. *)
Record ClientRow := mk_ClientRow {
  cr_state : string;
  cr_opening_json : option string;
  cr_funding_json : option string;
  cr_payment_json : option string;
  cr_failure_json : option string;
}.
Record ClientKeysetRow := mk_ClientKeysetRow {
  kr_unit : string;
  kr_active : Z;
  kr_info_json : string;
  kr_fetched_at : Z;
  kr_rowid : Z;
}.
Record SqliteClientStorage := mk_SqliteClientStorage {
  client_channels : gmap string ClientRow;
  client_keysets : gmap (string * string) ClientKeysetRow;
  next_rowid : Z;
}.

Definition state_to_string (st : ClientChannelState) : string :=
  match st with
  | OpeningFromSwap => "OpeningFromSwap"
  | OpeningFailed => "OpeningFailed"
  | ClientOpen => "Open"
  | ClientClosing => "Closing"
  | ClientClosed => "Closed"
  end.
Definition state_from_string (s : string) : option ClientChannelState :=
  if String.eqb s "OpeningFromSwap" then Some OpeningFromSwap
  else if String.eqb s "OpeningFailed" then Some OpeningFailed
  else if String.eqb s "Open" then Some ClientOpen
  else if String.eqb s "Closing" then Some ClientClosing
  else if String.eqb s "Closed" then Some ClientClosed
  else None.

Section sqlite.
Context {T : CashuTypes} {O : CashuOps} {Q : SqliteClient}.
Context (sqlite_now : SqliteClientStorage → Z).
Implicit Types s : SqliteClientStorage.

(** [init_schema] on a new database: empty tables. *)
Definition SqliteClientStorage_open_new : SqliteClientStorage := mk_SqliteClientStorage ∅ ∅ 1.
Definition set_client_channels f s : SqliteClientStorage :=
  mk_SqliteClientStorage (f (client_channels s)) (client_keysets s) (next_rowid s).

(** [UPDATE spilman_client_channels SET ... WHERE channel_id = c AND cond]: the number of
    rows changed and the new table. *)
Definition update_client_row s (c : string) (cond : ClientRow → bool) (set : ClientRow → ClientRow) :
    Z * SqliteClientStorage :=
  match client_channels s !! c with
  | Some row => if cond row then (1, set_client_channels (<[c := set row]>) s) else (0, s)
  | None => (0, s)
  end.
Definition with_row_state (st : string) (r : ClientRow) : ClientRow :=
  mk_ClientRow st (cr_opening_json r) (cr_funding_json r) (cr_payment_json r) (cr_failure_json r).
Definition is_opening (st : string) : bool :=
  String.eqb st "OpeningFromSwap" || String.eqb st "OpeningFailed".
Definition is_funded (st : string) : bool :=
  String.eqb st "Open" || String.eqb st "Closing" || String.eqb st "Closed".

(** In a transaction: an early return drops it and the table keeps its content. *)
Definition csql_save_opening s (c : string) (opening : ClientChannelOpeningFromSwap) :
    Result string unit * SqliteClientStorage :=
  let opening_json := serde_to_string opening in
  match client_channels s !! c with
  | None =>
      (Ok tt, set_client_channels
                (<[c := mk_ClientRow (state_to_string OpeningFromSwap) (Some opening_json) None None None]>) s)
  | Some row =>
      match is_opening (cr_state row), cr_opening_json row with
      | true, Some existing_json =>
          match serde_from_str existing_json : option ClientChannelOpeningFromSwap with
          | None => (Err "save_opening_from_swap: corrupt existing opening", s)
          | Some existing_opening =>
              if bool_decide (existing_opening ≠ opening)
              then (Err ("channel " +:+ c +:+ " already exists with different opening"), s)
              else (Ok tt, (update_client_row s c (λ r, is_opening (cr_state r))
                     (λ r, mk_ClientRow (state_to_string OpeningFromSwap) (cr_opening_json r)
                             (cr_funding_json r) (cr_payment_json r) None)).2)
          end
      | _, _ =>
          (Err ("channel " +:+ c +:+ " already exists with different opening or lifecycle state"), s)
      end
  end.

Definition csql_set_open s (c funding_proofs_json : string) : Result string unit * SqliteClientStorage :=
  match client_channels s !! c with
  | None => (Err ("channel " +:+ c +:+ " is not in OpeningFromSwap state"), s)
  | Some row =>
      if is_funded (cr_state row) then
        match cr_funding_json row with
        | None => (Err ("channel " +:+ c +:+ " has corrupt completed funding state"), s)
        | Some funding_json =>
            match serde_from_str funding_json : option ClientChannelFunding with
            | None => (Err "set_open: corrupt completed funding", s)
            | Some funding =>
                if String.eqb (cf_funding_proofs_json funding) funding_proofs_json then (Ok tt, s)
                else (Err ("channel " +:+ c +:+ " was completed with different funding proofs"), s)
            end
        end
      else if negb (String.eqb (cr_state row) (state_to_string OpeningFromSwap))
      then (Err ("channel " +:+ c +:+ " is not in OpeningFromSwap state"), s)
      else
        match cr_opening_json row with
        | None => (Err ("channel " +:+ c +:+ " has corrupt OpeningFromSwap state"), s)
        | Some opening_json =>
            match serde_from_str opening_json : option ClientChannelOpeningFromSwap with
            | None => (Err "set_open: deserialize opening", s)
            | Some opening =>
                let funding_json := serde_to_string (funding_of_opening opening funding_proofs_json) in
                let '(rows, s') :=
                  update_client_row s c
                    (λ r, String.eqb (cr_state r) (state_to_string OpeningFromSwap))
                    (λ r, mk_ClientRow (state_to_string ClientOpen) None (Some funding_json)
                            (cr_payment_json r) None) in
                if negb (rows =? 1) then (Err ("channel " +:+ c +:+ " changed during completion"), s)
                else (Ok tt, s')
            end
        end
  end.

Definition csql_get_opening s (c : string) : Result string (option ClientChannelOpeningFromSwap) :=
  match client_channels s !! c with
  | None => Ok None
  | Some row =>
      if negb (String.eqb (cr_state row) (state_to_string OpeningFromSwap)) then Ok None
      else
        json ← ok_or ("channel " +:+ c +:+ " has corrupt OpeningFromSwap state") (cr_opening_json row);
        Some <$> ok_or "get_opening_from_swap: deserialize opening" (serde_from_str json)
  end.

Definition csql_set_opening_failed s (c : string) (failure : ClientOpeningFailure) :
    Result string unit * SqliteClientStorage :=
  let '(rows, s') :=
    update_client_row s c (λ r, String.eqb (cr_state r) (state_to_string OpeningFromSwap))
      (λ r, mk_ClientRow (state_to_string OpeningFailed) (cr_opening_json r) (cr_funding_json r)
              (cr_payment_json r) (Some (serde_to_string failure))) in
  if rows =? 0 then (Err ("channel " +:+ c +:+ " is not in OpeningFromSwap state"), s') else (Ok tt, s').

Definition csql_get_opening_failure s (c : string) : option ClientOpeningFailure :=
  row ← client_channels s !! c;
  if String.eqb (cr_state row) (state_to_string OpeningFailed)
  then cr_failure_json row ≫= serde_from_str else None.
Definition csql_get_funding s (c : string) : option ClientChannelFunding :=
  row ← client_channels s !! c;
  if is_funded (cr_state row) then cr_funding_json row ≫= serde_from_str else None.
Definition csql_get_payment_state s (c : string) : option ClientPaymentState :=
  row ← client_channels s !! c;
  cr_payment_json row ≫= serde_from_str.
Definition csql_save_payment_state s (c : string) (st : ClientPaymentState) :
    Result string unit * SqliteClientStorage :=
  let '(rows, s') :=
    update_client_row s c (λ _, true)
      (λ r, mk_ClientRow (cr_state r) (cr_opening_json r) (cr_funding_json r)
              (Some (serde_to_string st)) (cr_failure_json r)) in
  if rows =? 0 then (Err ("channel not found: " +:+ c), s') else (Ok tt, s').
Definition csql_get_state s (c : string) : option ClientChannelState :=
  row ← client_channels s !! c;
  state_from_string (cr_state row).

Definition csql_set_closed s (c : string) : Result string unit * SqliteClientStorage :=
  let '(rows, s') :=
    update_client_row s c (λ r, negb (String.eqb (cr_state r) "Closed")) (with_row_state "Closed") in
  if rows =? 0 then (Err ("channel not found or already closed: " +:+ c), s') else (Ok tt, s').
Definition csql_set_closing s (c : string) : Result string unit * SqliteClientStorage :=
  if bool_decide (cr_state <$> client_channels s !! c = Some "Closing") then (Ok tt, s)
  else
    let '(rows, s') :=
      update_client_row s c (λ r, String.eqb (cr_state r) "Open") (with_row_state "Closing") in
    if rows =? 0 then (Err ("channel not found or not open: " +:+ c), s') else (Ok tt, s').

Definition csql_list_channel_ids s : list string := (map_to_list (client_channels s)).*1.
Definition csql_delete s (c : string) : Result string unit * SqliteClientStorage :=
  (Ok tt, set_client_channels (delete c) s).

(** [i64::from(bool)]. *)
Definition int_of_bool (b : bool) : Z := if b then 1 else 0.
Definition csql_get_keyset s (mint : string) (id : Id) : option ClientKeysetCacheEntry :=
  row ← client_keysets s !! (mint, id_to_string id);
  match unit_from_str (kr_unit row) with
  | Ok u => Some (mk_ClientKeysetCacheEntry (kr_info_json row) (negb (kr_active row =? 0)) u)
  | _ => None
  end.
(** [INSERT OR REPLACE]: a replaced row gets a new rowid. *)
Definition csql_set_keyset s (mint : string) (id : Id) (entry : ClientKeysetCacheEntry) :
    Result string unit * SqliteClientStorage :=
  (Ok tt, mk_SqliteClientStorage (client_channels s)
            (<[(mint, id_to_string id) := mk_ClientKeysetRow (unit_to_string (ck_unit entry))
                 (int_of_bool (ck_active entry)) (ck_info_json entry) (sqlite_now s) (next_rowid s)]>
               (client_keysets s)) (next_rowid s + 1)).

(** The rows of a mint and unit, [ORDER BY fetched_at ASC, rowid ASC]. *)
Definition csql_keyset_rows s (mint : string) (u : CurrencyUnit) : list (string * ClientKeysetRow) :=
  sort_by_key (λ e, kr_fetched_at e.2) (sort_by_key (λ e, kr_rowid e.2)
    ((λ e : string * string * ClientKeysetRow, (e.1.2, e.2)) <$>
      filter (λ e, e.1.1 = mint ∧ kr_unit e.2 = unit_to_string u) (map_to_list (client_keysets s)))).
Definition csql_get_active_keyset_ids s (mint : string) (u : CurrencyUnit) : list Id :=
  omap (λ e : string * ClientKeysetRow, if negb (kr_active e.2 =? 0) then parse_id e.1 else None)
    (csql_keyset_rows s mint u).
Definition csql_list_keysets_for_unit s (mint : string) (u : CurrencyUnit) :
    list (Id * ClientKeysetCacheEntry) :=
  omap (λ e : string * ClientKeysetRow,
    id ← parse_id e.1;
    Some (id, mk_ClientKeysetCacheEntry (kr_info_json e.2) (negb (kr_active e.2 =? 0)) u))
    (csql_keyset_rows s mint u).

Definition sqlite_client_storage : ClientStorage SqliteClientStorage := {|
  save_opening_from_swap := csql_save_opening;
  set_open := csql_set_open;
  get_opening_from_swap := csql_get_opening;
  set_opening_failed := csql_set_opening_failed;
  get_opening_failure := csql_get_opening_failure;
  client_get_funding := csql_get_funding;
  get_payment_state := csql_get_payment_state;
  save_payment_state := csql_save_payment_state;
  client_get_state := csql_get_state;
  client_set_closed := csql_set_closed;
  client_set_closing := csql_set_closing;
  list_channel_ids := csql_list_channel_ids;
  client_delete := csql_delete;
  client_get_keyset := csql_get_keyset;
  client_set_keyset := csql_set_keyset;
  client_get_active_keyset_ids := csql_get_active_keyset_ids;
  client_list_keysets_for_unit := csql_list_keysets_for_unit;
|}.
End sqlite.
