(* ===== verification/ClientStorageSpec.v ===== *)
(** * Specification of the sender's storage, and its two refinements

    A stored channel is either being opened (perhaps refused by the mint) or funded (open,
    closing or closed); [client_step] is the effect of each operation of the trait
    [ClientStorage] on it. [MemoryClientStorage] and [SqliteClientStorage] refine it on the
    uses the trait's documentation allows, so they cannot be told apart there; the theorems
    about the life of a channel hold for every storage that meets the specification. *)

From S2P Require Import Prelude Cashu Toy Storage StorageSqlite ClientStorage.

(** ** The specification *)

Inductive Phase := PhOpen | PhClosing | PhClosed.
#[global] Instance Phase_eq : EqDecision Phase.
Proof. solve_decision. Defined.
Inductive ClientChannel :=
| Opening (o : ClientChannelOpeningFromSwap) (failure : option ClientOpeningFailure)
    (payment : option ClientPaymentState)
| Funded (f : ClientChannelFunding) (phase : Phase) (payment : option ClientPaymentState).

(** What the queries answer about a channel. *)
Record ClientView := mk_ClientView {
  vw_opening : option ClientChannelOpeningFromSwap;
  vw_failure : option ClientOpeningFailure;
  vw_funding : option ClientChannelFunding;
  vw_payment : option ClientPaymentState;
  vw_state : option ClientChannelState;
}.
Definition phase_state (ph : Phase) : ClientChannelState :=
  match ph with PhOpen => ClientOpen | PhClosing => ClientClosing | PhClosed => ClientClosed end.
Definition shows (ch : option ClientChannel) : ClientView :=
  match ch with
  | None => mk_ClientView None None None None None
  | Some (Opening o None p) => mk_ClientView (Some o) None None p (Some OpeningFromSwap)
  | Some (Opening o (Some fl) p) => mk_ClientView None (Some fl) None p (Some OpeningFailed)
  | Some (Funded f ph p) => mk_ClientView None None (Some f) p (Some (phase_state ph))
  end.

Inductive ClientCommand :=
| SaveOpening (o : ClientChannelOpeningFromSwap)
| SetOpen (funding_proofs_json : string)
| SetOpeningFailed (failure : ClientOpeningFailure)
| SavePayment (st : ClientPaymentState)
| SetClosed
| SetClosing
| Delete.

Definition with_client_payment (st : ClientPaymentState) (ch : ClientChannel) : ClientChannel :=
  match ch with Opening o fl _ => Opening o fl (Some st) | Funded f ph _ => Funded f ph (Some st) end.

(** The channel after the operation, or [None] when it must fail. *)
Definition client_step (cmd : ClientCommand) (ch : option ClientChannel) : option (option ClientChannel) :=
  match cmd, ch with
  | SaveOpening o, None => Some (Some (Opening o None None))
  | SaveOpening o, Some (Opening o' _ p) =>
      if bool_decide (o = o') then Some (Some (Opening o' None p)) else None
  | SetOpen proofs, Some (Opening o None p) =>
      Some (Some (Funded (funding_of_opening o proofs) PhOpen p))
  | SetOpen proofs, Some (Funded f ph p) =>
      if bool_decide (cf_funding_proofs_json f = proofs) then Some (Some (Funded f ph p)) else None
  | SetOpeningFailed fl, Some (Opening o _ p) => Some (Some (Opening o (Some fl) p))
  | SavePayment st, Some ch => Some (Some (with_client_payment st ch))
  | SetClosed, Some (Funded f _ p) => Some (Some (Funded f PhClosed p))
  | SetClosing, Some (Funded f _ p) => Some (Some (Funded f PhClosing p))
  | Delete, _ => Some None
  | _, _ => None
  end.

(** The uses the specification speaks about: a failure is reported for an opening that has
    not failed, payments are recorded for stored channels, closes are for funded channels
    that are not closed. *)
Definition client_in_domain (cmd : ClientCommand) (ch : option ClientChannel) : Prop :=
  match cmd, ch with
  | SetOpeningFailed _, Some (Opening _ (Some _) _) => False
  | SavePayment _, None => False
  | (SetClosed | SetClosing), (None | Some (Opening _ _ _) | Some (Funded _ PhClosed _)) => False
  | _, _ => True
  end.

Section interface.
Context {T : CashuTypes} {S : Type} `{!ClientStorage S}.

Definition client_exec (s : S) (c : string) (cmd : ClientCommand) : Result string unit * S :=
  match cmd with
  | SaveOpening o => save_opening_from_swap s c o
  | SetOpen proofs => set_open s c proofs
  | SetOpeningFailed fl => set_opening_failed s c fl
  | SavePayment st => save_payment_state s c st
  | SetClosed => client_set_closed s c
  | SetClosing => client_set_closing s c
  | Delete => client_delete s c
  end.
Definition client_view (s : S) (c : string) : ClientView :=
  mk_ClientView (match get_opening_from_swap s c with Ok o => o | _ => None end)
    (get_opening_failure s c) (client_get_funding s c) (get_payment_state s c) (client_get_state s c).

(** What an operation on channel [c] did: [o] is the channel it must leave, or [None] when it
    must fail; other channels and the keyset cache are left alone. *)
Definition client_meets (wf : S → Prop) (channel : S → string → option ClientChannel)
    (s : S) (c : string) (r : Result string unit * S) (o : option (option ClientChannel)) : Prop :=
  wf r.2 ∧
  match o with
  | Some ch => r.1 = Ok tt ∧ channel r.2 c = ch
  | None => (∃ e, r.1 = Err e) ∧ channel r.2 c = channel s c
  end ∧ (∀ d, d ≠ c → channel r.2 d = channel s d)
      ∧ (∀ m i, client_get_keyset r.2 m i = client_get_keyset s m i).
Lemma client_meets_fail wf channel s c e : wf s → client_meets wf channel s c (Err e, s) None.
Proof. intros. split_and!; eauto. Qed.
End interface.

Class ClientStorageSpec {T : CashuTypes} {O : CashuOps} (S : Type) `{!ClientStorage S} := {
  cst_wf : S → Prop;
  cst_channel : S → string → option ClientChannel;
  (** every operation meets [client_step] and leaves the rest alone *)
  client_exec_spec s c cmd :
    cst_wf s → client_in_domain cmd (cst_channel s c) →
    client_meets cst_wf cst_channel s c (client_exec s c cmd) (client_step cmd (cst_channel s c));
  (** a close mark for a closed channel is refused ([closed_final]) or obeyed *)
  closed_final : bool;
  close_again_spec s c cmd f p :
    cst_wf s → cst_channel s c = Some (Funded f PhClosed p) → cmd = SetClosed ∨ cmd = SetClosing →
    client_meets cst_wf cst_channel s c (client_exec s c cmd)
      (if closed_final then None else client_step cmd (Some (Funded f PhClosed p)));
  (** the queries *)
  client_view_spec s c : cst_wf s → client_view s c = shows (cst_channel s c);
  get_opening_ok s c : cst_wf s → get_opening_from_swap s c = Ok (vw_opening (shows (cst_channel s c)));
  list_channel_ids_spec s c : cst_wf s → c ∈ list_channel_ids s ↔ is_Some (cst_channel s c);
  (** the keyset cache *)
  client_set_keyset_spec s m i e :
    cst_wf s → (client_set_keyset s m i e).1 = Ok tt ∧ cst_wf (client_set_keyset s m i e).2 ∧
    (∀ c, cst_channel (client_set_keyset s m i e).2 c = cst_channel s c) ∧
    (∀ m' i', client_get_keyset (client_set_keyset s m i e).2 m' i'
              = if bool_decide ((m', i') = (m, i)) then Some e else client_get_keyset s m' i');
  client_active_ids_spec s m u i :
    cst_wf s → i ∈ client_get_active_keyset_ids s m u ↔
    ∃ e, client_get_keyset s m i = Some e ∧ ck_active e = true ∧ ck_unit e = u;
  client_list_keysets_spec s m u i e :
    cst_wf s → (i, e) ∈ client_list_keysets_for_unit s m u ↔
    client_get_keyset s m i = Some e ∧ ck_unit e = u;
}.

(** ** [MemoryClientStorage] meets the specification *)

Section memory.
Context {T : CashuTypes} {O : CashuOps}.
Implicit Types s : MemoryClientStorage.

(** The lookups of the five maps for a channel. *)
Definition raw (ch : option ClientChannel) : option ClientChannelOpeningFromSwap *
    option ClientChannelFunding * option ClientPaymentState * option ClientChannelState *
    option ClientOpeningFailure :=
  match ch with
  | None => (None, None, None, None, None)
  | Some (Opening o fl p) =>
      (Some o, None, p, Some (match fl with Some _ => OpeningFailed | None => OpeningFromSwap end), fl)
  | Some (Funded f ph p) => (None, Some f, p, Some (phase_state ph), None)
  end.
Definition cmem_lookups s (c : string) :=
  (cm_opening s !! c, cm_funding s !! c, cm_payments s !! c, cm_states s !! c, cm_failures s !! c).
Definition cmem_channel s (c : string) : option ClientChannel :=
  match cm_states s !! c with
  | None => None
  | Some OpeningFromSwap | Some OpeningFailed =>
      o ← cm_opening s !! c; Some (Opening o (cm_failures s !! c) (cm_payments s !! c))
  | Some st =>
      f ← cm_funding s !! c;
      Some (Funded f (match st with ClientClosing => PhClosing | ClientClosed => PhClosed | _ => PhOpen end)
              (cm_payments s !! c))
  end.
Definition cmem_wf s : Prop := ∀ c, cmem_lookups s c = raw (cmem_channel s c).

Lemma cmem_channel_eq s c ch : cmem_lookups s c = raw ch → cmem_channel s c = ch.
Proof.
  unfold cmem_lookups, cmem_channel.
  destruct ch as [[o [fl|] p|f [] p]|]; cbn; intros [= H1 H2 H3 H4 H5]; by rewrite ?H1, ?H2, ?H3, ?H4, ?H5.
Qed.

(** A storage that differs from [s] at most at [c]. *)
Lemma cmem_meets s s' c ch :
  cmem_wf s → cmem_lookups s' c = raw ch →
  (∀ d, d ≠ c → cmem_lookups s' d = cmem_lookups s d) → cm_keysets s' = cm_keysets s →
  client_meets cmem_wf cmem_channel s c (Ok tt, s') (Some ch).
Proof.
  intros Hwf Hc Hd Hk. pose proof (cmem_channel_eq _ _ _ Hc) as Hch.
  assert (∀ d, d ≠ c → cmem_channel s' d = cmem_channel s d) as Hf.
  { intros d Hdc. apply cmem_channel_eq. by rewrite Hd. }
  split_and!; [|done..|by intros; unfold client_get_keyset; cbn; unfold cmem_get_keyset; rewrite Hk].
  cbn [snd]. intros d. destruct (decide (d = c)) as [->|Hdc]; [by rewrite Hch|]. by rewrite Hd, Hf.
Qed.
Ltac cmem_ok :=
  apply cmem_meets; [done
                    |unfold cmem_lookups; cbn;
                     rewrite ?lookup_insert_eq, ?lookup_delete_eq;
                     repeat match goal with E : _ !! _ = _ |- _ => rewrite E; clear E end; reflexivity
                    |intros; unfold cmem_lookups; cbn;
                     by rewrite ?lookup_insert_ne, ?lookup_delete_ne by done|reflexivity].

Lemma cmem_exec_spec s c cmd :
  cmem_wf s → client_in_domain cmd (cmem_channel s c) →
  client_meets cmem_wf cmem_channel s c (client_exec s c cmd) (client_step cmd (cmem_channel s c)).
Proof.
  intros Hwf. pose proof (Hwf c) as Hc. unfold cmem_lookups in Hc.
  destruct cmd; cbn [client_exec save_opening_from_swap set_open set_opening_failed save_payment_state
    client_set_closed client_set_closing client_delete memory_client_storage].
  - unfold cmem_save_opening.
    destruct (cmem_channel s c) as [[o' fl p|f ph p]|]; cbn [raw] in Hc; injection Hc as Ho Hf Hp Hs Hfl;
      rewrite Hs; intros _; cbn [client_step].
    + rewrite Ho. replace (bool_decide (Some o' = Some o)) with (bool_decide (o = o'))
        by (apply bool_decide_ext; naive_solver).
      rewrite bool_decide_eq_true_2 by (destruct fl; auto). cbn [andb].
      case_bool_decide; [subst o'; destruct fl; cmem_ok|by apply client_meets_fail].
    + rewrite bool_decide_eq_false_2 by (destruct ph; naive_solver). by apply client_meets_fail.
    + cmem_ok.
  - unfold cmem_set_open.
    destruct (cmem_channel s c) as [[o [fl|] p|f ph p]|]; cbn [raw] in Hc; injection Hc as Ho Hf Hp Hs Hfl;
      rewrite Hs; intros _; cbn [client_step]; try (by apply client_meets_fail).
    + rewrite Ho. cmem_ok.
    + assert (client_meets cmem_wf cmem_channel s c
        (if (cf_funding_proofs_json f =? funding_proofs_json)%string then (Ok tt, s)
         else (Err ("channel " +:+ c +:+ " was completed with different funding proofs"), s))
        (if bool_decide (cf_funding_proofs_json f = funding_proofs_json)
         then Some (Some (Funded f ph p)) else None)) as Hm.
      { destruct (String.eqb_spec (cf_funding_proofs_json f) funding_proofs_json);
          [rewrite bool_decide_eq_true_2 by done; cmem_ok
          |rewrite bool_decide_eq_false_2 by done; by apply client_meets_fail]. }
      rewrite Hf. by destruct ph.
  - unfold cmem_set_opening_failed.
    destruct (cmem_channel s c) as [[o [fl|] p|f ph p]|]; cbn [raw] in Hc; injection Hc as Ho Hf Hp Hs Hfl;
      rewrite Ho; intros Hdom; cbn in Hdom |- *; try done; try (by apply client_meets_fail). cmem_ok.
  - unfold cmem_save_payment_state.
    destruct (cmem_channel s c) as [[o fl p|f ph p]|]; cbn [raw] in Hc; injection Hc as Ho Hf Hp Hs Hfl;
      intros Hdom; cbn in Hdom |- *; [|cmem_ok|done]. destruct fl; cmem_ok.
  - unfold cmem_set_closed, cmem_set_state.
    destruct (cmem_channel s c) as [[o fl p|f [] p]|]; cbn [raw] in Hc; injection Hc as Ho Hf Hp Hs Hfl;
      intros Hdom; cbn in Hdom |- *; try done; cmem_ok.
  - unfold cmem_set_closing, cmem_set_state.
    destruct (cmem_channel s c) as [[o fl p|f [] p]|]; cbn [raw] in Hc; injection Hc as Ho Hf Hp Hs Hfl;
      intros Hdom; cbn in Hdom |- *; try done; cmem_ok.
  - intros _. unfold cmem_delete. cbn [client_step]. destruct (cmem_channel s c); cmem_ok.
Qed.

Lemma cmem_close_again s c cmd f p :
  cmem_wf s → cmem_channel s c = Some (Funded f PhClosed p) → cmd = SetClosed ∨ cmd = SetClosing →
  client_meets cmem_wf cmem_channel s c (client_exec s c cmd) (client_step cmd (Some (Funded f PhClosed p))).
Proof.
  intros Hwf Hch Hcmd. pose proof (Hwf c) as Hc. unfold cmem_lookups in Hc. rewrite Hch in Hc.
  cbn [raw] in Hc. injection Hc as Ho Hf Hp Hs Hfl.
  destruct Hcmd as [-> | ->]; cbn [client_exec client_set_closed client_set_closing memory_client_storage client_step];
    unfold cmem_set_closed, cmem_set_closing, cmem_set_state; cmem_ok.
Qed.

Lemma cmem_new_wf : cmem_wf MemoryClientStorage_new.
Proof. intros c. unfold cmem_lookups, cmem_channel. cbn. by rewrite !lookup_empty. Qed.

Lemma cmem_opening_query s c :
  cmem_wf s → cmem_get_opening s c = Ok (vw_opening (shows (cmem_channel s c))).
Proof.
  intros Hwf. pose proof (Hwf c) as Hc. unfold cmem_lookups in Hc. unfold cmem_get_opening.
  destruct (cmem_channel s c) as [[o [fl|] p|f [] p]|]; cbn [raw phase_state] in Hc;
    injection Hc as Ho Hf Hp Hs Hfl; rewrite Hs; cbn; try done. by rewrite Ho.
Qed.
Lemma cmem_view_spec s c : cmem_wf s → client_view s c = shows (cmem_channel s c).
Proof.
  intros Hwf. unfold client_view. cbn [get_opening_from_swap memory_client_storage].
  rewrite cmem_opening_query by done. pose proof (Hwf c) as Hc. unfold cmem_lookups in Hc.
  cbn [get_opening_failure client_get_funding get_payment_state client_get_state memory_client_storage].
  unfold cmem_get_opening_failure.
  destruct (cmem_channel s c) as [[o [fl|] p|f [] p]|]; cbn [raw phase_state] in Hc;
    injection Hc as Ho Hf Hp Hs Hfl; rewrite Hs, Hf, Hp; cbn; by rewrite ?Hfl.
Qed.
Lemma cmem_list_spec s c : cmem_wf s → c ∈ cmem_list_channel_ids s ↔ is_Some (cmem_channel s c).
Proof.
  intros Hwf. unfold cmem_list_channel_ids. rewrite elem_of_elements, elem_of_union, !elem_of_dom.
  pose proof (Hwf c) as Hc. unfold cmem_lookups in Hc.
  destruct (cmem_channel s c) as [[]|]; cbn [raw] in Hc; injection Hc as Ho Hf Hp Hs Hfl;
    rewrite Ho, Hf; clear; split; try (by intros [[? [=]]|[? [=]]]); try (by intros [? [=]]); eauto.
Qed.

#[global] Program Instance memory_client_spec : ClientStorageSpec MemoryClientStorage := {|
  cst_wf := cmem_wf;
  cst_channel := cmem_channel;
  client_exec_spec := cmem_exec_spec;
  closed_final := false;
  close_again_spec := cmem_close_again;
  client_view_spec := cmem_view_spec;
  get_opening_ok := cmem_opening_query;
  list_channel_ids_spec := cmem_list_spec;
|}.
Next Obligation.
  intros s m i e Hwf. split; [done|]. split; [exact Hwf|]. split; [done|]. intros m' i'.
  cbn. unfold cmem_get_keyset. cbn. case_bool_decide as Hd; [rewrite Hd; by rewrite lookup_insert_eq|].
  by rewrite lookup_insert_ne.
Qed.
Next Obligation.
  intros s m u i _. cbn. unfold cmem_get_active_keyset_ids, cmem_get_keyset.
  rewrite list_elem_of_fmap. setoid_rewrite list_elem_of_filter. setoid_rewrite elem_of_map_to_list'.
  split.
  - intros ([[m' i'] e] & -> & (Hm & ? & ?) & ?). cbn in *. subst. eauto.
  - intros (e & He & ? & ?). by exists (m, i, e).
Qed.
Next Obligation.
  intros s m u i e _. cbn. unfold cmem_list_keysets_for_unit, cmem_get_keyset.
  rewrite list_elem_of_fmap. setoid_rewrite list_elem_of_filter. setoid_rewrite elem_of_map_to_list'.
  split.
  - intros ([[m' i'] e'] & [= -> ->] & (Hm & ?) & ?). cbn in *. subst. eauto.
  - intros (? & ?). by exists (m, i, e).
Qed.
End memory.

(** ** [SqliteClientStorage] meets the specification *)

Section sqlite.
Context {T : CashuTypes} {O : CashuOps} {Q : SqliteClient} {QL : SqliteClientLaws} {EL : EncodingLaws}.
Context (sqlite_now : SqliteClientStorage → Z).
#[local] Instance sqlite_client : ClientStorage SqliteClientStorage := sqlite_client_storage sqlite_now.
Implicit Types s : SqliteClientStorage.

(** The row of a channel, and the channel a row stands for. *)
Definition row_of (ch : ClientChannel) : ClientRow :=
  match ch with
  | Opening o fl p =>
      mk_ClientRow (state_to_string (match fl with Some _ => OpeningFailed | None => OpeningFromSwap end))
        (Some (serde_to_string o)) None (serde_to_string <$> p) (serde_to_string <$> fl)
  | Funded f ph p =>
      mk_ClientRow (state_to_string (phase_state ph)) None (Some (serde_to_string f))
        (serde_to_string <$> p) None
  end.
Definition channel_of_row (r : ClientRow) : option ClientChannel :=
  match state_from_string (cr_state r) with
  | Some OpeningFromSwap | Some OpeningFailed =>
      o ← cr_opening_json r ≫= serde_from_str;
      Some (Opening o (cr_failure_json r ≫= serde_from_str) (cr_payment_json r ≫= serde_from_str))
  | Some st =>
      f ← cr_funding_json r ≫= serde_from_str;
      Some (Funded f (match st with ClientClosing => PhClosing | ClientClosed => PhClosed | _ => PhOpen end)
              (cr_payment_json r ≫= serde_from_str))
  | None => None
  end.
Definition csql_channel s (c : string) : option ClientChannel := client_channels s !! c ≫= channel_of_row.
Definition keyset_row (e : ClientKeysetCacheEntry) (r : ClientKeysetRow) : Prop :=
  kr_unit r = unit_to_string (ck_unit e) ∧ kr_active r = int_of_bool (ck_active e)
  ∧ kr_info_json r = ck_info_json e.
Record csql_wf s : Prop := {
  csw_rows c : client_channels s !! c = row_of <$> csql_channel s c;
  csw_keysets m k r :
    client_keysets s !! (m, k) = Some r → ∃ i e, k = id_to_string i ∧ keyset_row e r;
}.

Lemma channel_of_row_of ch : channel_of_row (row_of ch) = Some ch.
Proof.
  destruct ch as [o [fl|] p|f [] p]; unfold channel_of_row; cbn; rewrite ?serde_inv; cbn;
    by destruct p; cbn; rewrite ?serde_inv.
Qed.
Lemma csql_channel_eq s c ch : client_channels s !! c = row_of <$> ch → csql_channel s c = ch.
Proof. intros Hc. unfold csql_channel. rewrite Hc. destruct ch; [apply channel_of_row_of|done]. Qed.

Lemma csql_meets s s' c ch :
  csql_wf s → client_channels s' !! c = row_of <$> ch →
  (∀ d, d ≠ c → client_channels s' !! d = client_channels s !! d) →
  client_keysets s' = client_keysets s →
  client_meets csql_wf csql_channel s c (Ok tt, s') (Some ch).
Proof.
  intros [Hwf Hks] Hc Hd Hk. pose proof (csql_channel_eq _ _ _ Hc) as Hch.
  assert (∀ d, d ≠ c → csql_channel s' d = csql_channel s d) as Hf.
  { intros d Hdc. apply csql_channel_eq. by rewrite Hd. }
  split_and!; [|done..|by intros; cbn; unfold csql_get_keyset; rewrite Hk]. cbn [snd].
  split; [|by rewrite Hk]. intros d.
  destruct (decide (d = c)) as [->|Hdc]; [by rewrite Hch|]. by rewrite Hd, Hf.
Qed.
Ltac csql_ok :=
  apply csql_meets; [done|cbn; rewrite ?lookup_insert_eq, ?lookup_delete_eq; try reflexivity
                    |intros; cbn; by rewrite ?lookup_insert_ne, ?lookup_delete_ne by done|reflexivity].

Lemma csql_exec_spec s c cmd :
  csql_wf s → client_in_domain cmd (csql_channel s c) →
  client_meets csql_wf csql_channel s c (client_exec s c cmd) (client_step cmd (csql_channel s c)).
Proof.
  intros Hwf. pose proof (csw_rows _ Hwf c) as Hc.
  destruct cmd; cbn [client_exec save_opening_from_swap set_open set_opening_failed save_payment_state
    client_set_closed client_set_closing client_delete sqlite_client sqlite_client_storage].
  - unfold csql_save_opening.
    destruct (csql_channel s c) as [[o' fl p|f ph p]|]; cbn [fmap option_fmap option_map row_of] in Hc;
      rewrite Hc; intros _; cbn [client_step cr_state cr_opening_json].
    + rewrite serde_inv. replace (is_opening _) with true by (by destruct fl). cbn [update_client_row].
      unfold update_client_row. rewrite Hc. cbn [cr_state].
      replace (is_opening _) with true by (by destruct fl).
      destruct (decide (o' = o)) as [->|]; [|rewrite (bool_decide_eq_true_2 (o' ≠ o)),
        (bool_decide_eq_false_2 (o = o')) by congruence; by apply client_meets_fail].
      rewrite (bool_decide_eq_false_2 (o ≠ o)), bool_decide_eq_true_2 by auto. csql_ok.
    + replace (is_opening _) with false by (by destruct ph). by apply client_meets_fail.
    + csql_ok.
  - unfold csql_set_open.
    destruct (csql_channel s c) as [[o fl p|f ph p]|]; cbn [fmap option_fmap option_map row_of] in Hc;
      rewrite Hc; intros _; cbn [client_step cr_state cr_opening_json cr_funding_json];
      [|replace (is_funded _) with true by (by destruct ph)|by apply client_meets_fail].
    + destruct fl as [fl|]; [by apply client_meets_fail|]. cbn [is_funded negb]. cbn.
      rewrite serde_inv. unfold update_client_row. rewrite Hc. cbn. csql_ok.
    + rewrite serde_inv.
      destruct (String.eqb_spec (cf_funding_proofs_json f) funding_proofs_json);
        [rewrite bool_decide_eq_true_2 by done; csql_ok
        |rewrite bool_decide_eq_false_2 by done; by apply client_meets_fail].
      by rewrite Hc.
  - unfold csql_set_opening_failed, update_client_row.
    destruct (csql_channel s c) as [[o [fl|] p|f [] p]|]; cbn [fmap option_fmap option_map row_of] in Hc;
      rewrite Hc; intros Hdom; cbn in Hdom |- *; try done; try (by apply client_meets_fail). csql_ok.
  - unfold csql_save_payment_state, update_client_row.
    destruct (csql_channel s c) as [[o fl p|f ph p]|]; cbn [fmap option_fmap option_map row_of] in Hc;
      rewrite Hc; intros Hdom; cbn in Hdom |- *; [csql_ok|csql_ok|done].
  - unfold csql_set_closed, update_client_row.
    destruct (csql_channel s c) as [[o fl p|f [] p]|]; cbn [fmap option_fmap option_map row_of] in Hc;
      rewrite Hc; intros Hdom; cbn in Hdom |- *; try done; csql_ok.
  - unfold csql_set_closing, update_client_row.
    destruct (csql_channel s c) as [[o fl p|f [] p]|]; cbn [fmap option_fmap option_map row_of] in Hc;
      rewrite Hc; intros Hdom; cbn in Hdom |- *; try done; csql_ok. by rewrite Hc.
  - intros _. unfold csql_delete. cbn [client_step]. destruct (csql_channel s c); csql_ok.
Qed.

Lemma csql_close_again s c cmd f p :
  csql_wf s → csql_channel s c = Some (Funded f PhClosed p) → cmd = SetClosed ∨ cmd = SetClosing →
  client_meets csql_wf csql_channel s c (client_exec s c cmd) None.
Proof.
  intros Hwf Hch Hcmd. pose proof (csw_rows _ Hwf c) as Hc. rewrite Hch in Hc. cbn [fmap option_fmap option_map row_of] in Hc.
  destruct Hcmd as [-> | ->]; cbn [client_exec client_set_closed client_set_closing sqlite_client sqlite_client_storage];
    unfold csql_set_closed, csql_set_closing, update_client_row; rewrite Hc; by apply client_meets_fail.
Qed.

Lemma csql_new_wf : csql_wf SqliteClientStorage_open_new.
Proof. split; unfold csql_channel; cbn; intros; by rewrite ?lookup_empty in *. Qed.
Lemma csql_opening_query s c :
  csql_wf s → csql_get_opening s c = Ok (vw_opening (shows (csql_channel s c))).
Proof.
  intros Hwf. unfold csql_get_opening. rewrite (csw_rows _ Hwf c).
  destruct (csql_channel s c) as [[o [fl|] p|f [] p]|]; cbn; try done. by rewrite serde_inv.
Qed.
Lemma csql_view_spec s c : csql_wf s → client_view s c = shows (csql_channel s c).
Proof.
  intros Hwf. unfold client_view. cbn [get_opening_from_swap sqlite_client sqlite_client_storage].
  rewrite csql_opening_query by done.
  cbn [get_opening_failure client_get_funding get_payment_state client_get_state sqlite_client
    sqlite_client_storage].
  unfold csql_get_opening_failure, csql_get_funding, csql_get_payment_state, csql_get_state.
  rewrite (csw_rows _ Hwf c).
  destruct (csql_channel s c) as [[o [fl|] [p|]|f [] [p|]]|]; cbn; rewrite ?serde_inv; done.
Qed.
Lemma csql_list_spec s c : csql_wf s → c ∈ csql_list_channel_ids s ↔ is_Some (csql_channel s c).
Proof.
  intros Hwf. unfold csql_list_channel_ids. rewrite list_elem_of_fmap.
  pose proof (csw_rows _ Hwf c) as Hc. split.
  - intros ([c' r] & -> & Hr%elem_of_map_to_list). cbn in *. rewrite Hr in Hc.
    destruct (csql_channel s c'); [by eexists|done].
  - intros [ch Hch]. rewrite Hch in Hc. exists (c, row_of ch). by rewrite elem_of_map_to_list.
Qed.

(** The rows of a mint and unit are those of its cached keysets. *)
Lemma csql_keyset_rows_elem s m u k r :
  csql_wf s → (k, r) ∈ csql_keyset_rows s m u ↔
  ∃ i e, k = id_to_string i ∧ keyset_row e r ∧ ck_unit e = u ∧ client_keysets s !! (m, k) = Some r.
Proof.
  intros Hwf. unfold csql_keyset_rows. rewrite !sort_by_key_perm, list_elem_of_fmap.
  setoid_rewrite list_elem_of_filter. setoid_rewrite elem_of_map_to_list'. split.
  - intros ([[m' k'] r'] & [= -> ->] & (Hm & Hu) & Hr). cbn in *. subst m'.
    destruct (csw_keysets _ Hwf m k' r' Hr) as (i & e & -> & Hrow). exists i, e. split_and!; try done.
    apply unit_to_string_inj. destruct Hrow as [<- _]. done.
  - intros (i & e & -> & Hrow & <- & Hr). exists (m, id_to_string i, r). split; [done|]. split; [|done].
    split; [done|]. apply Hrow.
Qed.
Lemma csql_get_keyset_row s m i r e :
  client_keysets s !! (m, id_to_string i) = Some r → keyset_row e r → csql_get_keyset s m i = Some e.
Proof.
  intros Hr (Hu & Ha & Hi). unfold csql_get_keyset. rewrite Hr. cbn. rewrite Hu, unit_inv, Ha, Hi.
  by destruct e as [? [] ?].
Qed.
Lemma csql_get_keyset_inv s m i e :
  csql_wf s → csql_get_keyset s m i = Some e →
  ∃ r, client_keysets s !! (m, id_to_string i) = Some r ∧ keyset_row e r.
Proof.
  intros Hwf. unfold csql_get_keyset. destruct (client_keysets s !! _) as [r|] eqn:Hr; [|done].
  destruct (csw_keysets _ Hwf _ _ _ Hr) as (i' & e' & _ & Hrow). cbn.
  pose proof Hrow as (Hu & Ha & Hi). rewrite Hu, unit_inv, Ha, Hi. intros [= <-]. exists r.
  split; [done|]. by destruct e' as [? [] ?].
Qed.

Program Definition sqlite_client_spec : ClientStorageSpec SqliteClientStorage := {|
  cst_wf := csql_wf;
  cst_channel := csql_channel;
  client_exec_spec := csql_exec_spec;
  closed_final := true;
  close_again_spec := csql_close_again;
  client_view_spec := csql_view_spec;
  get_opening_ok := csql_opening_query;
  list_channel_ids_spec := csql_list_spec;
|}.
Next Obligation.
  intros s m i e Hwf. split; [done|]. cbn. unfold csql_set_keyset. cbn.
  set (r := mk_ClientKeysetRow _ _ _ _ _).
  assert (keyset_row e r) as Hrow by done. split; [split|]; cbn.
  - exact (csw_rows _ Hwf).
  - intros m' k r'. rewrite lookup_insert_Some. intros [[[= <- <-] <-]|[_ Hr]]; [by exists i, e|].
    by eapply csw_keysets.
  - split; [done|]. intros m' i'. case_bool_decide as Hd.
    + injection Hd as -> ->. eapply csql_get_keyset_row; [|done]. cbn. by rewrite lookup_insert_eq.
    + unfold csql_get_keyset. cbn. rewrite lookup_insert_ne; [done|].
      intros [= -> Hi]. apply Hd. f_equal. apply (f_equal id_from_str) in Hi. rewrite !id_inv in Hi. congruence.
Qed.
Next Obligation.
  intros s m u i Hwf. cbn. unfold csql_get_active_keyset_ids. rewrite list_elem_of_omap. split.
  - intros ([k r] & (i' & e & -> & Hrow & <- & Hr)%csql_keyset_rows_elem & Hf); [|done]. cbn in Hf.
    rewrite parse_id_inv in Hf. destruct (negb (kr_active r =? 0)) eqn:Ha; [|done]. injection Hf as ->.
    exists e. split; [by eapply csql_get_keyset_row|]. split; [|done].
    destruct Hrow as (_ & Hact & _). rewrite Hact in Ha. by destruct (ck_active e).
  - intros (e & He & Ha & <-). apply csql_get_keyset_inv in He as (r & Hr & Hrow); [|done].
    exists (id_to_string i, r). split; [apply csql_keyset_rows_elem; [done|]; by exists i, e|].
    cbn. destruct Hrow as (_ & -> & _). rewrite Ha. cbn. apply parse_id_inv.
Qed.
Next Obligation.
  intros s m u i e Hwf. cbn. unfold csql_list_keysets_for_unit. rewrite list_elem_of_omap. split.
  - intros ([k r] & (i' & e' & -> & Hrow & <- & Hr)%csql_keyset_rows_elem & Hf); [|done]. cbn in Hf.
    rewrite parse_id_inv in Hf. injection Hf as -> <-.
    assert (keyset_row e' r) as (Hu & -> & ->) by done.
    split; [|done]. erewrite csql_get_keyset_row by done. by destruct e' as [? [] ?].
  - intros (He & <-). apply csql_get_keyset_inv in He as (r & Hr & Hrow); [|done].
    exists (id_to_string i, r). split; [apply csql_keyset_rows_elem; [done|]; by exists i, e|].
    cbn. rewrite parse_id_inv. cbn. destruct Hrow as (_ & -> & ->). by destruct e as [? [] ?].
Qed.
End sqlite.

(** ** Histories *)

Inductive ClientEvent {T : CashuTypes} :=
| OnChannel (c : string) (cmd : ClientCommand)
| OnKeyset (mint : string) (id : Id) (entry : ClientKeysetCacheEntry).

Section history.
Context {T : CashuTypes} {S : Type} `{!ClientStorage S}.

Definition client_apply (s : S) (ev : ClientEvent) : Result string unit * S :=
  match ev with
  | OnChannel c cmd => client_exec s c cmd
  | OnKeyset m i e => client_set_keyset s m i e
  end.
(** The answers to a sequence of requests, and the storage after it. *)
Fixpoint client_run (s : S) (l : list ClientEvent) : list bool * S :=
  match l with
  | [] => ([], s)
  | ev :: l =>
      let r := client_apply s ev in
      let '(answers, s') := client_run r.2 l in (is_ok r.1 :: answers, s')
  end.
End history.

Definition event_in_domain {T : CashuTypes} (channel : string → option ClientChannel) (ev : ClientEvent) : Prop :=
  match ev with OnChannel c cmd => client_in_domain cmd (channel c) | OnKeyset _ _ _ => True end.
(** The abstract effect of a request. *)
Definition event_step {T : CashuTypes} (channel : string → option ClientChannel) (ev : ClientEvent) :
    string → option ClientChannel :=
  match ev with
  | OnChannel c cmd => λ d,
      if decide (d = c) then default (channel c) (client_step cmd (channel c)) else channel d
  | OnKeyset _ _ _ => channel
  end.
Fixpoint history_in_domain {T : CashuTypes} (channel : string → option ClientChannel)
    (l : list ClientEvent) : Prop :=
  match l with
  | [] => True
  | ev :: l => event_in_domain channel ev ∧ history_in_domain (event_step channel ev) l
  end.

Section life.
Context {T : CashuTypes} {O : CashuOps} {S : Type} {CS : ClientStorage S} {SP : ClientStorageSpec S}.
Implicit Types (s : S) (f : string → option ClientChannel).

Definition event_ok f (ev : ClientEvent) : bool :=
  match ev with
  | OnChannel c cmd => match client_step cmd (f c) with Some _ => true | None => false end
  | OnKeyset _ _ _ => true
  end.
Definition keyset_step (k : string → Id → option ClientKeysetCacheEntry) (ev : ClientEvent) :
    string → Id → option ClientKeysetCacheEntry :=
  match ev with
  | OnChannel _ _ => k
  | OnKeyset m i e => λ m' i', if bool_decide ((m', i') = (m, i)) then Some e else k m' i'
  end.

Lemma client_apply_spec s f k ev :
  cst_wf s → (∀ c, cst_channel s c = f c) → (∀ m i, client_get_keyset s m i = k m i) →
  event_in_domain f ev →
  let r := client_apply s ev in
  cst_wf r.2 ∧ is_ok r.1 = event_ok f ev ∧ (∀ c, cst_channel r.2 c = event_step f ev c) ∧
  (∀ m i, client_get_keyset r.2 m i = keyset_step k ev m i).
Proof.
  intros Hwf Hf Hk. destruct ev as [c cmd|m i e]; cbn.
  - intros Hdom. rewrite <-Hf in Hdom |- *.
    destruct (client_exec_spec s c cmd Hwf Hdom) as (Hwf' & Hm & Hframe & Hks).
    split_and!; [done|..|by intros; rewrite Hks].
    + destruct (client_step cmd (cst_channel s c)); [by destruct Hm as [-> _]|by destruct Hm as [[? ->] _]].
    + intros d. case_decide as Hd; [|by rewrite Hframe, Hf]. subst d.
      by destruct (client_step cmd (cst_channel s c)); destruct Hm as [_ ->].
  - intros _. destruct (client_set_keyset_spec s m i e Hwf) as (-> & Hwf' & Hch & Hks).
    split_and!; [done..|by intros; rewrite Hch|]. intros m' i'. by rewrite Hks, Hk.
Qed.

Fixpoint history_answers f (l : list ClientEvent) : list bool :=
  match l with [] => [] | ev :: l => event_ok f ev :: history_answers (event_step f ev) l end.
Lemma client_run_spec l s f k :
  cst_wf s → (∀ c, cst_channel s c = f c) → (∀ m i, client_get_keyset s m i = k m i) →
  history_in_domain f l →
  let r := client_run s l in
  cst_wf r.2 ∧ r.1 = history_answers f l ∧ (∀ c, cst_channel r.2 c = foldl event_step f l c) ∧
  (∀ m i, client_get_keyset r.2 m i = foldl keyset_step k l m i).
Proof.
  revert s f k. induction l as [|ev l IH]; intros s f k Hwf Hf Hk; [done|]. intros [Hd Hl]. cbn.
  destruct (client_apply_spec s f k ev Hwf Hf Hk Hd) as (Hwf' & Hok & Hf' & Hk').
  specialize (IH _ _ _ Hwf' Hf' Hk' Hl).
  destruct (client_run (client_apply s ev).2 l). cbn in *. destruct IH as (? & -> & ? & ?).
  by rewrite Hok.
Qed.

(** What may happen to a channel that is not deleted: the opening record is kept until the
    funding made from it replaces it; the funding never changes; a [final] channel does not
    go back in its phases. *)
Definition phase_rank (ph : Phase) : Z := match ph with PhOpen => 0 | PhClosing => 1 | PhClosed => 2 end.
Definition client_advances (final : bool) (a b : option ClientChannel) : Prop :=
  match a, b with
  | None, _ => True
  | Some (Opening o _ _), Some (Opening o' _ _) => o' = o
  | Some (Opening o _ _), Some (Funded f _ _) => ∃ proofs, f = funding_of_opening o proofs
  | Some (Funded f ph _), Some (Funded f' ph' _) => f' = f ∧ (final = true → phase_rank ph <= phase_rank ph')
  | _, _ => False
  end.
#[global] Instance client_advances_preorder final : PreOrder (client_advances final).
Proof.
  split.
  - intros [[]|]; cbn; done || (split; [done|intros; lia]).
  - intros [[]|] [[]|] [[]|]; cbn; try done; [naive_solver..|]. intros [-> H1] [-> H2]. split; [done|].
    intros Hf. specialize (H1 Hf). specialize (H2 Hf). lia.
Qed.



End life.

(** ** The two storages agree *)

Section agreement.
Context {T : CashuTypes} {O : CashuOps} {Q : SqliteClient} {QL : SqliteClientLaws} {EL : EncodingLaws}.
Context (sqlite_now : SqliteClientStorage → Z).
#[local] Instance sqlite_client' : ClientStorage SqliteClientStorage := sqlite_client_storage sqlite_now.
#[local] Instance sqlite_client_spec' : ClientStorageSpec SqliteClientStorage := sqlite_client_spec sqlite_now.

(** C18: a client can keep its channels in memory or in SQLite and see no difference: from
    empty storages, over any history of requests the specification covers, the same requests
    succeed and in the end every query, about channels and about cached keysets, has the
    same answer. *)
Theorem client_storages_agree (l : list ClientEvent) :
  history_in_domain (λ _, None) l →
  let '(answers_m, m) := client_run MemoryClientStorage_new l in
  let '(answers_q, q) := client_run SqliteClientStorage_open_new l in
  answers_m = answers_q ∧
  (∀ c, client_view m c = client_view q c) ∧
  (∀ c, c ∈ list_channel_ids m ↔ c ∈ list_channel_ids q) ∧
  (∀ mint i, client_get_keyset m mint i = client_get_keyset q mint i) ∧
  (∀ mint u i, i ∈ client_get_active_keyset_ids m mint u ↔ i ∈ client_get_active_keyset_ids q mint u) ∧
  (∀ mint u x, x ∈ client_list_keysets_for_unit m mint u ↔ x ∈ client_list_keysets_for_unit q mint u).
Proof.
  intros Hd. set (k := λ (m : string) (i : Id), @None ClientKeysetCacheEntry).
  destruct (client_run_spec (SP:=memory_client_spec) l MemoryClientStorage_new (λ _, None) k cmem_new_wf) as (Hm & Ham & Hcm & Hkm);
    [done|intros; cbn; unfold cmem_get_keyset; cbn; by rewrite lookup_empty|done|].
  destruct (client_run_spec (SP:=sqlite_client_spec') l SqliteClientStorage_open_new (λ _, None) k (csql_new_wf)) as (Hq & Haq & Hcq & Hkq);
    [done|intros; cbn; unfold csql_get_keyset; cbn; by rewrite lookup_empty|done|].
  destruct (client_run MemoryClientStorage_new l) as [am m], (client_run SqliteClientStorage_open_new l) as [aq q].
  cbn [fst snd] in *. split_and!.
  - by rewrite Ham, Haq.
  - intros c. by rewrite !client_view_spec, Hcm, Hcq.
  - intros c. by rewrite !list_channel_ids_spec, Hcm, Hcq.
  - intros mint i. by rewrite Hkm, Hkq.
  - intros mint u i. rewrite !client_active_ids_spec by done. by setoid_rewrite Hkm; setoid_rewrite Hkq.
  - intros mint u [i e]. rewrite !client_list_keysets_spec by done. by rewrite Hkm, Hkq.
Qed.
End agreement.

Module Examples.
#[local] Existing Instance Toy.types.
#[local] Existing Instance Toy.ops.
#[local] Existing Instance Toy.encoding_laws.
Import StorageSqlite.Examples.

#[local] Instance opening_countable : Countable ClientChannelOpeningFromSwap.
Proof.
  refine (inj_countable (A:=list string * list Z)
    (λ o, ([op_params_json o; op_channel_secret_hex o; op_keyset_info_json o; op_sender_pubkey_hex o;
            op_receiver_pubkey_hex o; op_mint_url o; op_unit o; op_input_token o; op_change_secrets_json o],
           [op_capacity o; op_funding_token_amount o; op_change_amount_raw o; op_created_at o]))
    (λ x, match x with
          | ([a; b; c; d; e; f; g; h; i], [j; k; l; m]) =>
              Some (mk_ClientChannelOpeningFromSwap a b c d e j k f g h i l m)
          | _ => None end) _). by intros [].
Defined.
#[local] Instance client_funding_countable : Countable ClientChannelFunding.
Proof.
  refine (inj_countable (A:=list string * list Z)
    (λ o, ([cf_params_json o; cf_funding_proofs_json o; cf_channel_secret_hex o; cf_keyset_info_json o;
            cf_sender_pubkey_hex o; cf_mint_url o],
           [cf_capacity o; cf_funding_token_amount o; cf_created_at o]))
    (λ x, match x with
          | ([a; b; c; d; e; f], [j; k; m]) => Some (mk_ClientChannelFunding a b c d e j k f m)
          | _ => None end) _). by intros [].
Defined.
#[local] Instance payment_countable : Countable ClientPaymentState.
Proof.
  refine (inj_countable' (A:=Z * string * Z * Z)
    (λ p, (ps_balance p, ps_signature p, ps_payment_count p, ps_last_payment_at p))
    (λ '(a, b, c, d), mk_ClientPaymentState a b c d) _). by intros [].
Defined.
#[local] Instance failure_countable : Countable ClientOpeningFailure.
Proof.
  refine (inj_countable' (A:=string * string * Z)
    (λ p, (fl_stage p, fl_message p, fl_failed_at p))
    (λ '(a, b, c), mk_ClientOpeningFailure a b c) _). by intros [].
Defined.
Definition toy_sqlite_client : SqliteClient := {|
  opening_serde := toy_serde _; client_funding_serde := toy_serde _;
  payment_serde := toy_serde _; failure_serde := toy_serde _;
|}.
#[local] Existing Instance toy_sqlite_client.
#[local] Instance toy_sqlite_client_laws : SqliteClientLaws.
Proof. split; apply toy_serde_laws. Qed.

(** An opening that the mint refuses, is retried and completes, and two payments. *)
Definition opening : ClientChannelOpeningFromSwap :=
  mk_ClientChannelOpeningFromSwap "params" "secret" "keyset" "alice" "charlie" 20 25 "http://mint" "sat"
    "token" "[]" 0 1000.
Definition requests : list ClientEvent :=
  [OnKeyset "http://mint" "00ab" (mk_ClientKeysetCacheEntry "info" true "sat");
   OnChannel "c" (SaveOpening opening);
   OnChannel "c" (SetOpeningFailed (mk_ClientOpeningFailure "mint_rejected" "keyset" 1001));
   OnChannel "c" (SetOpen "proofs"); OnChannel "c" (SaveOpening opening); OnChannel "c" (SetOpen "proofs");
   OnChannel "c" (SavePayment (mk_ClientPaymentState 3 "sig3" 1 1002)); OnChannel "c" (SetOpen "other");
   OnChannel "c" SetClosing; OnChannel "c" SetClosed].
Lemma requests_in_domain : history_in_domain (λ _, None) requests.
Proof. vm_compute. repeat split. Qed.
Example requests_answers :
  (client_run MemoryClientStorage_new requests).1
  = [true; true; true; false; true; true; true; false; true; true].
Proof. vm_compute. reflexivity. Qed.

Lemma client_storages_agree_witness :
  (client_run MemoryClientStorage_new requests).1
  = (client_run (ClientStorage0:=sqlite_client_storage (λ _, 7)) SqliteClientStorage_open_new requests).1.
Proof.
  pose proof (client_storages_agree (λ _, 7) requests requests_in_domain) as Hag.
  destruct (client_run MemoryClientStorage_new requests), (client_run SqliteClientStorage_open_new requests).
  exact (proj1 Hag).
Defined.


(** The difference: the in-memory storage obeys the mark, the SQLite storage refuses it. *)
Example close_marks_differ :
  client_get_state (client_run MemoryClientStorage_new (requests ++ [OnChannel "c" SetClosing])).2 "c" = Some ClientClosing ∧
  client_get_state (ClientStorage:=sqlite_client_storage (λ _, 7))
    (client_run (ClientStorage0:=sqlite_client_storage (λ _, 7)) SqliteClientStorage_open_new
       (requests ++ [OnChannel "c" SetClosing])).2 "c" = Some ClientClosed.
Proof. vm_compute. done. Qed.
End Examples.
