(* ===== verification/Funding.v ===== *)
(** * Funding a channel ([bindings.rs])

    The functions with which a client turns a token or loose proofs into the funding proofs
    of a channel: sizing the channel, building the funding swap with its plain change,
    completing it from the mint's answer, and restoring it (NUT-09). They exchange JSON
    texts; the model keeps them. [OpeningOps] holds what these functions call in the [cashu]
    crate beyond [CashuOps]. *)

From S2P Require Import Prelude Cashu Toy Amounts Params SwapCompletion Deterministic Channel.

(** ** The wallet part of the [cashu] crate *)

(** [cashu::nuts::KeySetInfo] (NUT-02). *)
Record KeySetInfo {T : CashuTypes} := mk_KeySetInfo {
  ksi_id : Id;
  ksi_unit : CurrencyUnit;
  ksi_active : bool;
  ksi_input_fee_ppk : Z;
  ksi_final_expiry : option Z;
}.
Arguments mk_KeySetInfo {T}.
(** [cashu::nuts::PreMint]: a blinded message with what opens it. *)
Record PreMint {T : CashuTypes} := mk_PreMint {
  pmt_blinded_message : BlindedMessage;
  pmt_secret : string;
  pmt_r : SecretKey;
  pmt_amount : Z;
}.
Arguments mk_PreMint {T}.
Inductive SplitTarget := SplitNone | SplitValues (amounts : list Z).

Class OpeningOps {T : CashuTypes} := {
  Token : Type;
  token_from_str : string → Result string Token;
  token_mint_url : Token → Result string string;
  token_unit : Token → option CurrencyUnit;
  token_proofs : Token → list KeySetInfo → Result string (list Proof);
  unit_Sat : CurrencyUnit;
  unit_custom : string → CurrencyUnit;
  (** [serde_json::from_str::<Vec<KeySetInfo>>] *)
  key_set_infos_from_json : string → Result string (list KeySetInfo);
  secret_to_hex : SecretKey → string;
  swap_request_to_json : SwapRequest → Result string string;
  swap_request_from_json : string → Result string SwapRequest;
  blinded_message_to_value : BlindedMessage → Value;
  bs_dleq_new : SecretKey → SecretKey → BlindSignatureDleq;
  (** [PreMintSecrets::random]; the first argument stands for the random bytes it draws,
      the last two for [FeeAndAmounts]. *)
  premint_random : Z → Id → Z → SplitTarget → Z → list Z → Result string (list PreMint);
  base64_encode : string → string;
}.

(** The wire form of a swap request is read back, and so is the hex of a secret key; the
    SIG_ALL digest is a SHA-256 digest. *)
Class OpeningLaws {T : CashuTypes} {O : CashuOps} {W : OpeningOps} : Prop := {
  json_parse_empty : json_parse "[]" = Ok (json_arr []);
  sig_all_hash_range r : length (sig_all_message_hash r) = 32%nat
    ∧ Forall (λ x, 0 <= x < 256) (sig_all_message_hash r);
  swap_request_json_inv r : ∃ s, swap_request_to_json r = Ok s ∧ swap_request_from_json s = Ok r;
  secret_hex_inv k : secret_from_hex (secret_to_hex k) = Ok k;
}.

(** What [PreMintSecrets::random] makes: blinded messages of the keyset, each the blinding
    of its secret, with the amounts of the split. *)
Class PreMintLaws {T : CashuTypes} {O : CashuOps} {W : OpeningOps} : Prop := {
  premint_random_spec rnd id amount l fee amounts pre :
    premint_random rnd id amount (SplitValues l) fee amounts = Ok pre → sumZ l = amount →
    pmt_amount <$> pre ≡ₚ l ∧
    Forall (λ m, pmt_blinded_message m
                 = BlindedMessage_new (pmt_amount m) id (bm_blinded_secret (pmt_blinded_message m)) ∧
               blind_message (bytes_of_string (pmt_secret m)) (pmt_r m)
                 = Ok (bm_blinded_secret (pmt_blinded_message m))) pre;
}.

(** [cashu::dhke::construct_proofs] works output by output, and a blind signature whose DLEQ
    proof holds for the blinding of a secret unblinds to a proof whose DLEQ proof holds, with
    the blinding factor in it (NUT-12). *)
Class UnblindLaws {T : CashuTypes} {O : CashuOps} : Prop := {
  construct_proofs_app s1 r1 t1 s2 r2 t2 keys proofs :
    length s1 = length r1 → length s1 = length t1 →
    dhke_construct_proofs (s1 ++ s2) (r1 ++ r2) (t1 ++ t2) keys = Ok proofs →
    ∃ p1 p2, proofs = p1 ++ p2 ∧ dhke_construct_proofs s1 r1 t1 keys = Ok p1 ∧
      dhke_construct_proofs s2 r2 t2 keys = Ok p2;
  construct_proofs_dleq sigs rs secrets keys proofs i s r t p K B :
    dhke_construct_proofs sigs rs secrets keys = Ok proofs →
    sigs !! i = Some s → rs !! i = Some r → secrets !! i = Some t → proofs !! i = Some p →
    blind_message (bytes_of_string t) r = Ok B → amount_key keys (bs_amount s) = Some K →
    signature_verify_dleq s K B = Ok tt →
    proof_witness p = None ∧ proof_p2pk_e p = None ∧ proof_verify_dleq p K = Ok tt ∧
    ∃ d, proof_dleq p = Some d ∧ dleq_r d = r;
}.

Section code.
Context {T : CashuTypes} {O : CashuOps} {W : OpeningOps}.

(** ** Texts *)

(** [serde_json::from_str::<Vec<Value>>]. *)
Definition values_from_json (s : string) : Result string (list Value) :=
  v ← json_parse s;
  ok_or "invalid type: expected a sequence" (json_as_array v).

(** The channel secret, 32 bytes in hex; [name] is what the error calls it. *)
Definition parse_secret (name channel_secret_hex : string) : Result string bytes :=
  channel_secret_bytes ← map_err (λ e, "Invalid channel secret hex: " +:+ e) (hex_decode channel_secret_hex);
  if bool_decide (length channel_secret_bytes ≠ 32%nat) then
    Err (name +:+ " secret must be 32 bytes, got " +:+ nat_str (length channel_secret_bytes))
  else Ok channel_secret_bytes.

Definition channel_parameters_get_channel_id (params_json channel_secret_hex keyset_info_json : string) :
    Result string string :=
  channel_secret ← parse_secret "Shared" channel_secret_hex;
  keyset_info ← parse_keyset_info_from_json keyset_info_json;
  params ← map_err (λ e, "Failed to parse params: " +:+ e)
    (from_json_with_channel_secret params_json keyset_info channel_secret);
  Ok (get_channel_id params).

Definition compute_funding_token_amount (capacity : Z) (keyset_info_json : string) (maximum_amount : Z) :
    Result string Z :=
  keyset_info ← parse_keyset_info_from_json keyset_info_json;
  map_err (λ e, "Failed to compute funding token amount: " +:+ e)
    (get_minimum_funding_token_amount capacity keyset_info maximum_amount).

(** ** Sizing *)

Record MixedInputFeeResult := mk_MixedInputFeeResult {
  mf_input_value : Z;
  mf_input_fee : Z;
  mf_post_swap_value : Z;
}.

(** A [HashMap] collected from the listing: the last entry of an id counts. *)
Definition fee_by_keyset (input_keysets : list KeySetInfo) : gmap Id Z :=
  list_to_map (reverse ((λ k, (ksi_id k, ksi_input_fee_ppk k)) <$> input_keysets)).
Definition add_input (fees : gmap Id Z) (acc : Z * Z) (proof : Proof) : Result string (Z * Z) :=
  let '(input_value, input_fee_ppk_sum) := acc in
  input_value ← ok_or "input proof value overflow" (checked_add input_value (proof_amount proof));
  input_fee_ppk ← ok_or ("missing input keyset fee metadata for proof keyset "
                         +:+ id_to_string (proof_keyset_id proof)) (fees !! proof_keyset_id proof);
  input_fee_ppk_sum ← ok_or "input fee ppk overflow" (checked_add input_fee_ppk_sum input_fee_ppk);
  Ok (input_value, input_fee_ppk_sum).
Definition compute_post_swap_value_from_input_keysets (proofs : list Proof)
    (input_keysets : list KeySetInfo) : Result string MixedInputFeeResult :=
  '(input_value, input_fee_ppk_sum) ← try_fold (add_input (fee_by_keyset input_keysets)) (0, 0) proofs;
  let input_fee := div_ceil input_fee_ppk_sum 1000 in
  Ok (mk_MixedInputFeeResult input_value input_fee (saturating_sub input_value input_fee)).

(** [unix_time] is what the clock reads during the call. *)
Definition compute_channel_from_proofs_inner (unix_time : Z) (proofs : list Proof)
    (input_value post_swap_value input_fee : Z) (mint_url : string) (unit : CurrencyUnit)
    (receiver_pubkey_hex sender_pubkey_hex channel_secret_hex : string) (expiry_timestamp : Z)
    (ks : KeysetInfo) (maximum_amount_for_one_output : Z)
    (requested_capacity requested_funding_token_amount : option Z) (mode : CommitmentMode) :
    Result string string :=
  if bool_decide (ki_unit ks ≠ unit) then
    Err ("output keyset unit mismatch: expected " +:+ unit_to_string unit +:+ ", got "
         +:+ unit_to_string (ki_unit ks))
  else
    let max_amt := maximum_amount_for_one_output in
    let funding_token_amount := default post_swap_value requested_funding_token_amount in
    if post_swap_value <? funding_token_amount then
      Err ("requested funding token amount " +:+ pretty funding_token_amount
           +:+ " exceeds selected post-swap value " +:+ pretty post_swap_value)
    else
      v2 ← map_err (λ e, "Failed to compute v2: " +:+ e)
        (deterministic_value_after_fees ks funding_token_amount max_amt);
      max_capacity ← map_err (λ e, "Failed to compute capacity: " +:+ e)
        (deterministic_value_after_fees ks v2 max_amt);
      let capacity := default max_capacity requested_capacity in
      if max_capacity <? capacity then
        Err ("requested capacity " +:+ pretty capacity +:+ " exceeds maximum achievable capacity "
             +:+ pretty max_capacity +:+ " for funding_token_amount " +:+ pretty funding_token_amount)
      else
        let change_amount_raw := post_swap_value - funding_token_amount in
        sender_pubkey ← map_err (λ e, "Invalid sender pubkey: " +:+ e) (pubkey_from_str sender_pubkey_hex);
        receiver_pubkey ← map_err (λ e, "Invalid receiver pubkey: " +:+ e)
          (pubkey_from_str receiver_pubkey_hex);
        channel_secret ← parse_secret "Channel" channel_secret_hex;
        params ← map_err (λ e, "Failed to create channel params: " +:+ e)
          (ChannelParameters_new sender_pubkey receiver_pubkey mint_url unit capacity
             funding_token_amount expiry_timestamp unix_time ks max_amt channel_secret);
        let params := with_commitment_mode params mode in
        let proofs_json := proofs_to_json proofs in
        let params_json := get_channel_id_params_json params in
        Ok (json_print (json_obj
          [("capacity", json_num capacity);
           ("funding_token_amount", json_num funding_token_amount);
           ("input_value", json_num input_value);
           ("input_fee", json_num input_fee);
           ("post_swap_value", json_num post_swap_value);
           ("change_amount_raw", json_num change_amount_raw);
           ("mint_url", json_str mint_url);
           ("unit", json_str (unit_to_string unit));
           ("output_keyset_id", json_str (id_to_string (keyset_id ks)));
           ("receiver_pubkey_hex", json_str (pubkey_to_hex receiver_pubkey));
           ("params_json", json_str params_json);
           ("proofs_json", json_str proofs_json)])).

Definition compute_channel_from_proofs_with_mode (unix_time : Z)
    (mint_url unit input_proofs_json input_keysets_json receiver_pubkey_hex sender_pubkey_hex
     channel_secret_hex : string) (expiry_timestamp : Z) (output_keyset_info_json : string)
    (maximum_amount_for_one_output : Z) (requested_capacity requested_funding_token_amount : option Z)
    (mode : CommitmentMode) : Result string string :=
  proofs ← map_err (λ e, "Failed to parse input proofs: " +:+ e) (proofs_from_json input_proofs_json);
  let unit := match unit_from_str unit with Ok u => u | _ => unit_custom unit end in
  input_keysets ← map_err (λ e, "Failed to parse input keysets: " +:+ e)
    (key_set_infos_from_json input_keysets_json);
  input_fee ← compute_post_swap_value_from_input_keysets proofs input_keysets;
  ks ← parse_keyset_info_from_json output_keyset_info_json;
  compute_channel_from_proofs_inner unix_time proofs (mf_input_value input_fee)
    (mf_post_swap_value input_fee) (mf_input_fee input_fee) mint_url unit receiver_pubkey_hex
    sender_pubkey_hex channel_secret_hex expiry_timestamp ks maximum_amount_for_one_output
    requested_capacity requested_funding_token_amount mode.
Definition compute_channel_from_proofs_with_input_keysets_and_funding_amount (unix_time : Z)
    (mint_url unit input_proofs_json input_keysets_json receiver_pubkey_hex sender_pubkey_hex
     channel_secret_hex : string) (expiry_timestamp : Z) (output_keyset_info_json : string)
    (maximum_amount_for_one_output : Z) (requested_capacity requested_funding_token_amount : option Z) :
    Result string string :=
  compute_channel_from_proofs_with_mode unix_time mint_url unit input_proofs_json input_keysets_json
    receiver_pubkey_hex sender_pubkey_hex channel_secret_hex expiry_timestamp output_keyset_info_json
    maximum_amount_for_one_output requested_capacity requested_funding_token_amount Ordinary.
(** The entry point without fee metadata refuses every call. *)
Definition compute_channel_from_proofs (mint_url unit input_proofs_json receiver_pubkey_hex
    sender_pubkey_hex channel_secret_hex : string) (expiry_timestamp : Z)
    (keyset_info_json : string) (maximum_amount : Z) : Result string string :=
  Err "compute_channel_from_proofs requires input keyset fee metadata; use compute_channel_from_proofs_with_input_keysets".

Definition compute_channel_from_proofs_with_input_keysets (unix_time : Z)
    (mint_url unit input_proofs_json input_keysets_json receiver_pubkey_hex sender_pubkey_hex
     channel_secret_hex : string) (expiry_timestamp : Z) (output_keyset_info_json : string)
    (maximum_amount_for_one_output : Z) (requested_capacity : option Z) : Result string string :=
  compute_channel_from_proofs_with_input_keysets_and_funding_amount unix_time mint_url unit
    input_proofs_json input_keysets_json receiver_pubkey_hex sender_pubkey_hex channel_secret_hex
    expiry_timestamp output_keyset_info_json maximum_amount_for_one_output requested_capacity None.

Definition token_parts (token_string : string) : Result string (Token * string * CurrencyUnit) :=
  token ← map_err (λ e, "Failed to parse token: " +:+ e) (token_from_str token_string);
  mint_url ← map_err (λ e, "Failed to get mint URL: " +:+ e) (token_mint_url token);
  Ok (token, mint_url, default unit_Sat (token_unit token)).
Definition compute_channel_from_token_with_input_keysets_and_mode (unix_time : Z)
    (token_string receiver_pubkey_hex sender_pubkey_hex channel_secret_hex : string)
    (expiry_timestamp : Z) (keyset_info_json input_keysets_json : string)
    (maximum_amount_for_one_output : Z) (requested_capacity : option Z) (mode : CommitmentMode) :
    Result string string :=
  '(token, mint_url, unit) ← token_parts token_string;
  ks ← parse_keyset_info_from_json keyset_info_json;
  input_keysets ← map_err (λ e, "Failed to parse input keysets: " +:+ e)
    (key_set_infos_from_json input_keysets_json);
  proofs ← map_err (λ e, "Failed to parse proofs: " +:+ e) (token_proofs token input_keysets);
  input_fee ← compute_post_swap_value_from_input_keysets proofs input_keysets;
  compute_channel_from_proofs_inner unix_time proofs (mf_input_value input_fee)
    (mf_post_swap_value input_fee) (mf_input_fee input_fee) mint_url unit receiver_pubkey_hex
    sender_pubkey_hex channel_secret_hex expiry_timestamp ks maximum_amount_for_one_output
    requested_capacity None mode.
Definition compute_channel_from_token_with_input_keysets (unix_time : Z)
    (token_string receiver_pubkey_hex sender_pubkey_hex channel_secret_hex : string)
    (expiry_timestamp : Z) (keyset_info_json input_keysets_json : string)
    (maximum_amount_for_one_output : Z) (requested_capacity : option Z) : Result string string :=
  compute_channel_from_token_with_input_keysets_and_mode unix_time token_string receiver_pubkey_hex
    sender_pubkey_hex channel_secret_hex expiry_timestamp keyset_info_json input_keysets_json
    maximum_amount_for_one_output requested_capacity Ordinary.
Definition compute_channel_from_token_with_mode (unix_time : Z)
    (token_string receiver_pubkey_hex sender_pubkey_hex channel_secret_hex : string)
    (expiry_timestamp : Z) (keyset_info_json : string) (maximum_amount_for_one_output : Z)
    (requested_capacity : option Z) (mode : CommitmentMode) : Result string string :=
  '(token, mint_url, unit) ← token_parts token_string;
  ks ← parse_keyset_info_from_json keyset_info_json;
  let input_keysets := [mk_KeySetInfo (keyset_id ks) unit true (input_fee_ppk ks) (final_expiry ks)] in
  let nut02_keyset_info := mk_KeySetInfo (keyset_id ks) unit true (input_fee_ppk ks) None in
  proofs ← map_err (λ e, "Failed to parse proofs: " +:+ e) (token_proofs token [nut02_keyset_info]);
  input_fee ← compute_post_swap_value_from_input_keysets proofs input_keysets;
  compute_channel_from_proofs_inner unix_time proofs (mf_input_value input_fee)
    (mf_post_swap_value input_fee) (mf_input_fee input_fee) mint_url unit receiver_pubkey_hex
    sender_pubkey_hex channel_secret_hex expiry_timestamp ks maximum_amount_for_one_output
    requested_capacity None mode.
Definition compute_channel_from_token (unix_time : Z)
    (token_string receiver_pubkey_hex sender_pubkey_hex channel_secret_hex : string)
    (expiry_timestamp : Z) (keyset_info_json : string) (maximum_amount_for_one_output : Z)
    (requested_capacity : option Z) : Result string string :=
  compute_channel_from_token_with_mode unix_time token_string receiver_pubkey_hex sender_pubkey_hex
    channel_secret_hex expiry_timestamp keyset_info_json maximum_amount_for_one_output
    requested_capacity Ordinary.

(** ** The funding swap *)

Definition reconstruct_funding_outputs (params_json channel_secret_hex keyset_info_json : string) :
    Result string DeterministicOutputsForOneContext :=
  ks ← parse_keyset_info_from_json keyset_info_json;
  channel_secret ← parse_secret "Channel" channel_secret_hex;
  params ← map_err (λ e, "Failed to create ChannelParameters: " +:+ e)
    (from_json_with_channel_secret params_json ks channel_secret);
  funding_token_nominal ← map_err (λ e, "Failed to compute funding token amount: " +:+ e)
    (get_total_funding_token_amount params);
  map_err (λ e, "Failed to create funding outputs: " +:+ e)
    (OutputsForOneContext_new "funding" funding_token_nominal params).

(** One entry of a list of secrets, and the list. *)
Definition secret_value (secret : string) (blinding_factor : SecretKey) (amount : Z) : Value :=
  json_obj [("secret", json_str secret);
            ("blinding_factor", json_str (secret_to_hex blinding_factor));
            ("amount", json_num amount)].
Definition secrets_json (l : list DeterministicSecretWithBlinding) : string :=
  json_print (json_arr ((λ swb, secret_value (ds_secret swb) (ds_blinding_factor swb) (ds_amount swb)) <$> l)).
Definition premint_secrets_json (l : list PreMint) : string :=
  json_print (json_arr ((λ pm, secret_value (pmt_secret pm) (pmt_r pm) (pmt_amount pm)) <$> l)).

Definition create_funding_swap (params_json channel_secret_hex keyset_info_json input_proofs_json : string) :
    Result string string :=
  funding_outputs ← reconstruct_funding_outputs params_json channel_secret_hex keyset_info_json;
  input_proofs ← map_err (λ e, "Failed to parse input proofs: " +:+ e) (proofs_from_json input_proofs_json);
  blinded_messages ← map_err (λ e, "Failed to get funding blinded messages: " +:+ e)
    (get_blinded_messages funding_outputs None);
  funding_secrets ← map_err (λ e, "Failed to get funding secrets: " +:+ e)
    (get_secrets_with_blinding funding_outputs);
  swap_request_json ← map_err (λ e, "Failed to serialize swap request: " +:+ e)
    (swap_request_to_json (SwapRequest_new input_proofs blinded_messages));
  Ok (json_print (json_obj
    [("swap_request_json", json_str swap_request_json);
     ("funding_secrets_json", json_str (secrets_json funding_secrets));
     ("funding_count", json_num (Z.of_nat (length funding_secrets)))])).

(** [rnd] stands for the random bytes drawn for the change. *)
Definition plain_change_outputs (rnd change_amount_raw : Z) (ks : KeysetInfo) :
    Result string (list PreMint) :=
  if change_amount_raw =? 0 then Ok []
  else
    amounts ← map_err (λ e, "Failed to split change outputs: " +:+ e) (from_target change_amount_raw 0 ks);
    map_err (λ e, "Failed to create change outputs: " +:+ e)
      (premint_random rnd (keyset_id ks) change_amount_raw (SplitValues (ola_amounts amounts))
         (input_fee_ppk ks) (reverse (amounts_largest_first ks))).

Definition create_funding_swap_with_plain_change (rnd : Z)
    (params_json channel_secret_hex keyset_info_json input_proofs_json : string)
    (change_amount_raw : Z) : Result string string :=
  funding_outputs ← reconstruct_funding_outputs params_json channel_secret_hex keyset_info_json;
  ks ← parse_keyset_info_from_json keyset_info_json;
  input_proofs ← map_err (λ e, "Failed to parse input proofs: " +:+ e) (proofs_from_json input_proofs_json);
  funding_blinded_messages ← map_err (λ e, "Failed to get funding blinded messages: " +:+ e)
    (get_blinded_messages funding_outputs None);
  funding_secrets ← map_err (λ e, "Failed to get funding secrets: " +:+ e)
    (get_secrets_with_blinding funding_outputs);
  change_secrets ← plain_change_outputs rnd change_amount_raw ks;
  let blinded_messages := funding_blinded_messages ++ (pmt_blinded_message <$> change_secrets) in
  swap_request_json ← map_err (λ e, "Failed to serialize swap request: " +:+ e)
    (swap_request_to_json (SwapRequest_new input_proofs blinded_messages));
  Ok (json_print (json_obj
    [("swap_request_json", json_str swap_request_json);
     ("funding_secrets_json", json_str (secrets_json funding_secrets));
     ("funding_count", json_num (Z.of_nat (length funding_secrets)));
     ("change_secrets_json", json_str (premint_secrets_json change_secrets));
     ("change_count", json_num (Z.of_nat (length change_secrets)));
     ("change_amount_raw", json_num change_amount_raw)])).

Definition restore_request_json (outputs : list BlindedMessage) : string :=
  json_print (json_obj [("outputs", json_arr (blinded_message_to_value <$> outputs))]).
Definition create_funding_restore_request (params_json channel_secret_hex keyset_info_json : string) :
    Result string string :=
  funding_outputs ← reconstruct_funding_outputs params_json channel_secret_hex keyset_info_json;
  blinded_messages ← map_err (λ e, "Failed to get blinded messages: " +:+ e)
    (get_blinded_messages funding_outputs None);
  Ok (restore_request_json blinded_messages).

(** [values.iter().enumerate().map(f).collect()]. *)
Definition try_map_enum {A B} (f : nat → A → Result string B) (l : list A) : Result string (list B) :=
  try_map (λ '(i, x), f i x) (zip (seq 0 (length l)) l).

Definition secret_field (role field : string) (index : nat) : string :=
  "Missing '" +:+ field +:+ "' in " +:+ role +:+ " secret " +:+ nat_str index.
Definition change_output (ks : KeysetInfo) (idx : nat) (value : Value) : Result string BlindedMessage :=
  secret_str ← ok_or (secret_field "change" "secret" idx) (idx_str value "secret");
  blinding_factor_hex ← ok_or (secret_field "change" "blinding_factor" idx) (idx_str value "blinding_factor");
  amount ← ok_or (secret_field "change" "amount" idx) (idx_u64 value "amount");
  blinding_factor ← map_err (λ e, "Invalid change blinding factor " +:+ nat_str idx +:+ ": " +:+ e)
    (secret_from_hex blinding_factor_hex);
  blinded_secret ← map_err (λ e, "Failed to blind change secret " +:+ nat_str idx +:+ ": " +:+ e)
    (blind_message (bytes_of_string secret_str) blinding_factor);
  Ok (mk_BlindedMessage amount (keyset_id ks) blinded_secret None).
Definition create_plain_change_restore_request (change_secrets_json keyset_info_json : string) :
    Result string string :=
  ks ← parse_keyset_info_from_json keyset_info_json;
  secrets_raw ← map_err (λ e, "Failed to parse change secrets: " +:+ e) (values_from_json change_secrets_json);
  outputs ← try_map_enum (change_output ks) secrets_raw;
  Ok (restore_request_json outputs).

(** ** Completing *)

(** [str::parse::<Secret>] accepts every text. *)
Definition prepared_output (ks : KeysetInfo) (role : string) (index : nat) (value : Value) :
    Result string PreparedOutput :=
  secret_str ← ok_or (secret_field role "secret" index) (idx_str value "secret");
  blinding_factor_hex ← ok_or (secret_field role "blinding_factor" index) (idx_str value "blinding_factor");
  amount ← ok_or (secret_field role "amount" index) (idx_u64 value "amount");
  _ ← ensure (bool_decide (is_Some (amount_key (active_keys ks) amount)))
        ("No denomination key for " +:+ role +:+ " output " +:+ nat_str index +:+ " amount " +:+ pretty amount);
  blinding_factor ← map_err (λ e, "Invalid " +:+ role +:+ " blinding factor " +:+ nat_str index +:+ ": " +:+ e)
    (secret_from_hex blinding_factor_hex);
  blinded_secret ← map_err (λ e, "Failed to blind " +:+ role +:+ " secret " +:+ nat_str index +:+ ": " +:+ e)
    (blind_message (bytes_of_string secret_str) blinding_factor);
  Ok (mk_PreparedOutput (BlindedMessage_new amount (keyset_id ks) blinded_secret) secret_str blinding_factor).
Definition parse_prepared_outputs (secrets_json : string) (ks : KeysetInfo) (role : string) :
    Result string (list PreparedOutput) :=
  values ← map_err (λ e, "Failed to parse " +:+ role +:+ " secrets: " +:+ e) (values_from_json secrets_json);
  try_map_enum (prepared_output ks role) values.

Definition complete_exact_opening_signatures (signatures : list BlindSignature)
    (funding_secrets_json change_secrets_json : string) (ks : KeysetInfo)
    (exact_outputs : option (list BlindedMessage)) : Result string string :=
  funding ← parse_prepared_outputs funding_secrets_json ks "funding";
  change ← parse_prepared_outputs change_secrets_json ks "change";
  let funding_count := length funding in
  proofs ← complete_exact_signatures signatures (funding ++ change) ks exact_outputs;
  Ok (json_print (json_obj
    [("funding_proofs_json", json_str (proofs_to_json (take funding_count proofs)));
     ("change_proofs_json", json_str (proofs_to_json (drop funding_count proofs)))])).

Definition complete_plain_change_restore (restore_response_json change_secrets_json keyset_info_json : string) :
    Result string string :=
  restore_response ← map_err (λ e, "Failed to parse change restore response: " +:+ e)
    (restore_response_from_json restore_response_json);
  ks ← parse_keyset_info_from_json keyset_info_json;
  change_secrets ← parse_prepared_outputs change_secrets_json ks "change";
  let expected_outputs := po_blinded_message <$> change_secrets in
  signatures ← match_restore_response restore_response expected_outputs "change";
  complete_exact_opening_signatures signatures "[]" change_secrets_json ks (Some expected_outputs).

Definition complete_funding_restore (restore_response_json params_json channel_secret_hex
    keyset_info_json : string) : Result string string :=
  funding_outputs ← reconstruct_funding_outputs params_json channel_secret_hex keyset_info_json;
  expected_outputs ← map_err (λ e, "Failed to get funding blinded messages: " +:+ e)
    (get_blinded_messages funding_outputs None);
  funding_secrets ← map_err (λ e, "Failed to get funding secrets: " +:+ e)
    (get_secrets_with_blinding funding_outputs);
  restore_response ← map_err (λ e, "Failed to parse restore response: " +:+ e)
    (restore_response_from_json restore_response_json);
  signatures ← match_restore_response restore_response expected_outputs "funding";
  ks ← parse_keyset_info_from_json keyset_info_json;
  complete_exact_opening_signatures signatures (secrets_json funding_secrets) "[]" ks
    (Some expected_outputs).

Definition complete_swap_with (swap_response_json funding_secrets_json change_secrets_json
    keyset_info_json : string) (exact_outputs : option (list BlindedMessage)) : Result string string :=
  ks ← parse_keyset_info_from_json keyset_info_json;
  response ← map_err (λ e, "Failed to parse swap response: " +:+ e) (swap_response_from_json swap_response_json);
  complete_exact_opening_signatures (resp_signatures response) funding_secrets_json change_secrets_json ks
    exact_outputs.
Definition complete_funding_swap_for_outputs (swap_response_json funding_secrets_json change_secrets_json
    keyset_info_json : string) (expected_outputs : list BlindedMessage) : Result string string :=
  complete_swap_with swap_response_json funding_secrets_json change_secrets_json keyset_info_json
    (Some expected_outputs).
Definition complete_funding_swap_with_plain_change (swap_response_json funding_secrets_json
    change_secrets_json keyset_info_json : string) : Result string string :=
  complete_swap_with swap_response_json funding_secrets_json change_secrets_json keyset_info_json None.
Definition complete_funding_swap (swap_response_json funding_secrets_json keyset_info_json : string) :
    Result string string :=
  complete_funding_swap_with_plain_change swap_response_json funding_secrets_json "[]"
    keyset_info_json.
End code.
