(* ===== verification/Bindings.v ===== *)
(** * The remaining bindings ([bindings.rs], [balance_update.rs])

    The functions that other languages call with texts: fresh outputs, proofs from blind
    signatures, signed balance updates, and the external-signer flow, in which an update is
    built, signed elsewhere and assembled. [FundingProofs.v] shows that this flow gives the
    same update as signing with the key directly. *)

From S2P Require Import Prelude Cashu Toy Amounts Params SwapCompletion Deterministic Channel Storage StorageSpec Host Funding.

Record UnsignedBalanceUpdate := mk_UnsignedBalanceUpdate {
  ub_channel_id : string;
  ub_balance : Z;
  ub_message_hex : string;
  ub_tweak_scalar_hex : string;
}.

Section code.
Context {T : CashuTypes} {O : CashuOps} {W : OpeningOps}.

(** ** Outputs and proofs *)

Definition message_value (bm : BlindedMessage) : Value :=
  json_obj [("amount", json_num (bm_amount bm));
            ("id", json_str (id_to_string (bm_keyset_id bm)));
            ("B_", json_str (pubkey_to_hex (bm_blinded_secret bm)))].

Definition create_plain_blinded_messages (rnd amount_sat : Z) (keyset_info_json : string) :
    Result string string :=
  ks ← parse_keyset_info_from_json keyset_info_json;
  premint ← map_err (λ e, "Failed to create blinded messages: " +:+ e)
    (premint_random rnd (keyset_id ks) amount_sat SplitNone (input_fee_ppk ks)
       (reverse (amounts_largest_first ks)));
  Ok (json_print (json_obj
    [("blinded_messages", json_arr (message_value <$> (pmt_blinded_message <$> premint)));
     ("secrets_with_blinding",
       json_arr ((λ pm, secret_value (pmt_secret pm) (pmt_r pm) (pmt_amount pm)) <$> premint))])).

Definition create_funding_outputs (params_json alice_secret_hex keyset_info_json : string) :
    Result string string :=
  ks ← parse_keyset_info_from_json keyset_info_json;
  alice_secret ← map_err (λ e, "Invalid secret key: " +:+ e) (secret_from_hex alice_secret_hex);
  params ← map_err (λ e, "Failed to create ChannelParameters: " +:+ e)
    (from_json_with_secret_key params_json ks alice_secret);
  funding_token_nominal ← map_err (λ e, "Failed to compute funding token amount: " +:+ e)
    (get_total_funding_token_amount params);
  funding_outputs ← map_err (λ e, "Failed to create funding outputs: " +:+ e)
    (OutputsForOneContext_new "funding" funding_token_nominal params);
  blinded_messages ← map_err (λ e, "Failed to get blinded messages: " +:+ e)
    (get_blinded_messages funding_outputs None);
  secrets ← map_err (λ e, "Failed to get secrets with blinding: " +:+ e)
    (get_secrets_with_blinding funding_outputs);
  Ok (json_print (json_obj
    [("funding_token_nominal", json_num funding_token_nominal);
     ("blinded_messages", json_arr (message_value <$> blinded_messages));
     ("secrets_with_blinding",
       json_arr ((λ s, secret_value (ds_secret s) (ds_blinding_factor s) (ds_amount s)) <$> secrets))])).

Definition parse_blind_signature (sig : Value) : Result string BlindSignature :=
  amount ← ok_or "Missing 'amount' in blind signature" (idx_u64 sig "amount");
  id_str ← ok_or "Missing 'id' in blind signature" (idx_str sig "id");
  c_str ← ok_or "Missing 'C_' in blind signature" (idx_str sig "C_");
  keyset_id ← map_err (λ e, "Invalid keyset id: " +:+ e) (id_from_str id_str);
  c ← map_err (λ e, "Invalid C_ pubkey: " +:+ e) (pubkey_from_str c_str);
  dleq_obj ← ok_or "Missing 'dleq' in blind signature - DLEQ proofs are required"
    (json_get sig "dleq" ≫= json_as_object);
  e_str ← ok_or "Missing 'e' in dleq" (alist_get dleq_obj "e" ≫= json_as_str);
  s_str ← ok_or "Missing 's' in dleq" (alist_get dleq_obj "s" ≫= json_as_str);
  e ← map_err (λ e, "Invalid dleq.e: " +:+ e) (secret_from_hex e_str);
  s ← map_err (λ e, "Invalid dleq.s: " +:+ e) (secret_from_hex s_str);
  Ok (mk_BlindSignature amount keyset_id c (Some (bs_dleq_new e s))).
Definition parse_swb_entry (swb : Value) : Result string (string * SecretKey) :=
  secret_str ← ok_or "Missing 'secret' in secrets_with_blinding" (idx_str swb "secret");
  blinding_factor_hex ← ok_or "Missing 'blinding_factor' in secrets_with_blinding"
    (idx_str swb "blinding_factor");
  r ← map_err (λ e, "Invalid blinding factor: " +:+ e) (secret_from_hex blinding_factor_hex);
  Ok (secret_str, r).
Definition construct_proofs (blind_signatures_json secrets_with_blinding_json keyset_info_json : string) :
    Result string string :=
  ks ← parse_keyset_info_from_json keyset_info_json;
  blind_sigs_raw ← map_err (λ e, "Failed to parse blind signatures: " +:+ e)
    (values_from_json blind_signatures_json);
  blind_signatures ← try_map parse_blind_signature blind_sigs_raw;
  secrets_raw ← map_err (λ e, "Failed to parse secrets with blinding: " +:+ e)
    (values_from_json secrets_with_blinding_json);
  secrets ← try_map parse_swb_entry secrets_raw;
  proofs ← map_err (λ e, "Failed to construct proofs: " +:+ e)
    (dhke_construct_proofs blind_signatures secrets.*2 secrets.*1 (active_keys ks));
  Ok (proofs_to_json proofs).

(** ** Signed balance updates *)

(** The text in which an update is returned. *)
Definition update_json (u : BalanceUpdateMessage) : string :=
  json_print (json_obj [("channel_id", json_str (bu_channel_id u));
                        ("amount", json_num (bu_amount u));
                        ("signature", json_str (signature_to_string (bu_signature u)))]).

Definition binding_create_signed_balance_update (aux : bytes)
    (params_json keyset_info_json alice_secret_hex proofs_json : string) (balance : Z) :
    Result string string :=
  ks ← parse_keyset_info_from_json keyset_info_json;
  alice_secret ← map_err (λ e, "Invalid secret key: " +:+ e) (secret_from_hex alice_secret_hex);
  params ← map_err (λ e, "Failed to create ChannelParameters: " +:+ e)
    (from_json_with_secret_key params_json ks alice_secret);
  funding_proofs ← map_err (λ e, "Failed to parse proofs: " +:+ e) (proofs_from_json proofs_json);
  channel ← map_err (λ e, "EstablishedChannel::new failed: " +:+ e)
    (EstablishedChannel_new params funding_proofs);
  '(balance_update, _) ← map_err (λ e, "create_signed_balance_update failed: " +:+ e)
    (create_signed_balance_update aux (mk_SpilmanChannelSender alice_secret channel) balance);
  Ok (update_json balance_update).

(** ** The external signer *)

Definition create_unsigned_balance_update
    (params_json keyset_info_json channel_secret_hex proofs_json : string) (balance : Z) :
    Result string string :=
  ks ← parse_keyset_info_from_json keyset_info_json;
  channel_secret ← parse_secret "Channel" channel_secret_hex;
  params ← map_err (λ e, "Failed to create ChannelParameters: " +:+ e)
    (from_json_with_channel_secret params_json ks channel_secret);
  funding_proofs ← map_err (λ e, "Failed to parse proofs: " +:+ e) (proofs_from_json proofs_json);
  commitment_outputs ← map_err (λ e, "CommitmentOutputs::for_balance failed: " +:+ e)
    (for_balance balance params);
  channel ← map_err (λ e, "EstablishedChannel::new failed: " +:+ e)
    (EstablishedChannel_new params funding_proofs);
  swap_request ← map_err (λ e, "create_swap_request failed: " +:+ e)
    (create_swap_request commitment_outputs (Channel.funding_proofs channel) None);
  let message_hex := hex_encode (sig_all_message_hash swap_request) in
  tweak ← map_err (λ e, "Failed to derive blinding scalar: " +:+ e)
    (derive_sender_blinding_scalar_for_stage1 params);
  let tweak_scalar_hex := hex_encode (scalar_to_be_bytes tweak) in
  unsigned_swap_request_json ← map_err (λ e, "Failed to serialize swap request: " +:+ e)
    (swap_request_to_json swap_request);
  Ok (json_print (json_obj
    [("channel_id", json_str (get_channel_id params));
     ("amount", json_num balance);
     ("unsigned_swap_request_json", json_str unsigned_swap_request_json);
     ("message_hex", json_str message_hex);
     ("tweak_scalar_hex", json_str tweak_scalar_hex)])).

Definition attach_signature_to_balance_update (unsigned_swap_request_json signature_hex channel_id : string)
    (amount : Z) : Result string string :=
  swap_request ← map_err (λ e, "Failed to parse swap request: " +:+ e)
    (swap_request_from_json unsigned_swap_request_json);
  _ ← map_err (λ e, "Invalid signature hex: " +:+ e) (signature_from_str signature_hex);
  swap_request ← map_err (λ e, "attach_signature_to_first_input failed: " +:+ e)
    (attach_signature_to_first_input swap_request signature_hex);
  balance_update ← map_err (λ e, "from_signed_swap_request failed: " +:+ e)
    (from_signed_swap_request channel_id amount swap_request);
  Ok (update_json balance_update).

(** [UnsignedBalanceUpdate::new] with the funding's four texts. *)
Definition UnsignedBalanceUpdate_new (channel_id : string) (balance : Z)
    (params_json keyset_info_json channel_secret_hex funding_proofs_json : string) :
    Result string UnsignedBalanceUpdate :=
  unsigned_json ← create_unsigned_balance_update params_json keyset_info_json channel_secret_hex
    funding_proofs_json balance;
  unsigned ← map_err (λ e, "Failed to parse unsigned update: " +:+ e) (json_parse unsigned_json);
  message_hex ← ok_or "Missing 'message_hex'" (idx_str unsigned "message_hex");
  tweak_scalar_hex ← ok_or "Missing 'tweak_scalar_hex'" (idx_str unsigned "tweak_scalar_hex");
  Ok (mk_UnsignedBalanceUpdate channel_id balance message_hex tweak_scalar_hex).
(** [UnsignedBalanceUpdate::sign]. *)
Definition UnsignedBalanceUpdate_sign (u : UnsignedBalanceUpdate) (signature_hex : string) :
    Result string BalanceUpdateMessage :=
  signature ← map_err (λ e, "Invalid signature: " +:+ e) (signature_from_str signature_hex);
  Ok (mk_BalanceUpdateMessage (ub_channel_id u) (ub_balance u) signature).
End code.
