(* ===== verification/FundingProofs.v ===== *)
(** * Funding a channel: theorems

    What the functions of [Funding.v] guarantee: a completed funding swap, whatever the mint
    answered, gives proofs that the receiver's channel verification accepts; a restore gives
    the very proofs the swap would have given; the swap request spends its inputs exactly;
    and signing an update elsewhere gives the update that signing with the key gives. *)

From S2P Require Import Prelude Cashu Toy Amounts Params SwapCompletion Deterministic Channel Storage StorageSpec Host Bridge Funding Bindings.

Section json.
Context {T : CashuTypes} {O : CashuOps} {HJ : JsonLaws}.

(** Lookups in an object built by [json!]. *)
Lemma idx_str_obj l k s :
  NoDup l.*1 → alist_get l k = Some (json_str s) → idx_str (json_obj l) k = Some s.
Proof. intros Hnd Hk. unfold idx_str. rewrite json_get_obj, Hk by done. apply json_as_str_str. Qed.
Lemma idx_u64_obj l k n :
  NoDup l.*1 → is_u64 n → alist_get l k = Some (json_num n) → idx_u64 (json_obj l) k = Some n.
Proof. intros Hnd Hn Hk. unfold idx_u64. rewrite json_get_obj, Hk by done. by apply json_as_u64_num. Qed.
End json.
(** [NoDup] of a list of literal keys. *)
Ltac keys_nodup := apply (bool_decide_eq_true_1 _); reflexivity.

Section lists.
Lemma try_map_enum_Ok {A B} (f : nat → A → Result string B) (l : list A) l' :
  try_map_enum f l = Ok l' ↔ length l' = length l ∧ ∀ i x y, l !! i = Some x → l' !! i = Some y → f i x = Ok y.
Proof.
  unfold try_map_enum. rewrite try_map_Ok, Forall2_same_length_lookup.
  rewrite length_zip_with, length_seq, Nat.min_id. split; intros [Hl Hf]; (split; [lia|]).
  - intros i x y Hx Hy. apply (Hf i (i, x) y); [|done]. apply lookup_zip_with_Some.
    exists i, x. split_and!; [done| |done]. apply lookup_seq. split; [done|]. by eapply lookup_lt_Some.
  - intros i [j x] y (j' & x' & [= <- <-] & [-> _]%lookup_seq & Hx)%lookup_zip_with_Some Hy. by apply (Hf i).
Qed.
Lemma Forall2_lookup_iff {A B} (R : A → B → Prop) l k :
  Forall2 R l k ↔ length k = length l ∧ ∀ i x y, l !! i = Some x → k !! i = Some y → R x y.
Proof. rewrite Forall2_same_length_lookup. split; intros [? ?]; split; done. Qed.
End lists.

(** ** Secrets in their text form *)

Section items.
Context {T : CashuTypes} {O : CashuOps} {W : OpeningOps} {HJ : JsonLaws} {HO : OpeningLaws}.
Implicit Types ks : KeysetInfo.

(** What the text of one secret stands for. *)
Definition Item : Type := string * SecretKey * Z.
Definition items_json (l : list Item) : string :=
  json_print (json_arr ((λ it, secret_value it.1.1 it.1.2 it.2) <$> l)).
Definition ds_item (d : DeterministicSecretWithBlinding) : Item := (ds_secret d, ds_blinding_factor d, ds_amount d).
Definition pm_item (m : PreMint) : Item := (pmt_secret m, pmt_r m, pmt_amount m).
Lemma secrets_json_items l : secrets_json l = items_json (ds_item <$> l).
Proof. unfold secrets_json, items_json. by rewrite <-list_fmap_compose. Qed.
Lemma premint_json_items l : premint_secrets_json l = items_json (pm_item <$> l).
Proof. unfold premint_secrets_json, items_json. by rewrite <-list_fmap_compose. Qed.

Lemma values_from_items l : values_from_json (items_json l) = Ok ((λ it, secret_value it.1.1 it.1.2 it.2) <$> l).
Proof. unfold values_from_json, items_json. rewrite json_print_inv. cbn [mbind Result_bind]. by rewrite json_as_array_arr. Qed.
Lemma values_from_empty : values_from_json "[]" = Ok [].
Proof. unfold values_from_json. rewrite json_parse_empty. cbn [mbind Result_bind]. by rewrite json_as_array_arr. Qed.

Lemma secret_value_fields s r a :
  idx_str (secret_value s r a) "secret" = Some s ∧
  idx_str (secret_value s r a) "blinding_factor" = Some (secret_to_hex r) ∧
  (is_u64 a → idx_u64 (secret_value s r a) "amount" = Some a).
Proof.
  split_and!; intros; [apply idx_str_obj|apply idx_str_obj|apply idx_u64_obj]; try done; keys_nodup.
Qed.

(** [o] is the prepared output of the item under the keyset. *)
Definition opens ks (it : Item) (o : PreparedOutput) : Prop :=
  blind_message (bytes_of_string it.1.1) it.1.2 = Ok (bm_blinded_secret (po_blinded_message o)) ∧
  o = mk_PreparedOutput (BlindedMessage_new it.2 (keyset_id ks) (bm_blinded_secret (po_blinded_message o)))
        it.1.1 it.1.2 ∧
  is_Some (amount_key (active_keys ks) it.2).

Lemma prepared_output_Ok ks role i (it : Item) o :
  is_u64 it.2 → prepared_output ks role i (secret_value it.1.1 it.1.2 it.2) = Ok o ↔ opens ks it o.
Proof.
  intros Ha. destruct it as [[s r] a]. simpl in *.
  destruct (secret_value_fields s r a) as (Hs & Hr & Hn). specialize (Hn Ha).
  unfold prepared_output, opens. rewrite Hs, Hr, Hn. cbn [ok_or mbind Result_bind fst snd].
  rewrite secret_hex_inv. cbn [map_err]. destruct (amount_key (active_keys ks) a) as [K|] eqn:HK.
  - rewrite bool_decide_eq_true_2 by done. cbn [ensure mbind Result_bind].
    destruct (blind_message (bytes_of_string s) r) as [B|e|]; cbn;
      [|split; [done|by intros [? _]]..].
    split; [intros [= <-]; done|]. intros ([= ->] & -> & _). done.
  - rewrite bool_decide_eq_false_2 by (intros []; done). cbn. split; [done|]. intros (_ & _ & []). done.
Qed.
Lemma parse_prepared_Ok ks role (l : list Item) pos :
  Forall (λ it, is_u64 it.2) l → parse_prepared_outputs (items_json l) ks role = Ok pos ↔ Forall2 (opens ks) l pos.
Proof.
  intros Hl. unfold parse_prepared_outputs. rewrite values_from_items. cbn [map_err mbind Result_bind].
  rewrite try_map_enum_Ok, Forall2_lookup_iff, length_fmap. rewrite Forall_lookup in Hl.
  split; intros [Hlen Hf]; (split; [done|]); intros i x y Hx Hy.
  - apply (prepared_output_Ok ks role i); [by eapply Hl|]. apply (Hf i); [|done].
    rewrite list_lookup_fmap. exact (f_equal (fmap _) Hx).
  - rewrite list_lookup_fmap in Hx. apply fmap_Some in Hx as (it & Hit & ->).
    apply prepared_output_Ok; [by eapply Hl|]. by eapply Hf.
Qed.
Lemma parse_prepared_empty ks role : parse_prepared_outputs "[]" ks role = Ok [].
Proof. unfold parse_prepared_outputs. by rewrite values_from_empty. Qed.

Lemma opens_fun ks it o o' : opens ks it o → opens ks it o' → o = o'.
Proof. intros (Hb & -> & _) (Hb' & -> & _). simpl in *. by rewrite Hb in Hb'; injection Hb' as ->. Qed.
End items.

(** ** Completion *)

Section completion.
Context {T : CashuTypes} {O : CashuOps} {W : OpeningOps} {HJ : JsonLaws} {HO : OpeningLaws}.
Context {HC : ConstructLaws} {HU : UnblindLaws}.
Implicit Types ks : KeysetInfo.

Lemma complete_exact_Some sigs exp ks outs proofs :
  complete_exact_signatures sigs exp ks (Some outs) = Ok proofs ↔
  outs = po_blinded_message <$> exp ∧ complete_exact_signatures sigs exp ks None = Ok proofs.
Proof.
  unfold complete_exact_signatures. case_bool_decide; [split; [done|by intros [_ ?]]|].
  case_bool_decide as Ho; cbn [ensure mbind Result_bind]; [by split; [|intros [_ ?]]|].
  split; [done|]. by intros [? _].
Qed.

Abbreviation out_amount := (λ o : PreparedOutput, bm_amount (po_blinded_message o)).
Lemma complete_exact_spec sigs exp ks proofs :
  Forall (λ o, 0 <= out_amount o) exp →
  complete_exact_signatures sigs exp ks None = Ok proofs ↔
  Forall2 (λ sig out, right_signature ks sig (po_blinded_message out)) sigs exp ∧
  sumZ (out_amount <$> exp) <= u64_max ∧
  dhke_construct_proofs sigs (po_blinding_factor <$> exp) (po_secret <$> exp) (active_keys ks) = Ok proofs.
Proof.
  intros Hpos. split.
  - intros Hc. destruct (complete_exact_signatures_Ok _ _ _ _ Hc) as [Hs Hd]. split_and!; [done| |done].
    unfold complete_exact_signatures in Hc. case_bool_decide; [done|]. cbn [mbind Result_bind] in Hc.
    apply bind_Ok in Hc as (t & Ht & _). by apply checked_total_Ok in Ht as [_ ?]; [|by apply Forall_fmap].
  - intros (Hs & Hsum & Hd). by apply complete_exact_signatures_complete.
Qed.

(** The two parts of a completed batch are completed batches. *)
Lemma complete_exact_app sigs e1 e2 ks proofs :
  Forall (λ o, 0 <= out_amount o) (e1 ++ e2) →
  complete_exact_signatures sigs (e1 ++ e2) ks None = Ok proofs →
  complete_exact_signatures (take (length e1) sigs) e1 ks None = Ok (take (length e1) proofs) ∧
  complete_exact_signatures (drop (length e1) sigs) e2 ks None = Ok (drop (length e1) proofs).
Proof.
  intros Hpos Hc. pose proof Hpos as [Hp1 Hp2]%Forall_app.
  apply complete_exact_spec in Hc as (Hs & Hsum & Hd); [|done].
  apply Forall2_app_inv_r in Hs as (s1 & s2 & H1 & H2 & ->).
  pose proof (Forall2_length _ _ _ H1) as Hl1. rewrite <-Hl1, take_app_length, drop_app_length.
  rewrite !fmap_app in Hd. apply construct_proofs_app in Hd as (p1 & p2 & -> & Hd1 & Hd2);
    [|by rewrite length_fmap..].
  assert (length p1 = length s1) as Hlp
    by (destruct (construct_proofs_shape _ _ _ _ _ Hd1) as [Hf _]; symmetry; by eapply Forall2_length).
  rewrite <-Hlp, take_app_length, drop_app_length.
  rewrite fmap_app, sumZ_app in Hsum.
  assert (0 <= sumZ (out_amount <$> e1)) by (by apply sumZ_nonneg, Forall_fmap).
  assert (0 <= sumZ (out_amount <$> e2)) by (by apply sumZ_nonneg, Forall_fmap).
  split; (apply complete_exact_spec; [done|split_and!; [done|lia|done]]).
Qed.

(** The text of a completed opening, read back. *)
Definition opening_result (funding change : list Proof) : string :=
  json_print (json_obj [("funding_proofs_json", json_str (proofs_to_json funding));
                        ("change_proofs_json", json_str (proofs_to_json change))]).
Lemma opening_result_fields fp cp :
  ∃ v, json_parse (opening_result fp cp) = Ok v ∧
    idx_str v "funding_proofs_json" = Some (proofs_to_json fp) ∧
    idx_str v "change_proofs_json" = Some (proofs_to_json cp).
Proof.
  eexists. split; [apply json_print_inv|]. split; apply idx_str_obj; try done; keys_nodup.
Qed.

Lemma proofs_to_json_inj ps qs : proofs_to_json ps = proofs_to_json qs → ps = qs.
Proof. intros E%(f_equal proofs_from_json). rewrite !proofs_json_inv in E. by injection E. Qed.
Lemma opening_result_inj fp cp fp' cp' :
  opening_result fp cp = opening_result fp' cp' → fp = fp' ∧ cp = cp'.
Proof.
  intros E. destruct (opening_result_fields fp cp) as (v & Hv & Hf & Hc).
  destruct (opening_result_fields fp' cp') as (v' & Hv' & Hf' & Hc').
  rewrite E in Hv. assert (v' = v) as -> by congruence.
  split; apply proofs_to_json_inj; congruence.
Qed.

Lemma complete_opening_Ok sigs fj cj ks exact fo co res :
  parse_prepared_outputs fj ks "funding" = Ok fo → parse_prepared_outputs cj ks "change" = Ok co →
  complete_exact_opening_signatures sigs fj cj ks exact = Ok res ↔
  ∃ proofs, complete_exact_signatures sigs (fo ++ co) ks exact = Ok proofs ∧
    res = opening_result (take (length fo) proofs) (drop (length fo) proofs).
Proof.
  intros Hf Hc. unfold complete_exact_opening_signatures. rewrite Hf, Hc. cbn [mbind Result_bind].
  destruct (complete_exact_signatures sigs (fo ++ co) ks exact) as [proofs|e|]; cbn; split; try naive_solver.
Qed.

Lemma opens_amount ks it o : opens ks it o → bm_amount (po_blinded_message o) = it.2.
Proof. by intros (_ & -> & _). Qed.
Lemma opens_nonneg ks l pos :
  Forall (λ it, is_u64 it.2) l → Forall2 (opens ks) l pos → Forall (λ o, 0 <= out_amount o) pos.
Proof.
  intros Hl Hf. revert Hl. induction Hf as [|it o l pos Ho _ IH]; intros Hl; [constructor|].
  apply Forall_cons in Hl as [[Hit _] Hl]. constructor; [|by apply IH]. by rewrite (opens_amount _ _ _ Ho).
Qed.

(** Completed funding proofs are what the receiver expects, position by position. *)
Lemma completed_good p fs fo sigs proofs :
  Forall (λ d, is_u64 (ds_amount d)) fs →
  Forall2 (opens (keyset_info p)) (ds_item <$> fs) fo →
  complete_exact_signatures sigs fo (keyset_info p) None = Ok proofs →
  Forall2 (good_funding_proof p) proofs fs ∧
  Forall (λ q, proof_keyset_id q = keyset_id (keyset_info p)) proofs.
Proof.
  intros Hu Hop Hc. set (ks := keyset_info p) in *.
  assert (Forall (λ it : Item, is_u64 it.2) (ds_item <$> fs)) as Hu' by (by apply Forall_fmap).
  apply complete_exact_spec in Hc as (Hs & _ & Hd); [|by eapply opens_nonneg].
  destruct (construct_proofs_shape _ _ _ _ _ Hd) as [Hshape Hsec].
  assert (length proofs = length fs ∧ length fo = length fs ∧ length sigs = length fs) as (Hl1 & Hl2 & Hl3).
  { pose proof (Forall2_length _ _ _ Hop) as Ha. pose proof (Forall2_length _ _ _ Hs).
    pose proof (Forall2_length _ _ _ Hshape). rewrite length_fmap in Ha. lia. }
  assert (∀ i q d, proofs !! i = Some q → fs !! i = Some d →
    good_funding_proof p q d ∧ proof_keyset_id q = keyset_id ks) as Hgood.
  { intros i q d Hq Hd'.
    destruct (lookup_lt_is_Some_2 fo i) as [o Ho]. { rewrite Hl2. by eapply lookup_lt_Some. }
    destruct (lookup_lt_is_Some_2 sigs i) as [s Hs']. { rewrite Hl3. by eapply lookup_lt_Some. }
    assert (opens ks (ds_item d) o) as (Hb & Heq & Hk).
    { eapply Forall2_lookup_lr; [exact Hop| |exact Ho]. by rewrite list_lookup_fmap, Hd'. }
    destruct (Forall2_lookup_lr _ _ _ _ _ _ Hs Hs' Ho) as (Ha & Hid & K & HK & Hdl).
    destruct (Forall2_lookup_lr _ _ _ _ _ _ Hshape Hs' Hq) as [Hqa Hqi].
    assert (bm_amount (po_blinded_message o) = ds_amount d) as Hoa by (by rewrite Heq).
    assert (bm_keyset_id (po_blinded_message o) = keyset_id ks) as Hok by (by rewrite Heq).
    assert (po_secret o = ds_secret d ∧ po_blinding_factor o = ds_blinding_factor d) as [Hos Hor] by (by rewrite Heq).
    rewrite Hoa in Ha, HK. rewrite Hok in Hid.
    destruct (construct_proofs_dleq _ _ _ _ _ i s (ds_blinding_factor d) (ds_secret d) q K
      (bm_blinded_secret (po_blinded_message o)) Hd) as (Hw & He & Hv & dl & Hdl1 & Hdl2); try done.
    { by rewrite list_lookup_fmap, Ho, <-Hor. }
    { by rewrite list_lookup_fmap, Ho, <-Hos. }
    { by rewrite Ha. }
    split; [|congruence]. split_and!; [done|done| |congruence|].
    - assert ((proof_secret <$> proofs) !! i = Some (proof_secret q)) as Hps by (by rewrite list_lookup_fmap, Hq).
      rewrite Hsec, list_lookup_fmap, Ho in Hps. simpl in Hps. congruence.
    - exists dl, K. split_and!; [done..| |]; [|congruence]. rewrite Hqa, Ha. exact HK. }
  split.
  - apply Forall2_lookup_iff. split; [lia|]. intros i q d Hq Hd'. by eapply Hgood.
  - apply Forall_lookup. intros i q Hq. destruct (lookup_lt_is_Some_2 fs i) as [d Hd'].
    { rewrite <-Hl1. by eapply lookup_lt_Some. } by eapply Hgood.
Qed.

Lemma parse_prepared_nonneg j ks role pos :
  parse_prepared_outputs j ks role = Ok pos → Forall (λ o, 0 <= out_amount o) pos.
Proof.
  unfold parse_prepared_outputs. intros (vs & _ & [Hl Hf]%try_map_enum_Ok)%bind_Ok.
  apply Forall_lookup. intros i o Ho.
  destruct (lookup_lt_is_Some_2 vs i) as [v Hv]. { rewrite <-Hl. by eapply lookup_lt_Some. }
  specialize (Hf i v o Hv Ho). unfold prepared_output in Hf. result_inv. cbn.
  match goal with E : idx_u64 _ _ = Some ?n |- 0 <= ?n =>
    unfold idx_u64 in E; apply bind_Some in E as (w & _ & E); apply json_as_u64_range in E as [? _]; done end.
Qed.

(** ** The funding outputs *)

Lemma from_json_keyset json ks secret p :
  from_json_with_channel_secret json ks secret = Ok p → keyset_info p = ks.
Proof.
  unfold from_json_with_channel_secret. intros H. repeat (result_inv_step; subst).
  match goal with E : ChannelParameters_new _ _ _ _ _ _ _ _ _ _ _ = Ok _ |- _ =>
    apply ChannelParameters_new_Ok in E as [-> _] end. done.
Qed.
Lemma parse_secret_Ok name hex secret :
  parse_secret name hex = Ok secret ↔ hex_decode hex = Ok secret ∧ length secret = 32%nat.
Proof.
  unfold parse_secret. destruct (hex_decode hex) as [b|e|]; cbn; [|split; [done|by intros [? _]]..].
  case_bool_decide; split; naive_solver.
Qed.
Lemma load_params_iff pj sj kj p :
  load_params pj sj kj = Ok p ↔
  ∃ ks secret, parse_keyset_info_from_json kj = Ok ks ∧ parse_secret "Channel" sj = Ok secret ∧
    from_json_with_channel_secret pj ks secret = Ok p.
Proof.
  unfold load_params, decode_secret. setoid_rewrite parse_secret_Ok. split.
  - intros H. result_inv. apply bool_decide_eq_true_1 in Hm2. eauto 10.
  - intros (ks & secret & Hk & [Hs Hl] & Hp). rewrite Hs. cbn. rewrite bool_decide_eq_true_2 by done. cbn.
    by rewrite Hk.
Qed.
Lemma load_params_keyset pj sj kj p :
  load_params pj sj kj = Ok p → parse_keyset_info_from_json kj = Ok (keyset_info p).
Proof. intros (ks & secret & Hk & _ & Hp)%load_params_iff. by rewrite (from_json_keyset _ _ _ _ Hp). Qed.
Lemma reconstruct_iff pj sj kj d :
  reconstruct_funding_outputs pj sj kj = Ok d ↔
  ∃ p, load_params pj sj kj = Ok p ∧ OutputsForOneContext_new "funding" (funding_token_amount p) p = Ok d.
Proof.
  unfold reconstruct_funding_outputs, get_total_funding_token_amount. setoid_rewrite load_params_iff. split.
  - intros H. result_inv. eauto 10.
  - intros (p & (ks & secret & Hk & Hs & Hp) & Hd). rewrite Hk. cbn. rewrite Hs. cbn. rewrite Hp. cbn.
    by rewrite Hd.
Qed.
Lemma OutputsForOneContext_fields ctx n p d :
  OutputsForOneContext_new ctx n p = Ok d → oc_params d = p ∧ oc_context d = ctx ∧ oc_amount d = n.
Proof. unfold OutputsForOneContext_new. by intros (o & _ & [= <-])%bind_Ok. Qed.

(** The amounts of the funding secrets are denominations and add up to the funding amount. *)
Lemma funding_amounts p d fs :
  sound_params p → OutputsForOneContext_new "funding" (funding_token_amount p) p = Ok d →
  get_secrets_with_blinding d = Ok fs →
  sumZ (ds_amount <$> fs) = funding_token_amount p ∧ Forall (λ o, is_u64 (ds_amount o)) fs.
Proof.
  intros Hp Hd Hfs. pose proof Hp as (_ & _ & _ & _ & Hf & _).
  pose proof (get_secrets_amounts p "funding" _ _ _ Hp Hf Hd Hfs) as Hperm.
  apply bind_Ok in Hd as (o & Ho & [= <-]). simpl in Hperm.
  apply from_target_counts in Ho as (_ & Hsum & Hall & _); [|done..]. rewrite Hperm. split; [done|].
  assert (Forall (λ a, is_u64 a) (ds_amount <$> fs)) as Hu; [|exact (proj1 (Forall_fmap _ _ _) Hu)].
  rewrite Hperm. apply Forall_forall. intros a Ha.
  rewrite Forall_forall in Hall. destruct (Hall a Ha) as [_ H1]. unfold is_u64.
  enough (a <= sumZ (ola_amounts o)) by (rewrite Hsum in *; lia).
  apply list_elem_of_split in Ha as (l1 & l2 & E). rewrite E in *. rewrite sumZ_app. simpl.
  enough (0 <= sumZ l1 ∧ 0 <= sumZ l2) by lia.
  split; apply sumZ_nonneg, Forall_forall; intros b Hb; (destruct (Hall b) as [_ ?]; [set_solver|lia]).
Qed.

Lemma good_amounts p proofs fs :
  Forall2 (good_funding_proof p) proofs fs → proof_amount <$> proofs = ds_amount <$> fs.
Proof. induction 1 as [|q d qs ds (_ & _ & _ & Ha & _) _ IH]; [done|]. rewrite !fmap_cons. by f_equal. Qed.

(** Funding proofs completed by the mint's signatures make a channel in which nothing but the
    keyset id can be wrong, and one the receiver can establish. *)
Lemma completed_valid p d fs fo sigs proofs :
  sound_params p →
  OutputsForOneContext_new "funding" (funding_token_amount p) p = Ok d →
  get_secrets_with_blinding d = Ok fs →
  Forall2 (opens (keyset_info p)) (ds_item <$> fs) fo →
  complete_exact_signatures sigs fo (keyset_info p) None = Ok proofs →
  verify_valid_channel proofs p = Ok (id_verdict p) ∧
  EstablishedChannel_new p proofs = Ok (mk_EstablishedChannel p proofs).
Proof.
  intros Hp Hd Hfs Hop Hc.
  destruct (funding_amounts p d fs Hp Hd Hfs) as [Hsum Hu].
  destruct (completed_good p fs fo sigs proofs Hu Hop Hc) as [Hg Hk].
  pose proof Hp as (_ & _ & _ & _ & Hf & _).
  assert (sumZ (proof_amount <$> proofs) = funding_token_amount p) as Hs by (by rewrite (good_amounts _ _ _ Hg)).
  assert (Forall (λ q, 0 <= proof_amount q) proofs) as Hpos.
  { apply (Forall_fmap proof_amount (λ a, 0 <= a)). rewrite (good_amounts _ _ _ Hg).
    apply Forall_fmap. eapply Forall_impl; [exact Hu|]. by intros ? [? _]. }
  assert (funding_token_amount p <= u64_max) by (unfold u64_max; lia).
  split; [|by apply EstablishedChannel_new_spec]. eapply verify_valid_channel_verdict; try done. lia.
Qed.

(** ** The funding swap *)

(** What a funding swap consists of, and the text it is returned as. *)
Definition funding_swap p rnd inputs change (d : DeterministicOutputsForOneContext)
    (fs : list DeterministicSecretWithBlinding) (bms : list BlindedMessage) (cs : list PreMint)
    (proofs : list Proof) : Prop :=
  OutputsForOneContext_new "funding" (funding_token_amount p) p = Ok d ∧
  proofs_from_json inputs = Ok proofs ∧ get_secrets_with_blinding d = Ok fs ∧
  Forall2 (message_of (keyset_id (keyset_info p))) fs bms ∧
  plain_change_outputs rnd change (keyset_info p) = Ok cs.
Definition swap_request_of bms (cs : list PreMint) proofs : SwapRequest :=
  SwapRequest_new proofs (bms ++ (pmt_blinded_message <$> cs)).

Lemma create_funding_swap_spec rnd pj sj kj inputs change text p :
  load_params pj sj kj = Ok p →
  create_funding_swap_with_plain_change rnd pj sj kj inputs change = Ok text →
  ∃ d fs bms cs proofs v rj, funding_swap p rnd inputs change d fs bms cs proofs ∧
    json_parse text = Ok v ∧ swap_request_to_json (swap_request_of bms cs proofs) = Ok rj ∧
    idx_str v "swap_request_json" = Some rj ∧
    idx_str v "funding_secrets_json" = Some (secrets_json fs) ∧
    idx_str v "change_secrets_json" = Some (premint_secrets_json cs).
Proof.
  intros Hp Hc. unfold create_funding_swap_with_plain_change in Hc.
  apply bind_Ok in Hc as (d & (p' & Hp' & Hd)%reconstruct_iff & Hc).
  rewrite Hp in Hp'. injection Hp' as <-.
  rewrite (load_params_keyset _ _ _ _ Hp) in Hc. cbn [mbind Result_bind] in Hc.
  apply bind_Ok in Hc as (proofs & Hin%map_err_Ok & Hc).
  apply bind_Ok in Hc as (bms & Hbms%map_err_Ok & Hc).
  apply bind_Ok in Hc as (fs & Hfs%map_err_Ok & Hc).
  apply bind_Ok in Hc as (cs & Hcs & Hc).
  apply bind_Ok in Hc as (rj & Hrj%map_err_Ok & [= <-]).
  rewrite get_blinded_messages_secrets, Hfs in Hbms. apply try_map_Ok in Hbms. cbn [default] in Hbms.
  destruct (OutputsForOneContext_fields _ _ _ _ Hd) as [Hdp _]. rewrite Hdp in Hbms.
  exists d, fs, bms, cs, proofs. eexists _, rj. split_and!; try done.
  - apply json_print_inv.
  - apply idx_str_obj; [keys_nodup|done].
  - apply idx_str_obj; [keys_nodup|done].
  - apply idx_str_obj; [keys_nodup|done].
Qed.

Lemma complete_swap_Ok resp fj cj kj exact res :
  complete_swap_with resp fj cj kj exact = Ok res ↔
  ∃ ks r fo co proofs, parse_keyset_info_from_json kj = Ok ks ∧ swap_response_from_json resp = Ok r ∧
    parse_prepared_outputs fj ks "funding" = Ok fo ∧ parse_prepared_outputs cj ks "change" = Ok co ∧
    complete_exact_signatures (resp_signatures r) (fo ++ co) ks exact = Ok proofs ∧
    res = opening_result (take (length fo) proofs) (drop (length fo) proofs).
Proof.
  unfold complete_swap_with. split.
  - intros (ks & Hks & (r & Hr%map_err_Ok & Hc)%bind_Ok)%bind_Ok. pose proof Hc as Hc'.
    unfold complete_exact_opening_signatures in Hc'.
    apply bind_Ok in Hc' as (fo & Hfo & (co & Hco & _)%bind_Ok).
    destruct (proj1 (complete_opening_Ok _ _ _ _ _ _ _ _ Hfo Hco) Hc) as (proofs & ? & ?). eauto 12.
  - intros (ks & r & fo & co & proofs & Hks & Hr & Hfo & Hco & Hc & Hres).
    rewrite Hks, Hr. cbn. apply (complete_opening_Ok _ _ _ _ _ _ _ _ Hfo Hco). eauto.
Qed.

(** The funding part of a completed swap is a valid channel, up to the id of its keyset. *)
Lemma swap_completes_valid rnd pj sj kj inputs change text v fj cj p response exact result :
  load_params pj sj kj = Ok p → sound_params p →
  create_funding_swap_with_plain_change rnd pj sj kj inputs change = Ok text → json_parse text = Ok v →
  idx_str v "funding_secrets_json" = Some fj →
  complete_swap_with response fj cj kj exact = Ok result →
  ∃ funding plain, result = opening_result funding plain ∧
    verify_valid_channel funding p = Ok (id_verdict p) ∧
    EstablishedChannel_new p funding = Ok (mk_EstablishedChannel p funding).
Proof.
  intros Hp Hsp Hc Hv Hfj Hres.
  destruct (create_funding_swap_spec _ _ _ _ _ _ _ _ Hp Hc)
    as (d & fs & bms & cs & ins & v' & rj & (Hd & _ & Hfs & _) & Hv' & _ & _ & Hf' & _).
  assert (v' = v) as -> by congruence. assert (fj = secrets_json fs) as -> by congruence.
  apply complete_swap_Ok in Hres as (ks & r & fo & co & proofs & Hks & _ & Hfo & Hco & Hx & ->).
  rewrite (load_params_keyset _ _ _ _ Hp) in Hks. injection Hks as <-.
  assert (complete_exact_signatures (resp_signatures r) (fo ++ co) (keyset_info p) None = Ok proofs) as Hx'.
  { destruct exact; [|done]. by apply complete_exact_Some in Hx as [_ ?]. }
  assert (Forall (λ o, 0 <= out_amount o) (fo ++ co))
    by (apply Forall_app; split; by eapply parse_prepared_nonneg).
  destruct (complete_exact_app _ _ _ _ _ ltac:(done) Hx') as [Hc1 _].
  destruct (funding_amounts p d fs Hsp Hd Hfs) as [_ Hu].
  rewrite secrets_json_items in Hfo. apply parse_prepared_Ok in Hfo; [|by apply Forall_fmap].
  eexists _, _. split; [done|]. by eapply completed_valid.
Qed.

(** ** Value *)

Lemma plain_change_spec {HM : PreMintLaws} rnd change ks cs :
  wf_keyset ks → is_u64 change → plain_change_outputs rnd change ks = Ok cs →
  sumZ (bm_amount ∘ pmt_blinded_message <$> cs) = change.
Proof.
  intros Hks Hch. unfold plain_change_outputs. destruct (Z.eqb_spec change 0) as [->|Hne]; [by intros [= <-]|].
  intros (o & Ho%map_err_Ok & Hpre%map_err_Ok)%bind_Ok. pose proof Hks as [Hwf _].
  apply from_target_Ok in Ho as [Hrem ->]; [|done..]. simpl in Hpre.
  pose proof (usable_wf 0 _ Hwf) as Hu. pose proof (sum_gcounts _ change (wf_amounts_positive _ Hu) (proj1 Hch)) as Hsum.
  apply premint_random_spec in Hpre as [Hperm Hall]; [|lia].
  assert (bm_amount ∘ pmt_blinded_message <$> cs = pmt_amount <$> cs) as ->; [|rewrite Hperm; lia].
  apply Forall_fmap_ext_1. eapply Forall_impl; [exact Hall|]. intros m [E _]. simpl. by rewrite E.
Qed.

(** The outputs of a funding swap are worth the funding amount and the change. *)
Lemma swap_value {HM : PreMintLaws} p rnd inputs change d fs bms cs proofs :
  sound_params p → is_u64 change → funding_swap p rnd inputs change d fs bms cs proofs →
  sumZ (bm_amount <$> sr_outputs (swap_request_of bms cs proofs)) = funding_token_amount p + change.
Proof.
  intros Hp Hch (Hd & _ & Hfs & Hbms & Hcs). destruct (funding_amounts _ _ _ Hp Hd Hfs) as [Hsum _].
  pose proof Hp as (_ & Hks & _). apply plain_change_spec in Hcs; [|done..].
  simpl. rewrite fmap_app, sumZ_app, <-list_fmap_compose. f_equal; [|done].
  rewrite <-Hsum. f_equal. clear -Hbms. induction Hbms as [|o m os ms Hm _ IH]; [done|].
  rewrite !fmap_cons, IH. by apply message_of_spec in Hm as [_ ->].
Qed.

(** ** Restoring *)

(** A restore response that holds exactly these outputs with these signatures, in any order. *)
Definition restores (rr : RestoreResponse) (outputs : list BlindedMessage) (sigs : list BlindSignature) : Prop :=
  length (rr_outputs rr) = length (rr_signatures rr) ∧
  zip (rr_outputs rr) (rr_signatures rr) ≡ₚ zip outputs sigs.
Lemma restores_match rr outputs sigs role :
  NoDup outputs → length sigs = length outputs → restores rr outputs sigs →
  match_restore_response rr outputs role = Ok sigs.
Proof. intros Hnd Hl [H1 H2]. by apply match_restore_spec. Qed.

Lemma complete_exact_lengths sigs exp ks proofs :
  complete_exact_signatures sigs exp ks None = Ok proofs →
  length sigs = length exp ∧ length proofs = length exp.
Proof.
  intros [Hs Hd]%complete_exact_signatures_Ok. pose proof (Forall2_length _ _ _ Hs).
  destruct (construct_proofs_shape _ _ _ _ _ Hd) as [Hf _]. pose proof (Forall2_length _ _ _ Hf). lia.
Qed.

(** Restoring one role: the outputs are known, their signatures come back, and completing
    them gives the proofs they stand for. *)
Lemma funding_restore_Ok pj sj kj p d fs bms fo rest rr sigs proofs :
  load_params pj sj kj = Ok p →
  OutputsForOneContext_new "funding" (funding_token_amount p) p = Ok d →
  get_secrets_with_blinding d = Ok fs → Forall2 (message_of (keyset_id (keyset_info p))) fs bms →
  parse_prepared_outputs (secrets_json fs) (keyset_info p) "funding" = Ok fo →
  po_blinded_message <$> fo = bms → NoDup bms →
  complete_exact_signatures sigs fo (keyset_info p) None = Ok proofs →
  restore_response_from_json rest = Ok rr → restores rr bms sigs →
  complete_funding_restore rest pj sj kj = Ok (opening_result proofs []).
Proof.
  intros Hp Hd Hfs Hbms Hfo Hmsg Hnd Hx Hrr Hres. destruct (complete_exact_lengths _ _ _ _ Hx) as [Hl1 Hl2].
  unfold complete_funding_restore.
  assert (reconstruct_funding_outputs pj sj kj = Ok d) as -> by (apply reconstruct_iff; eauto).
  cbn [mbind Result_bind]. rewrite get_blinded_messages_secrets, Hfs. cbn [mbind Result_bind default].
  destruct (OutputsForOneContext_fields _ _ _ _ Hd) as [-> _].
  apply try_map_Ok in Hbms. unfold message_of in Hbms. rewrite Hbms. cbn [map_err mbind Result_bind].
  rewrite Hrr. cbn [map_err mbind Result_bind].
  rewrite (restores_match rr bms sigs "funding") by (done || rewrite <-Hmsg, length_fmap; done).
  cbn [mbind Result_bind]. rewrite (load_params_keyset _ _ _ _ Hp). cbn [mbind Result_bind].
  apply (complete_opening_Ok _ _ _ _ _ _ _ _ Hfo (parse_prepared_empty _ _)). exists proofs.
  rewrite app_nil_r, take_ge, drop_ge by lia. split; [|done]. by apply complete_exact_Some.
Qed.
Lemma change_restore_Ok kj ks cj co rest rr sigs proofs :
  parse_keyset_info_from_json kj = Ok ks → parse_prepared_outputs cj ks "change" = Ok co →
  NoDup (po_blinded_message <$> co) → complete_exact_signatures sigs co ks None = Ok proofs →
  restore_response_from_json rest = Ok rr → restores rr (po_blinded_message <$> co) sigs →
  complete_plain_change_restore rest cj kj = Ok (opening_result [] proofs).
Proof.
  intros Hks Hco Hnd Hx Hrr Hres. destruct (complete_exact_lengths _ _ _ _ Hx) as [Hl1 Hl2].
  unfold complete_plain_change_restore. rewrite Hrr, Hks. cbn [map_err mbind Result_bind].
  rewrite Hco. cbn [mbind Result_bind].
  rewrite (restores_match _ _ sigs "change") by (done || rewrite length_fmap; done). cbn [mbind Result_bind].
  apply (complete_opening_Ok _ _ _ _ _ _ _ _ (parse_prepared_empty _ _) Hco). exists proofs.
  split; [|done]. by apply complete_exact_Some.
Qed.

(** The change outputs named in a restore request are the ones that completion expects. *)
Lemma change_request_outputs cj kj ks co :
  parse_keyset_info_from_json kj = Ok ks → parse_prepared_outputs cj ks "change" = Ok co →
  create_plain_change_restore_request cj kj = Ok (restore_request_json (po_blinded_message <$> co)).
Proof.
  intros Hks. unfold parse_prepared_outputs, create_plain_change_restore_request. rewrite Hks.
  cbn [mbind Result_bind]. intros (vs & Hvs%map_err_Ok & [Hl Hf]%try_map_enum_Ok)%bind_Ok. rewrite Hvs.
  cbn [map_err mbind Result_bind].
  assert (try_map_enum (change_output ks) vs = Ok (po_blinded_message <$> co)) as ->; [|done].
  apply try_map_enum_Ok. rewrite length_fmap. split; [done|]. intros i v m Hv Hm.
  rewrite list_lookup_fmap in Hm. apply fmap_Some in Hm as (o & Ho & ->).
  specialize (Hf i v o Hv Ho). unfold prepared_output in Hf. unfold change_output. result_inv. cbn.
  repeat match goal with E : ?l = _ |- context [?l] => rewrite E; cbn end. done.
Qed.

(** A restore after a completed swap gives the proofs the swap gave: the funding proofs from
    the channel's parameters alone, the change proofs from the stored change secrets,
    whatever the order in which the mint returns the outputs. *)
Lemma restore_after_swap rnd pj sj kj inputs change text v rj fj cj p req response r result :
  load_params pj sj kj = Ok p →
  create_funding_swap_with_plain_change rnd pj sj kj inputs change = Ok text → json_parse text = Ok v →
  idx_str v "swap_request_json" = Some rj → idx_str v "funding_secrets_json" = Some fj →
  idx_str v "change_secrets_json" = Some cj →
  swap_request_from_json rj = Ok req → NoDup (sr_outputs req) → swap_response_from_json response = Ok r →
  complete_funding_swap_for_outputs response fj cj kj (sr_outputs req) = Ok result →
  ∃ funding plain, result = opening_result funding plain ∧
    length (resp_signatures r) = length (sr_outputs req) ∧
    create_funding_restore_request pj sj kj
      = Ok (restore_request_json (take (length funding) (sr_outputs req))) ∧
    create_plain_change_restore_request cj kj
      = Ok (restore_request_json (drop (length funding) (sr_outputs req))) ∧
    (∀ rest rr, restore_response_from_json rest = Ok rr →
       restores rr (take (length funding) (sr_outputs req)) (take (length funding) (resp_signatures r)) →
       complete_funding_restore rest pj sj kj = Ok (opening_result funding [])) ∧
    (∀ rest rr, restore_response_from_json rest = Ok rr →
       restores rr (drop (length funding) (sr_outputs req)) (drop (length funding) (resp_signatures r)) →
       complete_plain_change_restore rest cj kj = Ok (opening_result [] plain)).
Proof.
  intros Hp Hc Hv Hrj Hfj Hcj Hreq Hnd Hr Hres.
  destruct (create_funding_swap_spec _ _ _ _ _ _ _ _ Hp Hc)
    as (d & fs & bms & cs & ins & v' & rj' & (Hd & _ & Hfs & Hbms & _) & Hv' & Hj & Hrj' & Hf' & Hc').
  assert (v' = v) as -> by congruence. assert (fj = secrets_json fs) as -> by congruence.
  assert (rj' = rj) as -> by congruence. clear Hf' Hc' Hv' Hrj'.
  destruct (swap_request_json_inv (swap_request_of bms cs ins)) as (rj' & Hj' & Hinv).
  assert (rj' = rj) as -> by congruence. assert (req = swap_request_of bms cs ins) as -> by congruence.
  unfold complete_funding_swap_for_outputs in Hres.
  apply complete_swap_Ok in Hres as (ks & r' & fo & co & proofs & Hks & Hr' & Hfo & Hco & Hx & ->).
  assert (r' = r) as -> by congruence.
  rewrite (load_params_keyset _ _ _ _ Hp) in Hks. injection Hks as <-.
  apply complete_exact_Some in Hx as [Hmsgs Hx]. rewrite fmap_app in Hmsgs. simpl in Hmsgs.
  pose proof (complete_exact_lengths _ _ _ _ Hx) as [Hl1 Hl2]. rewrite length_app in Hl1, Hl2.
  assert (Forall (λ o, 0 <= out_amount o) (fo ++ co))
    by (apply Forall_app; split; by eapply parse_prepared_nonneg).
  destruct (complete_exact_app _ _ _ _ _ ltac:(done) Hx) as [Hx1 Hx2].
  assert (length fo = length bms) as Hlf.
  { pose proof (Forall2_length _ _ _ Hbms). unfold parse_prepared_outputs in Hfo.
    rewrite secrets_json_items, values_from_items in Hfo. cbn [map_err mbind Result_bind] in Hfo.
    apply try_map_enum_Ok in Hfo as [Hfo _]. rewrite !length_fmap in Hfo. lia. }
  apply app_inj_1 in Hmsgs as [Hm1 Hm2]; [|by rewrite length_fmap].
  exists (take (length fo) proofs), (drop (length fo) proofs). split; [done|].
  rewrite length_take, Nat.min_l by lia. simpl in *.
  rewrite Hlf, take_app_length, drop_app_length. rewrite Hlf in Hx1, Hx2.
  apply NoDup_app in Hnd as (Hnd1 & _ & Hnd2).
  split_and!; [| | |intros rest rr Hrr Hrest..].
  - rewrite Hm1, Hm2, length_app, !length_fmap. lia.
  - unfold create_funding_restore_request.
    assert (reconstruct_funding_outputs pj sj kj = Ok d) as -> by (apply reconstruct_iff; eauto).
    cbn [mbind Result_bind]. rewrite get_blinded_messages_secrets, Hfs. cbn [mbind Result_bind default].
    destruct (OutputsForOneContext_fields _ _ _ _ Hd) as [-> _]. apply try_map_Ok in Hbms.
    unfold message_of in Hbms. by rewrite Hbms.
  - rewrite Hm2. eapply change_request_outputs; [by apply (load_params_keyset pj sj)|done].
  - by eapply funding_restore_Ok.
  - rewrite Hm2 in *. eapply change_restore_Ok; try done; [by apply (load_params_keyset pj sj)|by rewrite <-Hm2..].
Qed.
End completion.

(** ** Signing elsewhere *)

(** Loaded parameters are in the range of the theorems, if the keyset has a key for 1 and none
    for 0 and the funding is below [2^54]. *)
Lemma load_params_sound {T : CashuTypes} {O : CashuOps} {HJ : JsonLaws} pj sj kj p :
  load_params pj sj kj = Ok p →
  1 ∈ amounts_largest_first (keyset_info p) → 0 ∉ amounts_largest_first (keyset_info p) →
  funding_token_amount p < 2 ^ 54 → sound_params p.
Proof.
  intros (ks & secret & Hk & _ & Hp)%load_params_iff H1 H0 Hf.
  assert (∀ v k n, idx_u64 v k = Some n → 0 <= n < 2 ^ 64) as Hr.
  { intros v k n (? & _ & Hn)%bind_Some. by apply json_as_u64_range in Hn. }
  unfold from_json_with_channel_secret, req_u64 in Hp. result_inv.
  repeat match goal with E : ok_or _ _ = Ok _ |- _ => apply ok_or_Ok in E end.
  match goal with E : ChannelParameters_new _ _ _ _ _ _ _ _ _ _ _ = Ok _ |- _ =>
    apply ChannelParameters_new_Ok in E as [-> Hval] end.
  cbn [keyset_info funding_token_amount with_commitment_mode] in *.
  destruct (parsed_keyset_spec _ _ Hk) as (_ & _ & Hwf).
  unfold sound_params. cbn [keyset_info funding_token_amount capacity maximum_amount_for_one_output with_commitment_mode].
  split_and!; [by apply validated_with_mode|by apply Hwf|done|..];
    repeat match goal with E : idx_u64 _ _ = Some _ |- _ => apply Hr in E end; unfold is_u64; lia.
Qed.

Section signing.
Context {T : CashuTypes} {O : CashuOps} {W : OpeningOps} {HJ : JsonLaws} {HO : OpeningLaws} {HE : EncodingLaws}.

Lemma hash_to_scalar_bytes m hash x :
  hash_to_secp_scalar m hash = Ok x → scalar_from_be_bytes (scalar_to_be_bytes x) = Some x.
Proof.
  assert (∀ b, valid_scalar b = Some x → scalar_from_be_bytes (scalar_to_be_bytes x) = Some x) as Hv.
  { intros b (s & Hs & E)%bind_Some. case_bool_decide; simplify_eq. by eapply scalar_bytes_inv. }
  unfold hash_to_secp_scalar. destruct (valid_scalar (hash m)) eqn:E1; [intros [= ->]; by eapply Hv|].
  destruct (valid_scalar (hash (m ++ [255]))) eqn:E2; [intros [= ->]; by eapply Hv|done].
Qed.

(** The host's signing function, on hex texts, signs with the blinded key. *)
Lemma sign_util_spec aux secret m x sig :
  length m = 32%nat → Forall (λ b, 0 <= b < 256) m → scalar_from_be_bytes (scalar_to_be_bytes x) = Some x →
  sign_with_tweaked_key_util aux (secret_to_hex secret) (hex_encode m) (hex_encode (scalar_to_be_bytes x)) = Ok sig ↔
  ∃ k, derive_blinded_secret_key secret x = Ok k ∧ sig = signature_to_string (schnorr_sign aux k m).
Proof.
  intros Hl Hm Hx. destruct (scalar_bytes_range x) as [Hl' Hr'].
  unfold sign_with_tweaked_key_util, derive_blinded_secret_key.
  rewrite secret_hex_inv, !hex_inv by done. cbn [map_err mbind Result_bind].
  rewrite !bool_decide_eq_true_2 by done. cbn [ensure mbind Result_bind ok_or].
  rewrite Hx. cbn [ensure mbind Result_bind ok_or].
  destruct (secret_add_tweak _ x) as [k|e|]; cbn; split; naive_solver.
Qed.

(** What the external-signer flow signs, and where its texts come from. *)
Definition unsigned_parts pj sj kj proofs_json balance p proofs c req0 x rj : Prop :=
  load_params pj sj kj = Ok p ∧ proofs_from_json proofs_json = Ok proofs ∧ for_balance balance p = Ok c ∧
  EstablishedChannel_new p proofs = Ok (mk_EstablishedChannel p proofs) ∧
  create_swap_request c proofs None = Ok req0 ∧ derive_blinding_scalar p "sender_stage1" = Ok x ∧
  swap_request_to_json req0 = Ok rj.
Definition unsigned_text p balance req0 x rj : string :=
  json_print (json_obj
    [("channel_id", json_str (get_channel_id p));
     ("amount", json_num balance);
     ("unsigned_swap_request_json", json_str rj);
     ("message_hex", json_str (hex_encode (sig_all_message_hash req0)));
     ("tweak_scalar_hex", json_str (hex_encode (scalar_to_be_bytes x)))]).
Lemma create_unsigned_Ok pj sj kj proofs_json balance text :
  create_unsigned_balance_update pj kj sj proofs_json balance = Ok text ↔
  ∃ p proofs c req0 x rj, unsigned_parts pj sj kj proofs_json balance p proofs c req0 x rj ∧
    text = unsigned_text p balance req0 x rj.
Proof.
  unfold create_unsigned_balance_update, unsigned_parts, derive_sender_blinding_scalar_for_stage1. split.
  - intros H. result_inv. repeat match goal with E : map_err _ _ = Ok _ |- _ => apply map_err_Ok in E end.
    match goal with E : EstablishedChannel_new _ _ = Ok ?ch |- _ =>
      pose proof E as E'; apply EstablishedChannel_new_fields in E' as [E1 E2];
      destruct ch; simpl in E1, E2; subst end.
    eexists _, _, _, _, _, _. split; [|done]. split_and!; try done. apply load_params_iff. eauto.
  - intros (p & proofs & c & req0 & x & rj & ((ks & secret & Hk & Hs & Hp)%load_params_iff & Hpr & Hc & Hch & Hreq
      & Hx & Hrj) & ->).
    rewrite Hk, Hs. cbn. rewrite Hp. cbn. rewrite Hpr. cbn. rewrite Hc. cbn. rewrite Hch. cbn. rewrite Hreq. cbn.
    rewrite Hx. cbn. by rewrite Hrj.
Qed.

Lemma unsigned_text_fields p balance req0 x rj v :
  json_parse (unsigned_text p balance req0 x rj) = Ok v →
  idx_str v "unsigned_swap_request_json" = Some rj ∧
  idx_str v "message_hex" = Some (hex_encode (sig_all_message_hash req0)) ∧
  idx_str v "tweak_scalar_hex" = Some (hex_encode (scalar_to_be_bytes x)) ∧
  idx_str v "channel_id" = Some (get_channel_id p).
Proof.
  unfold unsigned_text. rewrite json_print_inv. intros [= <-].
  split_and!; apply idx_str_obj; try done; keys_nodup.
Qed.

(** The flow's signature is the one of the sender's blinded key over the swap. *)
Lemma flow_signature aux secret p balance req0 x rj v mj tj sig :
  derive_blinding_scalar p "sender_stage1" = Ok x →
  json_parse (unsigned_text p balance req0 x rj) = Ok v →
  idx_str v "message_hex" = Some mj → idx_str v "tweak_scalar_hex" = Some tj →
  sign_with_tweaked_key_util aux (secret_to_hex secret) mj tj = Ok sig ↔
  ∃ k, get_sender_blinded_secret_key_for_stage1 p secret = Ok k ∧
    sig = signature_to_string (schnorr_sign aux k (sig_all_message_hash req0)).
Proof.
  intros Hx Hv Hm Ht. destruct (unsigned_text_fields _ _ _ _ _ _ Hv) as (_ & Hm' & Ht' & _).
  assert (mj = hex_encode (sig_all_message_hash req0)) as -> by congruence.
  assert (tj = hex_encode (scalar_to_be_bytes x)) as -> by congruence.
  destruct (sig_all_hash_range req0) as [Hl Hr].
  rewrite sign_util_spec; [|done..|by eapply hash_to_scalar_bytes, map_err_Ok].
  unfold get_sender_blinded_secret_key_for_stage1. by rewrite Hx.
Qed.

Section equivalence.
Context {HS : SecpLaws} {HB : SchnorrLaws}.

(** What signing with the key gives. *)
Lemma create_signed_Ok aux secret p proof proofs balance update req :
  proof_witness proof = None →
  create_signed_balance_update aux (mk_SpilmanChannelSender secret (mk_EstablishedChannel p (proof :: proofs))) balance
    = Ok (update, req) ↔
  ∃ c req0 k, for_balance balance p = Ok c ∧ create_swap_request c (proof :: proofs) None = Ok req0 ∧
    get_sender_blinded_secret_key_for_stage1 p secret = Ok k ∧
    let sig := schnorr_sign aux k (sig_all_message_hash req0) in
    update = mk_BalanceUpdateMessage (get_channel_id p) balance sig ∧
    req = set_first_witness req0 (Some (P2PKWitness [signature_to_string sig])).
Proof.
  intros Hw. unfold create_signed_balance_update. cbn [channel ec_params funding_proofs alice_secret].
  assert (∀ c req0 k, create_swap_request c (proof :: proofs) None = Ok req0 →
    let sig := schnorr_sign aux k (sig_all_message_hash req0) in
    let signed := set_first_witness req0 (Some (P2PKWitness [signature_to_string sig])) in
    sign_sig_all aux req0 k = Ok signed ∧
    from_signed_swap_request (get_channel_id p) balance signed
      = Ok (mk_BalanceUpdateMessage (get_channel_id p) balance sig)) as Hsig.
  { intros c req0 k Hreq. pose proof (create_swap_request_inputs _ _ _ _ Hreq) as Hin. split.
    - by eapply sign_sig_all_first.
    - unfold from_signed_swap_request, get_signatures_from_swap_request, set_first_witness. rewrite Hin.
      cbn. by rewrite signature_str_inv. }
  split.
  - intros (c & Hc & (req0 & Hreq & (k & Hk & (signed & Hs & (u & Hu & [= <- <-])%bind_Ok)%bind_Ok)%bind_Ok)%bind_Ok)%bind_Ok.
    destruct (Hsig c req0 k Hreq) as [E1 E2]. exists c, req0, k. rewrite E1 in Hs. injection Hs as <-.
    rewrite E2 in Hu. by injection Hu as <-.
  - intros (c & req0 & k & Hc & Hreq & Hk & -> & ->). destruct (Hsig c req0 k Hreq) as [E1 E2].
    rewrite Hc. cbn [mbind Result_bind]. rewrite Hreq. cbn [mbind Result_bind]. rewrite Hk. cbn [mbind Result_bind].
    rewrite E1. cbn [mbind Result_bind]. by rewrite E2.
Qed.

Lemma attach_Ok aux c p proof proofs req0 rj k balance :
  proof_witness proof = None → create_swap_request c (proof :: proofs) None = Ok req0 →
  swap_request_to_json req0 = Ok rj →
  let sig := schnorr_sign aux k (sig_all_message_hash req0) in
  attach_signature_to_balance_update rj (signature_to_string sig) (get_channel_id p) balance
    = Ok (update_json (mk_BalanceUpdateMessage (get_channel_id p) balance sig)).
Proof.
  intros Hw Hreq Hrj sig. destruct (swap_request_json_inv req0) as (rj' & Hrj' & Hinv).
  rewrite Hrj in Hrj'. injection Hrj' as <-. pose proof (create_swap_request_inputs _ _ _ _ Hreq) as Hin.
  unfold attach_signature_to_balance_update. rewrite Hinv, signature_str_inv. cbn [map_err mbind Result_bind].
  unfold attach_signature_to_first_input. rewrite Hin, Hw. cbn [map_err mbind Result_bind].
  unfold from_signed_swap_request, get_signatures_from_swap_request, set_first_witness. rewrite Hin.
  cbn. by rewrite signature_str_inv.
Qed.

(** A signature made elsewhere with the sender's key is one the receiver accepts, from its
    own texts for the channel. *)
Lemma flow_verifies aux pj sj kj proofs_json secret balance p proof proofs text v mj tj sig pj' sj' kj' proofs_json'
    channel_id :
  load_params pj sj kj = Ok p → public_key secret = sender_pubkey p →
  proofs_from_json proofs_json = Ok (proof :: proofs) → proof_witness proof = None →
  create_unsigned_balance_update pj kj sj proofs_json balance = Ok text → json_parse text = Ok v →
  idx_str v "message_hex" = Some mj → idx_str v "tweak_scalar_hex" = Some tj →
  sign_with_tweaked_key_util aux (secret_to_hex secret) mj tj = Ok sig →
  load_params pj' sj' kj' = Ok p → proofs_from_json proofs_json' = Ok (proof :: proofs) →
  verify_signature pj' proofs_json' sj' kj' channel_id balance sig = Ok tt.
Proof.
  intros Hp Hpk Hpr Hw Htext Hv Hm Ht Hsig Hp2 Hpr2.
  apply create_unsigned_Ok in Htext as (p' & pr' & c & req0 & x & rj & (Hp' & Hpr' & Hc & Hch & Hreq & Hx & _) & ->).
  rewrite Hp in Hp'. injection Hp' as <-. rewrite Hpr in Hpr'. injection Hpr' as <-.
  apply (flow_signature aux secret p balance req0 x rj v mj tj sig Hx Hv Hm Ht) in Hsig as (k & Hk & ->).
  set (s := mk_SpilmanChannelSender secret (mk_EstablishedChannel p (proof :: proofs))).
  destruct (created_update_verifies aux s balance
    (mk_BalanceUpdateMessage (get_channel_id p) balance (schnorr_sign aux k (sig_all_message_hash req0)))
    (set_first_witness req0 (Some (P2PKWitness [signature_to_string (schnorr_sign aux k (sig_all_message_hash req0))])))
    proof proofs) as [_ Hver]; [done..| |].
  { apply create_signed_Ok; [done|]. by exists c, req0, k. }
  unfold verify_signature. rewrite Hp2. cbn [mbind Result_bind]. rewrite Hpr2. cbn [mbind Result_bind].
  rewrite Hch. cbn [mbind Result_bind]. rewrite signature_str_inv. exact Hver.
Qed.

(** An update signed elsewhere: what the flow of the three functions returns. *)
Definition external_flow aux pj sj kj proofs_json secret balance out : Prop :=
  ∃ text v rj mj tj cid sig, create_unsigned_balance_update pj kj sj proofs_json balance = Ok text ∧
    json_parse text = Ok v ∧ idx_str v "unsigned_swap_request_json" = Some rj ∧
    idx_str v "message_hex" = Some mj ∧ idx_str v "tweak_scalar_hex" = Some tj ∧
    idx_str v "channel_id" = Some cid ∧
    sign_with_tweaked_key_util aux (secret_to_hex secret) mj tj = Ok sig ∧
    attach_signature_to_balance_update rj sig cid balance = Ok out.

Lemma external_flow_iff aux pj sj kj proofs_json secret balance p proof proofs out :
  load_params pj sj kj = Ok p → proofs_from_json proofs_json = Ok (proof :: proofs) →
  proof_witness proof = None →
  EstablishedChannel_new p (proof :: proofs) = Ok (mk_EstablishedChannel p (proof :: proofs)) →
  external_flow aux pj sj kj proofs_json secret balance out ↔
  ∃ update req, out = update_json update ∧
    create_signed_balance_update aux
      (mk_SpilmanChannelSender secret (mk_EstablishedChannel p (proof :: proofs))) balance = Ok (update, req).
Proof.
  intros Hp Hpr Hw Hch. split.
  - intros (text & v & rj & mj & tj & cid & sig & Htext & Hv & Hrj & Hm & Ht & Hcid & Hsig & Hat).
    apply create_unsigned_Ok in Htext as (p' & pr' & c & req0 & x & rj' & (Hp' & Hpr' & Hc & _ & Hreq & Hx & Hj) & ->).
    rewrite Hp in Hp'. injection Hp' as <-. rewrite Hpr in Hpr'. injection Hpr' as <-.
    apply (flow_signature aux secret p balance req0 x rj' v mj tj sig Hx Hv Hm Ht) in Hsig as (k & Hk & ->).
    destruct (unsigned_text_fields _ _ _ _ _ _ Hv) as (Hrj' & _ & _ & Hcid').
    assert (cid = get_channel_id p) as -> by congruence.
    assert (rj' = rj) as -> by congruence.
    rewrite (attach_Ok aux c p proof proofs) in Hat by done. injection Hat as <-.
    eexists _, _. split; [done|]. apply create_signed_Ok; [done|]. exists c, req0, k. done.
  - intros (update & req & -> & Hs). apply create_signed_Ok in Hs as (c & req0 & k & Hc & Hreq & Hk & -> & _); [|done].
    destruct (swap_request_json_inv req0) as (rj & Hrj & _).
    pose proof Hk as (x & Hx & _)%bind_Ok. set (text := unsigned_text p balance req0 x rj).
    assert (∃ v, json_parse text = Ok v) as [v Hv] by (eexists; apply json_print_inv).
    destruct (unsigned_text_fields _ _ _ _ _ _ Hv) as (Hrj' & Hm & Ht & Hcid).
    eexists text, v, rj, _, _, (get_channel_id p), _. split_and!; try done.
    + apply create_unsigned_Ok. eexists p, _, c, req0, x, rj. done.
    + apply (flow_signature aux secret p balance req0 x rj v _ _ _ Hx Hv Hm Ht). by exists k.
    + by eapply attach_Ok.
Qed.

(** Whether signing succeeds does not depend on the randomness, nor does anything of the update
    but its signature. *)
Lemma create_signed_aux aux aux' s balance update req proof proofs :
  funding_proofs (channel s) = proof :: proofs → proof_witness proof = None →
  create_signed_balance_update aux s balance = Ok (update, req) →
  ∃ update' req', create_signed_balance_update aux' s balance = Ok (update', req') ∧
    bu_channel_id update' = bu_channel_id update ∧ bu_amount update' = bu_amount update.
Proof.
  destruct s as [secret [p fp]]. cbn. intros -> Hw Hs.
  apply create_signed_Ok in Hs as (c & req0 & k & Hc & Hreq & Hk & -> & ->); [|done].
  eexists _, _. split; [apply create_signed_Ok; [done|]; exists c, req0, k; done|done].
Qed.

(** C28: a balance update can be built without the sender's key, its digest signed with the
    host's signing function and the signature attached. For the same auxiliary randomness this
    gives exactly the update that signing with the key gives; whatever randomness the two draw,
    the one succeeds exactly when the other does, and then both name the same channel and
    amount and both signatures are accepted by the receiver. *)
Theorem external_signer_equivalent pj sj kj proofs_json secret balance p proof proofs :
  load_params pj sj kj = Ok p → proofs_from_json proofs_json = Ok (proof :: proofs) →
  proof_witness proof = None →
  EstablishedChannel_new p (proof :: proofs) = Ok (mk_EstablishedChannel p (proof :: proofs)) →
  public_key secret = sender_pubkey p →
  let ec := mk_EstablishedChannel p (proof :: proofs) in
  let sender := mk_SpilmanChannelSender secret ec in
  (∀ aux out, external_flow aux pj sj kj proofs_json secret balance out ↔
     ∃ update req, out = update_json update ∧ create_signed_balance_update aux sender balance = Ok (update, req)) ∧
  (∀ aux aux', (∃ out, external_flow aux pj sj kj proofs_json secret balance out) ↔
     is_ok (create_signed_balance_update aux' sender balance) = true) ∧
  (∀ aux aux' out update req,
     external_flow aux pj sj kj proofs_json secret balance out →
     create_signed_balance_update aux' sender balance = Ok (update, req) →
     ∃ signature,
       let update' := mk_BalanceUpdateMessage (bu_channel_id update) (bu_amount update) signature in
       out = update_json update' ∧ verify_sender_signature update' ec = Ok tt ∧
       verify_sender_signature update ec = Ok tt).
Proof.
  intros Hp Hpr Hw Hch Hpk ec sender.
  assert (∀ aux out, external_flow aux pj sj kj proofs_json secret balance out ↔
     ∃ update req, out = update_json update ∧ create_signed_balance_update aux sender balance = Ok (update, req)) as Hiff.
  { intros. by apply external_flow_iff. }
  split_and!; [done|..].
  - intros aux aux'. setoid_rewrite Hiff. rewrite is_ok_Ok. split.
    + intros (out & update & req & _ & Hs). eapply (create_signed_aux aux aux') in Hs as (u & r & Hs & _); eauto.
    + intros [[update req] Hs]. eapply (create_signed_aux aux' aux) in Hs as (u & r & Hs & _); eauto.
  - intros aux aux' out update req (u & r & -> & Hu)%Hiff Hs.
    pose proof Hs as (u' & r' & Hu' & Hid & Ham)%(create_signed_aux aux' aux _ _ _ _ proof proofs); [|done..].
    rewrite Hu in Hu'. injection Hu' as <- <-. exists (bu_signature u). rewrite <-Hid, <-Ham.
    apply (created_update_verifies _ _ _ _ _ proof proofs) in Hu as [_ Hv]; [|done..].
    apply (created_update_verifies _ _ _ _ _ proof proofs) in Hs as [_ Hv']; [|done..].
    by destruct u.
Qed.
End equivalence.
End signing.

(** ** Concrete inputs *)

(** The functions of [OpeningOps] over the instance of [Toy]. *)
Module ToyOpening.
#[local] Existing Instance Toy.types.
#[local] Existing Instance Toy.ops.

Definition key_set_info (v : Value) : Result string KeySetInfo :=
  match idx_str v "id", idx_str v "unit", idx_bool v "active" with
  | Some id, Some u, Some active =>
      Ok (mk_KeySetInfo (id : Id) (u : CurrencyUnit) active (default 0 (idx_u64 v "input_fee_ppk"))
            (idx_u64 v "final_expiry"))
  | _, _, _ => Err "missing field"
  end.
(** The secrets are numbered from the random number on. *)
Definition premint (rnd : Z) (id : Id) (i : nat) (amount : Z) : PreMint :=
  let secret := "change-" +:+ pretty (rnd + Z.of_nat i) in
  let r := (rnd + Z.of_nat i) mod Toy.order in
  mk_PreMint (BlindedMessage_new amount id ((Toy.point (bytes_of_string secret) + r) mod Toy.order)) secret r amount.

Definition ops : OpeningOps := {|
  Token := string * option string * list Proof;
  token_from_str s :=
    v ← Toy.parse_tree s;
    match v with
    | GenNode 7 [GenLeaf (inl (inl url)); GenLeaf (inl (inl u)); l] =>
        (λ ps, (url, Some u, ps)) <$> ok_or "proofs" (@Toy.of_tree _ (@Toy.list_tree _ Toy.Proof_tree) l)
    | _ => Err "not a token"
    end;
  token_mint_url t := Ok t.1.1;
  token_unit t := t.1.2;
  token_proofs t _ := Ok t.2;
  unit_Sat := "sat";
  unit_custom u := u;
  key_set_infos_from_json s := v ← json_parse s; l ← ok_or "not a list" (json_as_array v); try_map key_set_info l;
  secret_to_hex k := Toy.print_countable (k : Z);
  swap_request_to_json r := v ← swap_request_to_value r; Ok (json_print v);
  swap_request_from_json s := v ← json_parse s; swap_request_from_value v;
  blinded_message_to_value m := @Toy.to_tree _ Toy.BlindedMessage_tree m;
  bs_dleq_new e s := 0;
  premint_random rnd id amount split fee amounts :=
    Ok (imap (premint rnd id) (match split with SplitNone => [amount] | SplitValues l => l end));
  base64_encode s := s;
|}.
#[local] Existing Instance ops.

Lemma opening_laws : OpeningLaws.
Proof.
  split.
  - reflexivity.
  - intros r. apply Toy.hash_range.
  - intros r. destruct (@swap_request_inv _ _ Toy.wire_laws r) as (v & Hv & Hr).
    exists (json_print v). split; [exact (f_equal (λ m, m ≫= λ v, Ok (json_print v)) Hv)|].
    change ((json_parse (json_print v) ≫= swap_request_from_value) = Ok r).
    rewrite (@json_print_inv _ _ Toy.json_laws v). exact Hr.
  - intros k. change (Toy.secret_of_text (Toy.print_countable (k : Z)) = Ok (k : Z)). unfold Toy.secret_of_text.
    by rewrite Toy.parse_print_countable.
Qed.
Lemma imap_amounts rnd id l : pmt_amount <$> imap (premint rnd id) l = l.
Proof.
  apply list_eq. intros i. rewrite list_lookup_fmap, list_lookup_imap. by destruct (l !! i).
Qed.
Lemma premint_laws : PreMintLaws.
Proof.
  split. intros rnd id amount l fee amounts pre Hpre _. injection Hpre as <-. split.
  - by rewrite imap_amounts.
  - apply Forall_lookup. intros i m Hm. apply list_lookup_imap_Some in Hm as (a & _ & ->). split; exact eq_refl.
Qed.
Lemma construct_app s1 r1 t1 s2 r2 t2 keys proofs :
  length s1 = length r1 → length s1 = length t1 →
  Toy.construct (s1 ++ s2) (r1 ++ r2) (t1 ++ t2) keys = Ok proofs →
  ∃ p1 p2, proofs = p1 ++ p2 ∧ Toy.construct s1 r1 t1 keys = Ok p1 ∧ Toy.construct s2 r2 t2 keys = Ok p2.
Proof.
  intros H1 H2. unfold Toy.construct. rewrite !length_app. case_decide as Hl; [|done].
  rewrite !zip_with_app by (rewrite ?length_zip_with; lia). intros Hf%try_map_Ok.
  apply Forall2_app_inv_l in Hf as (p1 & p2 & Hf1 & Hf2 & ->). exists p1, p2. split; [done|].
  rewrite !decide_True by lia. by rewrite !try_map_Ok.
Qed.
Lemma unblind_laws : UnblindLaws.
Proof.
  split; [exact construct_app|].
  intros sigs rs secrets keys proofs i s r t p K B Hc Hs Hr Ht Hp Hb HK Hd.
  change (Toy.construct sigs rs secrets keys = Ok proofs) in Hc. unfold Toy.construct in Hc.
  case_decide; [|done]. apply try_map_Ok in Hc.
  assert (Toy.construct_one keys (s, (r, t)) = Ok p) as Hone.
  { refine (Forall2_lookup_lr _ _ _ i _ _ Hc _ Hp). apply lookup_zip_with_Some.
    exists s, (r, t). split_and!; [done|done|]. apply lookup_zip_with_Some. by exists r, t. }
  unfold Toy.construct_one in Hone. apply bind_Ok in Hone as (K' & HK' & Hone). injection Hone as <-.
  apply ok_or_Ok in HK'. assert (K' = K) as -> by congruence.
  apply ensure_Ok, andb_true_iff in Hd as [Hd Hc'].
  apply bool_decide_eq_true_1 in Hd as [d Hd]. apply Z.eqb_eq in Hc'.
  assert ((Toy.point (bytes_of_string t) + r) mod Toy.order = B) as HB by exact (Toy.Ok_inj _ _ Hb).
  cbn [proof_witness proof_p2pk_e]. split; [done|]. split; [done|]. cbn [proof_dleq]. rewrite Hd. split; [|by exists r].
  unfold proof_verify_dleq, Toy.ops. apply ensure_Ok. cbn [proof_dleq proof_c proof_secret].
  rewrite Hc', <-HB, Toy.unblind_sound, Z.eqb_refl by done. done.
Qed.
End ToyOpening.

Module Examples.
#[local] Existing Instance Toy.types.
#[local] Existing Instance Toy.ops.
#[local] Existing Instance Toy.json_laws.
#[local] Existing Instance Toy.encoding_laws.
#[local] Existing Instance Toy.secp_laws.
#[local] Existing Instance Toy.schnorr_laws.
#[local] Existing Instance ToyOpening.ops.
#[local] Existing Instance ToyOpening.opening_laws.
Import Bridge.Examples Channel.Examples.

(** The texts of the channel of [Channel.Examples]. *)
Definition params_text : string := get_channel_id_params_json params.
Definition secret_text : string := hex_encode (channel_secret params).
Definition proofs_text : string := proofs_to_json proofs.
Lemma params_loaded : load_params params_text secret_text (info "sat") = Ok params.
Proof. vm_compute. reflexivity. Qed.

(** Signed elsewhere with other randomness than [update10]. *)
Lemma external_signer_equivalent_witness :
  ∃ out signature, external_flow [9; 9] params_text secret_text (info "sat") proofs_text (alice_secret sender) 10 out ∧
    out = update_json (mk_BalanceUpdateMessage (bu_channel_id update10.1) (bu_amount update10.1) signature) ∧
    verify_sender_signature (mk_BalanceUpdateMessage (bu_channel_id update10.1) (bu_amount update10.1) signature)
      (mk_EstablishedChannel params (proof0 :: tl proofs)) = Ok tt.
Proof.
  destruct (external_signer_equivalent params_text secret_text (info "sat") proofs_text (alice_secret sender) 10
    params proof0 (tl proofs)) as (_ & Hok & Hout).
  - exact params_loaded.
  - exact (proofs_json_inv proofs).
  - reflexivity.
  - vm_compute. reflexivity.
  - reflexivity.
  - destruct (proj2 (Hok [9; 9] [7])) as [out Hflow]; [vm_compute; reflexivity|].
    destruct (Hout [9; 9] [7] out update10.1 update10.2 Hflow) as (signature & Hu & Hv & _); [vm_compute; reflexivity|].
    exists out, signature. exact (conj Hflow (conj Hu Hv)).
Defined.
End Examples.
