(* ===== verification/ClientHost.v ===== *)
(** * The sender's host ([configurable_client_host.rs], the traits of [client_bridge.rs])

    The trait [SpilmanClientHost], through which the client bridge reaches its storage, its
    keys and the clock, and its implementation [ConfigurableClientHost] over any
    [ClientStorage]. *)

From S2P Require Import Prelude Cashu Toy Amounts Params Storage StorageSpec Host ClientStorage Funding.

(** ** The trait *)

Class SpilmanClientHost {T : CashuTypes} (H : Type) := {
  save_opening_from_swap_channel : H → string → ClientChannelOpeningFromSwap → Result string unit * H;
  mark_channel_open : H → string → string → Result string unit * H;
  get_channel_opening_from_swap : H → string → Result string (option ClientChannelOpeningFromSwap);
  mark_channel_opening_failed : H → string → ClientOpeningFailure → Result string unit * H;
  get_channel_funding : H → string → option ClientChannelFunding;
  ch_get_payment_state : H → string → option ClientPaymentState;
  client_record_payment : H → string → ClientPaymentState → Result string unit * H;
  client_channel_state : H → string → option ClientChannelState;
  client_mark_closed : H → string → Result string unit * H;
  client_mark_closing : H → string → Result string unit * H;
  ch_list_channel_ids : H → list string;
  delete_channel : H → string → Result string unit * H;
  ch_get_keyset : H → string → Id → option ClientKeysetCacheEntry;
  ch_set_keyset : H → string → Id → ClientKeysetCacheEntry → Result string unit * H;
  ch_active_keyset_ids : H → string → CurrencyUnit → list Id;
  ch_list_keysets_for_unit : H → string → CurrencyUnit → list (Id * ClientKeysetCacheEntry);
  client_now : H → Z;
  client_compute_channel_secret : H → string → string → Result string string;
  client_sign_with_tweaked_key : H → string → string → string → Result string string;
}.

(** ** [ConfigurableClientHost]

    [client_time] is what the clock of the machine reads during the call, [client_aux m t] the
    auxiliary randomness drawn when the message [m] is signed under the tweak [t]. *)

Record ConfigurableClientHost {T : CashuTypes} {S : Type} := mk_ConfigurableClientHost {
  client_keys : gmap string SecretKey;
  client_store : S;
  client_time : Z;
  client_aux : string → string → bytes;
}.
Arguments ConfigurableClientHost {T} S.
Arguments mk_ConfigurableClientHost {T S} _ _ _ _.

Section host.
Context {T : CashuTypes} {O : CashuOps} {W : OpeningOps} {S : Type} {CS : ClientStorage S}.
Abbreviation CHost := (ConfigurableClientHost S).
Implicit Types h : CHost.

Definition ClientHost_new (st : S) (time : Z) (aux : string → string → bytes) : CHost :=
  mk_ConfigurableClientHost ∅ st time aux.
Definition add_key h (secret : SecretKey) : CHost :=
  mk_ConfigurableClientHost (<[pubkey_to_hex (public_key secret) := secret]> (client_keys h))
    (client_store h) (client_time h) (client_aux h).
Definition add_key_from_hex h (secret_hex : string) : Result string string * CHost :=
  match map_err (λ e, "Invalid secret key: " +:+ e) (secret_from_hex secret_hex) with
  | Ok secret => (Ok (pubkey_to_hex (public_key secret)), add_key h secret)
  | Err e => (Err e, h)
  | Diverge => (Diverge, h)
  end.
(** The iteration order of a [HashMap] is unspecified. *)
Definition get_pubkeys h : list string := (map_to_list (client_keys h)).*1.
Definition has_key h (pubkey_hex : string) : bool := bool_decide (is_Some (client_keys h !! pubkey_hex)).
Definition remove_key h (pubkey_hex : string) : bool * CHost :=
  (has_key h pubkey_hex,
   mk_ConfigurableClientHost (delete pubkey_hex (client_keys h)) (client_store h) (client_time h) (client_aux h)).
Definition channel_count h : Z := Z.of_nat (length (list_channel_ids (client_store h))).
Definition get_secret h (pubkey_hex : string) : Result string SecretKey :=
  ok_or ("No key found for pubkey: " +:+ pubkey_hex) (client_keys h !! pubkey_hex).

(** A storage call through the host. *)
Definition with_store h (r : Result string unit * S) : Result string unit * CHost :=
  (r.1, mk_ConfigurableClientHost (client_keys h) r.2 (client_time h) (client_aux h)).

Definition cch_compute_channel_secret h (sender_pubkey_hex receiver_pubkey_hex : string) :
    Result string string :=
  secret ← get_secret h sender_pubkey_hex;
  compute_channel_secret_from_hex (secret_to_hex secret) receiver_pubkey_hex.
Definition cch_sign_with_tweaked_key h (signer_pubkey_hex message_hex tweak_scalar_hex : string) :
    Result string string :=
  secret ← get_secret h signer_pubkey_hex;
  sign_with_tweaked_key_util (client_aux h message_hex tweak_scalar_hex) (secret_to_hex secret)
    message_hex tweak_scalar_hex.

#[global] Instance configurable_client_host : SpilmanClientHost CHost := {|
  save_opening_from_swap_channel h c o := with_store h (save_opening_from_swap (client_store h) c o);
  mark_channel_open h c proofs := with_store h (set_open (client_store h) c proofs);
  get_channel_opening_from_swap h c := get_opening_from_swap (client_store h) c;
  mark_channel_opening_failed h c f := with_store h (set_opening_failed (client_store h) c f);
  get_channel_funding h c := client_get_funding (client_store h) c;
  ch_get_payment_state h c := get_payment_state (client_store h) c;
  client_record_payment h c st := with_store h (save_payment_state (client_store h) c st);
  client_channel_state h c := client_get_state (client_store h) c;
  client_mark_closed h c := with_store h (client_set_closed (client_store h) c);
  client_mark_closing h c := with_store h (client_set_closing (client_store h) c);
  ch_list_channel_ids h := list_channel_ids (client_store h);
  delete_channel h c := with_store h (client_delete (client_store h) c);
  ch_get_keyset h m i := client_get_keyset (client_store h) m i;
  ch_set_keyset h m i e := with_store h (client_set_keyset (client_store h) m i e);
  ch_active_keyset_ids h m u := client_get_active_keyset_ids (client_store h) m u;
  ch_list_keysets_for_unit h m u := client_list_keysets_for_unit (client_store h) m u;
  client_now h := client_time h;
  client_compute_channel_secret := cch_compute_channel_secret;
  client_sign_with_tweaked_key := cch_sign_with_tweaked_key;
|}.
End host.
