(* ===== verification/Client.v ===== *)
(** * The sender's bridge ([client_bridge.rs])

    [SpilmanClientBridge] over any host and network: discovering and caching keysets, opening
    a channel from a token or from proofs, recovering an opening whose outcome is not known,
    signing payments, and closing. The theorems are in [ClientProofs.v].

    The state of a call is the host [H] and the rest of the world [N] (the mints, the
    network); the callbacks of [SpilmanClientNetworking] act on the world. The clock that
    [bindings.rs] reads and the random bytes it draws are functions of the world. The
    [async] versions make the same calls in the same order and await each one. *)

From S2P Require Import Prelude Cashu Toy Amounts Params SwapCompletion Deterministic Channel Mint Storage StorageSpec Host Bridge ClientStorage Funding Bindings ClientHost.

(** ** Data *)

Record OpenChannelResult := mk_OpenChannelResult {
  or_channel_id : string;
  or_capacity : Z;
  or_funding_token_amount : Z;
  or_mint_url : string;
  or_unit : string;
  or_keyset_id : string;
  or_sender_pubkey_hex : string;
  or_receiver_pubkey_hex : string;
  or_change_proofs_json : string;
}.
Record PreparedOpenChannel := mk_PreparedOpenChannel {
  po_channel_id : string;
  po_mint_url : string;
  po_swap_request_json : string;
  po_opening : ClientChannelOpeningFromSwap;
  po_funding_secrets_json : string;
  po_change_secrets_json : string;
  po_keyset_id : string;
}.
Record CompletedOpenChannel := mk_CompletedOpenChannel {
  co_channel_id : string;
  co_funding_proofs_json : string;
  co_change_proofs_json : string;
  co_result : OpenChannelResult;
}.
Record PreparedOpenRecovery := mk_PreparedOpenRecovery {
  pr_channel_id : string;
  pr_mint_url : string;
  pr_funding_restore_request_json : string;
  pr_change_restore_request_json : option string;
  pr_opening : ClientChannelOpeningFromSwap;
}.
Record CompletedOpenRecovery := mk_CompletedOpenRecovery {
  cr_channel_id : string;
  cr_funding_proofs_json : string;
  cr_change_proofs_json : string;
  cr_result : OpenChannelResult;
}.
Record TokenAutoAttempt := mk_TokenAutoAttempt {
  ta_output_keyset : SelectedOutputKeyset;
  ta_input_keysets : string;
}.
Record ClientChannelInfo := mk_ClientChannelInfo {
  ci_channel_id : string;
  ci_capacity : Z;
  ci_funding_token_amount : Z;
  ci_mint_url : string;
  ci_current_balance : Z;
  ci_payment_count : Z;
  ci_state : ClientChannelState;
}.

(** ** Errors *)

Inductive OpenChannelFailureStage :=
| BeforeOpeningSaved | MintRejected | SwapSubmitted | FundingProofsReceived | RestoreVerification
| MarkOpen.
#[global] Instance OpenChannelFailureStage_eq : EqDecision OpenChannelFailureStage.
Proof. solve_decision. Defined.
Definition stage_as_str (s : OpenChannelFailureStage) : string :=
  match s with
  | BeforeOpeningSaved => "before_opening_saved"
  | MintRejected => "mint_rejected"
  | SwapSubmitted => "swap_submitted"
  | FundingProofsReceived => "funding_proofs_received"
  | RestoreVerification => "restore_verification"
  | MarkOpen => "mark_open"
  end.

Record OpenChannelError := mk_OpenChannelError {
  oe_stage : OpenChannelFailureStage;
  oe_channel_id : option string;
  input_may_be_spent : bool;
  oe_message : string;
  oe_mint_error : option MintRequestError;
}.
(** [OpenChannelError::new] and [network]. *)
Definition open_error (stage : OpenChannelFailureStage) (channel_id : option string) (message : string) :
    OpenChannelError :=
  let input_may_be_spent :=
    match stage with
    | SwapSubmitted | FundingProofsReceived | RestoreVerification | MarkOpen => true
    | _ => false
    end in
  mk_OpenChannelError stage channel_id input_may_be_spent message None.
Definition with_mint_error (e : OpenChannelError) (evidence : MintRequestError) : OpenChannelError :=
  mk_OpenChannelError (oe_stage e) (oe_channel_id e) (input_may_be_spent e) (oe_message e) (Some evidence).
Definition network_error (stage : OpenChannelFailureStage) (channel_id : option string)
    (evidence : MintRequestError) : OpenChannelError :=
  with_mint_error (open_error stage channel_id (MintRequestError_to_string evidence)) evidence.
Definition is_retryable_keyset_rejection (e : OpenChannelError) : bool :=
  bool_decide (oe_stage e = MintRejected) && negb (input_may_be_spent e)
  && match oe_mint_error e with Some m => permits_keyset_retry m | None => false end.
Definition OpenChannelError_to_string (e : OpenChannelError) : string :=
  "channel open failed at " +:+ stage_as_str (oe_stage e) +:+ ": " +:+ oe_message e.
(** A failure before anything was stored or submitted. *)
Definition before_saved (message : string) : OpenChannelError := open_error BeforeOpeningSaved None message.

Definition unwrap_open_channel_retry_result {A}
    (result : Result (KeysetRetryError A OpenChannelError OpenChannelError)
                (KeysetRetrySuccess A OpenChannelResult)) : Result OpenChannelError OpenChannelResult :=
  match result with
  | Ok success => Ok (krs_value success)
  | Err (RetrySelect error) | Err (RetryPrepare error) | Err (RetryRefresh error)
  | Err (RetryCleanup error) | Err (RetrySubmit _ error _) | Err (RetryKeysetUnchanged _ error _) =>
      Err error
  | Diverge => Diverge
  end.

(** ** Keyset responses *)

Section keysets.
Context {T : CashuTypes} {O : CashuOps} {W : OpeningOps}.
(** The derived parser of [cashu::nuts::KeySetInfo] on one entry of a listing. *)
Context (keyset_meta_from_value : Value → Result string (Id * CurrencyUnit * bool)).

Definition entry_id (k : Value) : option Id := idx_str k "id" ≫= parse_id.
(** One turn of the loop that looks for the requested keyset's keys. *)
Definition match_keys_entry (requested : Id) (matching : option Value) (entry : Value) :
    Result string (option Value) :=
  raw ← ok_or "Missing keyset id in keys response" (idx_str entry "id");
  id ← supported_keyset_id raw;
  if bool_decide (id = Some requested) then
    match matching with
    | Some _ => Err "Duplicate requested keyset in keys response"
    | None => Ok (Some entry)
    end
  else Ok matching.
Definition check_keys_field (matching : Value) (field : string) (expected : Value) : Result string unit :=
  match json_get matching field with
  | Some value => ensure (bool_decide (value = expected)) ("Keyset keys response " +:+ field +:+ " mismatch")
  | None => Ok tt
  end.

Definition build_keyset_info_from_responses (keysets_json keys_json keyset_id_str : string) :
    Result string string :=
  discovery ← discovery_from_json keyset_meta_from_value keysets_json;
  keys_resp ← map_err (λ e, "Failed to parse /v1/keys response: " +:+ e) (json_parse keys_json);
  supported ← supported_keyset_id keyset_id_str;
  requested ← ok_or "Unsupported keyset version requested" supported;
  keyset_entry ← ok_or ("Keyset '" +:+ keyset_id_str +:+ "' not found in /v1/keysets response")
    (List.find (λ k, bool_decide (entry_id k = Some requested)) (kd_keysets discovery));
  unit ← ok_or "Missing 'unit' in keyset entry" (idx_str keyset_entry "unit");
  let input_fee_ppk := default 0 (idx_u64 keyset_entry "input_fee_ppk") in
  let final_expiry := json_get keyset_entry "final_expiry" in
  _ ← match final_expiry with
      | Some value => ensure (json_is_null value || bool_decide (is_Some (json_as_u64 value)))
                        "Invalid keyset final_expiry"
      | None => Ok tt
      end;
  entries ← ok_or "Invalid /v1/keys response: missing keysets" (json_get keys_resp "keysets" ≫= json_as_array);
  matching ← try_fold (match_keys_entry requested) None entries;
  matching ← ok_or "Requested keyset missing from keys response" matching;
  _ ← ensure (bool_decide (idx_str matching "unit" = Some unit)) "Keyset keys response unit mismatch";
  _ ← check_keys_field matching "input_fee_ppk" (json_num input_fee_ppk);
  _ ← check_keys_field matching "final_expiry" (default json_null final_expiry);
  keys ← ok_or "Invalid /v1/keys response: missing keys" (json_get matching "keys");
  let value := json_obj ([("keysetId", json_str keyset_id_str); ("unit", json_str unit);
                          ("keys", keys); ("inputFeePpk", json_num input_fee_ppk)]
                         ++ match final_expiry with Some e => [("finalExpiry", e)] | None => [] end) in
  let json_string := json_print value in
  keyset_info ← parse_keyset_info_from_json json_string;
  let computed_id := computed_keyset_id keyset_info in
  _ ← ensure (bool_decide (keyset_id keyset_info = computed_id))
        ("Keyset ID mismatch: claimed " +:+ id_to_string (keyset_id keyset_info) +:+ " but keys derive "
         +:+ id_to_string computed_id);
  Ok json_string.

(** The summary of one listed keyset, if it has the unit. *)
Definition token_input_keyset (unit : string) (keyset : Value) : Result string (option Value) :=
  if bool_decide (idx_str keyset "unit" ≠ Some unit) then Ok None
  else
    id ← ok_or "Missing 'id' in keyset entry" (idx_str keyset "id");
    Ok (Some (json_obj
      ([("id", json_str id); ("unit", json_str unit);
        ("active", json_bool (default false (idx_bool keyset "active")));
        ("input_fee_ppk", json_num (default 0 (idx_u64 keyset "input_fee_ppk")))]
       ++ match json_get keyset "final_expiry" with Some e => [("final_expiry", e)] | None => [] end))).
Definition token_input_keysets_from_response (keysets_json unit : string) : Result string string :=
  discovery ← discovery_from_json keyset_meta_from_value keysets_json;
  out ← try_map (token_input_keyset unit) (kd_keysets discovery);
  let out := omap id out in
  if bool_decide (out = []) then Err ("no keysets found for unit '" +:+ unit +:+ "'")
  else Ok (json_print (json_arr out)).

Definition keyset_summary_from_cache_entry (id : Id) (entry : ClientKeysetCacheEntry)
    (expected_unit : CurrencyUnit) : Result string Value :=
  if bool_decide (ck_unit entry ≠ expected_unit) then
    Err ("cached keyset " +:+ id_to_string id +:+ " unit mismatch: expected "
         +:+ unit_to_string expected_unit +:+ ", got " +:+ unit_to_string (ck_unit entry))
  else
    info ← parse_keyset_info_from_json (ck_info_json entry);
    if bool_decide (keyset_id info ≠ id) then
      Err ("cached keyset id mismatch: requested " +:+ id_to_string id +:+ ", cache entry has "
           +:+ id_to_string (keyset_id info))
    else if bool_decide (ki_unit info ≠ expected_unit) then
      Err ("cached keyset " +:+ id_to_string id +:+ " info unit mismatch: expected "
           +:+ unit_to_string expected_unit +:+ ", got " +:+ unit_to_string (ki_unit info))
    else
      Ok (json_obj
        ([("id", json_str (id_to_string id)); ("unit", json_str (unit_to_string expected_unit));
          ("active", json_bool (ck_active entry)); ("input_fee_ppk", json_num (input_fee_ppk info))]
         ++ match final_expiry info with Some e => [("final_expiry", json_num e)] | None => [] end)).
Definition input_keysets_from_cache_entries (entries : list (Id * ClientKeysetCacheEntry))
    (unit : CurrencyUnit) : Result string string :=
  summaries ← try_map (λ '(id, entry), keyset_summary_from_cache_entry id entry unit) entries;
  Ok (json_print (json_arr summaries)).
Definition proof_keyset_ids (input_proofs_json : string) : Result string (list Id) :=
  proofs ← map_err (λ e, "Failed to parse input proofs: " +:+ e) (proofs_from_json input_proofs_json);
  let ids := foldl (λ ids proof, if bool_decide (proof_keyset_id proof ∈ ids) then ids
                                 else ids ++ [proof_keyset_id proof]) [] proofs in
  if bool_decide (ids = []) then Err "input proofs are empty" else Ok ids.
End keysets.

(** ** The bridge *)

Class SpilmanClientNetworking (N : Type) := {
  call_mint_swap : string → string → M N MintRequestError string;
  call_mint_restore : string → string → M N MintRequestError string;
  call_mint_keysets : string → M N MintRequestError string;
  call_mint_keys : string → string → M N MintRequestError string;
}.

Section bridge.
Context {T : CashuTypes} {O : CashuOps} {W : OpeningOps}.
Context {H N : Type} {CH : SpilmanClientHost H} {NW : SpilmanClientNetworking N}.
Context (keyset_meta_from_value : Value → Result string (Id * CurrencyUnit * bool)).
Context (unix_time entropy : N → Z).
(** The bridge's own field. *)
Context (opening_commitment_mode : CommitmentMode).

Abbreviation Call := (M (H * N)).
Definition on_host {E A} (f : H → Result E A) : Call E A := asks (λ x, f x.1).
Definition change_host {E} (err : string → E) (f : H → Result string unit * H) : Call E unit :=
  λ x, let '(r, h) := f x.1 in (map_err err r, (h, x.2)).
Definition on_net {E A} (err : MintRequestError → E) (m : M N MintRequestError A) : Call E A :=
  λ x, let '(r, n) := m x.2 in (map_err err r, (x.1, n)).
Definition on_world {E A} (f : N → Result E A) : Call E A := asks (λ x, f x.2).

(** *** Keysets *)

Definition fetch_keyset_info (mint_url keyset_id : string) : Call string string :=
  supported ← lift (supported_keyset_id keyset_id);
  _ ← lift (ok_or "Unsupported keyset version requested" supported);
  keysets_json ← on_net MintRequestError_to_string (call_mint_keysets mint_url);
  keys_json ← on_net MintRequestError_to_string (call_mint_keys mint_url keyset_id);
  lift (build_keyset_info_from_responses keyset_meta_from_value keysets_json keys_json keyset_id).

(** One turn of the loop over the listing. *)
Definition refresh_one (mint_url keysets_json : string) (keyset : Value) : Call OpenChannelError unit :=
  id_str ← lift (ok_or (before_saved "Missing 'id' in keyset entry") (idx_str keyset "id"));
  id ← lift (map_err (λ e, before_saved ("Invalid keyset id: " +:+ e)) (id_from_str id_str));
  unit_str ← lift (ok_or (before_saved "Missing 'unit' in keyset entry") (idx_str keyset "unit"));
  unit ← lift (map_err (λ e, before_saved ("Invalid keyset unit: " +:+ e)) (unit_from_str unit_str));
  let active := default false (idx_bool keyset "active") in
  keys_json ← on_net (λ e, before_saved (MintRequestError_to_string e)) (call_mint_keys mint_url id_str);
  info_json ← lift (map_err before_saved
    (build_keyset_info_from_responses keyset_meta_from_value keysets_json keys_json id_str));
  change_host before_saved (λ h, ch_set_keyset h mint_url id (mk_ClientKeysetCacheEntry info_json active unit)).
Fixpoint refresh_loop (mint_url keysets_json : string) (keysets : list Value) : Call OpenChannelError unit :=
  match keysets with
  | [] => lift (Ok tt)
  | keyset :: keysets =>
      _ ← refresh_one mint_url keysets_json keyset;
      refresh_loop mint_url keysets_json keysets
  end.
(** The warning about skipped versions is a log line. *)
Definition refresh_keysets_inner (mint_url : string) : Call OpenChannelError KeysetDiscovery :=
  keysets_json ← on_net (λ e, before_saved (MintRequestError_to_string e)) (call_mint_keysets mint_url);
  discovery ← lift (map_err (λ e, before_saved ("Failed to parse /v1/keysets response: " +:+ e))
    (discovery_from_json keyset_meta_from_value keysets_json));
  _ ← refresh_loop mint_url keysets_json (kd_keysets discovery);
  lift (Ok discovery).
Definition refresh_keysets (mint_url : string) : Call OpenChannelError unit :=
  _ ← refresh_keysets_inner mint_url; lift (Ok tt).

Definition refresh_keysets_response (mint_url : string) : Call OpenChannelError KeysetDiscovery :=
  refresh_keysets_inner mint_url.

Definition cached_active_keyset_ids (h : H) (mint_url : string) (unit : CurrencyUnit) : list Id :=
  ch_active_keyset_ids h mint_url unit.
Definition cached_keysets_for_unit (h : H) (mint_url : string) (unit : CurrencyUnit) :
    list (Id * ClientKeysetCacheEntry) :=
  ch_list_keysets_for_unit h mint_url unit.
Definition cached_keyset_info (h : H) (mint_url : string) (id : Id) : option string :=
  ck_info_json <$> ch_get_keyset h mint_url id.

(** A cached keyset that may be used for outputs now. *)
Definition usable_output_keyset (h : H) (mint_url : string) (unit : CurrencyUnit) (id : Id) : bool :=
  match ch_get_keyset h mint_url id with
  | Some entry =>
      match parse_keyset_info_from_json (ck_info_json entry) with
      | Ok info => bool_decide (keyset_id info = id) && bool_decide (ki_unit info = unit)
                   && is_unexpired_at info (client_now h)
      | _ => false
      end
  | None => false
  end.
Definition usable_output_keyset_ids (h : H) (mint_url : string) (unit : CurrencyUnit)
    (allowed : KeysetVersions) : list Id :=
  filter (λ id, usable_output_keyset h mint_url unit id = true)
    (filter (λ id, allows allowed id = true) (ch_active_keyset_ids h mint_url unit)).
Definition ensure_keysets_cached_for_unit (mint_url : string) (u : CurrencyUnit)
    (allowed : KeysetVersions) : Call OpenChannelError unit :=
  ids ← reads (λ x, usable_output_keyset_ids x.1 mint_url u allowed);
  if bool_decide (ids = []) then refresh_keysets mint_url else lift (Ok tt).

Definition no_compatible_keyset (mint_url : string) (unit : CurrencyUnit) (allowed : KeysetVersions) :
    OpenChannelError :=
  before_saved ("mint " +:+ mint_url +:+ " has no compatible cached active keyset for unit "
                +:+ unit_to_string unit +:+ " with allowed versions "
                +:+ debug_versions (versions_to_vec allowed)).
Definition cached_output_keyset (h : H) (mint_url : string) (id : Id) :
    Result OpenChannelError SelectedOutputKeyset :=
  entry ← ok_or (before_saved ("active keyset " +:+ id_to_string id +:+ " was not cached"))
    (ch_get_keyset h mint_url id);
  Ok (mk_SelectedOutputKeyset (id_to_string id) (ck_info_json entry)).
Definition cached_active_output_keyset (mint_url : string) (unit : CurrencyUnit) (preferred : Id)
    (allowed : KeysetVersions) : Call OpenChannelError SelectedOutputKeyset :=
  on_host (λ h,
    let ids := usable_output_keyset_ids h mint_url unit allowed in
    id ← ok_or (no_compatible_keyset mint_url unit allowed)
      (or_else (List.find (λ id, bool_decide (id = preferred)) ids) (head ids));
    cached_output_keyset h mint_url id).
Definition first_cached_active_output_keyset (mint_url : string) (unit : CurrencyUnit)
    (allowed : KeysetVersions) : Call OpenChannelError SelectedOutputKeyset :=
  on_host (λ h,
    id ← ok_or (no_compatible_keyset mint_url unit allowed)
      (head (usable_output_keyset_ids h mint_url unit allowed));
    cached_output_keyset h mint_url id).
Definition fetch_active_output_keyset (mint_url : string) (unit : CurrencyUnit)
    (allowed : KeysetVersions) : Call OpenChannelError SelectedOutputKeyset :=
  discovery ← refresh_keysets_inner mint_url;
  id ← lift (map_err before_saved
    (select_active keyset_meta_from_value discovery (unit_to_string unit) allowed));
  cached_active_output_keyset mint_url unit id allowed.
Definition fetch_active_keyset_info (mint_url : string) (unit : CurrencyUnit)
    (allowed : KeysetVersions) : Call OpenChannelError string :=
  keyset ← fetch_active_output_keyset mint_url unit allowed; lift (Ok (sok_info_json keyset)).

Definition fetch_token_input_keysets (mint_url unit : string) : Call string string :=
  unit ← lift (map_err (λ e, "Invalid token unit: " +:+ e) (unit_from_str unit));
  cached ← reads (λ x, ch_list_keysets_for_unit x.1 mint_url unit);
  if bool_decide (cached ≠ []) then lift (input_keysets_from_cache_entries cached unit)
  else
    keysets_json ← on_net MintRequestError_to_string (call_mint_keysets mint_url);
    lift (token_input_keysets_from_response keyset_meta_from_value keysets_json (unit_to_string unit)).

(** The keysets of the proofs: the cached ones' summaries, and those that are missing. *)
Definition cached_summaries (h : H) (mint_url : string) (unit : CurrencyUnit) (acc : list Value * list Id)
    (id : Id) : Result string (list Value * list Id) :=
  match ch_get_keyset h mint_url id with
  | Some entry =>
      summary ← keyset_summary_from_cache_entry id entry unit;
      Ok (acc.1 ++ [summary], acc.2)
  | None => Ok (acc.1, acc.2 ++ [id])
  end.
Definition fetched_summary (fetched : list KeySetInfo) (missing_id : Id) : Result string Value :=
  keyset ← ok_or ("missing input keyset metadata for proof keyset " +:+ id_to_string missing_id)
    (List.find (λ k, bool_decide (ksi_id k = missing_id)) fetched);
  Ok (json_obj [("id", json_str (id_to_string (ksi_id keyset)));
                ("unit", json_str (unit_to_string (ksi_unit keyset)));
                ("active", json_bool (ksi_active keyset));
                ("input_fee_ppk", json_num (ksi_input_fee_ppk keyset));
                ("final_expiry", match ksi_final_expiry keyset with
                                 | Some e => json_num e | None => json_null end)]).
Definition fetch_proof_input_keysets (mint_url unit input_proofs_json : string) : Call string string :=
  expected_unit ← lift (map_err (λ e, "Invalid input proof unit: " +:+ e) (unit_from_str unit));
  ids ← lift (proof_keyset_ids input_proofs_json);
  '(summaries, missing) ← on_host (λ h, try_fold (cached_summaries h mint_url expected_unit) ([], []) ids);
  if bool_decide (missing = []) then lift (Ok (json_print (json_arr summaries)))
  else
    keysets_json ← on_net MintRequestError_to_string (call_mint_keysets mint_url);
    fetched_json ← lift (token_input_keysets_from_response keyset_meta_from_value keysets_json unit);
    fetched ← lift (map_err (λ e, "Failed to parse fetched input keysets: " +:+ e)
      (key_set_infos_from_json fetched_json));
    more ← lift (try_map (fetched_summary fetched) missing);
    lift (Ok (json_print (json_arr (summaries ++ more)))).

(** *** Preparing an opening *)

Definition compute_field {A} (o : option A) (name : string) : Result OpenChannelError A :=
  ok_or (before_saved ("Missing '" +:+ name +:+ "' in compute result")) o.
Definition swap_field (v : Value) (name : string) : Result OpenChannelError string :=
  ok_or (before_saved ("Missing '" +:+ name +:+ "' in swap result")) (idx_str v name).

(** [rnd] and [now] stand for the random bytes drawn and the host's clock. *)
Definition prepare_open (rnd now : Z)
    (compute_result channel_secret_hex keyset_info_json input_token sender_pubkey_hex : string) :
    Result OpenChannelError PreparedOpenChannel :=
  compute_json ← map_err (λ e, before_saved ("Failed to parse compute result: " +:+ e))
    (json_parse compute_result);
  capacity ← compute_field (idx_u64 compute_json "capacity") "capacity";
  funding_token_amount ← compute_field (idx_u64 compute_json "funding_token_amount") "funding_token_amount";
  mint_url ← compute_field (idx_str compute_json "mint_url") "mint_url";
  params_json ← compute_field (idx_str compute_json "params_json") "params_json";
  proofs_json ← compute_field (idx_str compute_json "proofs_json") "proofs_json";
  unit ← compute_field (idx_str compute_json "unit") "unit";
  output_keyset_id ← compute_field (idx_str compute_json "output_keyset_id") "output_keyset_id";
  let change_amount_raw := default 0 (idx_u64 compute_json "change_amount_raw") in
  receiver_pubkey_hex ← compute_field (idx_str compute_json "receiver_pubkey_hex") "receiver_pubkey_hex";
  swap_result ← map_err before_saved
    (create_funding_swap_with_plain_change rnd params_json channel_secret_hex keyset_info_json
       proofs_json change_amount_raw);
  swap_json ← map_err (λ e, before_saved ("Failed to parse swap result: " +:+ e)) (json_parse swap_result);
  swap_request_json ← swap_field swap_json "swap_request_json";
  funding_secrets_json ← swap_field swap_json "funding_secrets_json";
  change_secrets_json ← swap_field swap_json "change_secrets_json";
  channel_id ← map_err before_saved
    (channel_parameters_get_channel_id params_json channel_secret_hex keyset_info_json);
  let opening := mk_ClientChannelOpeningFromSwap params_json channel_secret_hex keyset_info_json
    sender_pubkey_hex receiver_pubkey_hex capacity funding_token_amount mint_url unit input_token
    change_secrets_json change_amount_raw now in
  Ok (mk_PreparedOpenChannel channel_id mint_url swap_request_json opening funding_secrets_json
        change_secrets_json output_keyset_id).
Definition prepare_open_channel_from_compute_result
    (compute_result channel_secret_hex keyset_info_json input_token sender_pubkey_hex : string) :
    Call OpenChannelError PreparedOpenChannel :=
  asks (λ x, prepare_open (entropy x.2) (client_now x.1) compute_result channel_secret_hex
               keyset_info_json input_token sender_pubkey_hex).

Definition prepare_open_channel_from_token (token_string receiver_pubkey_hex sender_pubkey_hex : string)
    (expiry_timestamp : Z) (keyset_info_json : string) (max_amount : Z) :
    Call OpenChannelError PreparedOpenChannel :=
  channel_secret_hex ← on_host (λ h, map_err before_saved
    (client_compute_channel_secret h sender_pubkey_hex receiver_pubkey_hex));
  compute_result ← on_world (λ n, map_err before_saved
    (compute_channel_from_token_with_mode (unix_time n) token_string receiver_pubkey_hex
       sender_pubkey_hex channel_secret_hex expiry_timestamp keyset_info_json max_amount None
       opening_commitment_mode));
  prepare_open_channel_from_compute_result compute_result channel_secret_hex keyset_info_json
    token_string sender_pubkey_hex.
Definition prepare_open_channel_from_proofs_with_input_keysets
    (mint_url unit input_proofs_json input_keysets_json receiver_pubkey_hex sender_pubkey_hex : string)
    (expiry_timestamp : Z) (output_keyset_info_json : string) (max_amount : Z)
    (requested_capacity requested_funding_token_amount : option Z) :
    Call OpenChannelError PreparedOpenChannel :=
  channel_secret_hex ← on_host (λ h, map_err before_saved
    (client_compute_channel_secret h sender_pubkey_hex receiver_pubkey_hex));
  compute_result ← on_world (λ n, map_err before_saved
    (compute_channel_from_proofs_with_mode (unix_time n) mint_url unit input_proofs_json
       input_keysets_json receiver_pubkey_hex sender_pubkey_hex channel_secret_hex expiry_timestamp
       output_keyset_info_json max_amount requested_capacity requested_funding_token_amount
       opening_commitment_mode));
  prepare_open_channel_from_compute_result compute_result channel_secret_hex output_keyset_info_json
    input_proofs_json sender_pubkey_hex.

(** *** Completing an opening *)

(** An error about the channel being opened. *)
Definition at_stage (stage : OpenChannelFailureStage) (channel_id message : string) : OpenChannelError :=
  open_error stage (Some channel_id) message.

Definition complete_prepared_open_channel (prepared : PreparedOpenChannel) (swap_response_json : string) :
    Result OpenChannelError CompletedOpenChannel :=
  let id := po_channel_id prepared in let opening := po_opening prepared in
  swap_request ← map_err (λ e, at_stage SwapSubmitted id ("Failed to parse prepared swap request: " +:+ e))
    (swap_request_from_json (po_swap_request_json prepared));
  complete_result ← map_err (at_stage SwapSubmitted id)
    (complete_funding_swap_for_outputs swap_response_json (po_funding_secrets_json prepared)
       (po_change_secrets_json prepared) (op_keyset_info_json opening) (sr_outputs swap_request));
  complete_json ← map_err (λ e, at_stage FundingProofsReceived id ("Failed to parse complete result: " +:+ e))
    (json_parse complete_result);
  funding_proofs_json ← ok_or (at_stage FundingProofsReceived id
      "Missing 'funding_proofs_json' in complete result") (idx_str complete_json "funding_proofs_json");
  let change_proofs_json := default "[]" (idx_str complete_json "change_proofs_json") in
  Ok (mk_CompletedOpenChannel id funding_proofs_json change_proofs_json
        (mk_OpenChannelResult id (op_capacity opening) (op_funding_token_amount opening)
           (po_mint_url prepared) (op_unit opening) (po_keyset_id prepared)
           (op_sender_pubkey_hex opening) (op_receiver_pubkey_hex opening) change_proofs_json)).

Definition funding_restore_request_for_prepared_open (prepared : PreparedOpenChannel) :
    Result OpenChannelError string :=
  map_err (at_stage FundingProofsReceived (po_channel_id prepared))
    (create_funding_restore_request (op_params_json (po_opening prepared))
       (op_channel_secret_hex (po_opening prepared)) (op_keyset_info_json (po_opening prepared))).

(** The funding proofs restored for an opening record. *)
Definition restored_funding_proofs (id : string) (opening : ClientChannelOpeningFromSwap)
    (restore_response : string) : Result OpenChannelError string :=
  restore_result ← map_err (at_stage RestoreVerification id)
    (complete_funding_restore restore_response (op_params_json opening) (op_channel_secret_hex opening)
       (op_keyset_info_json opening));
  restore_json ← map_err (λ e, at_stage RestoreVerification id ("Failed to parse restore result: " +:+ e))
    (json_parse restore_result);
  ok_or (at_stage RestoreVerification id "Missing 'funding_proofs_json' in restore result")
    (idx_str restore_json "funding_proofs_json").
Definition complete_funding_restore_for_prepared_open (prepared : PreparedOpenChannel)
    (restore_response : string) : Result OpenChannelError string :=
  restored_funding_proofs (po_channel_id prepared) (po_opening prepared) restore_response.
Definition verify_completed_open_matches_restore (completed : CompletedOpenChannel)
    (restored_funding_proofs_json : string) : Result OpenChannelError unit :=
  ensure (String.eqb (co_funding_proofs_json completed) restored_funding_proofs_json)
    (at_stage RestoreVerification (co_channel_id completed)
       "Restore verification failed: swap proofs differ from restored proofs").

Definition mark_prepared_open_saved (prepared : PreparedOpenChannel) : Call OpenChannelError unit :=
  change_host before_saved
    (λ h, save_opening_from_swap_channel h (po_channel_id prepared) (po_opening prepared)).

(** [Ok] and [Err] both carry an error: the one to report, or the one of marking. *)
Definition mark_prepared_open_rejected (prepared : PreparedOpenChannel) (evidence : MintRequestError) :
    Call OpenChannelError OpenChannelError :=
  let id := po_channel_id prepared in
  let message := MintRequestError_to_string evidence in
  if negb (permits_keyset_retry evidence)
  then lift (Err (with_mint_error (at_stage SwapSubmitted id message) evidence))
  else
    now ← reads (λ x, client_now x.1);
    _ ← change_host (λ mark_err, at_stage MarkOpen id
          ("mint rejected swap, but failed to mark opening failed: " +:+ mark_err +:+ "; mint error: " +:+ message))
        (λ h, mark_channel_opening_failed h id
                (mk_ClientOpeningFailure (stage_as_str MintRejected) message now));
    lift (Ok (with_mint_error (at_stage MintRejected id message) evidence)).

Definition mark_completed_open (completed : CompletedOpenChannel) : Call OpenChannelError unit :=
  change_host (at_stage MarkOpen (co_channel_id completed))
    (λ h, mark_channel_open h (co_channel_id completed) (co_funding_proofs_json completed)).

(** The error to report for a failed submission. *)
Definition open_network_error {A} (prepared : PreparedOpenChannel) (evidence : MintRequestError) :
    Call OpenChannelError A :=
  if permits_keyset_retry evidence then
    match_call (mark_prepared_open_rejected prepared evidence)
      (λ error, lift (Err (with_mint_error error evidence)))
      (λ error, lift (Err (with_mint_error error evidence)))
  else
    lift (Err (with_mint_error
      (at_stage SwapSubmitted (po_channel_id prepared) (MintRequestError_to_string evidence)) evidence)).

Definition require_fresh_open_submission (prepared : PreparedOpenChannel) : Call OpenChannelError unit :=
  existing ← on_host (λ h, map_err (at_stage SwapSubmitted (po_channel_id prepared))
    (get_channel_opening_from_swap h (po_channel_id prepared)));
  lift (ensure (bool_decide (existing = None)) (at_stage SwapSubmitted (po_channel_id prepared)
    "existing opening requires recovery, not a fresh submission")).

(** What follows a swap that the mint answered. *)
Definition complete_submitted_open (prepared : PreparedOpenChannel) (swap_response_json : string) :
    Call OpenChannelError OpenChannelResult :=
  completed ← lift (complete_prepared_open_channel prepared swap_response_json);
  restore_request ← lift (funding_restore_request_for_prepared_open prepared);
  restore_response ← on_net (network_error RestoreVerification (Some (po_channel_id prepared)))
    (call_mint_restore (po_mint_url prepared) restore_request);
  restored_proofs_json ← lift (complete_funding_restore_for_prepared_open prepared restore_response);
  _ ← lift (verify_completed_open_matches_restore completed restored_proofs_json);
  _ ← mark_completed_open completed;
  lift (Ok (co_result completed)).
Definition submit_prepared_open_with_network (prepared : PreparedOpenChannel) :
    Call OpenChannelError OpenChannelResult :=
  _ ← require_fresh_open_submission prepared;
  _ ← mark_prepared_open_saved prepared;
  match_call (on_net id (call_mint_swap (po_mint_url prepared) (po_swap_request_json prepared)))
    (complete_submitted_open prepared)
    (open_network_error prepared).
Definition open_channel_from_compute_result
    (compute_result channel_secret_hex keyset_info_json input_token sender_pubkey_hex : string) :
    Call OpenChannelError OpenChannelResult :=
  prepared ← prepare_open_channel_from_compute_result compute_result channel_secret_hex keyset_info_json
    input_token sender_pubkey_hex;
  submit_prepared_open_with_network prepared.

(** *** Opening *)

Definition open_channel_from_token (token_string receiver_pubkey_hex sender_pubkey_hex : string)
    (expiry_timestamp : Z) (keyset_info_json : string) (max_amount : Z) :
    Call OpenChannelError OpenChannelResult :=
  prepared ← prepare_open_channel_from_token token_string receiver_pubkey_hex sender_pubkey_hex
    expiry_timestamp keyset_info_json max_amount;
  submit_prepared_open_with_network prepared.
(** The asynchronous version, over a network of its own. *)
Definition open_channel_from_token_async (AN : SpilmanClientNetworking N)
    (token_string receiver_pubkey_hex sender_pubkey_hex : string) (expiry_timestamp : Z)
    (keyset_info_json : string) (max_amount : Z) : Call OpenChannelError OpenChannelResult :=
  prepared ← prepare_open_channel_from_token token_string receiver_pubkey_hex sender_pubkey_hex
    expiry_timestamp keyset_info_json max_amount;
  _ ← require_fresh_open_submission prepared;
  _ ← mark_prepared_open_saved prepared;
  match_call (on_net id (@call_mint_swap N AN (po_mint_url prepared) (po_swap_request_json prepared)))
    (λ swap_response_json,
      completed ← lift (complete_prepared_open_channel prepared swap_response_json);
      restore_request ← lift (funding_restore_request_for_prepared_open prepared);
      restore_response ← on_net (network_error RestoreVerification (Some (po_channel_id prepared)))
        (@call_mint_restore N AN (po_mint_url prepared) restore_request);
      restored_proofs_json ← lift (complete_funding_restore_for_prepared_open prepared restore_response);
      _ ← lift (verify_completed_open_matches_restore completed restored_proofs_json);
      _ ← mark_completed_open completed;
      lift (Ok (co_result completed)))
    (open_network_error prepared).
Definition open_channel_from_token_with_input_keysets
    (token_string receiver_pubkey_hex sender_pubkey_hex : string) (expiry_timestamp : Z)
    (keyset_info_json input_keysets_json : string) (max_amount : Z) :
    Call OpenChannelError OpenChannelResult :=
  channel_secret_hex ← on_host (λ h, map_err before_saved
    (client_compute_channel_secret h sender_pubkey_hex receiver_pubkey_hex));
  compute_result ← on_world (λ n, map_err before_saved
    (compute_channel_from_token_with_input_keysets_and_mode (unix_time n) token_string
       receiver_pubkey_hex sender_pubkey_hex channel_secret_hex expiry_timestamp keyset_info_json
       input_keysets_json max_amount None opening_commitment_mode));
  open_channel_from_compute_result compute_result channel_secret_hex keyset_info_json token_string
    sender_pubkey_hex.

Definition token_unit_of (token_string : string) : Result OpenChannelError CurrencyUnit :=
  token ← map_err (λ e, before_saved ("Failed to parse token: " +:+ e)) (token_from_str token_string);
  Ok (default unit_Sat (Funding.token_unit token)).
Definition open_channel_from_token_with_keyset_id
    (token_string receiver_pubkey_hex sender_pubkey_hex : string) (expiry_timestamp : Z)
    (mint_url keyset_id : string) (max_amount : Z) : Call OpenChannelError OpenChannelResult :=
  keyset_info ← mmap_err before_saved (fetch_keyset_info mint_url keyset_id);
  unit ← lift (token_unit_of token_string);
  input_keysets ← mmap_err before_saved (fetch_token_input_keysets mint_url (unit_to_string unit));
  open_channel_from_token_with_input_keysets token_string receiver_pubkey_hex sender_pubkey_hex
    expiry_timestamp keyset_info input_keysets max_amount.

Definition prepare_token_auto_attempt (mint_url token_string : string)
    (output_keyset : SelectedOutputKeyset) : Call OpenChannelError TokenAutoAttempt :=
  unit ← lift (token_unit_of token_string);
  input_keysets ← mmap_err before_saved (fetch_token_input_keysets mint_url (unit_to_string unit));
  lift (Ok (mk_TokenAutoAttempt output_keyset input_keysets)).

(** The retry of an automatic opening: the last two closures are the same for tokens and
    proofs. *)
Definition retry_decision (error : OpenChannelError) (x : H * N) : (H * N) * bool :=
  (x, is_retryable_keyset_rejection error).
Definition unwrap_retry {A}
    (m : Call (KeysetRetryError A OpenChannelError OpenChannelError)
           (KeysetRetrySuccess A OpenChannelResult)) : Call OpenChannelError OpenChannelResult :=
  λ x, let '(r, y) := m x in (unwrap_open_channel_retry_result r, y).
Definition open_channel_from_token_auto (token_string receiver_pubkey_hex sender_pubkey_hex : string)
    (expiry_timestamp : Z) (mint_url : string) (max_amount : Z) (allowed : KeysetVersions) :
    Call OpenChannelError OpenChannelResult :=
  unit ← lift (token_unit_of token_string);
  _ ← ensure_keysets_cached_for_unit mint_url unit allowed;
  unwrap_retry (with_active_keyset_retry sok_id
    (first_cached_active_output_keyset mint_url unit allowed)
    (prepare_token_auto_attempt mint_url token_string)
    (λ attempt, open_channel_from_token_with_input_keysets token_string receiver_pubkey_hex
       sender_pubkey_hex expiry_timestamp (sok_info_json (ta_output_keyset attempt))
       (ta_input_keysets attempt) max_amount)
    retry_decision (refresh_keysets mint_url) (λ _ _, lift (Ok tt))).

Definition open_channel_from_proofs_with_funding_amount
    (mint_url unit input_proofs_json receiver_pubkey_hex sender_pubkey_hex : string)
    (expiry_timestamp : Z) (output_keyset_info_json : string) (max_amount : Z)
    (requested_capacity requested_funding_token_amount : option Z) :
    Call OpenChannelError OpenChannelResult :=
  input_keysets ← mmap_err before_saved (fetch_proof_input_keysets mint_url unit input_proofs_json);
  prepared ← prepare_open_channel_from_proofs_with_input_keysets mint_url unit input_proofs_json
    input_keysets receiver_pubkey_hex sender_pubkey_hex expiry_timestamp output_keyset_info_json
    max_amount requested_capacity requested_funding_token_amount;
  submit_prepared_open_with_network prepared.
Definition open_channel_from_proofs
    (mint_url unit input_proofs_json receiver_pubkey_hex sender_pubkey_hex : string)
    (expiry_timestamp : Z) (output_keyset_info_json : string) (max_amount : Z)
    (requested_capacity : option Z) : Call OpenChannelError OpenChannelResult :=
  open_channel_from_proofs_with_funding_amount mint_url unit input_proofs_json receiver_pubkey_hex
    sender_pubkey_hex expiry_timestamp output_keyset_info_json max_amount requested_capacity None.
Definition open_channel_from_proofs_with_keyset_id
    (mint_url unit input_proofs_json receiver_pubkey_hex sender_pubkey_hex : string)
    (expiry_timestamp : Z) (output_keyset_id : string) (max_amount : Z)
    (requested_capacity : option Z) : Call OpenChannelError OpenChannelResult :=
  keyset_info ← mmap_err before_saved (fetch_keyset_info mint_url output_keyset_id);
  open_channel_from_proofs mint_url unit input_proofs_json receiver_pubkey_hex sender_pubkey_hex
    expiry_timestamp keyset_info max_amount requested_capacity.
Definition open_channel_from_proofs_auto
    (mint_url unit input_proofs_json receiver_pubkey_hex sender_pubkey_hex : string)
    (expiry_timestamp max_amount : Z) (allowed : KeysetVersions) :
    Call OpenChannelError OpenChannelResult :=
  let parsed_unit := match unit_from_str unit with Ok u => u | _ => unit_custom unit end in
  _ ← ensure_keysets_cached_for_unit mint_url parsed_unit allowed;
  unwrap_retry (with_active_keyset_retry sok_id
    (first_cached_active_output_keyset mint_url parsed_unit allowed)
    (λ output_keyset, lift (Ok output_keyset))
    (λ output_keyset, open_channel_from_proofs mint_url unit input_proofs_json receiver_pubkey_hex
       sender_pubkey_hex expiry_timestamp (sok_info_json output_keyset) max_amount None)
    retry_decision (refresh_keysets mint_url) (λ _ _, lift (Ok tt))).

(** *** Recovery *)

Definition opening_or_error {E} (err : string → E) (channel_id : string) :
    Call E ClientChannelOpeningFromSwap :=
  opening ← on_host (λ h, map_err err (get_channel_opening_from_swap h channel_id));
  lift (ok_or (err ("Channel not found in OpeningFromSwap state: " +:+ channel_id)) opening).

Definition restore_funding_proofs (channel_id : string) : Call string string :=
  opening ← opening_or_error id channel_id;
  restore_request ← lift (create_funding_restore_request (op_params_json opening)
    (op_channel_secret_hex opening) (op_keyset_info_json opening));
  restore_response ← on_net MintRequestError_to_string
    (call_mint_restore (op_mint_url opening) restore_request);
  result ← lift (complete_funding_restore restore_response (op_params_json opening)
    (op_channel_secret_hex opening) (op_keyset_info_json opening));
  result_json ← lift (map_err (λ e, "Failed to parse restore result: " +:+ e) (json_parse result));
  lift (ok_or "Missing 'funding_proofs_json' in restore result" (idx_str result_json "funding_proofs_json")).
Definition restore_change_proofs (channel_id : string) : Call string string :=
  opening ← opening_or_error id channel_id;
  if op_change_amount_raw opening =? 0 then lift (Ok "[]")
  else
    restore_request ← lift (create_plain_change_restore_request (op_change_secrets_json opening)
      (op_keyset_info_json opening));
    restore_response ← on_net MintRequestError_to_string
      (call_mint_restore (op_mint_url opening) restore_request);
    result ← lift (complete_plain_change_restore restore_response (op_change_secrets_json opening)
      (op_keyset_info_json opening));
    result_json ← lift (map_err (λ e, "Failed to parse change restore result: " +:+ e) (json_parse result));
    lift (ok_or "Missing 'change_proofs_json' in change restore result"
            (idx_str result_json "change_proofs_json")).

Definition prepare_open_channel_recovery (channel_id : string) : Call OpenChannelError PreparedOpenRecovery :=
  let err := at_stage BeforeOpeningSaved channel_id in
  opening ← opening_or_error err channel_id;
  funding_restore_request_json ← lift (map_err err
    (create_funding_restore_request (op_params_json opening) (op_channel_secret_hex opening)
       (op_keyset_info_json opening)));
  change_restore_request_json ← lift
    (if op_change_amount_raw opening =? 0 then Ok None
     else Some <$> map_err err (create_plain_change_restore_request (op_change_secrets_json opening)
                                  (op_keyset_info_json opening)));
  lift (Ok (mk_PreparedOpenRecovery channel_id (op_mint_url opening) funding_restore_request_json
              change_restore_request_json opening)).

Definition restored_change_proofs (id : string) (opening : ClientChannelOpeningFromSwap)
    (response : string) : Result OpenChannelError string :=
  change_restore_result ← map_err (at_stage RestoreVerification id)
    (complete_plain_change_restore response (op_change_secrets_json opening) (op_keyset_info_json opening));
  change_restore_json ← map_err
    (λ e, at_stage RestoreVerification id ("Failed to parse change restore result: " +:+ e))
    (json_parse change_restore_result);
  ok_or (at_stage RestoreVerification id "Missing 'change_proofs_json' in change restore result")
    (idx_str change_restore_json "change_proofs_json").
Definition complete_prepared_open_recovery (prepared : PreparedOpenRecovery)
    (funding_restore_response : string) (change_restore_response : option string) :
    Result OpenChannelError CompletedOpenRecovery :=
  let id := pr_channel_id prepared in let opening := pr_opening prepared in
  funding_proofs_json ← restored_funding_proofs id opening funding_restore_response;
  change_proofs_json ←
    match pr_change_restore_request_json prepared, change_restore_response with
    | None, None => Ok "[]"
    | Some _, Some response => restored_change_proofs id opening response
    | Some _, None => Err (at_stage RestoreVerification id "Missing change restore response")
    | None, Some _ => Err (at_stage RestoreVerification id "Unexpected change restore response")
    end;
  keyset_info ← map_err (λ e, at_stage RestoreVerification id ("Failed to parse stored keyset info: " +:+ e))
    (parse_keyset_info_from_json (op_keyset_info_json opening));
  Ok (mk_CompletedOpenRecovery id funding_proofs_json change_proofs_json
        (mk_OpenChannelResult id (op_capacity opening) (op_funding_token_amount opening)
           (op_mint_url opening) (op_unit opening) (id_to_string (keyset_id keyset_info))
           (op_sender_pubkey_hex opening) (op_receiver_pubkey_hex opening) change_proofs_json)).
Definition mark_completed_open_recovery (completed : CompletedOpenRecovery) : Call OpenChannelError unit :=
  change_host (at_stage MarkOpen (cr_channel_id completed))
    (λ h, mark_channel_open h (cr_channel_id completed) (cr_funding_proofs_json completed)).
Definition recover_open_channel_from_swap (channel_id : string) : Call OpenChannelError OpenChannelResult :=
  prepared ← prepare_open_channel_recovery channel_id;
  funding_restore_response ← on_net (network_error RestoreVerification (Some channel_id))
    (call_mint_restore (pr_mint_url prepared) (pr_funding_restore_request_json prepared));
  change_restore_response ←
    match pr_change_restore_request_json prepared with
    | Some request =>
        response ← on_net (network_error RestoreVerification (Some channel_id))
          (call_mint_restore (pr_mint_url prepared) request);
        lift (Ok (Some response))
    | None => lift (Ok None)
    end;
  completed ← lift (complete_prepared_open_recovery prepared funding_restore_response
    change_restore_response);
  _ ← mark_completed_open_recovery completed;
  lift (Ok (cr_result completed)).

(** The asynchronous versions, over a network of their own. *)
Definition restore_funding_proofs_async (AN : SpilmanClientNetworking N) (channel_id : string) :
    Call string string :=
  opening ← opening_or_error id channel_id;
  restore_request ← lift (create_funding_restore_request (op_params_json opening)
    (op_channel_secret_hex opening) (op_keyset_info_json opening));
  restore_response ← on_net MintRequestError_to_string
    (@call_mint_restore N AN (op_mint_url opening) restore_request);
  result ← lift (complete_funding_restore restore_response (op_params_json opening)
    (op_channel_secret_hex opening) (op_keyset_info_json opening));
  result_json ← lift (map_err (λ e, "Failed to parse restore result: " +:+ e) (json_parse result));
  lift (ok_or "Missing 'funding_proofs_json' in restore result" (idx_str result_json "funding_proofs_json")).
Definition restore_change_proofs_async (AN : SpilmanClientNetworking N) (channel_id : string) :
    Call string string :=
  opening ← opening_or_error id channel_id;
  if op_change_amount_raw opening =? 0 then lift (Ok "[]")
  else
    restore_request ← lift (create_plain_change_restore_request (op_change_secrets_json opening)
      (op_keyset_info_json opening));
    restore_response ← on_net MintRequestError_to_string
      (@call_mint_restore N AN (op_mint_url opening) restore_request);
    result ← lift (complete_plain_change_restore restore_response (op_change_secrets_json opening)
      (op_keyset_info_json opening));
    result_json ← lift (map_err (λ e, "Failed to parse change restore result: " +:+ e) (json_parse result));
    lift (ok_or "Missing 'change_proofs_json' in change restore result"
            (idx_str result_json "change_proofs_json")).

(** *** Payments *)

Definition client_create_unsigned_balance_update (channel_id : string) (balance : Z)
    (funding : ClientChannelFunding) : Result string UnsignedBalanceUpdate :=
  UnsignedBalanceUpdate_new channel_id balance (cf_params_json funding) (cf_keyset_info_json funding)
    (cf_channel_secret_hex funding) (cf_funding_proofs_json funding).
Definition client_sign_balance_update (unsigned : UnsignedBalanceUpdate) (sender_pubkey_hex : string) :
    Call string BalanceUpdateMessage :=
  signature_hex ← on_host (λ h, client_sign_with_tweaked_key h sender_pubkey_hex
    (ub_message_hex unsigned) (ub_tweak_scalar_hex unsigned));
  lift (UnsignedBalanceUpdate_sign unsigned signature_hex).

Definition sign_payment_internal (channel_id : string) (balance : Z) (include_funding : bool) :
    Call string Payment :=
  funding ← on_host (λ h, ok_or ("Channel not found: " +:+ channel_id) (get_channel_funding h channel_id));
  state ← on_host (λ h, ok_or ("Channel not found: " +:+ channel_id) (client_channel_state h channel_id));
  _ ← lift (ensure (is_payable state) ("Channel is not usable for payments: " +:+ channel_id +:+ " ("
                                       +:+ state_to_string state +:+ ")"));
  _ ← lift (ensure (balance <=? cf_capacity funding)
              ("Balance " +:+ pretty balance +:+ " exceeds channel capacity " +:+ pretty (cf_capacity funding)));
  unsigned ← lift (UnsignedBalanceUpdate_new channel_id balance (cf_params_json funding)
    (cf_keyset_info_json funding) (cf_channel_secret_hex funding) (cf_funding_proofs_json funding));
  balance_update ← client_sign_balance_update unsigned (cf_sender_pubkey_hex funding);
  let signature := signature_to_string (bu_signature balance_update) in
  if include_funding then
    params ← lift (map_err (λ e, "Failed to parse params: " +:+ e) (json_parse (cf_params_json funding)));
    funding_proofs ← lift (map_err (λ e, "Failed to parse funding proofs: " +:+ e)
      (proofs_from_json (cf_funding_proofs_json funding)));
    lift (Ok (with_funding channel_id balance signature params funding_proofs))
  else lift (Ok (Payment_new channel_id balance signature)).
Definition sign_payment (channel_id : string) (balance : Z) : Call string Payment :=
  sign_payment_internal channel_id balance false.
Definition sign_channel_registration (channel_id : string) : Call string Payment :=
  sign_payment_internal channel_id 0 true.
(** [unwrap_or(0) + 1] on [u64]. *)
Definition record_signed_payment (payment : Payment) : Call string unit :=
  previous ← reads (λ x, ch_get_payment_state x.1 (pay_channel_id payment));
  now ← reads (λ x, client_now x.1);
  let payment_count := wrap64 (default 0 (ps_payment_count <$> previous) + 1) in
  change_host id (λ h, client_record_payment h (pay_channel_id payment)
    (mk_ClientPaymentState (pay_balance payment) (pay_signature payment) payment_count now)).
Definition sign_and_record_payment (channel_id : string) (balance : Z) : Call string Payment :=
  payment ← sign_payment channel_id balance;
  _ ← record_signed_payment payment;
  lift (Ok payment).
(** [payment_to_json] is the derived serializer of [Payment]. *)
Definition sign_payment_header (payment_to_json : Payment → Result string string)
    (channel_id : string) (balance : Z) (include_funding : bool) : Call string string :=
  payment ← sign_payment_internal channel_id balance include_funding;
  header_json ← lift (map_err (λ e, "Failed to serialize: " +:+ e) (payment_to_json payment));
  lift (Ok (base64_encode header_json)).

(** *** Channels *)

Definition get_channel_info (h : H) (channel_id : string) : option ClientChannelInfo :=
  funding ← get_channel_funding h channel_id;
  let payment_state := ch_get_payment_state h channel_id in
  let current_balance := default 0 (ps_balance <$> payment_state) in
  let payment_count := default 0 (ps_payment_count <$> payment_state) in
  state ← client_channel_state h channel_id;
  Some (mk_ClientChannelInfo channel_id (cf_capacity funding) (cf_funding_token_amount funding)
          (cf_mint_url funding) current_balance payment_count state).
Definition list_channels (h : H) : list string := ch_list_channel_ids h.
Definition close_channel (channel_id : string) : Call string unit :=
  change_host id (λ h, client_mark_closed h channel_id).
Definition mark_channel_unusable (channel_id : string) : Call string unit :=
  change_host id (λ h, client_mark_closing h channel_id).
Definition client_delete_channel (channel_id : string) : Call string unit :=
  change_host id (λ h, delete_channel h channel_id).
Definition sign_cooperative_close_request (channel_id : string) (final_balance : Z) : Call string Payment :=
  sign_payment channel_id final_balance.
Definition process_cooperative_close_response (response_json : string) : Call string unit :=
  response ← lift (map_err (λ e, "Failed to parse close response: " +:+ e) (json_parse response_json));
  channel_id ← lift (ok_or "Missing 'channel_id' in close response" (idx_str response "channel_id"));
  change_host id (λ h, client_mark_closed h channel_id).
End bridge.
