(* ===== verification/ClientProofs.v ===== *)
(** * The sender's bridge: theorems

    [ClientHostSpec] is what the bridge relies on from its host; [ConfigurableClientHost]
    provides it over every storage that meets [ClientStorageSpec]. Against it:

    - an opening that fails without [input_may_be_spent] has sent nothing to the mint that
      could spend the inputs, and any other opening is on record, so that it can be
      recovered; channels that exist are never touched;
    - a channel that opens (or is recovered) holds funding proofs that the receiver's
      verification accepts;
    - recovery gives the proofs the swap would have given;
    - payments signed by the client verify at the receiver. *)

From S2P Require Import Prelude Cashu Toy Amounts Params SwapCompletion Deterministic Channel Mint Storage StorageSpec Host Bridge ClientStorage ClientStorageSpec Funding Bindings FundingProofs ClientHost Client.

(** ** The host's contract *)

Definition host_exec {T : CashuTypes} {H} `{!SpilmanClientHost H} (h : H) (c : string) (cmd : ClientCommand) :
    Result string unit * H :=
  match cmd with
  | SaveOpening o => save_opening_from_swap_channel h c o
  | SetOpen proofs => mark_channel_open h c proofs
  | SetOpeningFailed fl => mark_channel_opening_failed h c fl
  | SavePayment st => client_record_payment h c st
  | SetClosed => client_mark_closed h c
  | SetClosing => client_mark_closing h c
  | Delete => delete_channel h c
  end.

Class ClientHostSpec {T : CashuTypes} {O : CashuOps} {W : OpeningOps} (H : Type) `{!SpilmanClientHost H} := {
  chost_wf : H → Prop;
  chost_channel : H → string → option ClientChannel;
  chost_key : H → string → option SecretKey;
  chost_exec_spec h c cmd :
    chost_wf h → client_in_domain cmd (chost_channel h c) →
    let r := host_exec h c cmd in
    chost_wf r.2 ∧ (∀ pk, chost_key r.2 pk = chost_key h pk) ∧
    match client_step cmd (chost_channel h c) with
    | Some ch => r.1 = Ok tt ∧ chost_channel r.2 c = ch
    | None => (∃ e, r.1 = Err e) ∧ chost_channel r.2 c = chost_channel h c
    end ∧ ∀ d, d ≠ c → chost_channel r.2 d = chost_channel h d;
  chost_opening h c : chost_wf h →
    get_channel_opening_from_swap h c = Ok (vw_opening (shows (chost_channel h c)));
  chost_funding h c : chost_wf h → get_channel_funding h c = vw_funding (shows (chost_channel h c));
  chost_state h c : chost_wf h → client_channel_state h c = vw_state (shows (chost_channel h c));
  chost_payment h c : chost_wf h → ch_get_payment_state h c = vw_payment (shows (chost_channel h c));
  chost_keyset h m i e : chost_wf h →
    let r := ch_set_keyset h m i e in
    chost_wf r.2 ∧ ∀ c, chost_channel r.2 c = chost_channel h c;
  chost_sign h pk secret m t s : chost_wf h → chost_key h pk = Some secret →
    client_sign_with_tweaked_key h pk m t = Ok s →
    ∃ aux, sign_with_tweaked_key_util aux (secret_to_hex secret) m t = Ok s;
  chost_no_key h pk m t : chost_wf h → chost_key h pk = None →
    is_ok (client_sign_with_tweaked_key h pk m t) = false;
  (** keys are stored under their own public keys *)
  chost_key_ok h pk secret : chost_wf h → chost_key h pk = Some secret → pubkey_to_hex (public_key secret) = pk;
}.

Section configurable.
Context {T : CashuTypes} {O : CashuOps} {W : OpeningOps} {S : Type} {CS : ClientStorage S} {SS : ClientStorageSpec S}.
Implicit Types h : ConfigurableClientHost S.

Definition cch_wf h : Prop :=
  cst_wf (client_store h) ∧ map_Forall (λ pk secret, pubkey_to_hex (public_key secret) = pk) (client_keys h).

Lemma host_exec_store h c cmd : host_exec h c cmd = with_store h (client_exec (client_store h) c cmd).
Proof. by destruct cmd. Qed.

#[global] Program Instance configurable_client_spec : ClientHostSpec (ConfigurableClientHost S) := {|
  chost_wf := cch_wf;
  chost_channel h c := cst_channel (client_store h) c;
  chost_key h pk := client_keys h !! pk;
|}.
Next Obligation.
  intros h c cmd [Hwf Hk] Hdom. cbv zeta. rewrite host_exec_store.
  destruct (client_exec_spec _ c cmd Hwf Hdom) as (Hwf' & Hst & Hd & _).
  split_and!; [by split|done| |done]. by destruct (client_step cmd _).
Qed.
Next Obligation. intros h c [Hwf _]. by apply get_opening_ok. Qed.
Next Obligation. intros h c [Hwf _]. exact (f_equal vw_funding (client_view_spec _ c Hwf)). Qed.
Next Obligation. intros h c [Hwf _]. exact (f_equal vw_state (client_view_spec _ c Hwf)). Qed.
Next Obligation. intros h c [Hwf _]. exact (f_equal vw_payment (client_view_spec _ c Hwf)). Qed.
Next Obligation.
  intros h m i e [Hwf Hk]. destruct (client_set_keyset_spec _ m i e Hwf) as (Hr & Hwf' & Hc & _). done.
Qed.
Next Obligation.
  intros h pk secret m t s _ Hk. cbn. unfold cch_sign_with_tweaked_key, get_secret. rewrite Hk. cbn. eauto.
Qed.
Next Obligation.
  intros h pk m t _ Hk. cbn. unfold cch_sign_with_tweaked_key, get_secret. by rewrite Hk.
Qed.
Next Obligation. intros h pk secret [_ Hk] Hpk. exact (Hk _ _ Hpk). Qed.

(** New hosts are well formed, and stay so when keys are added or removed. *)
Lemma ClientHost_new_wf st time aux : cst_wf st → cch_wf (ClientHost_new st time aux).
Proof. intros. split; [done|]. apply map_Forall_empty. Qed.
Lemma add_key_wf h secret : cch_wf h → cch_wf (add_key h secret).
Proof. intros [Hwf Hk]. split; [done|]. by apply map_Forall_insert_2. Qed.
Lemma remove_key_wf h pk : cch_wf h → cch_wf (remove_key h pk).2.
Proof. intros [Hwf Hk]. split; [done|]. by apply map_Forall_delete. Qed.
End configurable.

(** ** Calls that cannot spend the inputs *)

Section opening.
Context {T : CashuTypes} {O : CashuOps} {W : OpeningOps}.
Context {H N : Type} {CH : SpilmanClientHost H} {NW : SpilmanClientNetworking N} {HH : ClientHostSpec H}.
Context (keyset_meta_from_value : Value → Result string (Id * CurrencyUnit * bool)).
Context (unix_time entropy : N → Z) (opening_commitment_mode : CommitmentMode).
Implicit Types (x y : H * N) (h : H) (n : N) (prepared : PreparedOpenChannel).
Abbreviation Call := (M (H * N)).

(** A request that leaves the inputs unspent: a query, a restore, or a swap that the mint
    definitely rejected. *)
Inductive mint_step : N → N → Prop :=
| step_keysets url n : mint_step n (call_mint_keysets url n).2
| step_keys url id n : mint_step n (call_mint_keys url id n).2
| step_restore url request n : mint_step n (call_mint_restore url request n).2
| step_rejected url request n e n' :
    call_mint_swap url request n = (Err e, n') → permits_keyset_retry e = true → mint_step n n'.
Definition harmless : N → N → Prop := rtc mint_step.

(** A channel that is being opened or is funded; the rest of the channels may be opened. *)
Definition live (ch : option ClientChannel) : bool :=
  match ch with
  | None | Some (Opening _ (Some _) _) => false
  | Some (Opening _ None _) | Some (Funded _ _ _) => true
  end.
Definition keeps h h' : Prop := ∀ c, live (chost_channel h c) = true → chost_channel h' c = chost_channel h c.
#[global] Instance keeps_preorder : PreOrder keeps.
Proof.
  split; [by intros h c|]. intros h1 h2 h3 H1 H2 c Hc. rewrite <-(H1 c Hc). apply H2. by rewrite (H1 c Hc).
Qed.
#[global] Instance harmless_preorder : PreOrder harmless.
Proof. unfold harmless. apply _. Qed.

(** Calls that only query the mints and cache keysets. *)
Definition quiet {E A} (m : Call E A) : Prop :=
  ∀ x, chost_wf x.1 →
    chost_wf (m x).2.1 ∧ harmless x.2 (m x).2.2 ∧ ∀ c, chost_channel (m x).2.1 c = chost_channel x.1 c.
Lemma quiet_pure {E A} (m : Call E A) : (∀ x, (m x).2 = x) → quiet m.
Proof. intros Hm x Hwf. by rewrite Hm. Qed.
Lemma quiet_lift {E A} (r : Result E A) : quiet (lift r).
Proof. by apply quiet_pure. Qed.
Lemma quiet_reads {E A} (f : H * N → A) : quiet (reads f : Call E A).
Proof. by apply quiet_pure. Qed.
Lemma quiet_asks {E A} (f : H * N → Result E A) : quiet (asks f).
Proof. by apply quiet_pure. Qed.
Lemma quiet_bind {E A B} (m : Call E A) (f : A → Call E B) : quiet m → (∀ a, quiet (f a)) → quiet (m ≫= f).
Proof.
  intros Hm Hf x Hwf. destruct (Hm x Hwf) as (Hwf1 & Hn1 & Hc1). unfold mbind, M_bind.
  destruct (m x) as [[a|e|] x1]; cbn [snd] in *; [|done..].
  destruct (Hf a x1 Hwf1) as (Hwf2 & Hn2 & Hc2). split_and!; [done|by etrans|]. intros c. by rewrite Hc2.
Qed.
Lemma quiet_mmap_err {E F A} (f : E → F) (m : Call E A) : quiet m → quiet (mmap_err f m).
Proof. intros Hm x Hwf. apply (Hm x Hwf). Qed.
Lemma quiet_net {E A} (err : MintRequestError → E) (m : M N MintRequestError A) :
  (∀ n, mint_step n (m n).2) → quiet (on_net err m : Call E A).
Proof.
  intros Hm [h n] Hwf. unfold on_net. cbn [snd fst]. specialize (Hm n).
  destruct (m n) as [r n']; cbn [snd fst] in *. split_and!; [done|by apply rtc_once|done].
Qed.
Lemma quiet_set_keyset {E} (err : string → E) mint_url id entry :
  quiet (change_host err (λ h, ch_set_keyset h mint_url id entry) : Call E unit).
Proof.
  intros [h n] Hwf. cbn [fst] in Hwf. destruct (chost_keyset h mint_url id entry Hwf) as (Hwf' & Hc).
  unfold change_host. cbn [fst snd]. destruct (ch_set_keyset h mint_url id entry) as [r h'].
  cbn [fst snd] in *. split_and!; [done|reflexivity|done].
Qed.
Lemma quiet_if {E A} (b : bool) (m1 m2 : Call E A) : quiet m1 → quiet m2 → quiet (if b then m1 else m2).
Proof. by destruct b. Qed.
End opening.

Create HintDb quiet.
#[export] Hint Resolve quiet_lift quiet_reads quiet_asks quiet_set_keyset : quiet.
#[export] Hint Constructors mint_step : quiet.
(** Goes through the calls of a function that only queries. *)
Ltac quiet :=
  repeat match goal with
  | |- quiet (_ ≫= _) => apply quiet_bind; [|intros ?]
  | |- quiet (mmap_err _ _) => apply quiet_mmap_err
  | |- quiet (on_net _ _) => apply quiet_net; intros ?
  | |- quiet (on_host _) => apply quiet_asks
  | |- quiet (on_world _) => apply quiet_asks
  | |- quiet (if _ then _ else _) => apply quiet_if
  | |- quiet (let '(_, _) := ?p in _) => destruct p
  | |- quiet (match ?o with Some _ => _ | None => _ end) => destruct o
  end; eauto with quiet.

Section openers.
Context {T : CashuTypes} {O : CashuOps} {W : OpeningOps}.
Context {H N : Type} {CH : SpilmanClientHost H} {NW : SpilmanClientNetworking N} {HH : ClientHostSpec H}.
Context (keyset_meta_from_value : Value → Result string (Id * CurrencyUnit * bool)).
Context (unix_time entropy : N → Z) (opening_commitment_mode : CommitmentMode).
Implicit Types (x y : H * N) (h : H) (n : N) (prepared : PreparedOpenChannel).
Abbreviation Call := (M (H * N)).
Abbreviation km := keyset_meta_from_value.

(** *** Keyset discovery and preparation *)

Lemma quiet_fetch_keyset_info url id : quiet (fetch_keyset_info km url id : Call _ _).
Proof. unfold fetch_keyset_info. quiet. Qed.
Lemma quiet_refresh_loop url ks l : quiet (refresh_loop km url ks l : Call _ _).
Proof. induction l as [|v l IH]; cbn [refresh_loop]; unfold refresh_one; quiet. Qed.
Lemma quiet_refresh_keysets url : quiet (refresh_keysets km url : Call _ _).
Proof.
  unfold refresh_keysets, refresh_keysets_inner. quiet. apply quiet_refresh_loop.
Qed.
Lemma quiet_ensure_cached url u allowed : quiet (ensure_keysets_cached_for_unit km url u allowed : Call _ _).
Proof. unfold ensure_keysets_cached_for_unit. quiet. apply quiet_refresh_keysets. Qed.
Lemma quiet_first_cached url u allowed : quiet (first_cached_active_output_keyset url u allowed : Call _ _).
Proof. unfold first_cached_active_output_keyset. quiet. Qed.
Lemma quiet_token_inputs url u : quiet (fetch_token_input_keysets km url u : Call _ _).
Proof. unfold fetch_token_input_keysets. quiet. Qed.
Lemma quiet_proof_inputs url u proofs : quiet (fetch_proof_input_keysets km url u proofs : Call _ _).
Proof. unfold fetch_proof_input_keysets. quiet. Qed.

(** *** Submitting *)

(** The texts of a prepared opening are the ones of a funding swap. *)
Definition well_prepared prepared : Prop :=
  let o := po_opening prepared in
  ∃ rnd inputs text v,
    create_funding_swap_with_plain_change rnd (op_params_json o) (op_channel_secret_hex o)
      (op_keyset_info_json o) inputs (op_change_amount_raw o) = Ok text ∧ json_parse text = Ok v ∧
    idx_str v "swap_request_json" = Some (po_swap_request_json prepared) ∧
    idx_str v "funding_secrets_json" = Some (po_funding_secrets_json prepared) ∧
    idx_str v "change_secrets_json" = Some (po_change_secrets_json prepared) ∧
    op_change_secrets_json o = po_change_secrets_json prepared ∧
    channel_parameters_get_channel_id (op_params_json o) (op_channel_secret_hex o) (op_keyset_info_json o)
      = Ok (po_channel_id prepared).

(** What is on record once a swap has been submitted and not rejected: a success is stored
    as an open channel with the proofs of the mint's answer; every failure says that the
    inputs may be spent and which channel to recover, and its opening is stored. *)
Definition on_record prepared (answer : Result MintRequestError string) h
    (r : Result OpenChannelError OpenChannelResult) : Prop :=
  match r with
  | Ok result => ∃ response completed payment, answer = Ok response ∧
      complete_prepared_open_channel prepared response = Ok completed ∧ result = co_result completed ∧
      chost_channel h (po_channel_id prepared)
        = Some (Funded (funding_of_opening (po_opening prepared) (co_funding_proofs_json completed)) PhOpen payment)
  | Err e => input_may_be_spent e = true ∧ oe_channel_id e = Some (po_channel_id prepared) ∧
      ∃ payment, chost_channel h (po_channel_id prepared) = Some (Opening (po_opening prepared) None payment)
  | Diverge =>
      ∃ payment, chost_channel h (po_channel_id prepared) = Some (Opening (po_opening prepared) None payment)
  end.

(** How an opening may end. *)
Definition settled x (ry : Result OpenChannelError OpenChannelResult * (H * N)) : Prop :=
  chost_wf ry.2.1 ∧ keeps x.1 ry.2.1 ∧
  ((harmless x.2 ry.2.2 ∧ is_ok ry.1 = false) ∨
   ∃ prepared n answer n',
     well_prepared prepared ∧ live (chost_channel x.1 (po_channel_id prepared)) = false ∧
     harmless x.2 n ∧
     call_mint_swap (po_mint_url prepared) (po_swap_request_json prepared) n = (answer, n') ∧
     harmless n' ry.2.2 ∧ on_record prepared answer ry.2.1 ry.1).

Lemma settled_failed x e y :
  chost_wf y.1 → keeps x.1 y.1 → harmless x.2 y.2 → settled x (Err e, y).
Proof. intros. split_and!; [done..|]. by left. Qed.

(** A host operation that is in the domain of the storage's contract. *)
Lemma host_step {E} (err : string → E) cmd c x :
  chost_wf x.1 → client_in_domain cmd (chost_channel x.1 c) →
  ∃ r h', change_host err (λ h, host_exec h c cmd) x = (r, (h', x.2)) ∧ chost_wf h' ∧
    (∀ d, d ≠ c → chost_channel h' d = chost_channel x.1 d) ∧
    match client_step cmd (chost_channel x.1 c) with
    | Some ch => r = Ok tt ∧ chost_channel h' c = ch
    | None => (∃ e, r = Err (err e)) ∧ chost_channel h' c = chost_channel x.1 c
    end.
Proof.
  intros Hwf Hdom. destruct (chost_exec_spec _ c cmd Hwf Hdom) as (Hwf' & _ & Hst & Hd).
  unfold change_host. destruct (host_exec x.1 c cmd) as [r h'] eqn:Hx. cbn [fst snd] in *.
  eexists _, h'. split_and!; [done..|]. destruct (client_step cmd _) as [ch|].
  - destruct Hst as [-> Hst]. done.
  - destruct Hst as [[e ->] Hst]. split; [by exists e|done].
Qed.

(** Steps after the submission: they only query, and their errors say that the inputs may be
    spent and which channel to recover. *)
Definition blames {A} id (r : Result OpenChannelError A) : Prop :=
  ∀ e, r = Err e → input_may_be_spent e = true ∧ oe_channel_id e = Some id.
Lemma blames_bind {A B} id (m : Result OpenChannelError A) (f : A → Result OpenChannelError B) :
  blames id m → (∀ a, blames id (f a)) → blames id (m ≫= f).
Proof. intros Hm Hf e [He|(a & _ & He)]%bind_Err; [by apply Hm|by apply (Hf a)]. Qed.
Lemma blames_Ok {A} id (a : A) : blames id (Ok a).
Proof. by intros e. Qed.
Lemma blames_map_err {E A} id (f : E → OpenChannelError) (m : Result E A) :
  (∀ e, input_may_be_spent (f e) = true ∧ oe_channel_id (f e) = Some id) → blames id (map_err f m).
Proof. intros Hf e. destruct m; cbn; intros [=]; by subst. Qed.
Lemma blames_ok_or {A} id e (o : option A) :
  input_may_be_spent e = true ∧ oe_channel_id e = Some id → blames id (ok_or e o).
Proof. intros He e'. destruct o; cbn; intros [=]; by subst. Qed.
Lemma blames_ensure id e b :
  input_may_be_spent e = true ∧ oe_channel_id e = Some id → blames id (ensure b e).
Proof. intros He e'. destruct b; cbn; intros [=]; by subst. Qed.
Ltac blames :=
  repeat match goal with
  | |- blames _ (_ ≫= _) => apply blames_bind; [|intros ?]
  | |- blames _ (map_err _ _) => apply blames_map_err; intros ?; split; reflexivity
  | |- blames _ (ok_or _ _) => apply blames_ok_or; split; reflexivity
  | |- blames _ (ensure _ _) => apply blames_ensure; split; reflexivity
  | |- blames _ (Ok _) => apply blames_Ok
  end.

Lemma blames_complete prepared response :
  blames (po_channel_id prepared) (complete_prepared_open_channel prepared response).
Proof. unfold complete_prepared_open_channel. blames. Qed.
Lemma blames_restored id o response : blames id (restored_funding_proofs id o response).
Proof. unfold restored_funding_proofs. blames. Qed.

Definition completes prepared response x (ry : Result OpenChannelError OpenChannelResult * (H * N)) : Prop :=
  chost_wf ry.2.1 ∧ harmless x.2 ry.2.2 ∧ on_record prepared (Ok response) ry.2.1 ry.1 ∧
  ∀ d, d ≠ po_channel_id prepared → chost_channel ry.2.1 d = chost_channel x.1 d.
Definition pending prepared h : Prop :=
  chost_wf h ∧ ∃ payment, chost_channel h (po_channel_id prepared) = Some (Opening (po_opening prepared) None payment).

(** A step that only queries, in a chain that completes. *)
Lemma completes_bind {A} prepared response (m : Call OpenChannelError A) f x :
  quiet m → blames (po_channel_id prepared) (m x).1 → pending prepared x.1 →
  (∀ a x1, m x = (Ok a, x1) → pending prepared x1.1 → completes prepared response x1 (f a x1)) →
  completes prepared response x ((m ≫= f) x).
Proof.
  intros Hq Hb [Hwf (pm & Hch)] Hf. destruct (Hq x Hwf) as (Hwf1 & Hn1 & Hc1). unfold mbind, M_bind.
  assert (pending prepared (m x).2.1) as Hp1. { split; [done|]. exists pm. by rewrite Hc1. }
  destruct (m x) as [[a|e|] x1]; cbn [fst snd] in *.
  - destruct (Hf a x1 eq_refl Hp1) as (Hwf2 & Hn2 & Hr & Hd). split_and!; [done|by etrans|done|].
    intros d Hne. by rewrite Hd, Hc1.
  - destruct (Hb e eq_refl). destruct Hp1 as [_ Hp1]. done.
  - destruct Hp1 as [_ Hp1]. done.
Qed.

(** After the mint has answered. *)
Lemma complete_submitted_spec prepared response x :
  pending prepared x.1 → completes prepared response x (complete_submitted_open prepared response x).
Proof.
  intros Hp. unfold complete_submitted_open.
  apply completes_bind; [apply quiet_lift|apply blames_complete|done|].
  intros completed x1 [Hc ->]%lift_Ok _.
  apply completes_bind; [apply quiet_lift|unfold funding_restore_request_for_prepared_open; cbn; blames|done|].
  intros request x2 [_ ->]%lift_Ok _.
  apply completes_bind; [quiet| |done|].
  { unfold on_net. destruct (call_mint_restore _ _ x.2) as [r n]. cbn [fst]. blames. }
  intros rest x3 _ Hp3. apply completes_bind; [apply quiet_lift|apply blames_restored|done|].
  intros proofs x4 [_ ->]%lift_Ok _.
  assert (co_channel_id completed = po_channel_id prepared) as Hid.
  { unfold complete_prepared_open_channel in Hc. by result_inv. }
  apply completes_bind; [apply quiet_lift| |done|].
  { unfold verify_completed_open_matches_restore, lift. cbn [fst]. rewrite Hid. blames. }
  intros [] x5 _ [Hwf (pm & Hch)].
  unfold mark_completed_open. rewrite Hid.
  destruct (host_step (at_stage MarkOpen (po_channel_id prepared)) (SetOpen (co_funding_proofs_json completed))
    (po_channel_id prepared) x5 Hwf I) as (r & h' & Hex & Hwf' & Hd & Hst).
  rewrite Hch in Hst. cbn [client_step] in Hst. destruct Hst as [-> Hst].
  cbn [host_exec] in Hex. unfold mbind, M_bind. rewrite Hex. cbn.
  split_and!; [done|reflexivity| |done]. by exists response, completed, pm.
Qed.

Lemma keeps_other id h h' :
  live (chost_channel h id) = false → (∀ d, d ≠ id → chost_channel h' d = chost_channel h d) → keeps h h'.
Proof. intros Hl Hd c Hc. apply Hd. intros ->. by rewrite Hl in Hc. Qed.

(** The checks before a submission: the opening is stored and was not there before, or
    nothing has changed. *)
Lemma before_submission prepared x :
  chost_wf x.1 →
  (∃ e, (require_fresh_open_submission prepared ≫= λ _, mark_prepared_open_saved prepared) x = (Err e, x)) ∨
  (∃ e y, (require_fresh_open_submission prepared ≫= λ _, mark_prepared_open_saved prepared) x = (Err e, y) ∧
     chost_wf y.1 ∧ y.2 = x.2 ∧ ∀ c, chost_channel y.1 c = chost_channel x.1 c) ∨
  ∃ h', (require_fresh_open_submission prepared ≫= λ _, mark_prepared_open_saved prepared) x = (Ok tt, (h', x.2)) ∧
    live (chost_channel x.1 (po_channel_id prepared)) = false ∧ pending prepared h' ∧
    ∀ d, d ≠ po_channel_id prepared → chost_channel h' d = chost_channel x.1 d.
Proof.
  intros Hwf. unfold require_fresh_open_submission, on_host, asks, mbind, M_bind. cbn.
  rewrite (chost_opening _ _ Hwf). cbn [map_err].
  set (id := po_channel_id prepared). case_bool_decide as Hop; cbn [ensure lift]; [|left; eauto].
  right. unfold mark_prepared_open_saved. fold id.
  destruct (host_step before_saved (SaveOpening (po_opening prepared)) id x Hwf I)
    as (r & h' & Hex & Hwf' & Hd & Hst). cbn [host_exec] in Hex.
  destruct (client_step (SaveOpening (po_opening prepared)) (chost_channel x.1 id)) as [ch|] eqn:Hstep.
  - destruct Hst as [-> Hst]. right. exists h'. split; [exact Hex|].
    destruct (chost_channel x.1 id) as [[o [fl|] pm|f ph pm]|] eqn:Hch; cbn in Hstep, Hop; try done.
    + case_bool_decide; [|done]. injection Hstep as <-. subst o. split_and!; [done|split; [done|by eexists]|done].
    + injection Hstep as <-. split_and!; [done|split; [done|by eexists]|done].
  - destruct Hst as [[e ->] Hst]. left. exists (before_saved e), (h', x.2). split_and!; [exact Hex|done|done|].
    intros c. destruct (decide (c = id)) as [->|Hne]; [done|by apply Hd].
Qed.

(** A definite rejection is recorded as a failed opening. *)
Lemma rejected_spec prepared evidence x :
  permits_keyset_retry evidence = true → pending prepared x.1 →
  let ry := (open_network_error prepared evidence : Call _ OpenChannelResult) x in
  chost_wf ry.2.1 ∧ ry.2.2 = x.2 ∧ is_ok ry.1 = false ∧
  ∀ d, d ≠ po_channel_id prepared → chost_channel ry.2.1 d = chost_channel x.1 d.
Proof.
  intros Hev [Hwf (pm & Hch)]. cbv zeta. unfold open_network_error, mark_prepared_open_rejected. rewrite Hev.
  cbn [negb]. set (id := po_channel_id prepared) in *. unfold match_call, reads.
  set (fl := mk_ClientOpeningFailure (stage_as_str MintRejected) (MintRequestError_to_string evidence)
               (client_now x.1)).
  set (err := λ mark_err, at_stage MarkOpen id
    ("mint rejected swap, but failed to mark opening failed: " +:+ mark_err +:+ "; mint error: "
     +:+ MintRequestError_to_string evidence)).
  assert (client_in_domain (SetOpeningFailed fl) (chost_channel x.1 id)) as Hdom by (by rewrite Hch).
  destruct (host_step err (SetOpeningFailed fl) id x Hwf Hdom) as (r & h' & Hex & Hwf' & Hd & Hst).
  cbn [host_exec] in Hex. rewrite Hch in Hst. cbn [client_step] in Hst. destruct Hst as [-> Hst].
  unfold mbind, M_bind. cbn beta iota. fold fl. rewrite Hex. done.
Qed.

Lemma submit_settled prepared x :
  chost_wf x.1 → well_prepared prepared → settled x (submit_prepared_open_with_network prepared x).
Proof.
  intros Hwf Hwp. set (id := po_channel_id prepared).
  assert (submit_prepared_open_with_network prepared x =
    ((require_fresh_open_submission prepared ≫= λ _, mark_prepared_open_saved prepared) ≫=
      λ _, match_call (on_net Datatypes.id (call_mint_swap (po_mint_url prepared) (po_swap_request_json prepared)))
             (complete_submitted_open prepared) (open_network_error prepared)) x) as ->.
  { unfold submit_prepared_open_with_network, mbind, M_bind.
    by destruct (require_fresh_open_submission prepared x) as [[[]|e|] x1]. }
  destruct (before_submission prepared x Hwf)
    as [(e & Hpre)|[(e & y & Hpre & Hwf' & Hn & Hc)|(h' & Hpre & Hlive & Hpend & Hd)]].
  { rewrite (M_bind_err _ _ _ _ _ Hpre). apply settled_failed; [done|reflexivity..]. }
  { rewrite (M_bind_err _ _ _ _ _ Hpre). apply settled_failed; [done|by intros c _|]. rewrite Hn. reflexivity. }
  rewrite (M_bind_step _ _ _ _ _ Hpre). unfold match_call, on_net. cbn [fst snd].
  destruct (call_mint_swap _ _ x.2) as [answer n'] eqn:Hswap.
  destruct answer as [response|evidence|]; cbn [map_err Datatypes.id].
  - destruct (complete_submitted_spec prepared response (h', n') Hpend) as (Hwf2 & Hn2 & Hrec & Hd2).
    split_and!; [done|eapply keeps_other; [done|intros; by rewrite Hd2, Hd]|right].
    exists prepared, x.2, (Ok response), n'. split_and!; try done.
  - destruct (permits_keyset_retry evidence) eqn:Hev.
    + destruct (rejected_spec prepared evidence (h', n') Hev Hpend) as (Hwf2 & Hn2 & Hok & Hd2).
      split_and!; [done|eapply keeps_other; [done|intros; by rewrite Hd2, Hd]|left]. split; [|done].
      unfold Datatypes.id. rewrite Hn2. apply rtc_once. by econstructor.
    + unfold open_network_error, Datatypes.id. rewrite Hev. cbn.
      split_and!; [apply Hpend|by eapply keeps_other|right]. cbn.
      exists prepared, x.2, (Err evidence), n'. split_and!; try done. apply Hpend.
  - split_and!; [apply Hpend|by eapply keeps_other|right]. cbn.
    exists prepared, x.2, Diverge, n'. split_and!; try done. apply Hpend.
Qed.

(** *** Preparing *)

Lemma prepare_open_well rnd now text secret kj token sender prepared :
  prepare_open rnd now text secret kj token sender = Ok prepared → well_prepared prepared.
Proof.
  unfold prepare_open, compute_field, swap_field. intros Hp. result_inv. unfold well_prepared. cbn.
  eexists rnd, _, _, _. split_and!; done.
Qed.

(** Nothing has been submitted before the call [m] that opens. *)
Lemma settled_after {A} (m : Call OpenChannelError A) f x :
  quiet m → chost_wf x.1 →
  (∀ a x1, m x = (Ok a, x1) → chost_wf x1.1 → settled x1 (f a x1)) → settled x ((m ≫= f) x).
Proof.
  intros Hq Hwf Hf. destruct (Hq x Hwf) as (Hwf1 & Hn1 & Hc1).
  assert (keeps x.1 (m x).2.1) as Hk by (intros c _; apply Hc1).
  unfold mbind, M_bind. destruct (m x) as [[a|e|] x1]; cbn [fst snd] in *.
  - destruct (Hf a x1 eq_refl Hwf1) as (Hwf2 & Hk2 & Hor). split_and!; [done|by etrans|].
    destruct Hor as [[Hn2 Hok]|(pr & n & an & n' & Hwp & Hl & Hn & Hsw & Hn' & Hrec)].
    + left. split; [by etrans|done].
    + right. exists pr, n, an, n'. rewrite Hc1 in Hl. split_and!; try done. by etrans.
  - by apply settled_failed.
  - split_and!; [done..|]. by left.
Qed.

Lemma compute_result_settled text secret kj token sender x :
  chost_wf x.1 → settled x (open_channel_from_compute_result entropy text secret kj token sender x).
Proof.
  intros Hwf. unfold open_channel_from_compute_result. apply settled_after; [apply quiet_asks|done|].
  intros prepared x1 Hp Hwf1. apply submit_settled; [done|].
  unfold prepare_open_channel_from_compute_result, asks in Hp. injection Hp as Hp _.
  by eapply prepare_open_well.
Qed.
Lemma prepared_then_submit (m : Call OpenChannelError PreparedOpenChannel) x :
  chost_wf x.1 → quiet m → (∀ prepared x1, m x = (Ok prepared, x1) → well_prepared prepared) →
  settled x ((m ≫= submit_prepared_open_with_network) x).
Proof. intros Hwf Hq Hm. apply settled_after; [done|done|]. intros prepared x1 Hp Hwf1. eauto using submit_settled. Qed.

(** The retry with another keyset: the first submission was rejected, so nothing was spent
    before the second. *)
Lemma settled_trans x y ry :
  keeps x.1 y.1 → harmless x.2 y.2 → settled y ry → settled x ry.
Proof.
  intros Hk Hn (Hwf & Hk2 & Hor). split_and!; [done|by etrans|].
  destruct Hor as [[Hn2 Hok]|(pr & n & an & n' & Hwp & Hl & Hn1 & Hsw & Hn' & Hrec)].
  - left. split; [by etrans|done].
  - right. exists pr, n, an, n'. split_and!; try done; [|by etrans].
    destruct (live (chost_channel x.1 (po_channel_id pr))) eqn:E; [|done]. by rewrite (Hk _ E), E in Hl.
Qed.
(** An error that permits a retry is one after which nothing is spent. *)
Lemma settled_retryable x e y :
  settled x (Err e, y) → is_retryable_keyset_rejection e = true →
  chost_wf y.1 ∧ keeps x.1 y.1 ∧ harmless x.2 y.2.
Proof.
  intros (Hwf & Hk & Hor) He. split_and!; [done..|]. destruct Hor as [[? _]|(pr & n & an & n' & Hb)]; [done|].
  destruct Hb as (_ & _ & _ & _ & _ & Hs & _). unfold is_retryable_keyset_rejection in He.
  rewrite Hs, andb_false_r in He. done.
Qed.

(** The retry helper, with the errors of its phases put back together. *)
Definition retry_chain {A} select (prepare : SelectedOutputKeyset → Call OpenChannelError A) submit
    (refresh : Call OpenChannelError unit) : Call OpenChannelError OpenChannelResult :=
  keyset ← select;
  attempt ← prepare keyset;
  match_call (submit attempt) (λ value, lift (Ok value)) (λ error,
    if is_retryable_keyset_rejection error then
      _ ← refresh;
      retry_keyset ← select;
      if bool_decide (sok_id retry_keyset = sok_id keyset) then lift (Err error)
      else attempt ← prepare retry_keyset; submit attempt
    else lift (Err error)).
Lemma unwrap_retry_chain {A} select (prepare : SelectedOutputKeyset → Call OpenChannelError A) submit refresh x :
  unwrap_retry (with_active_keyset_retry sok_id select prepare submit retry_decision refresh
    (λ _ _, lift (Ok tt))) x = retry_chain select prepare submit refresh x.
Proof.
  unfold unwrap_retry, retry_chain, with_active_keyset_retry, retry_decision, mmap_err, match_call, mbind, M_bind, lift.
  destruct (select x) as [[k|e|] x1]; cbn; [|done..].
  destruct (prepare k x1) as [[a|e|] x2]; cbn; [|done..].
  destruct (submit a x2) as [[v|e|] x3]; cbn; [done| |done].
  destruct (is_retryable_keyset_rejection e); cbn; [|done].
  destruct (refresh x3) as [[[]|e'|] x4]; cbn; [|done..].
  destruct (select x4) as [[k'|e'|] x5]; cbn; [|done..]. case_bool_decide; [done|].
  destruct (prepare k' x5) as [[a'|e'|] x6]; cbn; [|done..]. by destruct (submit a' x6) as [[v|e'|] x7].
Qed.

Lemma retry_settled {A} select (prepare : SelectedOutputKeyset → Call OpenChannelError A) submit refresh x :
  chost_wf x.1 → quiet select → (∀ k, quiet (prepare k)) → quiet refresh →
  (∀ a x, chost_wf x.1 → settled x (submit a x)) →
  settled x (unwrap_retry (with_active_keyset_retry sok_id select prepare submit retry_decision refresh
    (λ _ _, lift (Ok tt))) x).
Proof.
  intros Hwf Hsel Hprep Href Hsub. rewrite unwrap_retry_chain. unfold retry_chain.
  apply settled_after; [done..|]. intros k x1 _ Hwf1.
  apply settled_after; [done..|]. intros a x2 _ Hwf2.
  pose proof (Hsub a x2 Hwf2) as Hs. unfold match_call.
  destruct (submit a x2) as [[v|e|] x3] eqn:Hx; [done| |done].
  destruct (is_retryable_keyset_rejection e) eqn:He; [|done].
  destruct (settled_retryable _ _ _ Hs He) as (Hwf3 & Hk & Hn). apply (settled_trans _ x3); [done..|].
  apply settled_after; [done..|]. intros _ x4 _ Hwf4.
  apply settled_after; [done..|]. intros k' x5 _ Hwf5. case_bool_decide.
  - apply settled_failed; [done|reflexivity..].
  - apply settled_after; [done..|]. intros a' x6 _ Hwf6. by apply Hsub.
Qed.

(** *** All the ways to open a channel *)

Inductive OpenRequest :=
| FromToken (token receiver sender : string) (expiry : Z) (keyset_info : string) (max_amount : Z)
| FromTokenWithInputKeysets (token receiver sender : string) (expiry : Z)
    (keyset_info input_keysets : string) (max_amount : Z)
| FromTokenWithKeysetId (token receiver sender : string) (expiry : Z) (mint keyset_id : string) (max_amount : Z)
| FromTokenAuto (token receiver sender : string) (expiry : Z) (mint : string) (max_amount : Z)
    (allowed : KeysetVersions)
| FromProofs (mint unit proofs receiver sender : string) (expiry : Z) (keyset_info : string)
    (max_amount : Z) (capacity funding : option Z)
| FromProofsWithKeysetId (mint unit proofs receiver sender : string) (expiry : Z) (keyset_id : string)
    (max_amount : Z) (capacity : option Z)
| FromProofsAuto (mint unit proofs receiver sender : string) (expiry max_amount : Z) (allowed : KeysetVersions).
Definition open_channel (req : OpenRequest) : Call OpenChannelError OpenChannelResult :=
  match req with
  | FromToken t r s e k m => open_channel_from_token unix_time entropy opening_commitment_mode t r s e k m
  | FromTokenWithInputKeysets t r s e k i m =>
      open_channel_from_token_with_input_keysets unix_time entropy opening_commitment_mode t r s e k i m
  | FromTokenWithKeysetId t r s e u k m =>
      open_channel_from_token_with_keyset_id km unix_time entropy opening_commitment_mode t r s e u k m
  | FromTokenAuto t r s e u m a =>
      open_channel_from_token_auto km unix_time entropy opening_commitment_mode t r s e u m a
  | FromProofs u un p r s e k m c f =>
      open_channel_from_proofs_with_funding_amount km unix_time entropy opening_commitment_mode u un p r s e k m c f
  | FromProofsWithKeysetId u un p r s e k m c =>
      open_channel_from_proofs_with_keyset_id km unix_time entropy opening_commitment_mode u un p r s e k m c
  | FromProofsAuto u un p r s e m a =>
      open_channel_from_proofs_auto km unix_time entropy opening_commitment_mode u un p r s e m a
  end.

Lemma from_token_inputs_settled t r s e k i m x :
  chost_wf x.1 →
  settled x (open_channel_from_token_with_input_keysets unix_time entropy opening_commitment_mode t r s e k i m x).
Proof.
  intros Hwf. unfold open_channel_from_token_with_input_keysets.
  apply settled_after; [apply quiet_asks|done|]. intros secret x1 _ Hwf1.
  apply settled_after; [apply quiet_asks|done|]. intros text x2 _ Hwf2. by apply compute_result_settled.
Qed.
Lemma prepare_calls_well (m1 : Call OpenChannelError string) (m2 : string → Call OpenChannelError string) kj token
    sender x prepared x' :
  (secret ← m1; text ← m2 secret;
   prepare_open_channel_from_compute_result entropy text secret kj token sender) x = (Ok prepared, x') →
  well_prepared prepared.
Proof.
  intros (secret & x1 & _ & (text & x2 & _ & Hp)%M_bind_Ok)%M_bind_Ok.
  unfold prepare_open_channel_from_compute_result, asks in Hp. injection Hp as Hp _.
  by eapply prepare_open_well.
Qed.
Lemma from_proofs_settled u un p r s e k m c f x :
  chost_wf x.1 →
  settled x (open_channel_from_proofs_with_funding_amount km unix_time entropy opening_commitment_mode
    u un p r s e k m c f x).
Proof.
  intros Hwf. unfold open_channel_from_proofs_with_funding_amount.
  apply settled_after; [apply quiet_mmap_err, quiet_proof_inputs|done|]. intros inputs x1 _ Hwf1.
  apply prepared_then_submit; [done| |]; unfold prepare_open_channel_from_proofs_with_input_keysets.
  - quiet.
  - intros prepared x2. apply prepare_calls_well.
Qed.

Lemma open_channel_settled req x : chost_wf x.1 → settled x (open_channel req x).
Proof.
  intros Hwf. destruct req; cbn [open_channel].
  - unfold open_channel_from_token. apply prepared_then_submit; [done| |]; unfold prepare_open_channel_from_token.
    + quiet.
    + intros prepared x1. apply prepare_calls_well.
  - by apply from_token_inputs_settled.
  - unfold open_channel_from_token_with_keyset_id.
    apply settled_after; [apply quiet_mmap_err, quiet_fetch_keyset_info|done|]. intros info x1 _ Hwf1.
    apply settled_after; [apply quiet_lift|done|]. intros u x2 _ Hwf2.
    apply settled_after; [apply quiet_mmap_err, quiet_token_inputs|done|]. intros inputs x3 _ Hwf3.
    by apply from_token_inputs_settled.
  - unfold open_channel_from_token_auto.
    apply settled_after; [apply quiet_lift|done|]. intros u x1 _ Hwf1.
    apply settled_after; [apply quiet_ensure_cached|done|]. intros _ x2 _ Hwf2.
    apply retry_settled; [done|apply quiet_first_cached| |apply quiet_refresh_keysets|].
    + intros ks. unfold prepare_token_auto_attempt. quiet. apply quiet_token_inputs.
    + intros a y Hy. by apply from_token_inputs_settled.
  - by apply from_proofs_settled.
  - unfold open_channel_from_proofs_with_keyset_id.
    apply settled_after; [apply quiet_mmap_err, quiet_fetch_keyset_info|done|]. intros info x1 _ Hwf1.
    by apply from_proofs_settled.
  - unfold open_channel_from_proofs_auto.
    apply settled_after; [apply quiet_ensure_cached|done|]. intros _ x1 _ Hwf1.
    apply retry_settled; [done|apply quiet_first_cached| |apply quiet_refresh_keysets|].
    + intros ks. apply quiet_lift.
    + intros a y Hy. by apply from_proofs_settled.
Qed.

(** C4: an opening never loses its inputs, whatever the mints answer and however it was
    asked for. Channels that exist are left alone. If it fails without the mark
    [input_may_be_spent], the mint has only been queried or has rejected the swap. Otherwise
    there is one submitted swap that was not rejected, for a channel that did not exist, and
    it is on record: an open channel with the proofs of the mint's answer when the call
    succeeds, and else the stored opening that the error names. *)
Theorem opening_never_loses_inputs req x r y :
  chost_wf x.1 → open_channel req x = (r, y) →
  chost_wf y.1 ∧ keeps x.1 y.1 ∧
  (∀ e, r = Err e → input_may_be_spent e = false → harmless x.2 y.2) ∧
  ((harmless x.2 y.2 ∧ is_ok r = false) ∨
   ∃ prepared n answer n',
     well_prepared prepared ∧ live (chost_channel x.1 (po_channel_id prepared)) = false ∧
     harmless x.2 n ∧
     call_mint_swap (po_mint_url prepared) (po_swap_request_json prepared) n = (answer, n') ∧
     harmless n' y.2 ∧ on_record prepared answer y.1 r).
Proof.
  intros Hwf Ho. pose proof (open_channel_settled req x Hwf) as (Hwf' & Hk & Hor). rewrite Ho in *.
  cbn [fst snd] in *. split_and!; [done..| |done]. intros e -> He.
  destruct Hor as [[? _]|(pr & n & an & n' & _ & _ & _ & _ & _ & Hs & _)]; [done|]. by rewrite Hs in He.
Qed.

(** ** Opened channels are valid *)

Section valid.
Context {HJ : JsonLaws} {HO : OpeningLaws} {HC : ConstructLaws} {HU : UnblindLaws}.

Lemma channel_id_loads pj sj kj id :
  channel_parameters_get_channel_id pj sj kj = Ok id → ∃ p, load_params pj sj kj = Ok p.
Proof.
  unfold channel_parameters_get_channel_id. intros Hid. setoid_rewrite load_params_iff. result_inv.
  match goal with E : parse_secret "Shared" sj = Ok _ |- _ => apply parse_secret_Ok in E as Hs end.
  rewrite <-(parse_secret_Ok "Channel") in Hs. eauto 10.
Qed.
Lemma channel_id_params pj sj kj id p :
  channel_parameters_get_channel_id pj sj kj = Ok id → load_params pj sj kj = Ok p → get_channel_id p = id.
Proof.
  intros Hid (ks & secret & Hk & Hs & Hp)%load_params_iff. unfold channel_parameters_get_channel_id in Hid.
  apply parse_secret_Ok in Hs. rewrite (proj2 (parse_secret_Ok "Shared" sj secret) Hs) in Hid.
  cbn [mbind Result_bind] in Hid. rewrite Hk in Hid. cbn [mbind Result_bind] in Hid. rewrite Hp in Hid.
  by injection Hid.
Qed.

(** The texts of a completed opening. *)
Lemma completed_texts prepared response completed :
  complete_prepared_open_channel prepared response = Ok completed ↔
  ∃ req funding plain,
    swap_request_from_json (po_swap_request_json prepared) = Ok req ∧
    complete_funding_swap_for_outputs response (po_funding_secrets_json prepared)
      (po_change_secrets_json prepared) (op_keyset_info_json (po_opening prepared)) (sr_outputs req)
      = Ok (opening_result funding plain) ∧
    let o := po_opening prepared in
    completed = mk_CompletedOpenChannel (po_channel_id prepared) (proofs_to_json funding) (proofs_to_json plain)
      (mk_OpenChannelResult (po_channel_id prepared) (op_capacity o) (op_funding_token_amount o)
         (po_mint_url prepared) (op_unit o) (po_keyset_id prepared) (op_sender_pubkey_hex o)
         (op_receiver_pubkey_hex o) (proofs_to_json plain)).
Proof.
  unfold complete_prepared_open_channel. split.
  - intros (req & Hreq%map_err_Ok & (res & Hres%map_err_Ok & (v & Hv%map_err_Ok & (fj & Hfj%ok_or_Ok & [= <-])%bind_Ok)%bind_Ok)%bind_Ok)%bind_Ok.
    pose proof Hres as Hres'. unfold complete_funding_swap_for_outputs in Hres'.
    apply complete_swap_Ok in Hres' as (ks & r & fo & co & proofs & _ & _ & _ & _ & _ & Heq).
    rewrite Heq in Hres. exists req, (take (length fo) proofs), (drop (length fo) proofs). split_and!; [done..|].
    destruct (opening_result_fields (take (length fo) proofs) (drop (length fo) proofs)) as (v' & Hv' & Hf & Hc).
    rewrite Heq in Hv. assert (v' = v) as -> by congruence. rewrite Hf in Hfj. injection Hfj as <-. by rewrite Hc.
  - intros (req & fp & cp & Hreq & Hres & ->). rewrite Hreq. cbn [map_err mbind Result_bind]. rewrite Hres.
    cbn [map_err mbind Result_bind]. destruct (opening_result_fields fp cp) as (v & Hv & Hf & Hc). rewrite Hv.
    cbn [map_err mbind Result_bind]. rewrite Hf. cbn [ok_or mbind Result_bind]. by rewrite Hc.
Qed.

(** Funding stored for a channel [id]: its texts load to parameters with that identifier and
    to proofs on which the receiver's verification finds nothing wrong but, possibly, an id of
    the keyset that is not the one of its keys. *)
Definition valid_funding id (f : ClientChannelFunding) : Prop :=
  ∃ p proofs,
    load_params (cf_params_json f) (cf_channel_secret_hex f) (cf_keyset_info_json f) = Ok p ∧
    proofs_from_json (cf_funding_proofs_json f) = Ok proofs ∧ get_channel_id p = id ∧
    (1 ∈ amounts_largest_first (keyset_info p) → 0 ∉ amounts_largest_first (keyset_info p) →
     funding_token_amount p < 2 ^ 54 →
     verify_valid_channel proofs p = Ok (id_verdict p) ∧
     EstablishedChannel_new p proofs = Ok (mk_EstablishedChannel p proofs)).

Lemma completed_valid_funding prepared response completed :
  well_prepared prepared → complete_prepared_open_channel prepared response = Ok completed →
  valid_funding (po_channel_id prepared)
    (funding_of_opening (po_opening prepared) (co_funding_proofs_json completed)).
Proof.
  intros (rnd & inputs & text & v & Htext & Hv & _ & Hfj & _ & _ & Hid) Hc.
  apply completed_texts in Hc as (req & funding & plain & _ & Hres & ->).
  destruct (channel_id_loads _ _ _ _ Hid) as [p Hp].
  exists p, funding. cbn. split_and!; [done|apply proofs_json_inv|by eapply channel_id_params|]. intros H1 H0 Hf.
  destruct (swap_completes_valid _ _ _ _ _ _ _ _ _ _ _ _ _ _ Hp (load_params_sound _ _ _ _ Hp H1 H0 Hf) Htext Hv Hfj Hres)
    as (funding' & plain' & Heq & Hval & Hec).
  by apply opening_result_inj in Heq as [<- <-].
Qed.

(** C10: when an opening succeeds, the channel is stored as open under the identifier of its
    own parameters, which load back; whatever the mint answered, the receiver can establish the
    channel from the stored funding, and the verification that the receiver applies to a new
    channel finds it valid if the id of the keyset it was opened with is the one computed from
    that keyset's keys, and otherwise reports exactly that id as its only error. (For a keyset
    with a key for 1 and none for 0, and a funding below [2^54]. The opening does not check the
    id of a keyset that its caller supplies.) *)
Theorem opened_channel_is_valid req x result y :
  chost_wf x.1 → open_channel req x = (Ok result, y) →
  ∃ f payment, chost_channel y.1 (or_channel_id result) = Some (Funded f PhOpen payment) ∧
    live (chost_channel x.1 (or_channel_id result)) = false ∧
    valid_funding (or_channel_id result) f ∧ cf_capacity f = or_capacity result ∧
    cf_funding_token_amount f = or_funding_token_amount result.
Proof.
  intros Hwf Ho. pose proof (open_channel_settled req x Hwf) as (_ & _ & Hor). rewrite Ho in Hor.
  cbn [fst snd] in Hor. destruct Hor as [[_ [=]]|(pr & n & an & n' & Hwp & Hl & _ & _ & _ & Hrec)].
  destruct Hrec as (response & completed & payment & _ & Hc & -> & Hch).
  pose proof (completed_valid_funding _ _ _ Hwp Hc) as Hval.
  apply completed_texts in Hc as (swap & fp & cp & _ & _ & ->). cbn in *. eauto 10.
Qed.

(** ** Recovery *)

(** A mint that has signed these outputs answers every restore request for some of them
    (NUT-09), now and after other restore requests. *)
Definition restore_step n n' : Prop := ∃ url request, n' = (call_mint_restore url request n).2.
Definition restores_signed url (outputs : list BlindedMessage) (sigs : list BlindSignature) n0 : Prop :=
  ∀ outputs' sigs' n, rtc restore_step n0 n →
    length outputs' = length sigs' → zip outputs' sigs' ⊆ zip outputs sigs →
    ∃ rest rr n', call_mint_restore url (restore_request_json outputs') n = (Ok rest, n') ∧
      restore_response_from_json rest = Ok rr ∧ restores rr outputs' sigs'.

Lemma zip_take_subset {A B} k (l : list A) (l' : list B) : zip (take k l) (take k l') ⊆ zip l l'.
Proof. rewrite <-zip_with_take. intros x (i & Hi & _)%elem_of_take. by eapply list_elem_of_lookup_2. Qed.
Lemma zip_drop_subset {A B} k (l : list A) (l' : list B) : zip (drop k l) (drop k l') ⊆ zip l l'.
Proof.
  rewrite <-zip_with_drop. intros x [i Hi]%list_elem_of_lookup_1. rewrite lookup_drop in Hi.
  by eapply list_elem_of_lookup_2.
Qed.

(** The steps of a recovery. *)
Lemma prepare_recovery_Ok id o pm x freq creq :
  chost_wf x.1 → chost_channel x.1 id = Some (Opening o None pm) →
  create_funding_restore_request (op_params_json o) (op_channel_secret_hex o) (op_keyset_info_json o) = Ok freq →
  create_plain_change_restore_request (op_change_secrets_json o) (op_keyset_info_json o) = Ok creq →
  prepare_open_channel_recovery id x
  = (Ok (mk_PreparedOpenRecovery id (op_mint_url o) freq
           (if op_change_amount_raw o =? 0 then None else Some creq) o), x).
Proof.
  intros Hwf Hch Hf Hc. unfold prepare_open_channel_recovery, opening_or_error, on_host, asks, mbind, M_bind.
  rewrite (chost_opening _ _ Hwf), Hch. cbn. rewrite Hf. cbn. rewrite Hc. by destruct (op_change_amount_raw o =? 0).
Qed.
Lemma restored_funding_Ok id o rest funding plain :
  complete_funding_restore rest (op_params_json o) (op_channel_secret_hex o) (op_keyset_info_json o)
    = Ok (opening_result funding plain) →
  restored_funding_proofs id o rest = Ok (proofs_to_json funding).
Proof.
  intros Hr. unfold restored_funding_proofs. rewrite Hr. cbn [map_err mbind Result_bind].
  destruct (opening_result_fields funding plain) as (v & Hv & Hf & _). rewrite Hv. cbn [map_err mbind Result_bind].
  by rewrite Hf.
Qed.
Lemma restored_change_Ok id o rest funding plain :
  complete_plain_change_restore rest (op_change_secrets_json o) (op_keyset_info_json o)
    = Ok (opening_result funding plain) →
  restored_change_proofs id o rest = Ok (proofs_to_json plain).
Proof.
  intros Hr. unfold restored_change_proofs. rewrite Hr. cbn [map_err mbind Result_bind].
  destruct (opening_result_fields funding plain) as (v & Hv & _ & Hf). rewrite Hv. cbn [map_err mbind Result_bind].
  by rewrite Hf.
Qed.
(** What recovery completes to; an opening without change has nothing to restore for it. *)
Definition recovered id o ks (funding plain : list Proof) : CompletedOpenRecovery :=
  let change_json := if op_change_amount_raw o =? 0 then "[]" else proofs_to_json plain in
  mk_CompletedOpenRecovery id (proofs_to_json funding) change_json
    (mk_OpenChannelResult id (op_capacity o) (op_funding_token_amount o) (op_mint_url o) (op_unit o)
       (id_to_string (keyset_id ks)) (op_sender_pubkey_hex o) (op_receiver_pubkey_hex o) change_json).
Lemma complete_recovery_Ok id o ks freq creq rest rest2 funding plain :
  parse_keyset_info_from_json (op_keyset_info_json o) = Ok ks →
  complete_funding_restore rest (op_params_json o) (op_channel_secret_hex o) (op_keyset_info_json o)
    = Ok (opening_result funding []) →
  complete_plain_change_restore rest2 (op_change_secrets_json o) (op_keyset_info_json o)
    = Ok (opening_result [] plain) →
  let none {A} (a : A) := if op_change_amount_raw o =? 0 then None else Some a in
  complete_prepared_open_recovery (mk_PreparedOpenRecovery id (op_mint_url o) freq (none creq) o) rest (none rest2)
  = Ok (recovered id o ks funding plain).
Proof.
  intros Hks Hf Hc. cbv zeta. unfold complete_prepared_open_recovery, recovered.
  cbn [pr_channel_id pr_opening pr_change_restore_request_json].
  rewrite (restored_funding_Ok id o rest _ _ Hf). cbn [mbind Result_bind].
  destruct (op_change_amount_raw o =? 0); [|rewrite (restored_change_Ok id o rest2 _ _ Hc)];
    cbn [mbind Result_bind]; by rewrite Hks.
Qed.
(** The last step of a recovery, for the proofs it has restored. *)
Lemma finish_recovery id o pm x funding_json change_json result :
  chost_wf x.1 → chost_channel x.1 id = Some (Opening o None pm) →
  ∃ h', (mark_completed_open_recovery (mk_CompletedOpenRecovery id funding_json change_json result)
           ≫= λ _, lift (Ok result)) x = (Ok result, (h', x.2)) ∧
    chost_channel h' id = Some (Funded (funding_of_opening o funding_json) PhOpen pm) ∧
    ∀ d, d ≠ id → chost_channel h' d = chost_channel x.1 d.
Proof.
  intros Hwf Hch. unfold mark_completed_open_recovery. cbn [cr_channel_id cr_funding_proofs_json].
  destruct (host_step (at_stage MarkOpen id) (SetOpen funding_json) id x Hwf I) as (r & h' & Hex & Hwf' & Hd & Hst).
  rewrite Hch in Hst. cbn [client_step] in Hst. destruct Hst as [-> Hst]. cbn [host_exec] in Hex.
  exists h'. split_and!; [|done..]. unfold mbind, M_bind. by rewrite Hex.
Qed.

(** C11: an opening whose answer was lost is recovered: if the mint has signed the outputs of
    the stored opening and answers restore requests for them, recovery succeeds, the channel
    is opened with exactly the funding proofs that the lost answer would have given, its
    change proofs are those of that answer, and no other channel is touched. *)
Theorem recovery_restores_opening prepared x p req response r completed :
  pending prepared x.1 → well_prepared prepared →
  load_params (op_params_json (po_opening prepared)) (op_channel_secret_hex (po_opening prepared))
    (op_keyset_info_json (po_opening prepared)) = Ok p →
  swap_request_from_json (po_swap_request_json prepared) = Ok req → NoDup (sr_outputs req) →
  swap_response_from_json response = Ok r →
  complete_prepared_open_channel prepared response = Ok completed →
  restores_signed (op_mint_url (po_opening prepared)) (sr_outputs req) (resp_signatures r) x.2 →
  ∃ result h' n' payment,
    recover_open_channel_from_swap (po_channel_id prepared) x = (Ok result, (h', n')) ∧
    chost_channel h' (po_channel_id prepared)
      = Some (Funded (funding_of_opening (po_opening prepared) (co_funding_proofs_json completed)) PhOpen payment) ∧
    (op_change_amount_raw (po_opening prepared) ≠ 0 →
       or_change_proofs_json result = co_change_proofs_json completed) ∧
    (∀ d, d ≠ po_channel_id prepared → chost_channel h' d = chost_channel x.1 d).
Proof.
  intros [Hwf (pm & Hch)] (rnd & inputs & text & v & Htext & Hv & Hrj & Hfj & Hcj & Hcj' & _) Hp Hreq Hnd Hr Hc Hrest.
  apply completed_texts in Hc as (req' & funding & plain & Hreq' & Hres & ->).
  assert (req' = req) as -> by congruence. cbn [co_funding_proofs_json co_change_proofs_json].
  destruct (restore_after_swap _ _ _ _ _ _ _ _ _ _ _ _ _ _ _ _ Hp Htext Hv Hrj Hfj Hcj Hreq Hnd Hr Hres)
    as (fp & cp & Heq & Hl & Hfreq & Hcreq & Hfund & Hplain).
  apply opening_result_inj in Heq as [<- <-].
  set (o := po_opening prepared) in *. set (id := po_channel_id prepared) in *. set (k := length funding) in *.
  assert (∀ l l' n, rtc restore_step x.2 n → length l = length l' → zip l l' ⊆ zip (sr_outputs req) (resp_signatures r) →
    ∃ rest rr n', on_net (network_error RestoreVerification (Some id))
        (call_mint_restore (op_mint_url o) (restore_request_json l)) (x.1, n) = (Ok rest, (x.1, n')) ∧
      restore_response_from_json rest = Ok rr ∧ restores rr l l' ∧ rtc restore_step x.2 n') as Hnet.
  { intros l l' n Hn Hll Hsub. destruct (Hrest l l' n Hn Hll Hsub) as (rest & rr & n' & Hcall & Hrr & Hres').
    exists rest, rr, n'. unfold on_net. cbn [fst snd]. rewrite Hcall. split_and!; [done..|].
    eapply rtc_r; [exact Hn|]. eexists _, _. by rewrite Hcall. }
  destruct (Hnet (take k (sr_outputs req)) (take k (resp_signatures r)) x.2) as (rest & rr & n1 & Hn1 & Hrr & Hr1 & Hs1);
    [reflexivity|rewrite !length_take; lia|apply zip_take_subset|].
  destruct (Hnet (drop k (sr_outputs req)) (drop k (resp_signatures r)) n1) as (rest2 & rr2 & n2 & Hn2 & Hrr2 & Hr2 & _);
    [done|rewrite !length_drop; lia|apply zip_drop_subset|].
  specialize (Hfund rest rr Hrr Hr1). specialize (Hplain rest2 rr2 Hrr2 Hr2). rewrite <-Hcj' in Hcreq, Hplain.
  unfold recover_open_channel_from_swap.
  rewrite (M_bind_step _ _ _ _ _ (prepare_recovery_Ok id o pm x _ _ Hwf Hch Hfreq Hcreq)).
  cbn [pr_mint_url pr_funding_restore_request_json pr_change_restore_request_json].
  destruct x as [h n]. cbn [fst snd] in *. rewrite (M_bind_step _ _ _ _ _ Hn1).
  set (z := op_change_amount_raw o =? 0) in *. set (n3 := if z then n1 else n2).
  rewrite (M_bind_step _ _ _ (if z then None else Some rest2) (h, n3))
    by (unfold n3; destruct z; [done|by rewrite (M_bind_step _ _ _ _ _ Hn2)]).
  unfold z. rewrite (complete_recovery_Ok id o _ _ _ rest rest2 funding plain
    (load_params_keyset _ _ _ _ Hp) Hfund Hplain), lift_bind.
  destruct (finish_recovery id o pm (h, n3) (proofs_to_json funding)
    (cr_change_proofs_json (recovered id o (keyset_info p) funding plain))
    (cr_result (recovered id o (keyset_info p) funding plain)) Hwf Hch) as (h' & Hfin & Hch' & Hd).
  eexists _, h', n3, pm. split_and!; [exact Hfin|exact Hch'| |exact Hd].
  intros Hz%Z.eqb_neq. cbn. by rewrite Hz.
Qed.
End valid.

(** ** Payments *)

Section payments.
Context {HJ : JsonLaws} {HO : OpeningLaws} {HE : EncodingLaws} {HS : SecpLaws} {HB : SchnorrLaws}.

(** What signing a payment took: an open channel, a balance within capacity, and the
    external-signer flow over the stored texts; nothing is changed. *)
Lemma sign_payment_Ok c balance x pay y :
  chost_wf x.1 → sign_payment c balance x = (Ok pay, y) →
  ∃ f pm text v mj tj, y = x ∧ chost_channel x.1 c = Some (Funded f PhOpen pm) ∧ balance <= cf_capacity f ∧
    create_unsigned_balance_update (cf_params_json f) (cf_keyset_info_json f) (cf_channel_secret_hex f)
      (cf_funding_proofs_json f) balance = Ok text ∧ json_parse text = Ok v ∧
    idx_str v "message_hex" = Some mj ∧ idx_str v "tweak_scalar_hex" = Some tj ∧
    ∃ raw sig, client_sign_with_tweaked_key x.1 (cf_sender_pubkey_hex f) mj tj = Ok raw ∧
      signature_from_str raw = Ok sig ∧ pay = Payment_new c balance (signature_to_string sig).
Proof.
  intros Hwf. unfold sign_payment, sign_payment_internal, on_host, asks, mbind, M_bind, lift.
  rewrite (chost_funding _ _ Hwf), (chost_state _ _ Hwf).
  destruct (chost_channel x.1 c) as [[o [fl|] pm|f ph pm]|]; cbn [shows vw_funding vw_state ok_or]; try done.
  destruct ph; cbn; try done.
  destruct (balance <=? cf_capacity f) eqn:Hb; cbn; [|done].
  unfold UnsignedBalanceUpdate_new.
  destruct (create_unsigned_balance_update _ _ _ _ _) as [text|e|] eqn:Htext; cbn; [|done..].
  destruct (json_parse text) as [v|e|] eqn:Hv; cbn; [|done..].
  destruct (idx_str v "message_hex") as [mj|] eqn:Hm; cbn; [|done].
  destruct (idx_str v "tweak_scalar_hex") as [tj|] eqn:Ht; cbn; [|done].
  unfold client_sign_balance_update, on_host, asks, lift, mbind, M_bind. cbn.
  destruct (client_sign_with_tweaked_key x.1 (cf_sender_pubkey_hex f) mj tj) as [raw|e|] eqn:Hsg; [|done..].
  unfold UnsignedBalanceUpdate_sign. cbn. destruct (signature_from_str raw) as [sig|e|] eqn:Hraw; cbn; [|done..].
  intros [= <- <-]. eexists f, pm, text, v, mj, tj. do 2 (split; [done|]). split; [lia|].
  do 4 (split; [done|]). by exists raw, sig.
Qed.

(** C13: what the client signs, the receiver accepts: a payment that [sign_payment] returned,
    for a channel that both sides hold open with the same parameters and funding proofs, is
    accepted by the receiver's [process_payment] whenever it covers the amount due and is
    within the capacity; signing needs an open channel and changes nothing on the client's
    side. *)
Theorem client_payment_accepted {R C : Type} {SH : SpilmanHost R C} {HR : HostSpec R C}
    (errors_to_json : list ChannelVerificationError → string) c balance x pay y f ph pm p proof proofs
    (h : R) f' capacity ctx :
  chost_wf x.1 → sign_payment c balance x = (Ok pay, y) →
  chost_channel x.1 c = Some (Funded f ph pm) →
  load_params (cf_params_json f) (cf_channel_secret_hex f) (cf_keyset_info_json f) = Ok p →
  cf_sender_pubkey_hex f = pubkey_to_hex (sender_pubkey p) →
  proofs_from_json (cf_funding_proofs_json f) = Ok (proof :: proofs) → proof_witness proof = None →
  host_wf h → c ≠ "" → pay_signature pay ≠ "" →
  v_state (hview h c) = Some Open → v_funding (hview h c) = Some f' →
  load_params (params_json f') (channel_secret_hex f') (keyset_info_json f') = Ok p →
  proofs_from_json (funding_proofs_json f') = Ok (proof :: proofs) →
  stored_capacity (params_json f') = Ok capacity → due h c (Some ctx) <= balance <= capacity →
  y = x ∧ ph = PhOpen ∧ pay_channel_id pay = c ∧ pay_balance pay = balance ∧
  ∃ r, (process_payment errors_to_json (pay_channel_id pay) (pay_balance pay) (pay_signature pay)
          (pay_params pay) (pay_funding_proofs pay) ctx h).1 = Ok r ∧
       Bridge.ps_balance r = balance ∧ ps_amount_due r = due h c (Some ctx).
Proof.
  intros Hwf Hsign Hch Hp Hpk Hpr Hw Hwfh Hc Hsne Hst Hf' Hp' Hpr' Hcap Hdue.
  destruct (sign_payment_Ok _ _ _ _ _ Hwf Hsign)
    as (f0 & pm0 & text & v & mj & tj & -> & Hch0 & _ & Htext & Hv & Hm & Ht & raw & sig & Hsg & Hraw & ->).
  rewrite Hch in Hch0. injection Hch0 as <- -> <-. cbn in *. split_and!; [done..|].
  destruct (chost_key x.1 (cf_sender_pubkey_hex f)) as [secret|] eqn:Hk.
  2: { pose proof (chost_no_key _ _ mj tj Hwf Hk) as Hno. by rewrite Hsg in Hno. }
  apply (chost_sign _ _ _ mj tj _ Hwf Hk) in Hsg as [aux Hsg]. apply (chost_key_ok _ _ _ Hwf) in Hk as Hkey.
  assert (public_key secret = sender_pubkey p) as Hsec.
  { rewrite Hpk in Hkey. apply (f_equal pubkey_from_str) in Hkey. rewrite !pubkey_hex_inv in Hkey. by injection Hkey. }
  assert (signature_to_string sig = raw) as Hsr.
  { apply create_unsigned_Ok in Htext as Hparts.
    destruct Hparts as (p' & pr' & cm & req0 & z & rj & (_ & _ & _ & _ & _ & Hz & _) & Heq). rewrite Heq in Hv.
    destruct (proj1 (flow_signature aux secret p' balance req0 z rj v mj tj raw Hz Hv Hm Ht) Hsg) as (k & _ & ->).
    rewrite signature_str_inv in Hraw. by injection Hraw as <-. }
  eapply authorized_payment_accepted; try done. rewrite Hsr. apply (verify_signature_iff _ c).
  exact (flow_verifies aux _ _ _ _ secret balance p proof proofs text v mj tj raw _ _ _ _ c
    Hp Hsec Hpr Hw Htext Hv Hm Ht Hsg Hp' Hpr').
Qed.
End payments.
End openers.

(** ** Value *)

Section value.
Context {T : CashuTypes} {O : CashuOps} {W : OpeningOps}.
Context {HJ : JsonLaws} {HO : OpeningLaws} {HE : EncodingLaws} {HC : ConstructLaws} {HU : UnblindLaws} {HM : PreMintLaws}.

(** What the mint charges for the inputs, in thousandths. *)
Definition input_ppk (keysets : list KeySetInfo) (q : Proof) : Z :=
  default 0 (fee_by_keyset keysets !! proof_keyset_id q).
Definition input_fee_of (keysets : list KeySetInfo) (proofs : list Proof) : Z :=
  div_ceil (sumZ (input_ppk keysets <$> proofs)) 1000.

Lemma add_inputs_Ok fees acc proofs r :
  try_fold (add_input fees) acc proofs = Ok r →
  r.1 = acc.1 + sumZ (proof_amount <$> proofs) ∧
  r.2 = acc.2 + sumZ ((λ q, default 0 (fees !! proof_keyset_id q)) <$> proofs) ∧
  (acc.1 <= u64_max → r.1 <= u64_max).
Proof.
  revert acc. induction proofs as [|q proofs IH]; intros [v f]; cbn [try_fold].
  - intros [= <-]. cbn. split_and!; [lia..|done].
  - intros (acc' & Ha & Hr)%bind_Ok. unfold add_input in Ha. result_inv.
    repeat match goal with E : checked_add _ _ = Some _ |- _ => apply checked_add_Some in E as [-> ?] end.
    match goal with E : fees !! _ = Some ?a |- _ => rename E into Hfee; rename a into a0 end.
    destruct (IH _ Hr) as (H1 & H2 & H3). cbn [fst snd] in *.
    rewrite !fmap_cons. cbn [sumZ foldr]. fold (sumZ (proof_amount <$> proofs)).
    fold (sumZ ((λ q, default 0 (fees !! proof_keyset_id q)) <$> proofs)). rewrite Hfee. cbn [from_option].
    change (id a0) with a0. split_and!; [lia..|]. intros _. by apply H3.
Qed.
Lemma post_swap_value_Ok proofs keysets fees :
  compute_post_swap_value_from_input_keysets proofs keysets = Ok fees →
  mf_input_value fees = sumZ (proof_amount <$> proofs) ∧ mf_input_fee fees = input_fee_of keysets proofs ∧
  mf_post_swap_value fees = saturating_sub (mf_input_value fees) (mf_input_fee fees) ∧
  mf_input_value fees <= u64_max.
Proof.
  unfold compute_post_swap_value_from_input_keysets. intros ([v f] & Hf & [= <-])%bind_Ok.
  apply add_inputs_Ok in Hf as (H1 & H2 & H3). cbn in *. rewrite H1, H2, !Z.add_0_l.
  split_and!; try done. rewrite H1, Z.add_0_l in H3. apply H3. by unfold u64_max.
Qed.

Lemma from_json_funding json v ks secret p :
  json_parse json = Ok v → from_json_with_channel_secret json ks secret = Ok p →
  idx_u64 v "funding_token_amount" = Some (funding_token_amount p).
Proof.
  intros Hv. unfold from_json_with_channel_secret, req_u64. rewrite Hv. cbn [map_err mbind Result_bind].
  intros Hp. repeat (result_inv_step; subst).
  match goal with E : ChannelParameters_new _ _ _ _ _ _ _ _ _ _ _ = Ok _ |- _ =>
    apply ChannelParameters_new_Ok in E as [-> _] end. done.
Qed.

(** What sizing a channel writes down. *)
Lemma compute_inner_spec time proofs iv pv fee url u rh sh sj expiry ks max cap fund mode text :
  compute_channel_from_proofs_inner time proofs iv pv fee url u rh sh sj expiry ks max cap fund mode = Ok text →
  0 <= pv <= u64_max → from_option is_u64 True fund →
  ∃ p0 v, json_parse text = Ok v ∧ is_u64 (funding_token_amount p0) ∧ is_u64 (pv - funding_token_amount p0) ∧
    idx_u64 v "change_amount_raw" = Some (pv - funding_token_amount p0) ∧
    idx_str v "params_json" = Some (get_channel_id_params_json p0) ∧
    idx_str v "proofs_json" = Some (proofs_to_json proofs).
Proof.
  intros Hc Hpv Hfund. unfold compute_channel_from_proofs_inner in Hc.
  case_bool_decide; [done|]. set (amt := default pv fund) in *.
  destruct (pv <? amt) eqn:Hle; [done|].
  assert (is_u64 amt ∧ is_u64 (pv - amt)) as [H1 H2].
  { unfold is_u64, u64_max in *. subst amt. destruct fund; cbn in *; unfold is_u64 in *; lia. }
  result_inv. match goal with E : ChannelParameters_new _ _ _ _ _ _ _ _ _ _ _ = Ok ?q |- _ =>
    apply ChannelParameters_new_Ok in E as [E _]; exists (with_commitment_mode q mode) end.
  eexists. split; [apply json_print_inv|]. subst. cbn [funding_token_amount with_commitment_mode].
  split_and!; try done; [apply idx_u64_obj; try done; keys_nodup|apply idx_str_obj; [keys_nodup|done]..].
Qed.

(** C25: opening a channel destroys no value: the swap that the prepared opening submits
    spends exactly the given proofs, and its outputs (the funding amount and the change)
    are worth their value less the mint's input fee, which is the sum of the keysets' rates
    rounded up once. *)
Theorem opening_conserves_value time proofs keysets fees url u rh sh sj expiry kj ks max cap fund mode text
    rnd now token sender prepared p :
  parse_keyset_info_from_json kj = Ok ks →
  compute_post_swap_value_from_input_keysets proofs keysets = Ok fees →
  from_option is_u64 True fund → 0 <= input_fee_of keysets proofs →
  compute_channel_from_proofs_inner time proofs (mf_input_value fees) (mf_post_swap_value fees)
    (mf_input_fee fees) url u rh sh sj expiry ks max cap fund mode = Ok text →
  prepare_open rnd now text sj kj token sender = Ok prepared →
  load_params (op_params_json (po_opening prepared)) sj kj = Ok p → sound_params p →
  ∃ req, swap_request_from_json (po_swap_request_json prepared) = Ok req ∧ sr_inputs req = proofs ∧
    sumZ (bm_amount <$> sr_outputs req)
      = saturating_sub (sumZ (proof_amount <$> proofs)) (input_fee_of keysets proofs) ∧
    funding_token_amount p + op_change_amount_raw (po_opening prepared) = sumZ (bm_amount <$> sr_outputs req).
Proof.
  intros Hks Hfees Hfund Hfee Hcomp Hprep Hp Hsp.
  destruct (post_swap_value_Ok _ _ _ Hfees) as (Hiv & Hif & Hpv & Hmax).
  destruct (compute_inner_spec _ _ _ _ _ _ _ _ _ _ _ _ _ _ _ _ _ Hcomp) as (p0 & v & Hv & Hu1 & Hu2 & Hch & Hpj & Hprj);
    [unfold saturating_sub in *; unfold u64_max in *; lia|done|].
  unfold prepare_open in Hprep. rewrite Hv in Hprep. cbn [map_err mbind Result_bind] in Hprep.
  rewrite Hpj, Hprj, Hch in Hprep. unfold compute_field, swap_field in Hprep.
  cbn [ok_or default mbind Result_bind] in Hprep. result_inv. cbn [po_opening op_params_json] in Hp.
  match goal with E : create_funding_swap_with_plain_change _ _ _ _ _ _ = Ok _ |- _ =>
    destruct (create_funding_swap_spec _ _ _ _ _ _ _ _ Hp E)
      as (d & fs & bms & cs & ins & v' & rj & Hswap & Hv' & Hj & Hrj & _) end.
  pose proof Hswap as (_ & Hins & _). rewrite proofs_json_inv in Hins. injection Hins as <-.
  destruct (swap_request_json_inv (swap_request_of bms cs proofs)) as (rj' & Hj' & Hinv).
  cbn [po_swap_request_json po_opening op_change_amount_raw].
  assert (funding_token_amount p = funding_token_amount p0) as Hamt.
  { apply load_params_iff in Hp as (ks' & secret & _ & _ & Hp).
    apply (from_json_funding _ _ _ _ _ (json_parse_params_json p0)) in Hp. unfold idx_u64 in Hp.
    rewrite json_entries_get in Hp. cbn in Hp. rewrite json_as_u64_num in Hp by done. by injection Hp. }
  exists (swap_request_of bms cs proofs). pose proof (swap_value _ _ _ _ _ _ _ _ _ Hsp Hu2 Hswap) as Hval.
  split_and!; [congruence|done| |].
  - rewrite Hval, Hamt, <-Hiv, <-Hif, <-Hpv. lia.
  - rewrite Hval. unfold id. done.
Qed.
End value.
