(* ===== verification/ClientExamples.v ===== *)
(** * The sender's bridge on concrete inputs

    A client over an empty storage opens the channel of [Channel.Examples] at a mint that can
    be run, loses the mint's answer and recovers, and pays the receiver of
    [Bridge.Examples]: the theorems of [ClientProofs.v] at inputs where their hypotheses
    hold. *)

From S2P Require Import Prelude Cashu Toy Amounts Params SwapCompletion Deterministic Channel Mint Storage StorageSpec Host Bridge ClientStorage ClientStorageSpec Funding Bindings FundingProofs ClientHost Client ClientProofs.

#[local] Existing Instance Toy.types.
#[local] Existing Instance Toy.ops.
#[local] Existing Instance Toy.json_laws.
#[local] Existing Instance Toy.encoding_laws.
#[local] Existing Instance Toy.construct_laws.
#[local] Existing Instance Toy.secp_laws.
#[local] Existing Instance Toy.schnorr_laws.
#[local] Existing Instance ToyOpening.ops.
#[local] Existing Instance ToyOpening.opening_laws.
#[local] Existing Instance ToyOpening.premint_laws.
#[local] Existing Instance ToyOpening.unblind_laws.
#[local] Existing Instance Toy.BlindedMessage_tree.
#[local] Existing Instance Toy.RestoreResponse_tree.
Import Bridge.Examples Channel.Examples FundingProofs.Examples.

(** A mint with the keys of [Channel.Examples] that remembers what it has signed; its
    answers to swaps may get lost. *)
Record ToyMint := mk_ToyMint { loses_answers : bool; signed : list (BlindedMessage * BlindSignature) }.
Definition sign_message (m : BlindedMessage) : BlindSignature := Toy.sign (bm_amount m + 10) m.
Definition mint_swap (request : string) (n : ToyMint) : Result MintRequestError string * ToyMint :=
  match swap_request_from_json request with
  | Ok r =>
      let n' := mk_ToyMint (loses_answers n) (signed n ++ zip (sr_outputs r) (sign_message <$> sr_outputs r)) in
      (if loses_answers n then Err (Transport "timeout")
       else map_err Transport (swap_response_to_json (mk_SwapResponse (sign_message <$> sr_outputs r) None)), n')
  | _ => (Err (Transport "bad request"), n)
  end.
Definition decode_message (v : Value) : option BlindedMessage := Toy.of_tree v.
Definition find_signed (n : ToyMint) (m : BlindedMessage) : option (BlindedMessage * BlindSignature) :=
  List.find (λ e, bool_decide (e.1 = m)) (signed n).
Definition restore_answer (n : ToyMint) (outputs : list BlindedMessage) : string :=
  let found := omap (find_signed n) outputs in Toy.print_data (mk_RestoreResponse found.*1 found.*2).
Definition mint_restore (request : string) (n : ToyMint) : Result MintRequestError string * ToyMint :=
  (map_err Transport
     (v ← json_parse request;
      outputs ← ok_or "outputs" (json_get v "outputs" ≫= json_as_array);
      Ok (restore_answer n (omap decode_message outputs))), n).
Definition mint_listing : string :=
  json_print (json_obj [("keysets", json_arr [json_obj [("id", json_str (keyset_id keyset : string));
    ("unit", json_str "sat"); ("active", json_bool true); ("input_fee_ppk", json_num 100)]])]).
#[local] Instance toy_network : SpilmanClientNetworking ToyMint := {|
  call_mint_swap _ := mint_swap;
  call_mint_restore _ := mint_restore;
  call_mint_keysets _ n := (Ok mint_listing, n);
  call_mint_keys _ _ n := (Err (Transport "not used"), n);
|}.

(** The sender of [Channel.Examples] over an empty storage, with two proofs of 16: the mint
    takes 1, 25 fund the channel and 6 come back. *)
Definition client : ConfigurableClientHost MemoryClientStorage :=
  add_key (ClientHost_new MemoryClientStorage_new 1000 (λ m t, bytes_of_string m)) (alice_secret sender).
Lemma client_wf : chost_wf client.
Proof. apply add_key_wf, ClientHost_new_wf, cmem_new_wf. Qed.
Definition input (s : string) : Proof := mk_Proof 16 (keyset_id keyset) s (7 : PublicKey) None None None.
Definition inputs : list Proof := [input "a"; input "b"].
Definition request : OpenRequest :=
  FromProofs "http://mint" "sat" (proofs_to_json inputs) (pubkey_to_hex (receiver_pubkey params))
    (pubkey_to_hex (sender_pubkey params)) 2000 (info "sat") 0 (Some 20) (Some 25).
Definition open_at (n : ToyMint) : Result OpenChannelError OpenChannelResult *
    (ConfigurableClientHost MemoryClientStorage * ToyMint) :=
  open_channel Mint.Examples.meta (λ _, 1000) (λ _, 7) Ordinary request (client, n).
Definition reliable : ToyMint := mk_ToyMint false [].
Definition unreliable : ToyMint := mk_ToyMint true [].

(** The answer gets lost: the error says so, and the opening is stored. *)
Example lost_answer :
  match open_at unreliable with
  | (Err e, y) => input_may_be_spent e && bool_decide (oe_stage e = SwapSubmitted)
                  && bool_decide (client_channel_state y.1 cid = Some OpeningFromSwap)
  | _ => false
  end = true.
Proof. vm_compute. reflexivity. Qed.
Lemma opening_never_loses_inputs_witness :
  ∃ e, (open_at unreliable).1 = Err e ∧ keeps client (open_at unreliable).2.1 ∧
    (input_may_be_spent e = false → harmless unreliable (open_at unreliable).2.2).
Proof.
  pose proof lost_answer as Hl. destruct (open_at unreliable) as [[r|e|] y] eqn:Ho; [discriminate Hl| |discriminate Hl].
  unfold open_at in Ho.
  destruct (opening_never_loses_inputs Mint.Examples.meta (λ _, 1000) (λ _, 7) Ordinary request
    (client, unreliable) (Err e) y client_wf Ho) as (_ & Hk & Hn & _).
  exists e. split; [reflexivity|]. split; [exact Hk|]. exact (Hn e eq_refl).
Defined.

Example opened : is_ok (open_at reliable).1 = true.
Proof. vm_compute. reflexivity. Qed.
(** The keyset of the opening has the id of its keys and a key for 1, and the funding is small. *)
Example opened_in_range :
  match open_at reliable with
  | (Ok result, y) =>
      match chost_channel y.1 (or_channel_id result) with
      | Some (Funded f _ _) =>
          match load_params (cf_params_json f) (cf_channel_secret_hex f) (cf_keyset_info_json f) with
          | Ok p => bool_decide (1 ∈ amounts_largest_first (keyset_info p)) &&
                    bool_decide (0 ∉ amounts_largest_first (keyset_info p)) && (funding_token_amount p <? 2 ^ 54) &&
                    bool_decide (keyset_id (keyset_info p) = computed_keyset_id (keyset_info p))
          | _ => false
          end
      | _ => false
      end
  | _ => false
  end = true.
Proof. vm_compute. reflexivity. Qed.
Lemma opened_channel_is_valid_witness :
  ∃ result f payment p proofs, (open_at reliable).1 = Ok result ∧
    chost_channel (open_at reliable).2.1 (or_channel_id result) = Some (Funded f PhOpen payment) ∧
    load_params (cf_params_json f) (cf_channel_secret_hex f) (cf_keyset_info_json f) = Ok p ∧
    proofs_from_json (cf_funding_proofs_json f) = Ok proofs ∧ get_channel_id p = or_channel_id result ∧
    verify_valid_channel proofs p = Ok verification_ok ∧
    EstablishedChannel_new p proofs = Ok (mk_EstablishedChannel p proofs).
Proof.
  pose proof opened as Hl. pose proof opened_in_range as Hr.
  destruct (open_at reliable) as [[r|e|] y] eqn:Ho; [|discriminate Hl..].
  unfold open_at in Ho.
  destruct (opened_channel_is_valid Mint.Examples.meta (λ _, 1000) (λ _, 7) Ordinary request
    (client, reliable) r y client_wf Ho) as (f & pm & Hch & _ & (p & proofs & Hp & Hpr & Hid & Hv) & _).
  rewrite Hch, Hp in Hr. rewrite !andb_true_iff in Hr. destruct Hr as [[[H1 H0] Hf] Hks].
  apply bool_decide_eq_true_1 in H1, H0, Hks. apply Z.ltb_lt in Hf. destruct (Hv H1 H0 Hf) as [Hver Hec].
  exists r, f, pm, p, proofs. split; [reflexivity|]. split; [exact Hch|]. split; [exact Hp|]. split; [exact Hpr|].
  split; [exact Hid|]. split; [|exact Hec]. rewrite Hver. unfold id_verdict. rewrite bool_decide_eq_true_2 by exact Hks.
  reflexivity.
Defined.

(** *** Recovery *)

Lemma find_signed_in n m s :
  NoDup (signed n).*1 → (m, s) ∈ signed n → find_signed n m = Some (m, s).
Proof.
  unfold find_signed. induction (signed n) as [|[m' s'] l IH]; intros Hnd Hin; [by apply elem_of_nil in Hin|].
  cbn [fst List.find]. apply NoDup_cons in Hnd as [Hni Hnd]. case_bool_decide as Hm.
  - cbn [fst] in Hm. subst m'. apply elem_of_cons in Hin as [[= ->]|Hin]; [reflexivity|].
    exfalso. apply Hni. exact (list_elem_of_fmap_2 fst _ _ Hin).
  - apply elem_of_cons in Hin as [[= -> ->]|Hin]; [by exfalso; apply Hm|]. by apply IH.
Qed.
Lemma toy_restores url n0 outs sigs :
  signed n0 = zip outs sigs → length outs = length sigs → NoDup outs → restores_signed url outs sigs n0.
Proof.
  intros Hs Hl Hnd outs' sigs' n Hn Hl' Hsub.
  assert (n = n0) as -> by (clear -Hn; induction Hn as [|n n1 n2 (u & q & ->) _ IH]; [reflexivity|exact IH]).
  exists (restore_answer n0 outs'), (mk_RestoreResponse outs' sigs'), n0.
  assert (omap (find_signed n0) outs' = zip outs' sigs') as Hfound.
  { rewrite <-Hs in Hsub. revert sigs' Hl' Hsub. induction outs' as [|m outs' IH]; intros [|s sigs'] Hl' Hsub;
      try discriminate Hl'; [reflexivity|]. cbn [omap list_omap zip_with].
    rewrite (find_signed_in n0 m s); [|by rewrite Hs, fst_zip by lia|apply Hsub; left].
    f_equal. apply IH; [by injection Hl'|]. intros e He. apply Hsub. by right. }
  assert (restore_answer n0 outs' = Toy.print_data (mk_RestoreResponse outs' sigs')) as Hans.
  { unfold restore_answer. rewrite Hfound, fst_zip, snd_zip by lia. reflexivity. }
  split; [|split].
  - change (call_mint_restore url) with mint_restore. unfold mint_restore, restore_request_json.
    rewrite json_print_inv. cbn [mbind Result_bind]. rewrite json_get_obj by keys_nodup. cbn [alist_get].
    assert (omap decode_message (blinded_message_to_value <$> outs') = outs') as Hdec.
    { clear. induction outs' as [|m l IH]; [reflexivity|]. cbn [fmap list_fmap omap list_omap].
      change (decode_message (blinded_message_to_value m)) with (Toy.of_tree (A:=BlindedMessage) (Toy.to_tree m)).
      rewrite Toy.of_to_tree. by f_equal. }
    rewrite <-Hdec at 2. reflexivity.
  - rewrite Hans. exact (Toy.parse_print_data (mk_RestoreResponse outs' sigs')).
  - split; [exact Hl'|reflexivity].
Qed.

(** The opening as it was prepared, and the answer that got lost. *)
Definition input_keysets : list KeySetInfo :=
  [mk_KeySetInfo (keyset_id keyset) ("sat" : CurrencyUnit) true 100 None].
Definition fees : MixedInputFeeResult :=
  Deterministic.Examples.get_ok (mk_MixedInputFeeResult 0 0 0)
    (compute_post_swap_value_from_input_keysets inputs input_keysets).
Definition computed : Result string string :=
  compute_channel_from_proofs_inner 1000 inputs (mf_input_value fees) (mf_post_swap_value fees)
    (mf_input_fee fees) "http://mint" (cp_unit params) (pubkey_to_hex (receiver_pubkey params))
    (pubkey_to_hex (sender_pubkey params)) secret_text 2000 keyset 0 (Some 20) (Some 25) Ordinary.
Definition prepared_result : Result OpenChannelError PreparedOpenChannel :=
  prepare_open 7 1000 (Deterministic.Examples.get_ok "" computed) secret_text (info "sat") (proofs_to_json inputs)
    (pubkey_to_hex (sender_pubkey params)).
Definition prepared : PreparedOpenChannel :=
  Deterministic.Examples.get_ok (mk_PreparedOpenChannel "" "" "" (mk_ClientChannelOpeningFromSwap "" "" "" "" "" 0 0 "" "" "" "" 0 0) "" "" "")
    prepared_result.
Lemma get_ok_eq {E A} (d : A) (m : Result E A) : is_ok m = true → m = Ok (Deterministic.Examples.get_ok d m).
Proof. by destruct m. Qed.
Lemma computed_ok : computed = Ok (Deterministic.Examples.get_ok "" computed).
Proof. apply get_ok_eq. vm_compute. reflexivity. Qed.
Lemma prepared_ok : prepared_result = Ok prepared.
Proof. apply get_ok_eq. vm_compute. reflexivity. Qed.
Lemma prepared_well : well_prepared prepared.
Proof. exact (prepare_open_well _ _ _ _ _ _ _ _ prepared_ok). Qed.
Definition swap : SwapRequest :=
  Deterministic.Examples.get_ok (SwapRequest_new [] []) (swap_request_from_json (po_swap_request_json prepared)).
Definition answer : string :=
  Deterministic.Examples.get_ok "" (mint_swap (po_swap_request_json prepared) reliable).1.
Definition answered : SwapResponse :=
  Deterministic.Examples.get_ok (mk_SwapResponse [] None) (swap_response_from_json answer).
Definition completed_result : Result OpenChannelError CompletedOpenChannel :=
  complete_prepared_open_channel prepared answer.
Definition lost : ConfigurableClientHost MemoryClientStorage * ToyMint := (open_at unreliable).2.

Lemma prepared_loads :
  load_params (op_params_json (po_opening prepared)) (op_channel_secret_hex (po_opening prepared))
    (op_keyset_info_json (po_opening prepared)) = Ok params.
Proof. vm_compute. reflexivity. Qed.
Lemma lost_pending : pending prepared lost.1.
Proof.
  split; [exact (proj1 (open_channel_settled Mint.Examples.meta (λ _, 1000) (λ _, 7) Ordinary request
    (client, unreliable) client_wf))|].
  assert (match cmem_channel (client_store lost.1) (po_channel_id prepared) with
          | Some (Opening o None _) => bool_decide (o = po_opening prepared) | _ => false end = true) as Hb
    by (vm_compute; reflexivity).
  change (∃ payment, cmem_channel (client_store lost.1) (po_channel_id prepared)
    = Some (Opening (po_opening prepared) None payment)).
  destruct (cmem_channel (client_store lost.1) (po_channel_id prepared)) as [[o [fl|] pm|f ph pm]|];
    try discriminate Hb. apply bool_decide_eq_true_1 in Hb as ->. by exists pm.
Qed.
Lemma lost_signed : signed lost.2 = zip (sr_outputs swap) (resp_signatures answered).
Proof. vm_compute. reflexivity. Qed.
Lemma recovery_restores_opening_witness :
  ∃ result h' n' f payment,
    recover_open_channel_from_swap (po_channel_id prepared) lost = (Ok result, (h', n')) ∧
    chost_channel h' (po_channel_id prepared) = Some (Funded f PhOpen payment).
Proof.
  destruct completed_result as [completed|e|] eqn:Hc;
    [|exfalso; assert (is_ok completed_result = true) as Hok by (vm_compute; reflexivity);
      rewrite Hc in Hok; discriminate Hok..].
  unfold completed_result in Hc.
  destruct (recovery_restores_opening prepared lost params swap answer answered completed
    lost_pending prepared_well prepared_loads) as (result & h' & n' & pm & Hr & Hch & _).
  - apply get_ok_eq. vm_compute. reflexivity.
  - refine (bool_decide_unpack (NoDup (sr_outputs swap)) _). vm_compute. exact I.
  - apply get_ok_eq. vm_compute. reflexivity.
  - exact Hc.
  - apply toy_restores; [exact lost_signed|vm_compute; reflexivity|].
    refine (bool_decide_unpack (NoDup (sr_outputs swap)) _). vm_compute. exact I.
  - eexists result, h', n', _, pm. split; [exact Hr|exact Hch].
Defined.
Example recovered_proofs :
  match recover_open_channel_from_swap cid lost with
  | (Ok _, (h, _)) => bool_decide (cf_funding_proofs_json <$> get_channel_funding h cid = Some proofs_text)
  | _ => false
  end = true.
Proof. vm_compute. reflexivity. Qed.

(** *** Value and payments *)

Lemma opening_conserves_value_witness :
  ∃ req, sr_inputs req = inputs ∧ sumZ (bm_amount <$> sr_outputs req) = 31 ∧
    funding_token_amount params + op_change_amount_raw (po_opening prepared) = 31.
Proof.
  destruct (opening_conserves_value 1000 inputs input_keysets fees "http://mint" (cp_unit params)
    (pubkey_to_hex (receiver_pubkey params)) (pubkey_to_hex (sender_pubkey params)) secret_text 2000 (info "sat")
    keyset 0 (Some 20) (Some 25) Ordinary (Deterministic.Examples.get_ok "" computed) 7 1000 (proofs_to_json inputs)
    (pubkey_to_hex (sender_pubkey params)) prepared params) as (req & _ & Hin & Hsum & Hf).
  - vm_compute. reflexivity.
  - vm_compute. reflexivity.
  - split; [vm_compute; discriminate|vm_compute; reflexivity].
  - vm_compute. discriminate.
  - exact computed_ok.
  - exact prepared_ok.
  - exact prepared_loads.
  - exact example_params_sound.
  - exists req. assert (saturating_sub (sumZ (proof_amount <$> inputs)) (input_fee_of input_keysets inputs) = 31)
      as E by (vm_compute; reflexivity). rewrite E in Hsum. split; [exact Hin|]. split; [exact Hsum|].
    exact (eq_trans Hf Hsum).
Defined.

(** The opened channel pays 10 to the receiver of [Bridge.Examples]. *)
#[local] Existing Instance toy_host.
#[local] Existing Instance toy_host_spec.
Definition payer : ConfigurableClientHost MemoryClientStorage * ToyMint := (open_at reliable).2.
Definition funding_record : ClientChannelFunding :=
  default (mk_ClientChannelFunding "" "" "" "" "" 0 0 "" 0) (get_channel_funding payer.1 cid).
Definition payment10 : Result string Payment := (sign_payment cid 10 payer).1.
Lemma payer_wf : chost_wf payer.1.
Proof.
  exact (proj1 (open_channel_settled Mint.Examples.meta (λ _, 1000) (λ _, 7) Ordinary request
    (client, reliable) client_wf)).
Qed.
Lemma payer_channel : chost_channel payer.1 cid = Some (Funded funding_record PhOpen None).
Proof.
  assert (match cmem_channel (client_store payer.1) cid with
          | Some (Funded f PhOpen None) => bool_decide (f = funding_record) | _ => false end = true) as Hb
    by (vm_compute; reflexivity).
  change (cmem_channel (client_store payer.1) cid = Some (Funded funding_record PhOpen None)).
  destruct (cmem_channel (client_store payer.1) cid) as [[o fl pm|f [] [pm|]]|]; try discriminate Hb.
  by apply bool_decide_eq_true_1 in Hb as ->.
Qed.
Lemma client_payment_accepted_witness :
  ∃ pay r, payment10 = Ok pay ∧ pay_balance pay = 10 ∧
    (process_payment show_errors (pay_channel_id pay) (pay_balance pay) (pay_signature pay)
       (pay_params pay) (pay_funding_proofs pay) "req" funded).1 = Ok r ∧ Bridge.ps_balance r = 10.
Proof.
  assert (match payment10 with Ok pay => bool_decide (pay_signature pay ≠ "") | _ => false end = true) as Hok
    by (vm_compute; reflexivity).
  unfold payment10 in *. destruct (sign_payment cid 10 payer) as [[pay|e|] y] eqn:Hs; [|discriminate Hok..].
  cbn [fst] in Hok. apply bool_decide_eq_true_1 in Hok.
  destruct (client_payment_accepted show_errors cid 10 payer pay y funding_record PhOpen None params proof0
    (tl proofs) funded stored 20 "req" payer_wf Hs payer_channel) as (_ & _ & _ & Hb & r & Hr & Hrb & _).
  - vm_compute. reflexivity.
  - vm_compute. reflexivity.
  - vm_compute. reflexivity.
  - vm_compute. reflexivity.
  - exact (ri_wf _ funded_inv).
  - vm_compute. discriminate.
  - exact Hok.
  - vm_compute. reflexivity.
  - apply Some_default. vm_compute. reflexivity.
  - vm_compute. reflexivity.
  - vm_compute. reflexivity.
  - vm_compute. reflexivity.
  - split; vm_compute; discriminate.
  - exists pay, r. split_and!; [reflexivity|exact Hb|exact Hr|exact Hrb].
Defined.
