(* ===== verification/Refund.v ===== *)
(** * Refunds ([crates/cdk-spilman/src/established_channel.rs])

    After the expiry of a channel the sender takes the funding back in one swap, prepared
    and stored before it is submitted; a lost answer is restored, and a stored refund can be
    moved to another output keyset. The theorems are in [RefundProofs.v]. *)

From S2P Require Import Prelude Cashu Toy Amounts Params SwapCompletion Deterministic Channel Mint Storage StorageSpec Host Bridge Close ClientStorage Funding.

(** ** Data *)

Record PreparedSenderRefundOutput {T : CashuTypes} := mk_PreparedSenderRefundOutput {
  ro_amount : Z;
  ro_index : Z;
  ro_secret : string;
  ro_blinding_factor : SecretKey;
  ro_blinded_message : BlindedMessage;
}.
Arguments mk_PreparedSenderRefundOutput {T}.
Record PreparedSenderRefund {T : CashuTypes} := mk_PreparedSenderRefund {
  rf_channel_id : string;
  rf_mint : string;
  rf_unit : CurrencyUnit;
  rf_output_keyset : KeysetInfo;
  rf_derivation_keyset : KeysetInfo;
  rf_derivation_version : Z;
  rf_derivation_context : bytes;
  rf_output_amount_raw : Z;
  rf_outputs : list PreparedSenderRefundOutput;
  rf_swap_request : SwapRequest;
}.
Arguments mk_PreparedSenderRefund {T}.

(** The failures a caller can tell apart by downcasting the [anyhow] error, the other
    messages, and an added context. *)
Inductive SenderRefundError := NotExpired (now expiry : Z) | ZeroNetValue.
Inductive AnyError {T : CashuTypes} :=
| RefundError (e : SenderRefundError)
| SenderCloseKeysetMissing
| CloseFailure (e : CloseError)
| Message (s : string)
| WithContext (context : string) (e : AnyError).
Arguments AnyError : clear implicits.
Arguments AnyError {T}.

(** ** Code the repository only calls *)

(** [cashu::nuts::State], [ProofState] and [CheckStateResponse] (NUT-07). *)
Inductive State := StSpent | StUnspent | StPending | StReserved | StPendingSpent.
#[global] Instance State_eq : EqDecision State.
Proof. solve_decision. Defined.
Record ProofState {T : CashuTypes} := mk_ProofState {
  st_y : PublicKey;
  st_state : State;
  st_witness : option Witness;
  st_rerandomization_r : option RerandomizationR;
}.
Arguments mk_ProofState {T}.

Class RefundOps {T : CashuTypes} := {
  (** [serde_json::to_vec], [to_value], [to_string] and [from_str] of derived instances *)
  keyset_to_vec : KeysetInfo → Result string bytes;
  id_to_value : Id → Result string Value;
  refund_to_value : PreparedSenderRefund → Result string Value;
  refund_to_json : PreparedSenderRefund → Result string string;
  refund_from_json : string → Result string PreparedSenderRefund;
  restore_response_to_json : RestoreResponse → Result string string;
  (** [value[key] = v] for a JSON object *)
  json_set : Value → string → Value → Value;
  (** NUT-11: the SIG_ALL message; [PublicKey::verify] of a message; [Proof::y] *)
  sig_all_msg_to_sign : SwapRequest → string;
  pubkey_verify : PublicKey → bytes → Signature → Result string unit;
  proof_y : Proof → Result string PublicKey;
}.

(** The trait [MintConnection] of [deterministic.rs]; the state [N] is the mint's and the
    network's. *)
Class MintConnection {T : CashuTypes} (N : Type) := {
  process_swap : SwapRequest → M N string SwapResponse;
  post_restore : list BlindedMessage → M N string RestoreResponse;
  check_state : list PublicKey → M N string (list ProofState);
}.

(** The request with another keyset for its outputs. *)
Definition bm_with_id {T : CashuTypes} (id : Id) (m : BlindedMessage) : BlindedMessage :=
  mk_BlindedMessage (bm_amount m) id (bm_blinded_secret m) (bm_witness m).

Definition with_output_ids {T : CashuTypes} (id : Id) (r : SwapRequest) : SwapRequest :=
  mk_SwapRequest (sr_inputs r) (bm_with_id id <$> sr_outputs r) (sr_rerandomized r).

(** What is relied on: the derived JSON forms of refunds and restore responses are lossless;
    in that of a request,
    the field ["id"] of the entries of ["outputs"] is the keyset of the outputs; the SIG_ALL
    digest is the SHA-256 digest of a text made of the inputs' secrets and points and the
    outputs' amounts and points (NUT-11), and keys sign the digests of messages. *)
Class RefundLaws {T : CashuTypes} {O : CashuOps} {R : RefundOps} : Prop := {
  refund_to_value_ok r : ∃ v, refund_to_value r = Ok v;
  refund_to_value_inj r r' v : refund_to_value r = Ok v → refund_to_value r' = Ok v → r = r';
  refund_json_inv r : ∃ s, refund_to_json r = Ok s ∧ refund_from_json s = Ok r;
  restore_response_inv r : ∃ s, restore_response_to_json r = Ok s ∧ restore_response_from_json s = Ok r;
  id_to_value_ok id : ∃ v, id_to_value id = Ok v;
  request_ids_value r v id iv :
    swap_request_to_value r = Ok v → id_to_value id = Ok iv →
    ∃ l, json_get v "outputs" ≫= json_as_array = Some l ∧
      swap_request_from_value (json_set v "outputs" (json_arr ((λ o, json_set o "id" iv) <$> l)))
      = Ok (with_output_ids id r);
  (** the digest of an ordinary request (the one of a rerandomized request is tagged) *)
  sig_all_text r :
    sr_rerandomized r = false → sig_all_message_hash r = sha256 (bytes_of_string (sig_all_msg_to_sign r));
  sig_all_text_ids r id : sig_all_msg_to_sign (with_output_ids id r) = sig_all_msg_to_sign r;
  pubkey_verify_digest pk m s : pubkey_verify pk m s = verify_schnorr s (sha256 m) pk;
}.

(** [any] turns a message into an [anyhow] error. *)
Definition any {T : CashuTypes} {A} (r : Result string A) : Result AnyError A := map_err Message r.
Definition any_m {T : CashuTypes} {N A} (m : M N string A) : M N AnyError A := mmap_err Message m.

Section refund.
Context {T : CashuTypes} {O : CashuOps} {R : RefundOps}.
Implicit Types ec : EstablishedChannel.

Definition SENDER_REFUND_LOOSE_CONTEXT : string := "sender_refund_loose".

(** ** Preparing a refund *)

(** [EstablishedChannel::from_client_channel_funding]. *)
Definition from_client_channel_funding (funding : ClientChannelFunding) :
    Result string EstablishedChannel :=
  keyset_info ← parse_keyset_info_from_json (cf_keyset_info_json funding);
  secret_bytes ← map_err (λ e, "invalid channel secret hex: " +:+ e)
    (hex_decode (cf_channel_secret_hex funding));
  _ ← ensure (bool_decide (length secret_bytes = 32%nat)) "channel secret is not 32 bytes";
  params ← from_json_with_channel_secret (cf_params_json funding) keyset_info secret_bytes;
  funding_proofs ← map_err (λ e, "invalid funding proofs JSON: " +:+ e)
    (proofs_from_json (cf_funding_proofs_json funding));
  EstablishedChannel_new params funding_proofs.

(** The hash input of an output's secret or blinding factor. *)
Definition refund_preimage ec (sender_secret : SecretKey) (keyset_json context : bytes)
    (amount index : Z) (role : string) : bytes :=
  channel_secret (ec_params ec) ++ secret_bytes sender_secret ++ context ++ keyset_json
  ++ be_bytes 4 1
  ++ bytes_of_string (get_channel_id (ec_params ec) +:+ "|" +:+ SENDER_REFUND_LOOSE_CONTEXT +:+ "|"
       +:+ pretty amount +:+ "|" +:+ pretty index +:+ "|" +:+ role).

Definition prepare_loose_refund_output ec (sender_secret : SecretKey) (amount index : Z)
    (output_keyset : KeysetInfo) (derivation_context : bytes) :
    Result string PreparedSenderRefundOutput :=
  let channel_id := get_channel_id (ec_params ec) in
  keyset_json ← keyset_to_vec output_keyset;
  let secret_hash :=
    sha256 (refund_preimage ec sender_secret keyset_json derivation_context amount index "secret") in
  let secret := SENDER_REFUND_LOOSE_CONTEXT +:+ ":" +:+ channel_id +:+ ":" +:+ pretty amount
                +:+ ":" +:+ hex_encode secret_hash in
  blinding_scalar ← hash_to_secp_scalar
    (refund_preimage ec sender_secret keyset_json derivation_context amount index "blinding") sha256;
  blinding_factor ← secret_from_slice (scalar_to_be_bytes blinding_scalar);
  blinded_point ← blind_message (bytes_of_string secret) blinding_factor;
  Ok (mk_PreparedSenderRefundOutput amount index secret blinding_factor
        (BlindedMessage_new amount (keyset_id output_keyset) blinded_point)).

(** The map over the amounts, with the index per amount. *)
Fixpoint prepare_loose_loop ec (sender_secret : SecretKey) (output_keyset : KeysetInfo)
    (derivation_context : bytes) (per_amount_index : list (Z * Z)) (amounts : list Z) :
    Result string (list PreparedSenderRefundOutput) :=
  match amounts with
  | [] => Ok []
  | amount :: amounts =>
      let index := default 0 (bt_lookup amount per_amount_index) in
      output ← prepare_loose_refund_output ec sender_secret amount index output_keyset derivation_context;
      outputs ← prepare_loose_loop ec sender_secret output_keyset derivation_context
                  (bt_insert amount (index + 1) per_amount_index) amounts;
      Ok (output :: outputs)
  end.
Definition prepare_loose_refund_outputs ec (sender_secret : SecretKey) (amounts : list Z)
    (output_keyset : KeysetInfo) (derivation_context : bytes) :
    Result string (list PreparedSenderRefundOutput) :=
  prepare_loose_loop ec sender_secret output_keyset derivation_context [] amounts.

(** The recomputed denominations of a keyset. *)
Definition canonical_amounts (ks : KeysetInfo) : list Z :=
  amounts_largest_first
    (KeysetInfo_new (keyset_id ks) (ki_unit ks) (active_keys ks) (input_fee_ppk ks) (final_expiry ks)).

Definition prepare_unsigned_sender_refund ec (sender_secret : SecretKey) (output_keyset : KeysetInfo)
    (derivation_context : bytes) : Result AnyError PreparedSenderRefund :=
  let params := ec_params ec in
  _ ← ensure (bool_decide (ki_unit output_keyset = cp_unit params)) (Message "refund output unit mismatch");
  _ ← ensure (bool_decide (computed_keyset_id output_keyset = keyset_id output_keyset))
        (Message "refund output keyset identity mismatch");
  _ ← ensure (bool_decide (0 ∉ canonical_amounts output_keyset)
              && bool_decide (canonical_amounts output_keyset = amounts_largest_first output_keyset))
        (Message "invalid refund output denominations");
  funding_total ← any (funding_total_raw ec);
  fee ← ok_or (Message "funding input fee overflow")
    (checked_mul (input_fee_ppk (keyset_info params)) (Z.of_nat (length (funding_proofs ec))));
  let input_fee := div_ceil fee 1000 in
  output_amount_raw ← ok_or (Message "funding input fee exceeds funding total")
    (checked_sub funding_total input_fee);
  if output_amount_raw =? 0 then Err (RefundError ZeroNetValue)
  else
    output_amounts ← any (from_target output_amount_raw (maximum_amount_for_one_output params) output_keyset);
    outputs ← any (prepare_loose_refund_outputs ec sender_secret (ola_amounts output_amounts)
                     output_keyset derivation_context);
    Ok (mk_PreparedSenderRefund (get_channel_id params) (mint params) (cp_unit params)
          output_keyset output_keyset 1 derivation_context output_amount_raw outputs
          (SwapRequest_new ((λ p, set_witness p None) <$> funding_proofs ec)
             (ro_blinded_message <$> outputs))).

Definition with_request (prepared : PreparedSenderRefund) (request : SwapRequest) : PreparedSenderRefund :=
  mk_PreparedSenderRefund (rf_channel_id prepared) (rf_mint prepared) (rf_unit prepared)
    (rf_output_keyset prepared) (rf_derivation_keyset prepared) (rf_derivation_version prepared)
    (rf_derivation_context prepared) (rf_output_amount_raw prepared) (rf_outputs prepared) request.

(** [aux] is the randomness the signature draws. *)
Definition prepare_sender_refund_after_expiry (aux : bytes) ec (sender_secret : SecretKey) (now_seconds : Z)
    (output_keyset : KeysetInfo) (derivation_context : bytes) : Result AnyError PreparedSenderRefund :=
  if now_seconds <=? expiry_timestamp (ec_params ec) then
    Err (RefundError (NotExpired now_seconds (expiry_timestamp (ec_params ec))))
  else
    _ ← ensure (bool_decide (public_key sender_secret = sender_pubkey (ec_params ec)))
          (Message "incorrect sender secret");
    prepared ← prepare_unsigned_sender_refund ec sender_secret output_keyset derivation_context;
    refund_secret ← any (get_sender_blinded_secret_key_for_stage1_refund (ec_params ec) sender_secret);
    request ← any (sign_sig_all aux (rf_swap_request prepared) refund_secret);
    Ok (with_request prepared request).

(** ** Replacing the output keyset *)

Definition replace_id (ks : KeysetInfo) (output : PreparedSenderRefundOutput) :
    Result AnyError PreparedSenderRefundOutput :=
  _ ← ensure (bool_decide (is_Some (amount_key (active_keys ks) (ro_amount output))))
        (Message "replacement keyset lacks refund denomination");
  Ok (mk_PreparedSenderRefundOutput (ro_amount output) (ro_index output) (ro_secret output)
        (ro_blinding_factor output) (bm_with_id (keyset_id ks) (ro_blinded_message output))).

(** The request through its JSON form, with ["id"] of every output replaced. *)
Definition replace_request_ids (request : SwapRequest) (id : Id) : Result AnyError SwapRequest :=
  value ← any (swap_request_to_value request);
  outputs ← ok_or (Message "missing refund outputs") (json_get value "outputs" ≫= json_as_array);
  outputs ← try_map (λ output, id_value ← any (id_to_value id); Ok (json_set output "id" id_value)) outputs;
  any (swap_request_from_value (json_set value "outputs" (json_arr outputs))).

Definition replace_output_keyset (prepared : PreparedSenderRefund) (ks : KeysetInfo) :
    Result AnyError PreparedSenderRefund :=
  _ ← ensure (bool_decide (ki_unit ks = rf_unit prepared)) (Message "refund output unit mismatch");
  _ ← ensure (bool_decide (computed_keyset_id ks = keyset_id ks)
              && bool_decide (canonical_amounts ks = amounts_largest_first ks)
              && bool_decide (0 ∉ canonical_amounts ks))
        (Message "invalid refund output keyset");
  outputs ← try_map (replace_id ks) (rf_outputs prepared);
  request ← replace_request_ids (rf_swap_request prepared) (keyset_id ks);
  Ok (mk_PreparedSenderRefund (rf_channel_id prepared) (rf_mint prepared) (rf_unit prepared)
        ks (rf_derivation_keyset prepared) (rf_derivation_version prepared)
        (rf_derivation_context prepared) (rf_output_amount_raw prepared) outputs request).

(** ** Verifying a stored refund *)

Definition refund_verify (prepared : PreparedSenderRefund) ec (sender_secret : SecretKey) :
    Result AnyError unit :=
  let params := ec_params ec in
  _ ← ensure (expiry_timestamp params <? u64_max) (Message "channel expiry cannot be exceeded");
  _ ← ensure (bool_decide (public_key sender_secret = sender_pubkey params))
        (Message "incorrect sender secret");
  expected ← prepare_unsigned_sender_refund ec sender_secret (rf_derivation_keyset prepared)
    (rf_derivation_context prepared);
  expected ← replace_output_keyset expected (rf_output_keyset prepared);
  let msg := sig_all_msg_to_sign (rf_swap_request prepared) in
  input ← ok_or (Message "missing refund input") (head (sr_inputs (rf_swap_request prepared)));
  let actual := with_request prepared (set_first_witness (rf_swap_request prepared) None) in
  match proof_witness input with
  | Some (P2PKWitness signatures) =>
      _ ← ensure (bool_decide (length signatures = 1%nat)) (Message "expected one refund signature");
      pubkey ← any (get_sender_blinded_pubkey_for_stage1_refund params);
      signature ← any (signature_from_str (default "" (head signatures)));
      _ ← any (pubkey_verify pubkey (bytes_of_string msg) signature);
      v ← any (refund_to_value actual);
      v' ← any (refund_to_value expected);
      ensure (bool_decide (v = v'))
        (Message "prepared refund does not match channel, metadata or deterministic request")
  | _ => Err (Message "missing refund authorization")
  end.

Definition with_output_keyset (prepared : PreparedSenderRefund) ec (sender_secret : SecretKey)
    (output_keyset : KeysetInfo) : Result AnyError PreparedSenderRefund :=
  _ ← refund_verify prepared ec sender_secret;
  _ ← ensure (bool_decide (keyset_id (rf_output_keyset prepared) ≠ keyset_id output_keyset))
        (Message "refund successor requires a different output keyset");
  successor ← replace_output_keyset prepared output_keyset;
  _ ← ensure (bool_decide (sig_all_msg_to_sign (rf_swap_request prepared)
                           = sig_all_msg_to_sign (rf_swap_request successor)))
        (Message "refund successor changed SIG_ALL");
  _ ← refund_verify successor ec sender_secret;
  Ok successor.

Definition PreparedSenderRefund_to_json (prepared : PreparedSenderRefund) : Result AnyError string :=
  any (refund_to_json prepared).
Definition PreparedSenderRefund_from_json (json : string) : Result AnyError PreparedSenderRefund :=
  any (refund_from_json json).

(** ** Completing a refund *)

Definition complete_prepared_sender_refund ec (prepared : PreparedSenderRefund)
    (sender_secret : SecretKey) (blind_signatures : list BlindSignature) :
    Result AnyError (list Proof) :=
  _ ← refund_verify prepared ec sender_secret;
  any (complete_exact_signatures blind_signatures
         ((λ o, mk_PreparedOutput (ro_blinded_message o) (ro_secret o) (ro_blinding_factor o))
            <$> rf_outputs prepared)
         (rf_output_keyset prepared) None).

Definition complete_prepared_sender_refund_restore ec (prepared : PreparedSenderRefund)
    (sender_secret : SecretKey) (response : RestoreResponse) : Result AnyError (option (list Proof)) :=
  _ ← refund_verify prepared ec sender_secret;
  if bool_decide (rr_outputs response = []) && bool_decide (rr_signatures response = []) then Ok None
  else
    signatures ← any (match_restore_response response (ro_blinded_message <$> rf_outputs prepared) "refund");
    Some <$> complete_prepared_sender_refund ec prepared sender_secret signatures.

Section mint.
Context {N : Type} {MC : MintConnection N}.

Definition submit_prepared_sender_refund ec (prepared : PreparedSenderRefund)
    (sender_secret : SecretKey) (now_seconds : Z) : M N AnyError (list Proof) :=
  if now_seconds <=? expiry_timestamp (ec_params ec) then
    lift (Err (RefundError (NotExpired now_seconds (expiry_timestamp (ec_params ec)))))
  else
    _ ← lift (refund_verify prepared ec sender_secret);
    response ← any_m (process_swap (rf_swap_request prepared));
    lift (complete_prepared_sender_refund ec prepared sender_secret (resp_signatures response)).

Definition restore_prepared_sender_refund_outputs ec (prepared : PreparedSenderRefund)
    (sender_secret : SecretKey) : M N AnyError (option (list Proof)) :=
  _ ← lift (refund_verify prepared ec sender_secret);
  response ← any_m (post_restore (ro_blinded_message <$> rf_outputs prepared));
  lift (complete_prepared_sender_refund_restore ec prepared sender_secret response).
End mint.
End refund.
