(* ===== verification/Recovery.v ===== *)
(** * Recovery ([recovery.rs] and the sender's restore of [sender_and_receiver.rs], both of
    [crates/cdk-spilman/src])

    After a spend whose outcome is unknown both parties reconcile: they ask the mint for the
    state of the funding proofs first, and only if all are spent they restore the outputs of
    their stored attempts; the sender also searches for her share of a close by the receiver.
    The theorems are in [RecoveryProofs.v]. *)

From S2P Require Import Prelude Cashu Toy Amounts Params SwapCompletion Deterministic Channel Mint Storage StorageSpec Host Bridge Close ClientStorage Funding Refund.

Inductive FundingState := FsUnspent | FsPending | FsSpent | FsMixed.
#[global] Instance FundingState_eq : EqDecision FundingState.
Proof. solve_decision. Defined.
Record FundingInspection {T : CashuTypes} := mk_FundingInspection {
  fi_state : FundingState;
  fi_response : list ProofState;
}.
Arguments mk_FundingInspection {T}.
Inductive ChannelRecovery {T : CashuTypes} (P : Type) :=
| Unspent (funding : FundingInspection)
| Pending (funding : FundingInspection)
| Mixed (funding : FundingInspection)
| Recovered (funding : FundingInspection) (payout : P)
| SpentNoKnownPayout (funding : FundingInspection).
Arguments Unspent {T P}.
Arguments Pending {T P}.
Arguments Mixed {T P}.
Arguments Recovered {T P}.
Arguments SpentNoKnownPayout {T P}.
Inductive SenderRecoverySource := SourceRefund (attempt_index : nat) | SourceReceiverClose.
Record RecoveredSenderFunds {T : CashuTypes} := mk_RecoveredSenderFunds {
  rs_source : SenderRecoverySource;
  rs_proofs : list Proof;
}.
Arguments mk_RecoveredSenderFunds {T}.

Section recovery.
Context {T : CashuTypes} {O : CashuOps} {R : RefundOps}.
Implicit Types ec : EstablishedChannel.

Section mint.
(** The auxiliary randomness of the signature over the sender's output of an amount and index. *)
Context (aux : Z → Z → bytes).
Context {N : Type} {MC : MintConnection N}.

(** ** Inspecting the funding *)

(** [self.state()] as a classification of the answers. *)
Definition aggregate (states : list ProofState) : Result AnyError FundingState :=
  match states with
  | [] => Err (Message "unsupported funding state")
  | first :: _ =>
      if existsb (λ s, negb (bool_decide (st_state s = st_state first))) states then Ok FsMixed
      else match st_state first with
           | StUnspent => Ok FsUnspent
           | StPending => Ok FsPending
           | StSpent => Ok FsSpent
           | StReserved | StPendingSpent => Err (Message "unsupported funding state")
           end
  end.

Definition inspect_funding ec : M N AnyError FundingInspection :=
  verification ← lift (any (verify_valid_channel (funding_proofs ec) (ec_params ec)));
  _ ← lift (ensure (valid verification) (Message "invalid channel funding model"));
  ys ← lift (any (try_map proof_y (funding_proofs ec)));
  _ ← lift (ensure (bool_decide (ys ≠ []) && bool_decide (NoDup ys)) (Message "invalid funding identities"));
  states ← mmap_err (λ e, WithContext "funding inspection failed" (Message e)) (check_state ys);
  _ ← lift (ensure (bool_decide (length states = length ys)
              && forallb (λ y, bool_decide (length (filter (λ s, st_y s = y) states) = 1%nat)) ys)
            (Message "funding inspection requires exact identity coverage"));
  _ ← lift (ensure (forallb (λ s, bool_decide (st_state s ∈ [StUnspent; StPending; StSpent])) states)
            (Message "unsupported funding state"));
  state ← lift (aggregate states);
  lift (Ok (mk_FundingInspection state states)).

Definition close_randomness (funding : FundingInspection) (mode : CommitmentMode) :
    Result AnyError (option RerandomizationR) :=
  _ ← ensure (bool_decide (fi_state funding = FsSpent)) (Message "funding is not fully spent");
  first ← ok_or (Message "empty funding evidence") (st_rerandomization_r <$> head (fi_response funding));
  _ ← ensure (forallb (λ s, bool_decide (st_rerandomization_r s = first)) (fi_response funding))
        (Message "inconsistent committed mint randomness");
  _ ← ensure (Bool.eqb (bool_decide (is_Some first)) (bool_decide (mode = Rerandomized)))
        (Message "close mode/committed randomness mismatch");
  Ok first.

Definition without_payout {P} (funding : FundingInspection) : ChannelRecovery P :=
  match fi_state funding with
  | FsUnspent => Unspent funding
  | FsPending => Pending funding
  | FsMixed => Mixed funding
  | FsSpent => SpentNoKnownPayout funding
  end.

(** ** The sender's share of a close *)

Implicit Types sender : SpilmanChannelSender.

Definition sign_sender_close_proof sender (proof : Proof) (amount index : Z) : Result string Proof :=
  let params := ec_params (channel sender) in
  proof ← attach_stage2_p2pk_e params proof RoleSender amount index;
  tweak_info ← stage2_tweak_info_for_role params RoleSender amount index;
  let tweak_hex := hex_encode (scalar_to_be_bytes (stage2_tweak_scalar tweak_info)) in
  let msg_hex := hex_encode (sha256 (bytes_of_string (proof_secret proof))) in
  let secret_hex := hex_encode (secret_bytes (alice_secret sender)) in
  signature ← sign_with_tweaked_key_util (aux amount index) secret_hex msg_hex tweak_hex;
  Ok (set_witness proof (Some (P2PKWitness [signature]))).

(** One query of the search, for one amount and index; [None] when the mint knows nothing. *)
Definition restore_sender_output sender (output_keysets : list KeysetInfo)
    (randomness : option RerandomizationR) (amount index : Z) : M N AnyError (option Proof) :=
  let params := ec_params (channel sender) in
  let kid := keyset_id (keyset_info params) in
  det_output ← lift (any (create_deterministic_output_with_blinding params "sender" amount index));
  blinded_message ← lift (any (to_blinded_message det_output amount kid));
  let request := SwapRequest_new [] [blinded_message] in
  let request := match commitment_mode params with
                 | Ordinary => request | Rerandomized => with_rerandomization request end in
  restore_request ← lift (any (swap_restore_request request randomness));
  response ← mmap_err (λ e, WithContext ("failed to restore sender output for amount " +:+ pretty amount
                               +:+ " index " +:+ pretty index) (Message e)) (post_restore restore_request);
  if bool_decide (rr_outputs response = []) && bool_decide (rr_signatures response = []) then lift (Ok None)
  else
    first ← lift (ok_or (Message "sender restore lacks signature") (head (rr_signatures response)));
    let signature_id := bs_keyset_id first in
    output_keyset ← lift (ok_or SenderCloseKeysetMissing
      (List.find (λ ks, bool_decide (keyset_id ks = signature_id)
                        && bool_decide (ki_unit ks = cp_unit params)) output_keysets));
    outputs ← lift (try_map (λ output,
        _ ← ensure (bool_decide (bm_keyset_id output = kid) || bool_decide (bm_keyset_id output = signature_id))
              (Message "unexpected restored sender keyset");
        Ok (bm_with_id signature_id output)) (rr_outputs response));
    let blinded_message := bm_with_id signature_id blinded_message in
    let request := mk_SwapRequest (sr_inputs request) (bm_with_id signature_id <$> sr_outputs request)
                     (sr_rerandomized request) in
    completed ← lift (any (complete_swap_restore request
      [mk_PreparedSwapOutput blinded_message (ds_secret det_output) (ds_blinding_factor det_output)]
      randomness (mk_RestoreResponse outputs (rr_signatures response)) output_keyset));
    proofs ← lift (ok_or (Message "sender restore unexpectedly empty") completed);
    proof ← lift (ok_or (Message "construct_proofs returned no proofs") (last proofs));
    lift (Some <$> any (sign_sender_close_proof sender proof amount index)).

(** The loop over the index for one amount: it ends at the first output the mint does not
    know. *)
Definition sender_step sender (output_keysets : list KeysetInfo) (randomness : option RerandomizationR)
    (amount : Z) (s : Z * list Proof * N) : Z * list Proof * N + Result AnyError (list Proof) * N :=
  let '(index, recovered, n) := s in
  match restore_sender_output sender output_keysets randomness amount index n with
  | (Ok None, n) => inr (Ok recovered, n)
  | (Ok (Some proof), n) => inl (index + 1, recovered ++ [proof], n)
  | (Err e, n) => inr (Err e, n)
  | (Diverge, n) => inr (Diverge, n)
  end.
Definition restore_sender_amount sender (output_keysets : list KeysetInfo)
    (randomness : option RerandomizationR) (amount : Z) : M N AnyError (list Proof) := λ n,
  match iter_until 64 (sender_step sender output_keysets randomness amount) (0, [], n) with
  | inr r => r
  | inl (_, n) => (Diverge, n)
  end.

Fixpoint restore_sender_loop sender (output_keysets : list KeysetInfo)
    (randomness : option RerandomizationR) (amounts : list Z) : M N AnyError (list Proof) :=
  match amounts with
  | [] => lift (Ok [])
  | amount :: amounts =>
      proofs ← restore_sender_amount sender output_keysets randomness amount;
      rest ← restore_sender_loop sender output_keysets randomness amounts;
      lift (Ok (proofs ++ rest))
  end.

(** The amounts tried, smallest first; a maximum of 0 is no limit. *)
Definition discovery_amounts (params : ChannelParameters) : list Z :=
  let max_amount := maximum_amount_for_one_output params in
  reverse (filter (λ amt, max_amount = 0 ∨ amt <= max_amount) (amounts_largest_first (keyset_info params))).

Definition restore_sender_proofs_with_keysets_and_randomness sender (output_keysets : list KeysetInfo)
    (randomness : option RerandomizationR) : M N AnyError (list Proof) :=
  restore_sender_loop sender output_keysets randomness (discovery_amounts (ec_params (channel sender))).

Definition restore_sender_proofs_with_keysets sender (output_keysets : list KeysetInfo) :
    M N AnyError (list Proof) :=
  let mode := commitment_mode (ec_params (channel sender)) in
  randomness ← match mode with
               | Ordinary => lift (Ok None)
               | Rerandomized =>
                   inspection ← inspect_funding (channel sender); lift (close_randomness inspection mode)
               end;
  restore_sender_proofs_with_keysets_and_randomness sender output_keysets randomness.
Definition restore_sender_proofs sender : M N AnyError (list Proof) :=
  restore_sender_proofs_with_keysets sender [keyset_info (ec_params (channel sender))].

Definition restore_sender_proofs_from_client_funding (funding : ClientChannelFunding)
    (sender_secret : SecretKey) : M N AnyError (list Proof) :=
  channel ← lift (any (from_client_channel_funding funding));
  restore_sender_proofs (mk_SpilmanChannelSender sender_secret channel).

(** ** The sender's reconciliation *)

(** [get_or_insert]. *)
Definition get_or_insert {A} (o : option A) (a : A) : option A :=
  match o with Some _ => o | None => Some a end.

(** The inner loop: the restored outputs against every retained attempt. The result is the
    attempt that fits with its proofs, or the first error and whether some attempt found the
    response empty. *)
Fixpoint try_candidates sender (attempt_index : nat) (candidates : list PreparedSenderRefund)
    (response : RestoreResponse) (candidate_error : option AnyError) (empty : bool) :
    Result AnyError ((nat * list Proof) + (option AnyError * bool)) :=
  match candidates with
  | [] => Ok (inr (candidate_error, empty))
  | candidate :: candidates =>
      match complete_prepared_sender_refund_restore (channel sender) candidate (alice_secret sender) response with
      | Ok (Some proofs) => Ok (inl (attempt_index, proofs))
      | Ok None => try_candidates sender (S attempt_index) candidates response candidate_error true
      | Err e => try_candidates sender (S attempt_index) candidates response (get_or_insert candidate_error e) empty
      | Diverge => Diverge
      end
  end.

(** The keyset of a restored output is the one of its signature. *)
Definition route_ids (response : RestoreResponse) : RestoreResponse :=
  mk_RestoreResponse
    (zip_with (λ output signature, bm_with_id (bs_keyset_id signature) output)
       (rr_outputs response) (rr_signatures response))
    (rr_signatures response).

Fixpoint restore_refunds sender (all attempts : list PreparedSenderRefund)
    (invalid_restore : option AnyError) :
    M N AnyError ((nat * list Proof) + option AnyError) :=
  match attempts with
  | [] => lift (Ok (inr invalid_restore))
  | attempt :: attempts =>
      match_call (post_restore (ro_blinded_message <$> rf_outputs attempt))
        (λ response,
           if bool_decide (length (rr_outputs response) ≠ length (rr_signatures response)) then
             restore_refunds sender all attempts
               (get_or_insert invalid_restore (Message "invalid refund restore coverage"))
           else
             found ← lift (try_candidates sender 0 all (route_ids response) None false);
             match found with
             | inl recovered => lift (Ok (inl recovered))
             | inr (Some e, false) =>
                 restore_refunds sender all attempts (get_or_insert invalid_restore e)
             | inr _ => restore_refunds sender all attempts invalid_restore
             end)
        (λ error, restore_refunds sender all attempts (get_or_insert invalid_restore (Message error)))
  end.

Definition recover_funds sender (refund_attempts : list PreparedSenderRefund)
    (close_output_keysets : list KeysetInfo) : M N AnyError (ChannelRecovery RecoveredSenderFunds) :=
  let params := ec_params (channel sender) in
  _ ← lift (ensure (bool_decide (public_key (alice_secret sender) = sender_pubkey params))
              (Message "incorrect sender key"));
  _ ← lift (try_map (λ attempt, refund_verify attempt (channel sender) (alice_secret sender)) refund_attempts);
  funding ← inspect_funding (channel sender);
  if bool_decide (fi_state funding ≠ FsSpent) then lift (Ok (without_payout funding))
  else
    found ← restore_refunds sender refund_attempts refund_attempts None;
    match found with
    | inl (attempt_index, proofs) =>
        lift (Ok (Recovered funding (mk_RecoveredSenderFunds (SourceRefund attempt_index) proofs)))
    | inr (Some error) => lift (Err (WithContext "refund recovery unresolved" error))
    | inr None =>
        randomness ← lift (close_randomness funding (commitment_mode params));
        proofs ← restore_sender_proofs_with_keysets_and_randomness sender close_output_keysets randomness;
        lift (Ok match proofs with
                 | [] => SpentNoKnownPayout funding
                 | _ => Recovered funding (mk_RecoveredSenderFunds SourceReceiverClose proofs)
                 end)
    end.
End mint.

(** ** The receiver's reconciliation *)

Section receiver.
Context {H C N : Type} `{!SpilmanHost H C} {MC : MintConnection N}.

(** One attempt: the restore of its exact outputs, completed as the close. *)
Definition recover_attempt (attempt : PreparedClose) (request : SwapRequest)
    (randomness : option RerandomizationR) : M (H * N) AnyError (option CompletedClose) :=
  outputs ← lift (any (swap_restore_request request randomness));
  response ← (λ x, let '(r, n) := post_restore outputs x.2 in (any r, (x.1, n)));
  json ← lift (any (restore_response_to_json response));
  asks (λ x, map_err CloseFailure (complete_prepared_close_restore_with_randomness x.1 json attempt randomness)).

(** [for attempt in attempts { self.verify_prepared_close(..)?; }]. *)
Fixpoint try_verify (attempts : list PreparedClose) (funding : ChannelFunding) (payment : PaymentProof)
    (receiver : PublicKey) : M H AnyError unit :=
  match attempts with
  | [] => lift (Ok tt)
  | attempt :: attempts =>
      _ ← mmap_err CloseFailure (verify_prepared_close attempt funding payment receiver);
      try_verify attempts funding payment receiver
  end.

Fixpoint recover_attempts (attempts : list PreparedClose) (randomness : option RerandomizationR)
    (invalid_restore : option AnyError) : M (H * N) AnyError (CompletedClose + option AnyError) :=
  match attempts with
  | [] => lift (Ok (inr invalid_restore))
  | attempt :: attempts =>
      request ← lift (any (swap_request_from_value (pc_swap_request attempt)));
      match_call (recover_attempt attempt request randomness)
        (λ found, match found with
                  | Some payout => lift (Ok (inl payout))
                  | None => recover_attempts attempts randomness invalid_restore
                  end)
        (λ error, recover_attempts attempts randomness (get_or_insert invalid_restore error))
  end.

Definition recover_close (channel_id : string) (attempts : list PreparedClose) :
    M (H * N) AnyError (ChannelRecovery CompletedClose) :=
  state ← asks (λ x, any (get_channel_state x.1 channel_id));
  _ ← lift (ensure (bool_decide (state = Some Closing)) (Message "channel is not closing"));
  stored ← on_host (modify (λ h, host_get_funding h channel_id));
  stored ← lift (ok_or (Message "missing channel funding") stored);
  closing ← asks (λ x, ok_or (Message "missing closing payment") (host_get_closing_data x.1 channel_id));
  let payment := mk_PaymentProof (cd_balance closing) (cd_signature closing) in
  secret ← lift (any (hex_decode (channel_secret_hex stored)));
  _ ← lift (ensure (bool_decide (length secret = 32%nat)) (Message "invalid channel secret length"));
  keyset ← lift (any (parse_keyset_info_from_json (keyset_info_json stored)));
  params ← lift (any (from_json_with_channel_secret (params_json stored) keyset secret));
  _ ← asks (λ x, ensure (bool_decide (get_channel_id params = channel_id)
                         && receiver_key_is_acceptable x.1 (receiver_pubkey params))
                   (Message "incorrect receiver channel binding"));
  _ ← (λ x, let '(r, h) := try_verify attempts stored payment (receiver_pubkey params) x.1 in (r, (h, x.2)));
  proofs ← lift (any (proofs_from_json (funding_proofs_json stored)));
  ec ← lift (any (EstablishedChannel_new params proofs));
  funding ← (λ x, let '(r, n) := inspect_funding ec x.2 in (r, (x.1, n)));
  if bool_decide (fi_state funding ≠ FsSpent) then lift (Ok (without_payout funding))
  else
    randomness ← lift (close_randomness funding (commitment_mode params));
    found ← recover_attempts attempts randomness None;
    match found with
    | inl payout => lift (Ok (Recovered funding payout))
    | inr (Some error) => lift (Err (WithContext "receiver close recovery unresolved" error))
    | inr None => lift (Ok (SpentNoKnownPayout funding))
    end.
End receiver.
End recovery.
