(* ===== verification/RefundProofs.v ===== *)
(** * Theorems about refunds and recovery ([Refund.v])

    A refund can be prepared exactly after the expiry, spends the whole funding and pays it
    to the sender less the input fee; what is stored verifies, survives a change of the
    output keyset, and completes to that value from the mint's answer or from a restore.
    Recovery asks for the state of the funding first and restores only what is spent; it
    finds the sender's share of a close by the receiver. *)

From S2P Require Import Prelude Cashu Toy Amounts Params SwapCompletion Deterministic Channel Mint Storage StorageSpec Host Bridge Close CloseProofs ClientStorage Funding FundingProofs Refund.

Section refund.
Context {T : CashuTypes} {O : CashuOps} {R : RefundOps} {HL : RefundLaws}.
Implicit Types ec : EstablishedChannel.
Implicit Types ks : KeysetInfo.

(** ** Keysets and funding as their Rust types hold them *)

(** The keys of a keyset are a [BTreeMap] with unsigned amounts, proofs have unsigned
    amounts, fees are unsigned. *)
Definition typed_keyset ks : Prop := bt_sorted (active_keys ks) ∧ Forall is_u64 (active_keys ks).*1.
Definition typed_channel ec : Prop :=
  Forall (λ p, is_u64 (proof_amount p)) (funding_proofs ec) ∧ is_u64 (input_fee_ppk (keyset_info (ec_params ec))).

(** A keyset that a refund accepts for its outputs. *)
Definition refund_keyset (u : CurrencyUnit) ks : Prop :=
  ki_unit ks = u ∧ computed_keyset_id ks = keyset_id ks ∧
  canonical_amounts ks = amounts_largest_first ks ∧ 0 ∉ amounts_largest_first ks.

Lemma canonical_amounts_keys ks a : a ∈ canonical_amounts ks ↔ is_Some (amount_key (active_keys ks) a).
Proof.
  unfold canonical_amounts, amount_key. cbn [amounts_largest_first KeysetInfo_new].
  by rewrite sort_by_key_perm, bt_lookup_is_Some.
Qed.
Lemma refund_keyset_wf u ks : typed_keyset ks → refund_keyset u ks → wf_amounts (amounts_largest_first ks).
Proof.
  intros [Hs Hn] (_ & _ & Hc & H0). rewrite <-Hc in *. split.
  - unfold canonical_amounts. cbn. apply sort_descending. by apply bt_sorted_NoDup.
  - apply Forall_forall. intros a Ha. assert (a ≠ 0) by congruence.
    unfold canonical_amounts in Ha. cbn in Ha. rewrite sort_by_key_perm in Ha.
    rewrite Forall_forall in Hn. destruct (Hn a Ha). lia.
Qed.

(** The value of the funding and what the mint takes for spending it. *)
Definition funding_value ec : Z := sumZ (proof_amount <$> funding_proofs ec).
Definition refund_fee ec : Z :=
  div_ceil (input_fee_ppk (keyset_info (ec_params ec)) * Z.of_nat (length (funding_proofs ec))) 1000.

(** ** The prepared swap *)

(** [o] is the output derived for its amount and index. *)
Definition refund_output ec secret ks ctx (o : PreparedSenderRefundOutput) : Prop :=
  prepare_loose_refund_output ec secret (ro_amount o) (ro_index o) ks ctx = Ok o.

Lemma prepare_loose_output_fields ec secret a i ks ctx o :
  prepare_loose_refund_output ec secret a i ks ctx = Ok o →
  ro_amount o = a ∧ ro_index o = i ∧
  blind_message (bytes_of_string (ro_secret o)) (ro_blinding_factor o) = Ok (bm_blinded_secret (ro_blinded_message o)) ∧
  ro_blinded_message o = BlindedMessage_new a (keyset_id ks) (bm_blinded_secret (ro_blinded_message o)).
Proof.
  unfold prepare_loose_refund_output.
  intros (kj & _ & (x & _ & (bf & _ & (b & Hb & [= <-])%bind_Ok)%bind_Ok)%bind_Ok)%bind_Ok. done.
Qed.
Lemma prepare_loose_loop_Ok ec secret ks ctx m amounts outputs :
  prepare_loose_loop ec secret ks ctx m amounts = Ok outputs →
  ro_amount <$> outputs = amounts ∧ Forall (refund_output ec secret ks ctx) outputs.
Proof.
  revert m outputs. induction amounts as [|a amounts IH]; intros m outputs; cbn; [by intros [= <-]|].
  intros (o & Ho & (os & Hos & [= <-])%bind_Ok)%bind_Ok. apply IH in Hos as [<- Hf].
  destruct (prepare_loose_output_fields _ _ _ _ _ _ _ Ho) as (Ha & Hi & _). cbn. rewrite Ha. split; [done|].
  constructor; [|done]. unfold refund_output. by rewrite Ha, Hi.
Qed.
(** What an unsigned refund is made of. *)
Definition unsigned_refund ec secret ks ctx prepared : Prop :=
  ∃ amounts outputs,
    refund_keyset (cp_unit (ec_params ec)) ks ∧
    checked_total "funding proof total overflow" (proof_amount <$> funding_proofs ec) = Ok (funding_value ec) ∧
    is_u64 (input_fee_ppk (keyset_info (ec_params ec)) * Z.of_nat (length (funding_proofs ec))) ∧
    0 < funding_value ec - refund_fee ec ∧
    from_target (funding_value ec - refund_fee ec) (maximum_amount_for_one_output (ec_params ec)) ks = Ok amounts ∧
    prepare_loose_refund_outputs ec secret (ola_amounts amounts) ks ctx = Ok outputs ∧
    prepared = mk_PreparedSenderRefund (get_channel_id (ec_params ec)) (mint (ec_params ec))
      (cp_unit (ec_params ec)) ks ks 1 ctx (funding_value ec - refund_fee ec) outputs
      (SwapRequest_new ((λ p, set_witness p None) <$> funding_proofs ec) (ro_blinded_message <$> outputs)).

Lemma prepare_unsigned_Ok ec secret ks ctx prepared :
  typed_channel ec →
  prepare_unsigned_sender_refund ec secret ks ctx = Ok prepared ↔ unsigned_refund ec secret ks ctx prepared.
Proof.
  intros [Hp [Hppk _]]. assert (Forall (λ x, 0 <= x) (proof_amount <$> funding_proofs ec)) as Hpos.
  { apply Forall_fmap. eapply Forall_impl; [exact Hp|]. intros p [? _]. done. }
  unfold prepare_unsigned_sender_refund, unsigned_refund, refund_keyset, funding_total_raw, any. split.
  - intros H. result_inv. apply bool_decide_eq_true_1 in Hm, Hm0.
    apply andb_true_iff in Hm1 as [H0 Hc]. apply bool_decide_eq_true_1 in H0, Hc.
    pose proof Hm2 as Ht. apply checked_total_Ok in Ht as [-> _]; [|done].
    apply checked_mul_Some in Hm3 as [-> Hfee]. apply checked_sub_Some in Hm4 as [-> Hle].
    exists a5, a6. rewrite <-Hc at 2. unfold is_u64, u64_max, funding_value, refund_fee in *.
    split_and!; try done; lia.
  - intros (amounts & outputs & (Hu & Hid & Hc & H0) & Ht & Hfee & Hpv & Hfrom & Hout & ->).
    rewrite !bool_decide_eq_true_2 by (done || congruence). cbn. rewrite Ht. cbn.
    rewrite (proj2 (checked_mul_Some _ _ _)) by (split; [reflexivity|]; unfold is_u64, u64_max in *; lia). cbn.
    fold (refund_fee ec). rewrite (proj2 (checked_sub_Some _ _ _)) by (split; [reflexivity|lia]). cbn.
    rewrite (proj2 (Z.eqb_neq _ _)) by lia. rewrite Hfrom. cbn. by rewrite Hout.
Qed.

(** The outputs of an unsigned refund are worth the funding less the fee. *)
Definition good_output ec secret ks ctx o : Prop :=
  0 <= ro_amount o ∧ refund_output ec secret ks ctx o ∧ is_Some (amount_key (active_keys ks) (ro_amount o)) ∧
  (0 < maximum_amount_for_one_output (ec_params ec) → ro_amount o <= maximum_amount_for_one_output (ec_params ec)).

Lemma unsigned_refund_u64 ec secret ks ctx prepared :
  typed_channel ec → unsigned_refund ec secret ks ctx prepared → is_u64 (funding_value ec - refund_fee ec).
Proof.
  intros [Hp [Hppk _]] (amounts & outputs & _ & Ht & _ & Hpos & _).
  apply checked_total_Ok in Ht as [_ Hle]; [|apply Forall_fmap; eapply Forall_impl; [exact Hp|]; by intros p [? _]].
  pose proof (div_ceil_nonneg (input_fee_ppk (keyset_info (ec_params ec)) * Z.of_nat (length (funding_proofs ec))) 1000).
  unfold is_u64, refund_fee, funding_value, u64_max in *. lia.
Qed.
Lemma unsigned_refund_value ec secret ks ctx prepared :
  typed_keyset ks → typed_channel ec → unsigned_refund ec secret ks ctx prepared →
  sumZ (ro_amount <$> rf_outputs prepared) = funding_value ec - refund_fee ec ∧
  Forall (good_output ec secret ks ctx) (rf_outputs prepared).
Proof.
  intros Hty Hch Hun. pose proof (unsigned_refund_u64 _ _ _ _ _ Hch Hun) as Hu.
  destruct Hun as (amounts & outputs & Hks & _ & _ & _ & Hfrom & Hout & ->). cbn [rf_outputs].
  pose proof (refund_keyset_wf _ _ Hty Hks) as Hwf. destruct Hks as (_ & _ & Hc & _).
  apply prepare_loose_loop_Ok in Hout as [Ham Hf]. destruct (split_amounts _ _ _ _ Hwf Hu Hfrom) as [Hsum Hall].
  rewrite Ham. split; [done|]. rewrite <-Ham, Forall_fmap in Hall.
  rewrite Forall_forall in Hf, Hall. apply Forall_forall. intros o Ho. destruct (Hall o Ho) as (H1 & H2 & H3).
  split; [lia|]. split; [by apply Hf|]. rewrite <-Hc in H2. by rewrite <-canonical_amounts_keys.
Qed.

(** ** Replacing the keyset *)

Lemma bm_with_id_same m : bm_with_id (bm_keyset_id m) m = m.
Proof. by destruct m. Qed.
Lemma bm_with_id_twice i j m : bm_with_id i (bm_with_id j m) = bm_with_id i m.
Proof. done. Qed.

Lemma replace_request_ids_Ok {HW : WireLaws} r id : replace_request_ids r id = Ok (with_output_ids id r).
Proof.
  unfold replace_request_ids, any. destruct (swap_request_inv r) as (v & Hv & _). rewrite Hv. cbn.
  destruct (id_to_value_ok id) as [iv Hiv]. destruct (request_ids_value r v id iv Hv Hiv) as (l & -> & Hr). cbn.
  rewrite (try_map_ext_ok _ (λ o, json_set o "id" iv)) by (intros o _; by rewrite Hiv). cbn. by rewrite Hr.
Qed.

Definition output_with_id ks (o : PreparedSenderRefundOutput) : PreparedSenderRefundOutput :=
  mk_PreparedSenderRefundOutput (ro_amount o) (ro_index o) (ro_secret o) (ro_blinding_factor o)
    (bm_with_id (keyset_id ks) (ro_blinded_message o)).
(** The refund with another output keyset. *)
Definition refund_with_keyset ks (r : PreparedSenderRefund) : PreparedSenderRefund :=
  mk_PreparedSenderRefund (rf_channel_id r) (rf_mint r) (rf_unit r) ks (rf_derivation_keyset r)
    (rf_derivation_version r) (rf_derivation_context r) (rf_output_amount_raw r)
    (output_with_id ks <$> rf_outputs r) (with_output_ids (keyset_id ks) (rf_swap_request r)).
Definition has_denominations ks (r : PreparedSenderRefund) : Prop :=
  Forall (λ o, is_Some (amount_key (active_keys ks) (ro_amount o))) (rf_outputs r).

Lemma replace_output_keyset_iff {HW : WireLaws} r ks r' :
  replace_output_keyset r ks = Ok r' ↔
  refund_keyset (rf_unit r) ks ∧ has_denominations ks r ∧ r' = refund_with_keyset ks r.
Proof.
  unfold replace_output_keyset, refund_keyset, has_denominations. split.
  - intros H. result_inv. apply bool_decide_eq_true_1 in Hm. rewrite !andb_true_iff, !bool_decide_eq_true in Hm0.
    rewrite replace_request_ids_Ok in Hm2. injection Hm2 as <-. destruct Hm0 as [[Hid Hc] H0].
    rewrite <-Hc at 2. split_and!; try done.
    + apply try_map_Ok in Hm1. clear -Hm1. induction Hm1 as [|o o' l l' Ho _ IH]; constructor; [|done].
      unfold replace_id in Ho. result_inv. by apply bool_decide_eq_true_1 in Hm.
    + unfold refund_with_keyset. f_equal. apply try_map_Ok in Hm1. clear -Hm1.
      induction Hm1 as [|o o' l l' Ho _ IH]; [done|]. cbn. f_equal; [|done]. unfold replace_id in Ho. by result_inv.
  - intros ((Hu & Hid & Hc & H0) & Hd & ->). rewrite !bool_decide_eq_true_2 by (done || congruence). cbn.
    rewrite (try_map_ext_ok _ (output_with_id ks)).
    + cbn. by rewrite replace_request_ids_Ok.
    + intros o Ho. unfold replace_id. rewrite Forall_forall in Hd. rewrite bool_decide_eq_true_2; [done|]. by apply Hd.
Qed.

(** ** What verification establishes *)

Lemma set_first_witness_back r p :
  head (sr_inputs r) = Some p → set_first_witness (set_first_witness r None) (proof_witness p) = r.
Proof. destruct r as [[|q qs] outs b]; cbn; [done|]. intros [= <-]. by destruct q. Qed.
Lemma set_first_witness_undo r w :
  (∀ p, head (sr_inputs r) = Some p → proof_witness p = None) → set_first_witness (set_first_witness r w) None = r.
Proof. destruct r as [[|q qs] outs b]; cbn; [done|]. intros H. specialize (H q eq_refl). destruct q; cbn in *. by subst. Qed.
Lemma set_first_witness_head r w p :
  head (sr_inputs r) = Some p → head (sr_inputs (set_first_witness r w)) = Some (set_witness p w).
Proof. destruct r as [[|q qs] outs b]; cbn; [done|]. by intros [= <-]. Qed.

(** The stored refund is the one computed from the channel and the sender's key, moved to its
    output keyset, with one valid signature of the refund key. *)
Definition signed_by (base : PreparedSenderRefund) ks (sig : string) : PreparedSenderRefund :=
  let expected := refund_with_keyset ks base in
  with_request expected (set_first_witness (rf_swap_request expected) (Some (P2PKWitness [sig]))).
Definition authorized ec (r : PreparedSenderRefund) (sig : string) : Prop :=
  ∃ s pk, get_sender_blinded_pubkey_for_stage1_refund (ec_params ec) = Ok pk ∧
    signature_from_str sig = Ok s ∧ verify_schnorr s (sig_all_message_hash (rf_swap_request r)) pk = Ok tt.
Definition exact_refund ec secret prepared base sig : Prop :=
  expiry_timestamp (ec_params ec) < u64_max ∧ public_key secret = sender_pubkey (ec_params ec) ∧
  unsigned_refund ec secret (rf_derivation_keyset prepared) (rf_derivation_context prepared) base ∧
  refund_keyset (cp_unit (ec_params ec)) (rf_output_keyset prepared) ∧
  has_denominations (rf_output_keyset prepared) base ∧
  prepared = signed_by base (rf_output_keyset prepared) sig ∧ authorized ec prepared sig.

Lemma unsigned_refund_unit ec secret ks ctx base :
  unsigned_refund ec secret ks ctx base → rf_unit base = cp_unit (ec_params ec).
Proof. by intros (? & ? & _ & _ & _ & _ & _ & _ & ->). Qed.
Lemma unsigned_refund_fields ec secret ks ctx base :
  unsigned_refund ec secret ks ctx base →
  rf_output_keyset base = ks ∧ rf_derivation_keyset base = ks ∧ rf_derivation_context base = ctx ∧
  refund_keyset (cp_unit (ec_params ec)) ks.
Proof. by intros (? & ? & Hks & _ & _ & _ & _ & _ & ->). Qed.
Lemma unsigned_refund_inputs ec secret ks ctx base :
  unsigned_refund ec secret ks ctx base →
  sr_inputs (rf_swap_request base) = (λ p, set_witness p None) <$> funding_proofs ec ∧
  sr_outputs (rf_swap_request base) = ro_blinded_message <$> rf_outputs base ∧
  ∃ p, head (sr_inputs (rf_swap_request base)) = Some p ∧ proof_witness p = None.
Proof.
  intros (amounts & outputs & _ & _ & _ & Hpos & _ & _ & ->). cbn. split_and!; try done.
  unfold funding_value, refund_fee in Hpos. destruct (funding_proofs ec) as [|p ps]; [|by exists (set_witness p None)].
  cbn in Hpos. rewrite Z.mul_0_r in Hpos. done.
Qed.

Lemma signed_ordinary ec secret ks ctx base ks' sig :
  unsigned_refund ec secret ks ctx base → sr_rerandomized (rf_swap_request (signed_by base ks' sig)) = false.
Proof. by intros (? & ? & _ & _ & _ & _ & _ & _ & ->). Qed.

Lemma refund_verify_iff {HW : WireLaws} prepared ec secret :
  typed_channel ec →
  refund_verify prepared ec secret = Ok tt ↔ ∃ base sig, exact_refund ec secret prepared base sig.
Proof.
  intros Hty. unfold refund_verify, exact_refund, any. split.
  - intros H. apply bind_Ok in H as ([] & Hexp%ensure_Ok & H).
    apply bind_Ok in H as ([] & Hpk%ensure_Ok%bool_decide_eq_true_1 & H).
    apply bind_Ok in H as (base & Hbase & H). apply prepare_unsigned_Ok in Hbase; [|done].
    apply bind_Ok in H as (exp & (Hks & Hden & ->)%replace_output_keyset_iff & H).
    apply bind_Ok in H as (input & Hin%ok_or_Ok & H).
    destruct (proof_witness input) as [[sigs|]|] eqn:Hw; [|done..].
    apply bind_Ok in H as ([] & Hlen%ensure_Ok%bool_decide_eq_true_1 & H).
    destruct sigs as [|sig [|? ?]]; [done| |done]. cbn [head default] in H. result_inv.
    apply bool_decide_eq_true_1 in H as ->. pose proof (refund_to_value_inj _ _ _ Hm2 Hm3) as Heq.
    exists base, sig. rewrite <-(unsigned_refund_unit _ _ _ _ _ Hbase).
    assert (prepared = signed_by base (rf_output_keyset prepared) sig) as Hsigned.
    { unfold signed_by. rewrite <-Heq. destruct prepared; cbn in *. unfold with_request. cbn. f_equal.
      rewrite <-Hw. by rewrite set_first_witness_back. }
    split_and!; try done.
    + apply Z.ltb_lt. done.
    + exists a0, a. rewrite pubkey_verify_digest in Hm1.
      rewrite sig_all_text by (rewrite Hsigned; by eapply signed_ordinary). by destruct a1.
  - intros (base & sig & Hexp & Hpk & Hbase & Hks & Hden & Heq & s & pk & Hr & Hs & Hv).
    rewrite (proj2 (Z.ltb_lt _ _) Hexp), (bool_decide_eq_true_2 _ Hpk). cbn.
    pose proof Hbase as Hbase'. apply prepare_unsigned_Ok in Hbase' as ->; [|done]. cbn.
    remember (rf_output_keyset prepared) as ks eqn:Hk. clear Hk. subst prepared.
    set (expected := refund_with_keyset ks base).
    rewrite (proj2 (replace_output_keyset_iff base ks expected));
      [|by rewrite (unsigned_refund_unit _ _ _ _ _ Hbase)]. cbn [mbind Result_bind].
    destruct (unsigned_refund_inputs _ _ _ _ _ Hbase) as (_ & _ & p & Hp & Hpw).
    assert (head (sr_inputs (rf_swap_request expected)) = Some p) as Hpe by done.
    assert (head (sr_inputs (rf_swap_request (signed_by base ks sig)))
      = Some (set_witness p (Some (P2PKWitness [sig])))) as -> by (by apply set_first_witness_head).
    assert (with_request (signed_by base ks sig) (set_first_witness (rf_swap_request (signed_by base ks sig)) None)
      = expected) as ->.
    { unfold signed_by, with_request. cbn [rf_swap_request]. fold expected.
      rewrite set_first_witness_undo by (intros q Hq; congruence). done. }
    cbn [ok_or mbind Result_bind proof_witness set_witness head default].
    rewrite bool_decide_eq_true_2, Hr by done. cbn [ensure map_err mbind Result_bind]. 
    match goal with |- context [signature_from_str ?x] => change x with sig end. rewrite Hs.
    cbn [map_err mbind Result_bind]. rewrite pubkey_verify_digest, <-sig_all_text, Hv by (by eapply signed_ordinary). cbn [map_err mbind Result_bind].
    destruct (refund_to_value_ok expected) as [v ->]. cbn. by rewrite bool_decide_eq_true_2.
Qed.

(** ** Preparing after the expiry *)

(** The prepared swap spends exactly the funding proofs (their witnesses are what the swap
    adds). *)
Definition spends_funding ec (r : PreparedSenderRefund) : Prop :=
  (λ p, set_witness p None) <$> sr_inputs (rf_swap_request r) = (λ p, set_witness p None) <$> funding_proofs ec.

Lemma strip_first_witness r w :
  (λ p, set_witness p None) <$> sr_inputs (set_first_witness r w) = (λ p, set_witness p None) <$> sr_inputs r.
Proof. by destruct r as [[|p ps] outs b]. Qed.
Lemma exact_refund_spends ec secret prepared base sig :
  exact_refund ec secret prepared base sig →
  spends_funding ec prepared ∧ sr_outputs (rf_swap_request prepared) = ro_blinded_message <$> rf_outputs prepared ∧
  rf_outputs prepared = output_with_id (rf_output_keyset prepared) <$> rf_outputs base ∧
  proof_witness <$> sr_inputs (rf_swap_request prepared)
    = Some (P2PKWitness [sig]) :: replicate (pred (length (funding_proofs ec))) None.
Proof.
  intros (_ & _ & Hbase & _ & _ & Heq & _). destruct (unsigned_refund_inputs _ _ _ _ _ Hbase) as (Hin & Hout & p & Hp & _).
  unfold spends_funding. remember (rf_output_keyset prepared) as ks eqn:Hk. clear Hk. subst prepared. cbn [rf_swap_request signed_by with_request].
  rewrite strip_first_witness. cbn [sr_inputs with_output_ids rf_swap_request refund_with_keyset]. split_and!.
  - rewrite Hin, <-list_fmap_compose. done.
  - cbn. rewrite Hout, <-!list_fmap_compose. done.
  - done.
  - cbn. rewrite Hin in *. destruct (funding_proofs ec) as [|q qs]; [done|]. cbn. f_equal.
    rewrite <-list_fmap_compose. clear. induction qs as [|q' qs IH]; [done|]. cbn. by f_equal.
Qed.
Lemma with_id_amounts ks (l : list PreparedSenderRefundOutput) : ro_amount <$> (output_with_id ks <$> l) = ro_amount <$> l.
Proof. by rewrite <-list_fmap_compose. Qed.
Lemma good_output_message ec secret ks ctx o :
  refund_output ec secret ks ctx o → bm_amount (ro_blinded_message o) = ro_amount o.
Proof. intros Ho. destruct (prepare_loose_output_fields _ _ _ _ _ _ _ Ho) as (_ & _ & _ & ->). done. Qed.
Lemma good_outputs_messages ec secret ks ctx l :
  Forall (good_output ec secret ks ctx) l → bm_amount <$> (ro_blinded_message <$> l) = ro_amount <$> l.
Proof.
  intros Hl. rewrite <-list_fmap_compose. apply list_fmap_ext. intros i o Ho.
  rewrite Forall_lookup in Hl. destruct (Hl i o Ho) as (_ & Hr & _). by eapply good_output_message.
Qed.
Lemma exact_refund_value ec secret prepared base sig :
  typed_channel ec → typed_keyset (rf_derivation_keyset prepared) → exact_refund ec secret prepared base sig →
  sumZ (bm_amount <$> sr_outputs (rf_swap_request prepared)) = funding_value ec - refund_fee ec ∧
  sumZ (ro_amount <$> rf_outputs prepared) = funding_value ec - refund_fee ec.
Proof.
  intros Hch Hty Hex. destruct (exact_refund_spends _ _ _ _ _ Hex) as (_ & Hout & Hro & _).
  destruct Hex as (_ & _ & Hbase & _). destruct (unsigned_refund_value _ _ _ _ _ Hty Hch Hbase) as [Hsum Hgood].
  rewrite Hout, Hro, with_id_amounts, <-!list_fmap_compose. split; [|done].
  rewrite <-Hsum, <-(good_outputs_messages _ _ _ _ _ Hgood), <-list_fmap_compose. done.
Qed.

(** What a refund needs besides time: the sender's key, a keyset of the right unit with a unit
    denomination, an amount left after the fee, and keys that can be derived (an invalid
    scalar twice in a row is the only way they cannot). *)
Record refundable ec secret ks ctx : Prop := {
  refundable_key : public_key secret = sender_pubkey (ec_params ec);
  refundable_keyset : refund_keyset (cp_unit (ec_params ec)) ks;
  refundable_unit : 1 ∈ amounts_largest_first ks;
  refundable_max : 0 <= maximum_amount_for_one_output (ec_params ec);
  refundable_total : funding_value ec <= u64_max;
  refundable_fee : is_u64 (input_fee_ppk (keyset_info (ec_params ec)) * Z.of_nat (length (funding_proofs ec)));
  refundable_net : refund_fee ec < funding_value ec;
  refundable_outputs amounts :
    from_target (funding_value ec - refund_fee ec) (maximum_amount_for_one_output (ec_params ec)) ks = Ok amounts →
    is_ok (prepare_loose_refund_outputs ec secret (ola_amounts amounts) ks ctx) = true;
  refundable_signer : is_ok (get_sender_blinded_secret_key_for_stage1_refund (ec_params ec) secret) = true;
}.

Lemma refundable_unsigned ec secret ks ctx :
  typed_channel ec → typed_keyset ks → refundable ec secret ks ctx →
  ∃ base, unsigned_refund ec secret ks ctx base.
Proof.
  intros Hch Hty [_ Hks H1 Hmax Htot Hfee Hnet Hout _].
  assert (Forall (λ x, 0 <= x) (proof_amount <$> funding_proofs ec)) as Hpos.
  { apply Forall_fmap. eapply Forall_impl; [apply Hch|]. by intros p [? _]. }
  pose proof (refund_keyset_wf _ _ Hty Hks) as Hwf.
  assert (0 <= refund_fee ec) by (apply div_ceil_nonneg; [lia|apply Hfee]).
  set (v := funding_value ec - refund_fee ec) in *.
  assert (∃ amounts, from_target v (maximum_amount_for_one_output (ec_params ec)) ks = Ok amounts) as [amounts Ha].
  { rewrite from_target_spec; [|done|unfold is_u64, u64_max in *; lia]. cbv zeta.
    rewrite grem_1; [by eexists|]. apply elem_of_usable. split; [|done]. lia. }
  destruct (proj1 (is_ok_Ok _) (Hout _ Ha)) as [outputs Ho]. eexists _, amounts, outputs. split_and!; try done; [|lia].
  apply checked_total_Ok; [done|]. split; [done|]. done.
Qed.

Lemma refund_keys_agree {HS : SecpLaws} p secret k :
  public_key secret = sender_pubkey p → get_sender_blinded_secret_key_for_stage1_refund p secret = Ok k →
  get_sender_blinded_pubkey_for_stage1_refund p = Ok (public_key k).
Proof.
  unfold get_sender_blinded_secret_key_for_stage1_refund, get_sender_blinded_pubkey_for_stage1_refund.
  intros Hpk (r & Hr & Hk)%bind_Ok. rewrite Hr. cbn. rewrite <-Hpk. by apply derive_blinded_agree.
Qed.
Lemma refund_same_keyset ec secret ks ctx base :
  typed_keyset ks → typed_channel ec → unsigned_refund ec secret ks ctx base → refund_with_keyset ks base = base.
Proof.
  intros Hty Hch Hbase. destruct (unsigned_refund_value _ _ _ _ _ Hty Hch Hbase) as [_ Hgood].
  destruct Hbase as (amounts & outputs & _ & _ & _ & _ & _ & _ & ->). unfold refund_with_keyset, with_output_ids. cbn in *.
  assert (∀ i o, outputs !! i = Some o → output_with_id ks o = o) as Hid.
  { intros i o Ho. rewrite Forall_lookup in Hgood. destruct (Hgood i o Ho) as (_ & Hr & _).
    destruct (prepare_loose_output_fields _ _ _ _ _ _ _ Hr) as (_ & _ & _ & Hm). destruct o; unfold output_with_id; cbn in *.
    f_equal. by rewrite Hm. }
  assert (output_with_id ks <$> outputs = outputs) as Hall.
  { rewrite <-(list_fmap_id outputs) at 2. by apply list_fmap_ext. }
  assert (bm_with_id (keyset_id ks) <$> (ro_blinded_message <$> outputs) = ro_blinded_message <$> outputs) as Hm.
  { rewrite <-Hall at 2. by rewrite <-!list_fmap_compose. }
  by rewrite Hall, Hm.
Qed.

Lemma sign_unsigned {HS : SecpLaws} {HB : SchnorrLaws} aux ec secret now ks ctx base k :
  typed_channel ec → typed_keyset ks → is_u64 now → expiry_timestamp (ec_params ec) < now →
  public_key secret = sender_pubkey (ec_params ec) →
  unsigned_refund ec secret ks ctx base →
  get_sender_blinded_secret_key_for_stage1_refund (ec_params ec) secret = Ok k →
  let sig := signature_to_string (schnorr_sign aux k (sig_all_message_hash (rf_swap_request base))) in
  prepare_sender_refund_after_expiry aux ec secret now ks ctx = Ok (signed_by base ks sig) ∧
  exact_refund ec secret (signed_by base ks sig) base sig.
Proof.
  intros Hch Hty Hnow Hexp Hpk Hbase Hk sig. pose proof (refund_same_keyset _ _ _ _ _ Hty Hch Hbase) as Hsame.
  destruct (unsigned_refund_inputs _ _ _ _ _ Hbase) as (_ & _ & p & Hp & Hpw).
  assert (sign_sig_all aux (rf_swap_request base) k
    = Ok (set_first_witness (rf_swap_request base) (Some (P2PKWitness [sig])))) as Hsign.
  { destruct (sr_inputs (rf_swap_request base)) as [|q qs] eqn:Hq; [done|]. injection Hp as ->.
    by eapply sign_sig_all_first. }
  destruct (unsigned_refund_fields _ _ _ _ _ Hbase) as (Hok & Hdk & Hdc & Hks).
  unfold exact_refund, signed_by. rewrite Hsame. split; [|split_and!; try done].
  - unfold prepare_sender_refund_after_expiry. rewrite (proj2 (Z.leb_gt _ _) Hexp), bool_decide_eq_true_2 by done. cbn.
    pose proof Hbase as Hb. apply prepare_unsigned_Ok in Hb as ->; [|done]. cbn. rewrite Hk. cbn. by rewrite Hsign.
  - unfold is_u64, u64_max in *. lia.
  - cbn [rf_derivation_keyset rf_derivation_context with_request]. by rewrite Hdk, Hdc.
  - cbn [rf_output_keyset with_request]. by rewrite Hok.
  - destruct (unsigned_refund_value _ _ _ _ _ Hty Hch Hbase) as [_ Hgood].
    unfold has_denominations. cbn. rewrite Hok. eapply Forall_impl; [exact Hgood|]. by intros o (_ & _ & ? & _).
  - cbn [rf_output_keyset with_request]. by rewrite Hok, Hsame.
  - exists (schnorr_sign aux k (sig_all_message_hash (rf_swap_request base))), (public_key k).
    split; [by eapply refund_keys_agree|]. split; [apply signature_str_inv|]. cbn [rf_swap_request with_request].
    rewrite sig_all_witness. apply schnorr_complete.
Qed.

(** C8: a refund is possible exactly after the expiry. For a channel and keyset that allow
    one, preparing it before or at the expiry fails with [NotExpired]; after the expiry it
    succeeds with a swap that spends all funding proofs, pays their whole value less the
    mint's input fee, and passes the verification of stored refunds. *)
Theorem refund_exactly_after_expiry {HS : SecpLaws} {HB : SchnorrLaws} {HW : WireLaws} aux ec secret now ks ctx :
  typed_channel ec → typed_keyset ks → refundable ec secret ks ctx → is_u64 now →
  match prepare_sender_refund_after_expiry aux ec secret now ks ctx with
  | Ok prepared =>
      expiry_timestamp (ec_params ec) < now ∧ refund_verify prepared ec secret = Ok tt ∧
      spends_funding ec prepared ∧
      sumZ (bm_amount <$> sr_outputs (rf_swap_request prepared)) = funding_value ec - refund_fee ec
  | Err e =>
      now <= expiry_timestamp (ec_params ec) ∧ e = RefundError (NotExpired now (expiry_timestamp (ec_params ec)))
  | Diverge => False
  end.
Proof.
  intros Hch Hty Hr Hnow. destruct (Z.le_gt_cases now (expiry_timestamp (ec_params ec))) as [Hle|Hgt].
  { unfold prepare_sender_refund_after_expiry. by rewrite (proj2 (Z.leb_le _ _) Hle). }
  destruct (refundable_unsigned _ _ _ _ Hch Hty Hr) as [base Hbase]. destruct Hr as [Hpk _ _ _ _ _ _ _ Hsg].
  apply is_ok_Ok in Hsg as [k Hk].
  destruct (sign_unsigned aux ec secret now ks ctx base k Hch Hty Hnow Hgt Hpk Hbase Hk) as [-> Hex].
  split; [done|]. split; [by apply refund_verify_iff; eauto|].
  split; [by apply exact_refund_spends in Hex as [? _]|]. refine (proj1 (exact_refund_value _ _ _ _ _ Hch _ Hex)).
  destruct (unsigned_refund_fields _ _ _ _ _ Hbase) as (_ & Hdk & _). cbn. by rewrite Hdk.
Qed.

(** ** Completion *)

Definition refund_prepared_outputs (r : PreparedSenderRefund) : list PreparedOutput :=
  (λ o, mk_PreparedOutput (ro_blinded_message o) (ro_secret o) (ro_blinding_factor o)) <$> rf_outputs r.

(** What is known of each output of a verified refund. *)
Lemma exact_refund_output ec secret prepared base sig i o :
  typed_channel ec → typed_keyset (rf_derivation_keyset prepared) → exact_refund ec secret prepared base sig →
  rf_outputs prepared !! i = Some o →
  0 <= ro_amount o ∧ bm_amount (ro_blinded_message o) = ro_amount o ∧
  bm_keyset_id (ro_blinded_message o) = keyset_id (rf_output_keyset prepared) ∧
  ∃ o', prepare_loose_refund_output ec secret (ro_amount o) (ro_index o)
          (rf_derivation_keyset prepared) (rf_derivation_context prepared) = Ok o' ∧ ro_secret o' = ro_secret o ∧
        ro_blinding_factor o' = ro_blinding_factor o.
Proof.
  intros Hch Hty Hex. destruct (exact_refund_spends _ _ _ _ _ Hex) as (_ & _ & Hro & _).
  destruct Hex as (_ & _ & Hbase & _). destruct (unsigned_refund_value _ _ _ _ _ Hty Hch Hbase) as [_ Hgood].
  rewrite Hro, list_lookup_fmap. intros (o0 & H0 & ->)%fmap_Some. rewrite Forall_lookup in Hgood.
  destruct (Hgood i o0 H0) as (Hpos & Hr & _). cbn. split; [done|]. split; [by eapply good_output_message|]. eauto.
Qed.

(** A restore of the outputs is completed like the answer to the swap. *)
Lemma refund_restore_same ec prepared secret response sigs :
  refund_verify prepared ec secret = Ok tt → length sigs = length (rf_outputs prepared) → rf_outputs prepared ≠ [] →
  NoDup (ro_blinded_message <$> rf_outputs prepared) →
  restores response (ro_blinded_message <$> rf_outputs prepared) sigs →
  complete_prepared_sender_refund_restore ec prepared secret response
  = Some <$> complete_prepared_sender_refund ec prepared secret sigs.
Proof.
  intros Hv Hlen Hne Hnd Hrest. unfold complete_prepared_sender_refund_restore, any. rewrite Hv. cbn [mbind Result_bind].
  rewrite (restores_match _ _ sigs "refund" Hnd) by (done || by rewrite length_fmap).
  rewrite (bool_decide_eq_false_2 (rr_outputs response = [])); [done|]. intros Hnil. destruct Hrest as [Hl Hp].
  rewrite Hnil in Hp. apply Permutation_nil_l in Hp. destruct (rf_outputs prepared), sigs; done.
Qed.

(** The proof that an output of the refund opens to. *)
Definition opens_output ec secret (prepared : PreparedSenderRefund) (o : PreparedSenderRefundOutput) (p : Proof) : Prop :=
  proof_amount p = ro_amount o ∧ proof_secret p = ro_secret o ∧
  proof_keyset_id p = keyset_id (rf_output_keyset prepared) ∧
  ∃ o', prepare_loose_refund_output ec secret (ro_amount o) (ro_index o)
          (rf_derivation_keyset prepared) (rf_derivation_context prepared) = Ok o' ∧ ro_secret o' = ro_secret o.

Lemma refund_completed {HW : WireLaws} {HC : ConstructLaws} ec prepared secret sigs proofs :
  typed_channel ec → typed_keyset (rf_derivation_keyset prepared) →
  complete_prepared_sender_refund ec prepared secret sigs = Ok proofs →
  refund_verify prepared ec secret = Ok tt ∧ spends_funding ec prepared ∧
  sumZ (proof_amount <$> proofs) = funding_value ec - refund_fee ec ∧ 0 < funding_value ec - refund_fee ec ∧
  Forall2 (opens_output ec secret prepared) (rf_outputs prepared) proofs ∧
  Forall2 (right_signature (rf_output_keyset prepared)) sigs (ro_blinded_message <$> rf_outputs prepared).
Proof.
  intros Hch Hty Hc. unfold complete_prepared_sender_refund in Hc.
  apply bind_Ok in Hc as ([] & Hv & Hc). pose proof Hv as (base & sig & Hex)%refund_verify_iff; [|done].
  destruct (exact_refund_value _ _ _ _ _ Hch Hty Hex) as [_ Hval].
  destruct (exact_refund_spends _ _ _ _ _ Hex) as (Hsp & _). pose proof Hex as (_ & _ & Hbase & _).
  apply map_err_Ok, complete_exact_signatures_Ok in Hc as [Hright Hcon].
  apply construct_proofs_shape in Hcon as [Hshape Hsec].
  assert (Forall2 (opens_output ec secret prepared) (rf_outputs prepared) proofs) as Hall.
  { apply Forall2_same_length_lookup_2.
    { apply Forall2_length in Hright, Hshape. rewrite length_fmap in Hright. lia. }
    intros i o p Ho Hp. destruct (exact_refund_output _ _ _ _ _ i o Hch Hty Hex Ho) as (_ & Ha & Hk & o' & Ho' & Hs & _).
    destruct (Forall2_lookup_r _ _ _ _ _ Hshape Hp) as (sg & Hsg & Hpa & Hpk).
    destruct (Forall2_lookup_l _ _ _ _ _ Hright Hsg) as (po & Hpo & Hra & Hrk & _).
    rewrite list_lookup_fmap, Ho in Hpo. injection Hpo as <-. cbn in *.
    assert (proof_secret p = ro_secret o) as Hps.
    { apply (f_equal (lookup i)) in Hsec. rewrite !list_lookup_fmap, Hp, Ho in Hsec. by injection Hsec. }
    unfold opens_output. rewrite Hpa, Hra, Ha, Hpk, Hrk, Hk, Hps. eauto 10. }
  split_and!; try done.
  - rewrite <-Hval. f_equal. revert Hall. generalize (rf_outputs prepared). clear.
    induction 1 as [|o p os ps [H _] _ IH]; [done|]. rewrite !fmap_cons, IH. by f_equal.
  - by destruct Hbase as (? & ? & _ & _ & _ & Hpos & _).
  - clear -Hright. remember (rf_outputs prepared) as l. clear Heql. revert sigs Hright.
    induction l as [|o l IH]; intros [|sg sigs] H; inversion H; subst; constructor; [done|]. by apply IH.
Qed.

(** C26: a refund that completes, from the mint's answer to the swap, returns the whole value
    of the funding less the input fee: one proof per prepared output, of its amount, of the
    output keyset, under a secret derived from the sender's own key, each opened from a
    signature whose DLEQ proof was checked. When the answer was lost, any restore of the
    outputs completes to exactly the same proofs. *)
Theorem refund_completion_exact {HW : WireLaws} {HC : ConstructLaws} ec prepared secret sigs proofs :
  typed_channel ec → typed_keyset (rf_derivation_keyset prepared) →
  complete_prepared_sender_refund ec prepared secret sigs = Ok proofs →
  spends_funding ec prepared ∧
  sumZ (proof_amount <$> proofs) = funding_value ec - refund_fee ec ∧
  Forall2 (opens_output ec secret prepared) (rf_outputs prepared) proofs ∧
  Forall2 (right_signature (rf_output_keyset prepared)) sigs (ro_blinded_message <$> rf_outputs prepared) ∧
  (∀ response, NoDup (ro_blinded_message <$> rf_outputs prepared) →
     restores response (ro_blinded_message <$> rf_outputs prepared) sigs →
     complete_prepared_sender_refund_restore ec prepared secret response = Ok (Some proofs)).
Proof.
  intros Hch Hty Hc. destruct (refund_completed _ _ _ _ _ Hch Hty Hc) as (Hv & Hsp & Hval & Hpos & Hall & Hright).
  split_and!; try done. intros response Hnd Hrest. rewrite (refund_restore_same _ _ _ _ sigs), Hc; try done.
  - apply Forall2_length in Hright. by rewrite length_fmap in Hright.
  - intros Hnil. rewrite Hnil in Hall. inversion Hall. subst. cbn in Hval. lia.
Qed.

(** ** A new output keyset *)

Lemma has_denominations_amounts ks (r r' : PreparedSenderRefund) :
  ro_amount <$> rf_outputs r = ro_amount <$> rf_outputs r' → has_denominations ks r ↔ has_denominations ks r'.
Proof.
  intros H. unfold has_denominations.
  transitivity (Forall (λ a, is_Some (amount_key (active_keys ks) a)) (ro_amount <$> rf_outputs r));
    [|rewrite H]; by rewrite Forall_fmap.
Qed.
Lemma successor_signed base ks ks' sig : refund_with_keyset ks (signed_by base ks' sig) = signed_by base ks sig.
Proof.
  unfold signed_by, refund_with_keyset, with_request, with_output_ids, set_first_witness. cbn. f_equal.
  - by rewrite <-list_fmap_compose.
  - f_equal. by rewrite <-list_fmap_compose.
Qed.
Lemma successor_exact ec secret prepared base sig ks :
  exact_refund ec secret prepared base sig → refund_keyset (cp_unit (ec_params ec)) ks → has_denominations ks prepared →
  exact_refund ec secret (refund_with_keyset ks prepared) base sig.
Proof.
  intros Hex Hks Hden. destruct (exact_refund_spends _ _ _ _ _ Hex) as (_ & _ & Hro & _).
  destruct Hex as (He & Hpk & Hbase & _ & _ & Heq & s & pk & Hr & Hs & Hv).
  split_and!; try done.
  - eapply has_denominations_amounts; [|exact Hden]. by rewrite Hro, with_id_amounts.
  - cbn [rf_output_keyset refund_with_keyset]. rewrite Heq at 1. by rewrite successor_signed.
  - exists s, pk. split_and!; [done..|]. cbn [rf_swap_request refund_with_keyset].
    assert (sr_rerandomized (rf_swap_request prepared) = false) by (rewrite Heq; by eapply signed_ordinary).
    by rewrite sig_all_text, sig_all_text_ids, <-sig_all_text.
Qed.

(** C29: when the mint has retired the output keyset of a stored refund, a successor for
    another keyset exists exactly if that keyset is valid for the channel's unit and has all
    denominations of the refund. It keeps the inputs with their signature and the secrets,
    blinding factors and amounts of the outputs, and verifies without signing again. *)
Theorem refund_successor_iff {HW : WireLaws} prepared ec secret ks successor :
  typed_channel ec → refund_verify prepared ec secret = Ok tt →
  keyset_id (rf_output_keyset prepared) ≠ keyset_id ks →
  (with_output_keyset prepared ec secret ks = Ok successor ↔
   refund_keyset (cp_unit (ec_params ec)) ks ∧ has_denominations ks prepared ∧
   successor = refund_with_keyset ks prepared) ∧
  (with_output_keyset prepared ec secret ks = Ok successor →
   refund_verify successor ec secret = Ok tt ∧
   sr_inputs (rf_swap_request successor) = sr_inputs (rf_swap_request prepared) ∧
   (λ o, (ro_amount o, ro_secret o, ro_blinding_factor o)) <$> rf_outputs successor
     = (λ o, (ro_amount o, ro_secret o, ro_blinding_factor o)) <$> rf_outputs prepared).
Proof.
  intros Hch Hv Hne. pose proof Hv as (base & sig & Hex)%refund_verify_iff; [|done].
  assert (rf_unit prepared = cp_unit (ec_params ec)) as Hu.
  { destruct Hex as (_ & _ & Hbase & _ & _ & -> & _). cbn. by eapply unsigned_refund_unit. }
  assert (∀ ks', refund_keyset (cp_unit (ec_params ec)) ks' → has_denominations ks' prepared →
    refund_verify (refund_with_keyset ks' prepared) ec secret = Ok tt) as Hver.
  { intros ks' Hks Hden. apply refund_verify_iff; [done|]. exists base, sig. by apply successor_exact. }
  assert (with_output_keyset prepared ec secret ks = Ok successor ↔
    refund_keyset (cp_unit (ec_params ec)) ks ∧ has_denominations ks prepared ∧
    successor = refund_with_keyset ks prepared) as Hiff.
  { unfold with_output_keyset. rewrite Hv, bool_decide_eq_true_2 by done. cbn [mbind Result_bind ensure]. rewrite bind_Ok. split.
    - intros (r & Hr%replace_output_keyset_iff & H). rewrite Hu in Hr. destruct Hr as (Hks & Hden & ->). by result_inv.
    - intros (Hks & Hden & ->). exists (refund_with_keyset ks prepared). rewrite replace_output_keyset_iff, Hu. split; [done|].
      cbn [rf_swap_request refund_with_keyset]. rewrite sig_all_text_ids, bool_decide_eq_true_2 by done.
      cbn [mbind Result_bind ensure]. by rewrite Hver. }
  split; [done|]. intros (Hks & Hden & ->)%Hiff. split; [by apply Hver|]. split; [done|]. cbn. by rewrite <-list_fmap_compose.
Qed.
End refund.
