(* ===== verification/RecoveryProofs.v ===== *)
(** * Theorems about recovery ([Recovery.v])

    Recovery never submits anything: it asks for the state of the funding, and restores
    outputs only when all of it is spent. What it reports as recovered are the verified
    proofs of a stored attempt, or the sender's outputs of a close by the receiver, which the
    search finds completely. *)

From S2P Require Import Prelude Cashu Toy Amounts Params SwapCompletion Deterministic Channel Mint Storage StorageSpec StorageMemory Host Bridge Close CloseProofs ClientStorage Funding FundingProofs Refund RefundProofs Recovery.

Create HintDb asking.

(** ** Calls that only restore *)

Section asking.
Context {T : CashuTypes} {O : CashuOps} {N : Type} {MC : MintConnection N}.

(** One restore request, and calls that make only such requests. *)
Definition restore_request (n n' : N) : Prop := ∃ outputs, n' = (post_restore outputs n).2.
Definition only_restores {E A} (m : M N E A) : Prop := ∀ n, rtc restore_request n (m n).2.

Lemma only_bind {E A B} (f : A → M N E B) (m : M N E A) :
  only_restores m → (∀ a, only_restores (f a)) → only_restores (m ≫= f).
Proof.
  intros Hm Hf n. specialize (Hm n) as Hn. unfold mbind, M_bind.
  destruct (m n) as [[a|e|] n1]; cbn [snd] in *; [|done..]. etrans; [done|]. apply Hf.
Qed.
Lemma only_lift {E A} (r : Result E A) : only_restores (lift r).
Proof. intros n. done. Qed.
Lemma only_mmap_err {E F A} (g : E → F) (m : M N E A) : only_restores m → only_restores (mmap_err g m).
Proof. intros Hm n. unfold mmap_err. specialize (Hm n). by destruct (m n). Qed.
Lemma only_post_restore outputs : only_restores (post_restore outputs).
Proof. intros n. apply rtc_once. by exists outputs. Qed.
Lemma only_match_call {E F A B} (m : M N E A) (f : A → M N F B) (g : E → M N F B) :
  only_restores m → (∀ a, only_restores (f a)) → (∀ e, only_restores (g e)) → only_restores (match_call m f g).
Proof.
  intros Hm Hf Hg n. specialize (Hm n) as Hn. unfold match_call.
  destruct (m n) as [[a|e|] n1]; cbn [snd] in *; [etrans; [done|apply Hf]|etrans; [done|apply Hg]|done].
Qed.
End asking.
#[export] Hint Resolve only_lift only_post_restore only_mmap_err : asking.

Ltac only_step :=
  match goal with
  | |- only_restores (_ ≫= _) => apply only_bind; [|intros]
  | |- only_restores (match_call _ _ _) => apply only_match_call; [|intros|intros]
  | |- only_restores (if ?b then _ else _) => destruct b
  | |- only_restores (match ?x with _ => _ end) => destruct x
  | |- only_restores (mmap_err _ _) => apply only_mmap_err
  | |- only_restores _ => solve [eauto with asking]
  end.
Ltac solve_only := repeat only_step.

Section sender.
Context {T : CashuTypes} {O : CashuOps} {R : RefundOps} {N : Type} {MC : MintConnection N}.
Implicit Types ec : EstablishedChannel.
Implicit Types (aux : Z → Z → bytes) (sender : SpilmanChannelSender).

Lemma only_sender_output aux sender kss rnd a i : only_restores (restore_sender_output aux sender kss rnd a i).
Proof. unfold restore_sender_output. solve_only. Qed.
Lemma only_sender_amount aux sender kss rnd a : only_restores (restore_sender_amount aux sender kss rnd a).
Proof.
  intros n. unfold restore_sender_amount.
  pose proof (iter_until_invariant (sender_step aux sender kss rnd a) (λ s, rtc restore_request n s.2)
    (λ r, rtc restore_request n r.2) 64 (0, [], n)) as Hinv.
  destruct (iter_until _ _ _) as [[[i l] n']|[r n']]; apply Hinv; try done; clear Hinv;
    intros [[i' l'] n1] Hn1; cbn in *; pose proof (only_sender_output aux sender kss rnd a i' n1) as Ho;
    destruct (restore_sender_output _ _ _ _ _ _ _) as [[[p|]|e|] n2]; cbn in *; by etrans.
Qed.
Hint Resolve only_sender_amount : asking.
Lemma only_sender_loop aux sender kss rnd amounts : only_restores (restore_sender_loop aux sender kss rnd amounts).
Proof. induction amounts as [|a amounts IH]; cbn; solve_only. Qed.
Lemma only_restore_refunds sender all attempts e : only_restores (restore_refunds sender all attempts e).
Proof. revert e. induction attempts as [|r attempts IH]; intros e; cbn; solve_only. Qed.

(** ** Inspection *)

(** The states cover exactly the funding proofs. *)
Definition covers (ys : list PublicKey) (states : list ProofState) : Prop := st_y <$> states ≡ₚ ys.

Lemma exact_coverage (ys : list PublicKey) (states : list ProofState) :
  NoDup ys → length states = length ys →
  forallb (λ y, bool_decide (length (filter (λ s, st_y s = y) states) = 1%nat)) ys = true → covers ys states.
Proof.
  intros Hnd Hlen Hall. unfold covers. symmetry. apply submseteq_length_Permutation; [|by rewrite length_fmap, Hlen].
  apply NoDup_submseteq; [done|]. intros y Hy. rewrite forallb_forall in Hall.
  specialize (Hall y (proj1 (list_elem_of_In _ _) Hy)). apply bool_decide_eq_true_1 in Hall.
  destruct (filter (λ s, st_y s = y) states) as [|s l] eqn:Hf; [done|].
  assert (s ∈ filter (λ s, st_y s = y) states) as [Hs1 Hs2]%list_elem_of_filter by (rewrite Hf; left).
  apply list_elem_of_fmap. eauto.
Qed.

(** What the aggregate state says of the states. *)
Definition all_in (st : State) (states : list ProofState) : Prop := Forall (λ s, st_state s = st) states.
Lemma aggregate_spec states st :
  aggregate states = Ok st →
  match st with
  | FsUnspent => all_in StUnspent states
  | FsPending => all_in StPending states
  | FsSpent => all_in StSpent states
  | FsMixed => ∃ s s', s ∈ states ∧ s' ∈ states ∧ st_state s ≠ st_state s'
  end.
Proof.
  unfold aggregate. destruct states as [|first states]; [done|]. destruct (existsb _ _) eqn:Hex.
  - intros [= <-]. apply existsb_exists in Hex as (s & Hs & Hne). apply list_elem_of_In in Hs.
    apply negb_true_iff, bool_decide_eq_false_1 in Hne. exists s, first. split_and!; [done|left|done].
  - intros Hst. assert (all_in (st_state first) (first :: states)) as Hall.
    { apply Forall_forall. intros s Hs. destruct (decide (st_state s = st_state first)) as [|Hne]; [done|].
      exfalso. assert (existsb (λ s, negb (bool_decide (st_state s = st_state first))) (first :: states) = true) as Ht; [|by rewrite Hex in Ht].
      apply existsb_exists. exists s. split; [by apply list_elem_of_In|]. by rewrite bool_decide_eq_false_2. }
    unfold all_in in *. destruct (st_state first); simplify_eq; done.
Qed.

Lemma inspect_funding_spec ec n r n' :
  inspect_funding ec n = (r, n') →
  (n' = n ∧ is_ok r = false) ∨
  ∃ ys answer, try_map proof_y (funding_proofs ec) = Ok ys ∧ check_state ys n = (answer, n') ∧
    ∀ f, r = Ok f → ∃ states, answer = Ok states ∧ fi_response f = states ∧ covers ys states ∧ states ≠ [] ∧
      aggregate states = Ok (fi_state f).
Proof.
  unfold inspect_funding, any, mbind, M_bind, lift, mmap_err. intros H.
  destruct (verify_valid_channel _ _) as [v|e|]; [|left; cbn in H; by injection H as <- <-..].
  cbn in H. destruct (valid v); [|left; cbn in H; by injection H as <- <-].
  cbn in H. destruct (try_map proof_y _) as [ys|e|]; [|left; cbn in H; by injection H as <- <-..].
  cbn in H. destruct (bool_decide (ys ≠ []) && bool_decide (NoDup ys)) eqn:Hys; [|left; cbn in H; by injection H as <- <-].
  apply andb_true_iff in Hys as [Hne Hnd]. apply bool_decide_eq_true_1 in Hne, Hnd.
  right. exists ys. cbn in H. destruct (check_state ys n) as [[states|e|] n1] eqn:Hcs; cbn in H; cycle 1.
  1, 2: injection H as <- <-; eexists; split_and!; [done..|]; by intros f [=].
  exists (Ok states). destruct (bool_decide (length states = length ys) && _) eqn:Hcov; cbn in H; cycle 1.
  { injection H as <- <-. split_and!; [done..|]. by intros f [=]. }
  destruct (forallb _ states); cbn in H; cycle 1.
  { injection H as <- <-. split_and!; [done..|]. by intros f [=]. }
  destruct (aggregate states) as [st|e|] eqn:Hag; cbn in H; injection H as <- <-;
    (split_and!; [done..|]); intros f; [intros [= <-]|intros [=]..].
  apply andb_true_iff in Hcov as [Hlen%bool_decide_eq_true_1 Hcov].
  exists states. split_and!; try done; [by apply exact_coverage|]. intros ->. by destruct ys.
Qed.

(** ** What a search finds *)

Lemma restore_completes ec prepared secret response proofs :
  complete_prepared_sender_refund_restore ec prepared secret response = Ok (Some proofs) →
  ∃ sigs, complete_prepared_sender_refund ec prepared secret sigs = Ok proofs.
Proof.
  unfold complete_prepared_sender_refund_restore. intros (u & _ & H)%bind_Ok. case_match; [done|].
  apply bind_Ok in H as (sigs & _ & H). exists sigs.
  by apply fmap_Ok in H as (ps & Hps & [= <-]).
Qed.
(** The proofs are the completion of the attempt with this index. *)
Definition completes_attempt sender (attempts : list PreparedSenderRefund) (i : nat) (proofs : list Proof) : Prop :=
  ∃ attempt sigs, attempts !! i = Some attempt ∧
    complete_prepared_sender_refund (channel sender) attempt (alice_secret sender) sigs = Ok proofs.

Lemma try_candidates_found sender k candidates response e b i proofs :
  try_candidates sender k candidates response e b = Ok (inl (i, proofs)) →
  ∃ j, i = (k + j)%nat ∧ completes_attempt sender candidates j proofs.
Proof.
  revert k e b. induction candidates as [|r rs IH]; intros k e b; cbn; [done|].
  destruct (complete_prepared_sender_refund_restore _ _ _ _) as [[ps|]|e'|] eqn:Hc; [|intros H..|done].
  - intros [= <- <-]. exists 0%nat. split; [lia|]. apply restore_completes in Hc as [sigs Hc]. by exists r, sigs.
  - apply IH in H as (j & -> & Hj). exists (S j). by split; [lia|].
  - apply IH in H as (j & -> & Hj). exists (S j). by split; [lia|].
Qed.
Lemma restore_refunds_found sender all attempts e n i proofs n' :
  restore_refunds sender all attempts e n = (Ok (inl (i, proofs)), n') → completes_attempt sender all i proofs.
Proof.
  revert e n. induction attempts as [|r rs IH]; intros e n; cbn; [done|].
  unfold match_call. destruct (post_restore _ n) as [[resp|e'|] n1]; [|apply IH|done].
  case_bool_decide; [apply IH|]. unfold mbind, M_bind, lift.
  destruct (try_candidates _ _ _ _ _ _) as [[[j ps]|[[e'|] b]]|e'|] eqn:Ht; [| | |done..].
  - intros [= <- <- _]. apply try_candidates_found in Ht as (k & -> & Hk). done.
  - destruct b; apply IH.
  - destruct b; apply IH.
Qed.

(** A proof of the sender's share: a deterministic sender output of the channel, opened under
    one of the given keysets with its DLEQ checked, and signed for spending. *)
Definition sender_share aux sender (kss : list KeysetInfo) (amount index : Z) (p : Proof) : Prop :=
  ∃ o ks p0, create_deterministic_output_with_blinding (ec_params (channel sender)) "sender" amount index = Ok o ∧
    ks ∈ kss ∧ ki_unit ks = cp_unit (ec_params (channel sender)) ∧
    proof_amount p0 = amount ∧ proof_keyset_id p0 = keyset_id ks ∧ proof_secret p0 = ds_secret o ∧
    verify_proof ks p0 = Ok tt ∧     sign_sender_close_proof aux sender p0 amount index = Ok p.

Lemma complete_restore_response request prepared rnd response ks proofs :
  complete_swap_restore request prepared rnd response ks = Ok (Some proofs) →
  ∃ sigs, complete_swap_response request prepared (mk_SwapResponse sigs rnd) ks = Ok proofs.
Proof.
  unfold complete_swap_restore, complete_swap_response. intros (outs & Ho & H)%bind_Ok. case_match; [done|].
  apply bind_Ok in H as (sigs & _ & H). exists sigs. cbn [resp_rerandomization_r resp_signatures]. rewrite Ho. cbn.
  by apply fmap_Ok in H as (ps & Hps & [= <-]).
Qed.

Lemma restore_sender_output_found {HC : ConstructLaws} {HR : RerandomizeLaws} aux sender kss rnd a i n p n' :
  restore_sender_output aux sender kss rnd a i n = (Ok (Some p), n') → sender_share aux sender kss a i p.
Proof.
  unfold restore_sender_output. set (q := ec_params (channel sender)). intros H.
  apply M_bind_Ok in H as (o & ? & [Ho ->]%lift_Ok & H). apply M_bind_Ok in H as (m & ? & [Hm ->]%lift_Ok & H).
  apply map_err_Ok in Ho, Hm.
  apply M_bind_Ok in H as (outs & ? & _ & H). apply M_bind_Ok in H as (resp & n1 & _ & H).
  case_match; [done|]. apply M_bind_Ok in H as (first & ? & _ & H).
  apply M_bind_Ok in H as (ks & ? & [Hks ->]%lift_Ok & H). apply ok_or_Ok, find_some in Hks as [Hks Hid].
  apply andb_true_iff in Hid as [_ Hu%bool_decide_eq_true_1]. apply list_elem_of_In in Hks.
  apply M_bind_Ok in H as (outs' & ? & _ & H). apply M_bind_Ok in H as (c & ? & [Hc ->]%lift_Ok & H).
  apply M_bind_Ok in H as (ps & ? & [Hps ->]%lift_Ok & H). apply ok_or_Ok in Hps as ->.
  apply M_bind_Ok in H as (p0 & ? & [Hp0 ->]%lift_Ok & H). apply ok_or_Ok in Hp0.
  apply lift_Ok in H as [H ->]. apply fmap_Ok in H as (p' & Hsg%map_err_Ok & [= <-]).
  apply map_err_Ok, complete_restore_response in Hc as [sigs Hc].
  apply complete_swap_response_Ok in Hc as (issued & _ & _ & _ & _ & _ & _ & Hv & Ham & Hsec & Hkid).
  assert (bm_amount m = a) as Hma.
  { unfold to_blinded_message in Hm. by apply bind_Ok in Hm as (b & _ & [= <-]). }
  destruct ps as [|p1 [|? ?]]; [done| |done]. injection Hp0 as ->. apply Forall_cons in Hv as [Hv _]. apply Forall_cons in Hkid as [Hkid _].
  exists o, ks, p0. split_and!; try done.
  - destruct (commitment_mode q); cbn in Ham; injection Ham as Ham; congruence.
  - by injection Hsec.
Qed.

Lemma restore_sender_amount_found {HC : ConstructLaws} {HR : RerandomizeLaws} aux sender kss rnd a n l n' :
  restore_sender_amount aux sender kss rnd a n = (Ok l, n') → Forall (λ p, ∃ i, sender_share aux sender kss a i p) l.
Proof.
  unfold restore_sender_amount.
  pose proof (iter_until_invariant (sender_step aux sender kss rnd a)
    (λ s, Forall (λ p, ∃ i, sender_share aux sender kss a i p) s.1.2)
    (λ r, ∀ l, r.1 = Ok l → Forall (λ p, ∃ i, sender_share aux sender kss a i p) l) 64 (0, [], n)) as Hinv.
  intros H. cbv zeta in Hinv.
  assert (match iter_until 64 (sender_step aux sender kss rnd a) (0, [], n) with
          | inl s => Forall (λ p, ∃ i, sender_share aux sender kss a i p) s.1.2
          | inr r => ∀ l, r.1 = Ok l → Forall (λ p, ∃ i, sender_share aux sender kss a i p) l
          end) as Hres.
  { apply Hinv; [by constructor|]. clear -HC HR. intros [[i l] n] Hl. cbn.
    destruct (restore_sender_output aux sender kss rnd a i n) as [[[p|]|e|] n1] eqn:Hp; cbn in *; [|by intros ? [= <-]|done..].
    apply Forall_app. split; [done|]. apply Forall_singleton. exists i. by eapply restore_sender_output_found. }
  destruct (iter_until _ _ _) as [[[i l'] n1]|[r n1]]; [done|]. injection H as -> ->. by apply Hres.
Qed.
Lemma restore_sender_loop_found {HC : ConstructLaws} {HR : RerandomizeLaws} aux sender kss rnd amounts n l n' :
  restore_sender_loop aux sender kss rnd amounts n = (Ok l, n') →
  Forall (λ p, ∃ a i, a ∈ amounts ∧ sender_share aux sender kss a i p) l.
Proof.
  revert n l n'. induction amounts as [|a amounts IH]; intros n l n'; cbn.
  { intros [[= <-] _]%lift_Ok. constructor. }
  intros (l1 & n1 & H1 & (l2 & n2 & H2 & [[= <-] _]%lift_Ok)%M_bind_Ok)%M_bind_Ok.
  apply Forall_app. split.
  - eapply Forall_impl; [by eapply restore_sender_amount_found|]. intros p [i Hi]. exists a, i. split; [left|done].
  - eapply Forall_impl; [by eapply IH|]. intros p (a' & i & Ha & Hi). exists a', i. split; [by right|done].
Qed.

(** C16: recovery of the sender is state-first and never submits anything. It asks the mint
    once for the state of exactly the funding proofs, and makes restore requests, and nothing
    else, only when the answer says that all of them are spent. What it reports as recovered
    is verified: the proofs of one of the stored refunds, worth the funding less the fee, or
    deterministic sender outputs of the channel, opened with their DLEQ checked under one of
    the given keysets. *)
Theorem recovery_is_state_first {HL : RefundLaws} {HW : WireLaws} {HC : ConstructLaws} {HR : RerandomizeLaws}
    aux sender attempts kss n r n' :
  typed_channel (channel sender) → Forall (λ a, typed_keyset (rf_derivation_keyset a)) attempts →
  recover_funds aux sender attempts kss n = (r, n') →
  ((n' = n ∧ is_ok r = false) ∨
   ∃ ys answer n1, try_map proof_y (funding_proofs (channel sender)) = Ok ys ∧ check_state ys n = (answer, n1) ∧
     (n' = n1 ∨ (∃ states, answer = Ok states ∧ covers ys states ∧ all_in StSpent states ∧ rtc restore_request n1 n'))) ∧
  (∀ funding payout, r = Ok (Recovered funding payout) →
     match rs_source payout with
     | SourceRefund i => completes_attempt sender attempts i (rs_proofs payout) ∧
         sumZ (proof_amount <$> rs_proofs payout) = funding_value (channel sender) - refund_fee (channel sender)
     | SourceReceiverClose => rs_proofs payout ≠ [] ∧
         Forall (λ p, ∃ a i, a ∈ discovery_amounts (ec_params (channel sender)) ∧ sender_share aux sender kss a i p)
           (rs_proofs payout)
     end).
Proof.
  intros Hch Hks. unfold recover_funds. unfold mbind at 1, M_bind at 1. unfold lift at 1.
  destruct (ensure _ _) as [[]|e|]; [|by intros [= <- <-]; split; [left|intros ? ? [=]]..].
  unfold mbind at 1, M_bind at 1. unfold lift at 1.
  destruct (try_map _ _) as [us|e|]; [|by intros [= <- <-]; split; [left|intros ? ? [=]]..].
  unfold mbind at 1, M_bind at 1. destruct (inspect_funding _ n) as [ri n1] eqn:Hi.
  pose proof (inspect_funding_spec _ _ _ _ Hi) as [[-> Hno]|(ys & answer & Hys & Hcs & Hspec)].
  { destruct ri as [f|e|]; [done|..]; intros [= <- <-]; (split; [by left|intros ? ? [=]]). }
  destruct ri as [f|e|]; cbn [mbind].
  2, 3: intros [= <- <-]; split; [|intros ? ? [=]]; right; eauto 10.
  destruct (Hspec f eq_refl) as (states & -> & Hresp & Hcov & Hne & Hag). pose proof (aggregate_spec _ _ Hag) as Hall.
  destruct (decide (fi_state f = FsSpent)) as [Hsp|Hsp]; cycle 1.
  { rewrite bool_decide_eq_true_2 by done. intros [= <- <-]. split; [right; eauto 10|].
    intros fu pa. unfold without_payout. by destruct (fi_state f). }
  rewrite bool_decide_eq_false_2 by (intros Hn; by apply Hn). rewrite Hsp in Hall. intros Hr.
  match type of Hr with ?m n1 = _ => assert (only_restores m) as Honly end.
  { apply only_bind; [apply only_restore_refunds|]. intros [[j ps]|[e|]]; [apply only_lift..|].
    apply only_bind; [apply only_lift|]. intros rnd. apply only_bind; [apply only_sender_loop|]. intros ps. apply only_lift. }
  specialize (Honly n1). rewrite Hr in Honly. cbn [snd] in Honly. split; [right; eauto 15|].
  intros fu pa ->. apply M_bind_Ok in Hr as (found & n2 & Hfound & Hr). destruct found as [[j ps]|[e|]]; [|done|].
  - apply lift_Ok in Hr as [[= <- <-] ->]. cbn. apply restore_refunds_found in Hfound. split; [done|].
    destruct Hfound as (attempt & sigs & Ha & Hc). rewrite Forall_lookup in Hks.
    by apply refund_completed in Hc as (_ & _ & ? & _); [|done|by eapply Hks].
  - apply M_bind_Ok in Hr as (rnd & n3 & _ & Hr). apply M_bind_Ok in Hr as (ps & n4 & Hps & Hr).
    apply lift_Ok in Hr as [Hr ->]. unfold restore_sender_proofs_with_keysets_and_randomness in Hps.
    apply restore_sender_loop_found in Hps. destruct ps as [|p ps]; [done|].
    injection Hr as <- <-. cbn. done.
Qed.
End sender.

(** ** The sender's share of a close *)

Section share.
Context {T : CashuTypes} {O : CashuOps} {R : RefundOps} {N : Type} {MC : MintConnection N}.
Context {HE : EncodingLaws} {HC : ConstructLaws} {HR : RerandomizeLaws} {HD : DhkeLaws} {HB : DerivedBlindingLaws}.
Implicit Types (aux : Z → Z → bytes) (sender : SpilmanChannelSender).
Implicit Types p : ChannelParameters.

(** The counts of a split for every denomination, the unused ones included. *)
Fixpoint all_counts (l : list Z) (n : Z) : list (Z * Z) :=
  match l with [] => [] | a :: l => (a, n / a) :: all_counts l (n mod a) end.

Lemma all_counts_fst l n : (all_counts l n).*1 = l.
Proof. revert n. induction l as [|a l IH]; intros n; cbn; [done|]. by rewrite IH. Qed.
Lemma all_counts_bounds l n : positive_amounts l → 0 <= n → Forall (λ '(_, c), 0 <= c <= n) (all_counts l n).
Proof.
  intros Hl. revert n. induction Hl as [|a l Ha _ IH]; intros n Hn; cbn; [constructor|]. cbn in Ha.
  pose proof (Z.mod_pos_bound n a ltac:(lia)). pose proof (Z.div_pos n a Hn ltac:(lia)).
  assert (n / a <= n) by (apply Z.div_le_upper_bound; nia). pose proof (Z.mod_le n a Hn ltac:(lia)).
  constructor; [lia|]. eapply Forall_impl; [apply IH; lia|]. intros [b c]. lia.
Qed.
Lemma amount_indices_app m m' : amount_indices (m ++ m') = amount_indices m ++ amount_indices m'.
Proof. apply bind_app. Qed.
Lemma all_counts_indices l n :
  positive_amounts l → 0 <= n →
  amount_indices (reverse (all_counts l n)) = amount_indices (reverse (gcounts l n)).
Proof.
  intros Hl. revert n. induction Hl as [|a l Ha _ IH]; intros n Hn; [done|]. cbn in Ha.
  cbn [all_counts gcounts]. rewrite reverse_cons, reverse_app, !amount_indices_app.
  pose proof (Z.mod_pos_bound n a ltac:(lia)). rewrite IH by lia. f_equal.
  pose proof (Z.div_pos n a Hn ltac:(lia)). destruct (0 <? n / a) eqn:E; [done|].
  assert (n / a = 0) as -> by lia. done.
Qed.

Lemma discovery_usable p :
  0 <= maximum_amount_for_one_output p →
  discovery_amounts p = reverse (usable (maximum_amount_for_one_output p) (amounts_largest_first (keyset_info p))).
Proof.
  intros Hm. unfold discovery_amounts, usable. f_equal. apply list_filter_iff. intros a. lia.
Qed.

(** The pairs of amount and index that the sender's outputs of the commitment have. *)
Definition share_indices (c : CommitmentOutputs) : list (Z * Z) :=
  amount_indices (iter_smallest_first (oc_ordered_amounts (sender_outputs c))).
Lemma share_by_amount p balance c :
  sound_params p → 0 <= balance → for_balance balance p = Ok c →
  ∃ counts, counts.*1 = discovery_amounts p ∧ amount_indices counts = share_indices c ∧
    Forall (λ '(_, k), 0 <= k < 2 ^ 54) counts ∧ sumZ (share_indices c).*1 = oc_amount (sender_outputs c) ∧
    oc_params (sender_outputs c) = p ∧ oc_context (sender_outputs c) = "sender" ∧
    (oc_amount (sender_outputs c) = 0 → share_indices c = []).
Proof.
  intros Hp Hb Hc. destruct (for_balance_Ok _ _ _ Hp Hb Hc) as (nr & ns & _ & Hs & Hnr & Hns & Hle & _).
  pose proof Hp as (_ & [Hwf _] & _ & [Hm _] & _).
  unfold OutputsForOneContext_new in Hs. apply bind_Ok in Hs as (o & Ho & [= Hs]). unfold share_indices, iter_smallest_first. rewrite <-Hs.
  pose proof Ho as Ho'. apply from_target_Ok in Ho' as [_ ->]; [|done|unfold is_u64; lia]. cbn.
  pose proof (wf_amounts_positive _ (usable_wf (maximum_amount_for_one_output p) _ Hwf)) as Hpos.
  set (us := usable _ _) in *. exists (reverse (all_counts us ns)). split_and!; try done.
  - by rewrite fmap_reverse, all_counts_fst, discovery_usable.
  - by apply all_counts_indices.
  - apply Forall_reverse. eapply Forall_impl; [by apply all_counts_bounds|]. intros [a k]. lia.
  - rewrite amount_indices_fst. destruct (split_amounts (keyset_info p) (maximum_amount_for_one_output p) ns _ Hwf ltac:(unfold is_u64; lia) Ho) as [Hsum _].
    cbn in Hsum. rewrite <-Hsum at 2. apply sumZ_perm. unfold expand_counts. by rewrite reverse_Permutation.
  - cbn. intros ->. by rewrite gcounts_0.
Qed.

(** A swap that the mint's signatures complete is completed by a restore of the points it issued
    too. *)
Lemma complete_restore_same request prepared rnd issued sigs response ks proofs :
  complete_swap_response request prepared (mk_SwapResponse sigs rnd) ks = Ok proofs →
  swap_restore_request request rnd = Ok issued → NoDup issued → restores response issued sigs →
  complete_swap_restore request prepared rnd response ks = Ok (Some proofs).
Proof.
  intros Hc Hreq Hnd Hrest. pose proof Hc as (issued' & Hreq' & _ & _ & _ & _ & Hright & _)%complete_swap_response_Ok.
  cbn in Hreq', Hright. rewrite Hreq in Hreq'. injection Hreq' as <-.
  pose proof Hreq as (Hne & _ & Hmode)%swap_restore_request_Ok.
  assert (length issued = length (sr_outputs request)) as Hli.
  { destruct rnd as [r|]; [|by destruct Hmode as [_ ->]].
    destruct Hmode as [_ [Ham _]%tweak_swap_outputs_keeps]. apply (f_equal length) in Ham. by rewrite !length_fmap in Ham. }
  unfold complete_swap_response, complete_swap_restore in *. cbn [resp_rerandomization_r resp_signatures] in Hc.
  apply bind_Ok in Hc as (outs & Hout & Hc). rewrite Hout. cbn [mbind Result_bind].
  unfold effective_outputs in Hout. rewrite Hreq in Hout. cbn [mbind Result_bind] in Hout.
  apply bind_Ok in Hout as ([] & Hen%ensure_Ok%bool_decide_eq_true_1 & (tw & _ & Hloop)%bind_Ok).
  destruct (effective_loop_Ok _ _ _ _ _ _ _ Hen Hli Hloop) as (_ & Hm & _).
  destruct Hrest as [Hl Hp]. apply Forall2_length in Hright.
  rewrite bool_decide_eq_false_2; cbn [andb].
  - rewrite Hm, (restores_match _ _ sigs "swap"); [|done|lia|done]. cbn. by rewrite Hc.
  - intros Hnil. rewrite Hnil in Hp. apply Permutation_nil_l in Hp.
    destruct (sr_outputs request), issued, sigs; done.
Qed.

(** What the parties and the mint did: the receiver closed the channel at [balance] with
    outputs of [ks], one of the keysets the sender has; the mint issued the points [issued] for
    them (the outputs themselves, or, for a rerandomized channel, the outputs shifted by its
    randomness [rnd]), signed them, restores each of them, and knows no output of the sender
    beyond them. *)
Definition next_index (c : CommitmentOutputs) (a : Z) : Z :=
  Z.of_nat (length (filter (λ ai, ai.1 = a) (share_indices c))).
Record closed_at sender kss ks (mint_key : Z → SecretKey) (balance : Z) (c : CommitmentOutputs)
    (req : SwapRequest) (rnd : option RerandomizationR) (tweak : option Scalar) (issued : list BlindedMessage)
    (n0 : N) : Prop := {
  ca_sound : sound_params (ec_params (channel sender));
  ca_balance : 0 <= balance;
  ca_commitment : for_balance balance (ec_params (channel sender)) = Ok c;
  ca_request : create_swap_request c (funding_proofs (channel sender)) (Some (keyset_id ks)) = Ok req;
  ca_tweak : mint_tweak rnd tweak;
  ca_issued : swap_restore_request req rnd = Ok issued;
  ca_keyset : List.find (λ k, bool_decide (keyset_id k = keyset_id ks)
    && bool_decide (ki_unit k = cp_unit (ec_params (channel sender)))) kss = Some ks;
  ca_keys a K : amount_key (active_keys ks) a = Some K → K = public_key (mint_key a);
  ca_denominations : Forall (λ m, is_Some (amount_key (active_keys ks) (bm_amount m))) (sr_outputs req);
  ca_key_text : secret_from_hex (hex_encode (secret_bytes (alice_secret sender))) = Ok (alice_secret sender);
  ca_signs : Forall (λ '(a, i), is_ok (get_sender_blinded_secret_key_for_stage2_output
    (ec_params (channel sender)) (alice_secret sender) a i) = true) (share_indices c);
  ca_shift : Forall (λ '(a, i), ∀ o,
    create_deterministic_output_with_blinding (ec_params (channel sender)) "sender" a i = Ok o →
    shiftable tweak (ds_blinding_factor o)) (share_indices c);
  ca_next : Forall (λ a, ∃ o m m', create_deterministic_output_with_blinding (ec_params (channel sender)) "sender" a
      (next_index c a) = Ok o ∧ to_blinded_message o a (keyset_id ks) = Ok m ∧ issued_for tweak m m' ∧ m' ∉ issued)
    (discovery_amounts (ec_params (channel sender)));
  ca_restores n m : rtc restore_request n0 n →
    (post_restore [m] n).1 = Ok (if bool_decide (bm_with_id (keyset_id ks) m ∈ issued)
      then mk_RestoreResponse [m] [mint_sign (mint_key (bm_amount m)) (bm_with_id (keyset_id ks) m)]
      else mk_RestoreResponse [] []);
}.

Lemma sign_share aux sender (p0 : Proof) a i :
  secret_from_hex (hex_encode (secret_bytes (alice_secret sender))) = Ok (alice_secret sender) →
  is_ok (get_sender_blinded_secret_key_for_stage2_output (ec_params (channel sender)) (alice_secret sender) a i) = true →
  ∃ pr, sign_sender_close_proof aux sender p0 a i = Ok pr ∧ proof_amount pr = proof_amount p0 ∧ proof_secret pr = proof_secret p0.
Proof.
  intros Hk (k & Hok)%is_ok_Ok. unfold get_sender_blinded_secret_key_for_stage2_output in Hok.
  apply bind_Ok in Hok as (info & Hinfo & Hd).
  unfold sign_sender_close_proof, attach_stage2_p2pk_e, stage2_p2pk_e_for_role. rewrite Hinfo. cbn [mbind Result_bind].
  unfold sign_with_tweaked_key_util. rewrite Hk. cbn [map_err mbind Result_bind].
  destruct (scalar_bytes_range (stage2_tweak_scalar info)) as [Hl Hr]. rewrite (hex_inv (scalar_to_be_bytes _)) by done. cbn [map_err mbind Result_bind].
  rewrite bool_decide_eq_true_2 by done. cbn [ensure mbind Result_bind].
  assert (scalar_from_be_bytes (scalar_to_be_bytes (stage2_tweak_scalar info)) = Some (stage2_tweak_scalar info)) as ->.
  { unfold stage2_tweak_info_for_role in Hinfo.
    apply bind_Ok in Hinfo as (es & _ & (x & _ & (t & Ht & [= <-])%bind_Ok)%bind_Ok). by eapply hash_to_scalar_bytes. }
  cbn [ok_or mbind Result_bind]. destruct (sha256_range (bytes_of_string (proof_secret p0))) as [Hl' Hr'].
  cbn [proof_secret set_p2pk_e]. rewrite (hex_inv (sha256 _)) by done. cbn [map_err mbind Result_bind].
  rewrite bool_decide_eq_true_2 by done. cbn [ensure mbind Result_bind].
  unfold derive_blinded_secret_key in Hd. apply map_err_Ok in Hd. rewrite Hd. cbn. eauto.
Qed.

(** The request of a query, and the point that is asked for. *)
Definition query_request p (m : BlindedMessage) : SwapRequest :=
  match commitment_mode p with
  | Ordinary => SwapRequest_new [] [m]
  | Rerandomized => with_rerandomization (SwapRequest_new [] [m])
  end.
(** The mode of the channel is the one of the mint's answer. *)
Definition mode_of (rnd : option RerandomizationR) : CommitmentMode :=
  match rnd with Some _ => Rerandomized | None => Ordinary end.
Lemma closed_mode sender kss ks mint_key balance c req rnd tweak issued n0 :
  closed_at sender kss ks mint_key balance c req rnd tweak issued n0 →
  commitment_mode (ec_params (channel sender)) = mode_of rnd.
Proof.
  intros Hcl. destruct (share_by_amount _ _ _ (ca_sound _ _ _ _ _ _ _ _ _ _ _ Hcl) (ca_balance _ _ _ _ _ _ _ _ _ _ _ Hcl)
    (ca_commitment _ _ _ _ _ _ _ _ _ _ _ Hcl)) as (_ & _ & _ & _ & _ & Hop & _).
  destruct (for_balance_Ok _ _ _ (ca_sound _ _ _ _ _ _ _ _ _ _ _ Hcl) (ca_balance _ _ _ _ _ _ _ _ _ _ _ Hcl)
    (ca_commitment _ _ _ _ _ _ _ _ _ _ _ Hcl)) as (nr & ns & Hdr & _).
  apply bind_Ok in Hdr as (? & _ & [= Hdr]).
  destruct (create_swap_request_Ok _ _ _ _ (ca_request _ _ _ _ _ _ _ _ _ _ _ Hcl)) as (r & s & _ & _ & _ & _ & _ & Hrr).
  rewrite <-Hdr in Hrr. cbn [oc_params] in Hrr.
  pose proof (ca_issued _ _ _ _ _ _ _ _ _ _ _ Hcl) as (_ & _ & Hm)%swap_restore_request_Ok.
  destruct rnd, Hm as [Hm _]; rewrite Hm in Hrr; by destruct (commitment_mode _).
Qed.
Lemma query_points p rnd tweak m m' :
  commitment_mode p = mode_of rnd → mint_tweak rnd tweak → issued_for tweak m m' →
  swap_restore_request (query_request p m) rnd = Ok [m'].
Proof.
  intros Hmode Ht Hm. unfold query_request, swap_restore_request. rewrite Hmode.
  destruct rnd as [r|], tweak as [t|]; try done; cbn [mode_of] in *; rewrite bool_decide_eq_false_2 by done;
    rewrite (bool_decide_eq_true_2 (NoDup _)) by (by apply NoDup_singleton); cbn.
  - rewrite (proj2 (tweak_swap_outputs_points r t [m] [m'] Ht)); [done|]. apply try_map_Ok. by constructor.
  - cbn in Hm. by subst.
Qed.
Lemma issued_with_id tweak id m m' :
  issued_for tweak m m' → issued_for tweak (bm_with_id id m) (bm_with_id id m').
Proof.
  destruct tweak as [t|]; cbn; [|by intros ->]. unfold tweak_message. intros (B & Hp & [= <-])%bind_Ok.
  cbn. by rewrite Hp.
Qed.
Lemma query_request_ids p m id :
  mk_SwapRequest (sr_inputs (query_request p m)) (bm_with_id id <$> sr_outputs (query_request p m))
    (sr_rerandomized (query_request p m)) = query_request p (bm_with_id id m).
Proof. unfold query_request. by destruct (commitment_mode p). Qed.

(** A query up to the mint's answer, for the point [m'] of the output [m]; [m0] and [m0'] are
    the two under the keyset of the channel. *)
Ltac open_query Hcl Hn Ho Hm Hm' m0 m0' n' Hpost :=
  match type of Hm with
  | to_blinded_message ?o ?a (keyset_id ?ks) = Ok ?m =>
      match type of Hm' with
      | issued_for ?tweak _ ?m' =>
          let b := fresh "b" in let Hb := fresh "Hb" in let kid := fresh "kid" in let r := fresh "r" in
          let H0 := fresh "H0" in let Hans := fresh "Hans" in
          unfold to_blinded_message in Hm; apply bind_Ok in Hm as (b & Hb & [= Hm]);
          unfold restore_sender_output; set (kid := keyset_id (keyset_info _));
          unfold any; rewrite Ho; cbn [map_err]; rewrite lift_bind; cbv zeta; set (m0 := BlindedMessage_new a kid b);
          assert (to_blinded_message o a kid = Ok m0) as -> by (unfold to_blinded_message; by rewrite Hb);
          cbn [map_err]; rewrite lift_bind; 
          match goal with |- context [commitment_mode ?q] => fold (query_request q m0) end;
          set (m0' := bm_with_id kid m');
          assert (issued_for tweak m0 m0') as H0
            by (apply (issued_with_id tweak kid) in Hm'; by rewrite <-Hm in Hm');
          rewrite (query_points _ _ _ _ _ (closed_mode _ _ _ _ _ _ _ _ _ _ _ Hcl) (ca_tweak _ _ _ _ _ _ _ _ _ _ _ Hcl) H0);
          cbn [map_err]; rewrite lift_bind; pose proof (ca_restores _ _ _ _ _ _ _ _ _ _ _ Hcl _ m0' Hn) as Hans;
          unfold mbind at 1, M_bind at 1; unfold mmap_err;
          destruct (post_restore [m0'] _) as [r n'] eqn:Hpost; cbn [fst] in Hans; subst r
      end
  end.
(** The point under the output keyset is the one the mint issued. *)
Lemma issued_id_back id kid tweak m m' :
  bm_keyset_id m = id → issued_for tweak m m' → bm_with_id id (bm_with_id kid m') = m'.
Proof. intros <- [_ Hi]%issued_for_keeps. destruct m'. cbn in *. by subst. Qed.

(** A query for an output of the commitment finds it. *)
Lemma share_found aux sender kss ks mint_key balance c req rnd tweak issued n0 n a i o m m' :
  closed_at sender kss ks mint_key balance c req rnd tweak issued n0 → rtc restore_request n0 n →
  create_deterministic_output_with_blinding (ec_params (channel sender)) "sender" a i = Ok o →
  to_blinded_message o a (keyset_id ks) = Ok m → m ∈ sr_outputs req → issued_for tweak m m' → m' ∈ issued →
  shiftable tweak (ds_blinding_factor o) →
  is_ok (get_sender_blinded_secret_key_for_stage2_output (ec_params (channel sender)) (alice_secret sender) a i) = true →
  0 <= a <= u64_max →
  ∃ pr n', restore_sender_output aux sender kss rnd a i n = (Ok (Some pr), n') ∧ restore_request n n' ∧
    proof_amount pr = a ∧ proof_secret pr = ds_secret o.
Proof.
  intros Hcl Hn Ho Hm Hreq Hm' Hin Hsh Hok Ha.
  assert (bm_keyset_id m = keyset_id ks ∧ bm_amount m = a ∧
    blind_message (bytes_of_string (ds_secret o)) (ds_blinding_factor o) = Ok (bm_blinded_secret m)) as (Hmid & Hma & Hmb).
  { unfold to_blinded_message in Hm. by apply bind_Ok in Hm as (b & ? & [= <-]). }
  assert (is_Some (amount_key (active_keys ks) (bm_amount m))) as HK.
  { pose proof (ca_denominations _ _ _ _ _ _ _ _ _ _ _ Hcl) as Hden. rewrite Forall_forall in Hden. by apply Hden. }
  open_query Hcl Hn Ho Hm Hm' m0 m0' n' Hpost.
  assert (bm_with_id (keyset_id ks) m0' = m') as Hback by (exact (issued_id_back _ _ _ _ _ Hmid Hm')). rewrite Hback.
  rewrite (bool_decide_eq_true_2 (m' ∈ _)) by done.
  set (sg := mint_sign _ m'). cbn [fst snd map_err rr_outputs rr_signatures].
  rewrite (bool_decide_eq_false_2 ([m0'] = [])) by done. cbn [andb head ok_or]. rewrite lift_bind.
  assert (bs_keyset_id sg = keyset_id ks) as ->.
  { unfold sg. rewrite mint_sign_keyset. apply issued_for_keeps in Hm' as [_ ->]. done. }
  rewrite (ca_keyset _ _ _ _ _ _ _ _ _ _ _ Hcl). cbn [ok_or]. rewrite lift_bind. cbn [try_map].
  rewrite (bool_decide_eq_true_2 (bm_keyset_id m0' = _)) by done.
  cbn [orb ensure mbind Result_bind]. rewrite Hback, lift_bind, query_request_ids.
  assert (bm_with_id (keyset_id ks) m0 = m) as -> by (by rewrite <-Hm).
  set (prepared := mk_PreparedSwapOutput m (ds_secret o) (ds_blinding_factor o)).
  assert (sr_outputs (query_request (ec_params (channel sender)) m) = [m]) as Hout
    by (unfold query_request; by destruct (commitment_mode _)).
  pose proof (query_points _ _ _ _ _ (closed_mode _ _ _ _ _ _ _ _ _ _ _ Hcl) (ca_tweak _ _ _ _ _ _ _ _ _ _ _ Hcl) Hm') as Hq.
  destruct (complete_swap_response_honest (query_request (ec_params (channel sender)) m) [prepared] mint_key ks rnd tweak [m'])
    as (proofs & Hc & Hf); try done.
  { exact (ca_tweak _ _ _ _ _ _ _ _ _ _ _ Hcl). }
  { by apply NoDup_singleton. }
  { rewrite Hout. constructor; [|constructor]. done. }
  { by constructor. }
  { exact (ca_keys _ _ _ _ _ _ _ _ _ _ _ Hcl). }
  { rewrite Hout. constructor; [|constructor]. lia. }
  { rewrite Hout. cbn. lia. }
  assert (mint_key (bm_amount m0') = mint_key (bm_amount m')) as Hkey by done. unfold sg. rewrite Hkey. cbn in Hc.
  apply complete_restore_same with (issued := [m'])
    (response := mk_RestoreResponse [m'] [mint_sign (mint_key (bm_amount m')) m']) in Hc; [|done|by apply NoDup_singleton|done].
  rewrite Hc. cbn [map_err]. rewrite lift_bind. cbn [ok_or]. rewrite lift_bind.
  assert (∃ pr0, proofs = [pr0] ∧ proof_amount pr0 = bm_amount m ∧ proof_secret pr0 = ds_secret o)
    as (pr0 & -> & Hpa & Hps).
  { clear -Hf. inversion Hf as [|? pr0 ? ? (Hpa & _ & Hps & _) Hnil]; subst. inversion Hnil; subst. eauto. }
  cbn [last ok_or]. rewrite lift_bind.
  destruct (sign_share aux sender pr0 a i) as (pr & -> & Hpa' & Hps');
    [exact (ca_key_text _ _ _ _ _ _ _ _ _ _ _ Hcl)|done|]. cbn.
  exists pr, n'. split; [done|]. split; [exists [m0']; by rewrite Hpost|]. rewrite Hpa', Hps', Hpa. done.
Qed.
(** A query for an output the mint does not know ends the search for its amount. *)
Lemma share_absent aux sender kss ks mint_key balance c req rnd tweak issued n0 n a i o m m' :
  closed_at sender kss ks mint_key balance c req rnd tweak issued n0 → rtc restore_request n0 n →
  create_deterministic_output_with_blinding (ec_params (channel sender)) "sender" a i = Ok o →
  to_blinded_message o a (keyset_id ks) = Ok m → issued_for tweak m m' → m' ∉ issued →
  ∃ n', restore_sender_output aux sender kss rnd a i n = (Ok None, n') ∧ restore_request n n'.
Proof.
  intros Hcl Hn Ho Hm Hm' Hin.
  assert (bm_keyset_id m = keyset_id ks) as Hmid.
  { unfold to_blinded_message in Hm. by apply bind_Ok in Hm as (b & ? & [= <-]). }
  open_query Hcl Hn Ho Hm Hm' m0 m0' n' Hpost.
  assert (bm_with_id (keyset_id ks) m0' = m') as Hback by (exact (issued_id_back _ _ _ _ _ Hmid Hm')). rewrite Hback.
  rewrite (bool_decide_eq_false_2 (m' ∈ _)) by done. cbn. exists n'. split; [done|]. exists [m0']. by rewrite Hpost.
Qed.

(** The outputs of the commitment, by amount and index. *)
Lemma share_outputs sender kss ks mint_key balance c req rnd tweak issued n0 a i :
  closed_at sender kss ks mint_key balance c req rnd tweak issued n0 → (a, i) ∈ share_indices c →
  ∃ o m m', create_deterministic_output_with_blinding (ec_params (channel sender)) "sender" a i = Ok o ∧
    to_blinded_message o a (keyset_id ks) = Ok m ∧ m ∈ sr_outputs req ∧ issued_for tweak m m' ∧ m' ∈ issued ∧
    shiftable tweak (ds_blinding_factor o).
Proof.
  intros [Hp Hb Hc Hreq Htw Hiss _ _ _ _ _ Hsh _ _] Hai.
  rewrite Forall_forall in Hsh. pose proof (Hsh _ Hai) as Hshift. cbn in Hshift. clear Hsh.
  destruct (share_by_amount _ _ _ Hp Hb Hc) as (counts & _ & _ & _ & _ & Hop & Hoc & Hz).
  apply create_swap_request_Ok in Hreq as (r & s & _ & Hs & Hf & _).
  unfold get_secrets_with_blinding in Hs. destruct (oc_amount (sender_outputs c) =? 0) eqn:E.
  { rewrite Hz in Hai by lia. by apply elem_of_nil in Hai. }
  apply try_map_Ok in Hs. apply list_elem_of_lookup_1 in Hai as [k Hk].
  destruct (Forall2_lookup_l _ _ _ _ _ Hs Hk) as (o & Ho & Hcr). cbn in Hcr. rewrite Hop, Hoc in Hcr.
  destruct (create_output_amount_index _ _ _ _ _ Hcr) as [Ha _].
  assert ((o, false) ∈ all_outputs r s) as Hin.
  { unfold all_outputs. rewrite sort_by_key_perm. apply elem_of_app. right. apply list_elem_of_fmap. exists o. split; [done|].
    by eapply list_elem_of_lookup_2. }
  apply list_elem_of_lookup_1 in Hin as [j Hj]. destruct (Forall2_lookup_l _ _ _ _ _ Hf Hj) as (m & Hm & Hmo).
  destruct (Forall2_lookup_l _ _ _ _ _ (restore_request_issued _ _ _ _ Htw Hiss) Hm) as (m' & Hm' & Hmm).
  exists o, m, m'. cbn in Hmo. unfold message_of in Hmo. rewrite Ha in Hmo.
  split_and!; [done..|by eapply list_elem_of_lookup_2|done|by eapply list_elem_of_lookup_2|by apply Hshift].
Qed.

Definition found_share aux sender kss (ai : Z * Z) (pr : Proof) : Prop :=
  sender_share aux sender kss ai.1 ai.2 pr ∧ proof_amount pr = ai.1.

Lemma share_amount aux sender kss ks mint_key balance c req rnd tweak issued n0 n a k :
  closed_at sender kss ks mint_key balance c req rnd tweak issued n0 → rtc restore_request n0 n →
  a ∈ discovery_amounts (ec_params (channel sender)) → k = next_index c a → 0 <= k < 2 ^ 54 → 0 <= a <= u64_max →
  (∀ i, 0 <= i < k → (a, i) ∈ share_indices c) →
  ∃ ps n', restore_sender_amount aux sender kss rnd a n = (Ok ps, n') ∧ rtc restore_request n0 n' ∧
    Forall2 (found_share aux sender kss) (pair a <$> seqZ 0 k) ps.
Proof.
  intros Hcl Hn Ha Hk Hb Hau Hin. unfold restore_sender_amount.
  destruct (iter_until_measure (sender_step aux sender kss rnd a)
    (λ s, 0 <= s.1.1 <= k ∧ rtc restore_request n0 s.2 ∧ Forall2 (found_share aux sender kss) (pair a <$> seqZ 0 s.1.1) s.1.2)
    (λ r, ∃ ps n', r = (Ok ps, n') ∧ rtc restore_request n0 n' ∧ Forall2 (found_share aux sender kss) (pair a <$> seqZ 0 k) ps)
    (λ s, k - s.1.1) 64 (0, [], n)) as (r & -> & ps & n' & -> & Hrest); cbn; [|lia| |by eauto].
  { split_and!; [lia..|done|constructor]. }
  clear n Hn. intros [[i l] n] (Hi & Hn & Hl) _. cbn in *.
  destruct (decide (i = k)) as [->|Hne].
  - pose proof (ca_next _ _ _ _ _ _ _ _ _ _ _ Hcl) as Hnext. rewrite Forall_forall in Hnext.
    destruct (Hnext a Ha) as (o & m & m' & Ho & Hm & Hm' & Hmn). rewrite <-Hk in Ho.
    destruct (share_absent aux _ _ _ _ _ _ _ _ _ _ _ n a k o m m' Hcl Hn Ho Hm Hm' Hmn) as (n' & -> & Hn').
    exists l, n'. split_and!; [done| |done]. by eapply rtc_r.
  - destruct (share_outputs _ _ _ _ _ _ _ _ _ _ _ a i Hcl) as (o & m & m' & Ho & Hm & Hmi & Hm' & Hii & Hsh); [apply Hin; lia|].
    pose proof (ca_signs _ _ _ _ _ _ _ _ _ _ _ Hcl) as Hsg. rewrite Forall_forall in Hsg. specialize (Hsg (a, i) (Hin i ltac:(lia))). cbn in Hsg.
    destruct (share_found aux _ _ _ _ _ _ _ _ _ _ _ n a i o m m' Hcl Hn Ho Hm Hmi Hm' Hii Hsh Hsg Hau) as (pr & n' & Hpr & Hn' & Hpa & _).
    rewrite Hpr. cbn. split_and!; try lia; [by eapply rtc_r|].
    rewrite seqZ_app, fmap_app, (seqZ_cons (0 + i) 1), (seqZ_nil (Z.succ (0 + i))) by lia. cbn [fmap list_fmap].
    apply Forall2_app; [done|]. constructor; [|constructor]. split; [by eapply restore_sender_output_found|done].
Qed.

(** How often an amount occurs among the pairs. *)
Lemma count_indices counts a k :
  NoDup counts.*1 → (a, k) ∈ counts → 0 <= k → Z.of_nat (length (filter (λ ai, ai.1 = a) (amount_indices counts))) = k.
Proof.
  intros Hnd Hin Hk.
  assert (∀ b j, b ≠ a → filter (λ ai : Z * Z, ai.1 = a) (pair b <$> j : list (Z * Z)) = []) as Hother.
  { intros b j Hb. by rewrite filter_fmap, filter_none. }
  assert (∀ m : list (Z * Z), a ∉ m.*1 → filter (λ ai, ai.1 = a) (amount_indices m) = []) as Habs.
  { induction m as [|[b j] m IH]; intros Hm; [done|]. unfold amount_indices. rewrite bind_cons, filter_app. fold (amount_indices m).
    rewrite fmap_cons, not_elem_of_cons in Hm. cbn in Hm. rewrite Hother, IH by naive_solver. done. }
  revert Hnd Hin. induction counts as [|[b j] m IH]; intros Hnd Hin; [by apply elem_of_nil in Hin|].
  rewrite fmap_cons in Hnd. apply NoDup_cons in Hnd as [Hb Hnd]. cbn in Hb.
  unfold amount_indices. rewrite bind_cons, filter_app. fold (amount_indices m).
  apply elem_of_cons in Hin as [[= <- <-]|Hin].
  - rewrite (Habs m) by done. rewrite app_nil_r, filter_fmap, filter_all, length_fmap, length_seqZ by done. lia.
  - rewrite Hother; [by apply IH|]. intros ->. apply Hb, list_elem_of_fmap. by exists (a, k).
Qed.

Lemma share_loop aux sender kss ks mint_key balance c req rnd tweak issued n0 counts n :
  closed_at sender kss ks mint_key balance c req rnd tweak issued n0 → rtc restore_request n0 n →
  Forall (λ '(a, k), a ∈ discovery_amounts (ec_params (channel sender)) ∧ k = next_index c a ∧ 0 <= k < 2 ^ 54 ∧
    0 <= a <= u64_max ∧ ∀ i, 0 <= i < k → (a, i) ∈ share_indices c) counts →
  ∃ ps n', restore_sender_loop aux sender kss rnd counts.*1 n = (Ok ps, n') ∧
    Forall2 (found_share aux sender kss) (amount_indices counts) ps.
Proof.
  intros Hcl Hn Hall. revert n Hn. induction Hall as [|[a k] counts (Ha & Hk & Hkb & Hab & Hin) _ IH]; intros n Hn.
  { exists [], n. split; [done|constructor]. }
  destruct (share_amount aux _ _ _ _ _ _ _ _ _ _ _ n a k Hcl Hn Ha Hk Hkb Hab Hin) as (ps & n1 & Hps & Hn1 & Hf).
  destruct (IH n1 Hn1) as (qs & n2 & Hqs & Hg). exists (ps ++ qs), n2. split.
  - cbn. unfold mbind, M_bind. rewrite Hps. cbn in Hqs. by rewrite Hqs.
  - unfold amount_indices. rewrite bind_cons. by apply Forall2_app.
Qed.
Lemma share_counts sender balance c :
  sound_params (ec_params (channel sender)) → 0 <= balance → for_balance balance (ec_params (channel sender)) = Ok c →
  ∃ counts, counts.*1 = discovery_amounts (ec_params (channel sender)) ∧ amount_indices counts = share_indices c ∧
    sumZ (share_indices c).*1 = oc_amount (sender_outputs c) ∧
    Forall (λ '(a, k), a ∈ discovery_amounts (ec_params (channel sender)) ∧ k = next_index c a ∧ 0 <= k < 2 ^ 54 ∧
      0 <= a <= u64_max ∧ ∀ i, 0 <= i < k → (a, i) ∈ share_indices c) counts.
Proof.
  intros Hp Hb Hc. destruct (share_by_amount _ _ _ Hp Hb Hc) as (counts & Hd & Hai & Hbd & Hsum & _).
  exists counts. split_and!; try done.
  pose proof Hp as (_ & [Hwf _] & _ & [Hm _] & _). pose proof (usable_wf (maximum_amount_for_one_output (ec_params (channel sender))) _ Hwf) as [Hsort Hpos].
  rewrite discovery_usable in Hd by done.
  assert (NoDup counts.*1) as Hnd.
  { rewrite Hd, reverse_Permutation. clear -Hsort. induction Hsort as [|a l _ IH Hf]; constructor; [|done].
    intros Hin. rewrite Forall_forall in Hf. specialize (Hf a Hin). lia. }
  apply Forall_forall. intros [a k] Hak. rewrite Forall_forall in Hbd. pose proof (Hbd _ Hak) as Hk. cbn in Hk.
  assert (a ∈ counts.*1) as Ha by (apply list_elem_of_fmap; by exists (a, k)).
  rewrite discovery_usable, <-Hd by done. split_and!; try done; try lia.
  - unfold next_index. rewrite <-Hai. symmetry. apply count_indices; [done..|lia].
  - rewrite Hd, elem_of_reverse in Ha. rewrite Forall_forall in Hpos. specialize (Hpos a Ha). cbn in Hpos. lia.
  - rewrite Hd, elem_of_reverse in Ha. rewrite Forall_forall in Hpos. specialize (Hpos a Ha). cbn in Hpos. unfold u64_max. lia.
  - intros i Hik. rewrite <-Hai. unfold amount_indices. apply list_elem_of_bind. exists (a, k). split; [|done].
    apply list_elem_of_fmap. exists i. split; [done|]. apply elem_of_seqZ. lia.
Qed.

(** Stored refunds that verify and that the mint has not issued: every restore of one finds
    nothing. *)
Definition unissued_refunds sender (attempts : list PreparedSenderRefund) (n0 : N) : Prop :=
  Forall (λ a, refund_verify a (channel sender) (alice_secret sender) = Ok tt ∧
    ∀ n, rtc restore_request n0 n →
      (post_restore (ro_blinded_message <$> rf_outputs a) n).1 = Ok (mk_RestoreResponse [] [])) attempts.
Lemma try_candidates_empty sender i candidates b n0 :
  unissued_refunds sender candidates n0 →
  ∃ b', try_candidates sender i candidates (mk_RestoreResponse [] []) None b = Ok (inr (None, b')).
Proof.
  intros Hc. revert i b. induction Hc as [|a candidates [Hv _] _ IH]; intros i b; cbn [try_candidates]; [by eexists|].
  unfold complete_prepared_sender_refund_restore. rewrite Hv. cbn. apply IH.
Qed.
Lemma restore_refunds_empty sender all attempts n0 n :
  unissued_refunds sender all n0 → unissued_refunds sender attempts n0 → rtc restore_request n0 n →
  ∃ n', restore_refunds sender all attempts None n = (Ok (inr None), n') ∧ rtc restore_request n0 n'.
Proof.
  intros Hall Hat. revert n. induction Hat as [|a attempts [_ Ha] _ IH]; intros n Hn; cbn [restore_refunds]; [by exists n|].
  unfold match_call. specialize (Ha n Hn). destruct (post_restore _ n) as [resp n1] eqn:Hpost. cbn [fst] in Ha. subst resp.
  rewrite bool_decide_eq_false_2 by (cbn; lia). destruct (try_candidates_empty sender 0 all false n0 Hall) as [b' Hb].
  change (route_ids (mk_RestoreResponse [] [])) with (mk_RestoreResponse (T:=T) [] []). rewrite Hb, lift_bind.
  apply IH. eapply rtc_r; [done|]. exists (ro_blinded_message <$> rf_outputs a). by rewrite Hpost.
Qed.

(** C5: the sender gets her share of a close back without the receiver's help. If the receiver
    closed the channel, ordinary or rerandomized, at some balance, the mint, which signed the
    close, restores the points it issued for it, and the sender's stored refunds, if she
    prepared any, verify and were not issued, then recovery returns one verified, spendable
    proof for every sender output of the commitment, and together they are worth exactly the
    sender's part of it. *)
Theorem sender_recovers_share aux sender attempts kss ks mint_key balance c req rnd tweak issued n n0 f :
  public_key (alice_secret sender) = sender_pubkey (ec_params (channel sender)) →
  inspect_funding (channel sender) n = (Ok f, n0) → fi_state f = FsSpent →
  close_randomness f (commitment_mode (ec_params (channel sender))) = Ok rnd →
  closed_at sender kss ks mint_key balance c req rnd tweak issued n0 → unissued_refunds sender attempts n0 →
  ∃ proofs n', recover_funds aux sender attempts kss n
      = (Ok (if decide (proofs = []) then SpentNoKnownPayout f
             else Recovered f (mk_RecoveredSenderFunds SourceReceiverClose proofs)), n') ∧
    Forall2 (found_share aux sender kss) (share_indices c) proofs ∧
    sumZ (proof_amount <$> proofs) = oc_amount (sender_outputs c).
Proof.
  intros Hpk Hi Hsp Hrnd Hcl Hat. pose proof Hcl as [Hp Hb Hc _ _ _ _ _ _ _ _ _ _ _].
  destruct (share_counts sender balance c Hp Hb Hc) as (counts & Hd & Hai & Hsum & Hall).
  destruct (restore_refunds_empty sender attempts attempts n0 n0 Hat Hat) as (n1 & Hrf & Hn1); [done|].
  destruct (share_loop aux sender kss ks mint_key balance c req rnd tweak issued n0 counts n1 Hcl Hn1 Hall) as (ps & n' & Hps & Hf).
  exists ps, n'. rewrite <-Hai. split_and!; [|done|].
  - unfold recover_funds. rewrite bool_decide_eq_true_2 by done. cbn [ensure]. rewrite lift_bind.
    rewrite (try_map_ext_ok _ (λ _, tt)).
    2: { intros a Ha. unfold unissued_refunds in Hat. rewrite Forall_forall in Hat. by destruct (Hat a Ha) as [? _]. }
    rewrite lift_bind, (M_bind_step _ _ _ _ _ Hi), bool_decide_eq_false_2 by (rewrite Hsp; by intros []).
    rewrite (M_bind_step _ _ _ _ _ Hrf), Hrnd, lift_bind.
    unfold restore_sender_proofs_with_keysets_and_randomness. rewrite <-Hd, (M_bind_step _ _ _ _ _ Hps). by destruct ps.
  - rewrite <-Hsum, <-Hai. f_equal. clear -Hf. induction Hf as [|x y l k [_ H] _ IH]; [done|]. cbn. by rewrite H, IH.
Qed.
End share.

(** ** The receiver's close *)

Section receiver.
Context {T : CashuTypes} {O : CashuOps} {R : RefundOps} {HL : RefundLaws} {HW : WireLaws}.
Context {HR : RerandomizeLaws} {H C N : Type} `{!SpilmanHost H C} {MC : MintConnection N}.

(** Calls that leave the state as it is. *)
Definition pure_call {S E A} (m : M S E A) : Prop := ∀ s, (m s).2 = s.
Lemma pure_bind {S E A B} (f : A → M S E B) (m : M S E A) :
  pure_call m → (∀ a, pure_call (f a)) → pure_call (m ≫= f).
Proof.
  intros Hm Hf s. specialize (Hm s). unfold mbind, M_bind. destruct (m s) as [[a|e|] s1]; cbn in *; [|done..].
  subst. apply Hf.
Qed.
Lemma verify_prepared_close_pure prep f pay rk : pure_call (verify_prepared_close (H:=H) prep f pay rk).
Proof.
  unfold verify_prepared_close, prepare_close_data_impl. repeat (apply pure_bind; [|intros]); done.
Qed.
Lemma try_verify_Ok attempts f pay rk (h : H) :
  Forall (λ a, (verify_prepared_close a f pay rk h).1 = Ok tt) attempts → try_verify attempts f pay rk h = (Ok tt, h).
Proof.
  induction 1 as [|a attempts Ha _ IH]; cbn; [done|]. unfold mbind, M_bind, mmap_err.
  pose proof (verify_prepared_close_pure a f pay rk h) as Hp. destruct (verify_prepared_close a f pay rk h) as [r h'].
  cbn in *. by subst.
Qed.

(** The mint's answer to the restore of an attempt: nothing, or its outputs with the
    signatures. *)
Definition restore_outputs (a : PreparedClose) rnd (outs : list BlindedMessage) : Prop :=
  ∃ req, swap_request_from_value (pc_swap_request a) = Ok req ∧ swap_restore_request req rnd = Ok outs.
Definition answers outs (n : N) (rr : RestoreResponse) : Prop := (post_restore outs n).1 = Ok rr.

Lemma recover_attempt_empty a rnd outs req (h : H) n :
  swap_request_from_value (pc_swap_request a) = Ok req → swap_restore_request req rnd = Ok outs →
  answers outs n (mk_RestoreResponse [] []) →
  recover_attempt a req rnd (h, n) = (Ok None, (h, (post_restore outs n).2)).
Proof.
  intros Hreq Houts Ha. unfold recover_attempt, any. rewrite Houts. cbn [map_err]. rewrite lift_bind.
  unfold mbind at 1, M_bind at 1. cbn [snd fst]. unfold answers in Ha. destruct (post_restore outs n) as [r n']. cbn in Ha. subst.
  cbn [map_err]. destruct (restore_response_inv (mk_RestoreResponse [] [])) as (s & -> & Hs). cbn [map_err]. rewrite lift_bind.
  unfold asks, complete_prepared_close_restore_with_randomness. rewrite Hs, Hreq. cbn. by rewrite Houts.
Qed.
Lemma recover_attempt_found a rnd outs req (h : H) n rr sigs text completed :
  swap_request_from_value (pc_swap_request a) = Ok req → swap_restore_request req rnd = Ok outs →
  answers outs n rr → outs ≠ [] → NoDup outs → length sigs = length outs → restores rr outs sigs →
  swap_response_from_json text = Ok (mk_SwapResponse sigs rnd) → complete_prepared_close h text a = Ok completed →
  recover_attempt a req rnd (h, n) = (Ok (Some completed), (h, (post_restore outs n).2)).
Proof.
  intros Hreq Houts Ha Hne Hnd Hlen Hrest Htext Hc. unfold recover_attempt, any. rewrite Houts. cbn [map_err]. rewrite lift_bind.
  unfold mbind at 1, M_bind at 1. cbn [snd fst]. unfold answers in Ha. destruct (post_restore outs n) as [r n']. cbn in Ha. subst.
  cbn [map_err]. destruct (restore_response_inv rr) as (s & -> & Hs). cbn [map_err]. rewrite lift_bind.
  unfold asks, complete_prepared_close_restore_with_randomness. rewrite Hs, Hreq. cbn [map_err mbind Result_bind fst]. rewrite Houts.
  cbn [map_err mbind Result_bind]. rewrite bool_decide_eq_false_2; cbn [andb].
  - rewrite (restores_match _ _ sigs "close") by done. cbn [map_err mbind Result_bind].
    destruct (swap_response_inv (mk_SwapResponse sigs rnd)) as (s' & -> & Hs'). cbn [map_err mbind Result_bind].
    assert (complete_prepared_close h s' a = Ok completed) as ->; [|done]. rewrite <-Hc.
    unfold complete_prepared_close. by rewrite Hs', Htext.
  - intros Hnil. destruct Hrest as [_ Hp]. rewrite Hnil in Hp. apply Permutation_nil_l in Hp. destruct outs, sigs; done.
Qed.

(** A walk over the attempts: those the mint does not know, then the one it signed. *)
Lemma recover_attempts_found before prep after rnd outs req (h : H) n sigs text completed :
  (∀ a, a ∈ before → ∃ req outs, swap_request_from_value (pc_swap_request a) = Ok req ∧
     swap_restore_request req rnd = Ok outs ∧
     ∀ n', rtc restore_request n n' → answers outs n' (mk_RestoreResponse [] [])) →
  swap_request_from_value (pc_swap_request prep) = Ok req → swap_restore_request req rnd = Ok outs →
  (∀ n', rtc restore_request n n' → ∃ rr, answers outs n' rr ∧ restores rr outs sigs) →
  outs ≠ [] → NoDup outs → length sigs = length outs →
  swap_response_from_json text = Ok (mk_SwapResponse sigs rnd) → complete_prepared_close h text prep = Ok completed →
  ∃ n', recover_attempts (before ++ prep :: after) rnd None (h, n) = (Ok (inl completed), (h, n')).
Proof.
  intros Hbefore Hreq Houts Hans Hne Hnd Hlen Htext Hc. revert n Hbefore Hans.
  induction before as [|a before IH]; intros n Hbefore Hans; cbn [app recover_attempts].
  - unfold any. rewrite Hreq. cbn [map_err]. rewrite lift_bind. destruct (Hans n) as (rr & Ha & Hrest); [done|].
    unfold match_call. erewrite recover_attempt_found by done. by eexists.
  - destruct (Hbefore a) as (areq & aouts & Hareq & Haouts & Haans); [by left|].
    unfold any. rewrite Hareq. cbn [map_err]. rewrite lift_bind.
    unfold match_call. rewrite (recover_attempt_empty a rnd aouts areq h n); [|done..|by apply Haans].
    assert (rtc restore_request n (post_restore aouts n).2) as Hstep by (apply rtc_once; by exists aouts).
    apply IH.
    + intros a' Ha'. destruct (Hbefore a') as (r & o & ? & ? & Hx); [by right|]. exists r, o. split_and!; [done..|].
      intros n' Hn'. apply Hx. by etrans.
    + intros n' Hn'. apply Hans. by etrans.
Qed.

(** Signing draws fresh randomness, so the signatures on the receiver's proofs of two
    completions differ. [signs_alike]: what the one host signs, the other signs too;
    [same_close]: two completed closes are the same up to those signatures. *)
Definition signs_alike (h0 h : H) : Prop :=
  ∀ pk m t s, sign_with_tweaked_key h0 pk m t = Ok s → ∃ s', sign_with_tweaked_key h pk m t = Ok s'.
Definition same_but_witness (p q : Proof) : Prop :=
  set_witness p None = set_witness q None ∧
  ∃ s s', proof_witness p = Some (P2PKWitness [s]) ∧ proof_witness q = Some (P2PKWitness [s']).
Definition same_close (completed completed' : CompletedClose) : Prop :=
  ∃ ps qs, Forall2 same_but_witness ps qs ∧
    cc_receiver_proofs_json completed = proofs_to_json ps ∧
    completed' = mk_CompletedClose (cc_channel_id completed) (cc_expiry_timestamp completed) (cc_balance completed)
      (proofs_to_json qs) (cc_sender_proofs_json completed) (cc_receiver_sum completed) (cc_sender_sum completed).

Lemma sign_receiver_alike h0 h params m p :
  signs_alike h0 h → sign_receiver_close_proof h0 params m = Ok p →
  ∃ q, sign_receiver_close_proof h params m = Ok q ∧ same_but_witness p q.
Proof.
  intros Hs. unfold sign_receiver_close_proof. intros (p1 & Hp & (ti & Ht & (s & Hsig & [= <-])%bind_Ok)%bind_Ok)%bind_Ok.
  apply map_err_Ok, Hs in Hsig as [s' Hs']. rewrite Hp, Ht. cbn. rewrite Hs'. eexists. split; [done|].
  split; [done|]. by eexists _, _.
Qed.
Lemma complete_prepared_close_alike h0 h text prep completed :
  signs_alike h0 h → complete_prepared_close h0 text prep = Ok completed →
  ∃ completed', complete_prepared_close h text prep = Ok completed' ∧ same_close completed completed'.
Proof.
  intros Hs. unfold complete_prepared_close.
  intros (r & -> & (o & -> & (res & Hres & (ps & Hps & [= <-])%bind_Ok)%bind_Ok)%bind_Ok)%bind_Ok. cbn. rewrite Hres. cbn.
  assert (∃ qs, try_map (sign_receiver_close_proof h (oc_close_params o)) (ur_receiver_proofs res) = Ok qs ∧
                Forall2 same_but_witness ps qs) as (qs & -> & Hpq).
  { setoid_rewrite try_map_Ok. apply try_map_Ok in Hps. clear Hres. induction Hps as [|m p ms ps Hm _ (qs & Hqs & Hpq)].
    - by exists [].
    - eapply sign_receiver_alike in Hm as (q & Hq & Hsame); [|done]. exists (q :: qs). by split; constructor. }
  eexists. split; [done|]. by exists ps, qs.
Qed.

(** C12: a close whose answer was lost is recovered. If the mint has signed one of the stored
    attempts of a closing channel, all of which verify, reports the funding as spent and
    restores what it signed, and completing the lost answer would have given [completed] (on a
    host [h0] of the same key, with its own randomness), then [recover_close] returns what
    completing the answer gives now: the same channel, balance, sums and sender's proofs, and
    the same receiver's proofs, signed afresh. It changes nothing on the host but its funding
    cache. *)
Theorem lost_close_is_recovered c before prep after (h h0 h1 : H) n n1 stored closing params proofs ec f req outs response text completed :
  get_channel_state h c = Ok (Some Closing) → host_get_funding h c = (Some stored, h1) →
  host_get_closing_data h1 c = Some closing →
  load_params (params_json stored) (channel_secret_hex stored) (keyset_info_json stored) = Ok params →
  get_channel_id params = c → receiver_key_is_acceptable h1 (receiver_pubkey params) = true →
  Forall (λ a, (verify_prepared_close a stored (mk_PaymentProof (cd_balance closing) (cd_signature closing))
                  (receiver_pubkey params) h1).1 = Ok tt) (before ++ prep :: after) →
  proofs_from_json (funding_proofs_json stored) = Ok proofs → EstablishedChannel_new params proofs = Ok ec →
  inspect_funding ec n = (Ok f, n1) → fi_state f = FsSpent →
  close_randomness f (commitment_mode params) = Ok (resp_rerandomization_r response) →
  swap_request_from_value (pc_swap_request prep) = Ok req →
  swap_restore_request req (resp_rerandomization_r response) = Ok outs → NoDup outs →
  length (resp_signatures response) = length outs →
  (∀ n', rtc restore_request n1 n' → ∃ rr, answers outs n' rr ∧ restores rr outs (resp_signatures response)) →
  (∀ a, a ∈ before → ∃ req outs, swap_request_from_value (pc_swap_request a) = Ok req ∧
     swap_restore_request req (resp_rerandomization_r response) = Ok outs ∧
     ∀ n', rtc restore_request n1 n' → answers outs n' (mk_RestoreResponse [] [])) →
  swap_response_from_json text = Ok response → signs_alike h0 h1 → complete_prepared_close h0 text prep = Ok completed →
  ∃ completed' n', recover_close c (before ++ prep :: after) (h, n) = (Ok (Recovered f completed'), (h1, n')) ∧
    complete_prepared_close h1 text prep = Ok completed' ∧ same_close completed completed'.
Proof.
  intros Hst Hf Hcd Hp Hid Hkey Hver Hpr Hec Hi Hsp Hrnd Hreq Houts Hnd Hlen Hans Hbefore Htext Hal Hc0.
  destruct (complete_prepared_close_alike h0 h1 text prep completed) as (completed' & Hc & Hsame); [done..|].
  destruct (recover_attempts_found before prep after (resp_rerandomization_r response) outs req h1 n1
    (resp_signatures response) text completed') as (n' & Hrec); try done.
  { apply swap_restore_request_Ok in Houts as (Hne & _ & Hr). intros ->. apply Hne.
    destruct (resp_rerandomization_r response) as [r|]; [|by destruct Hr as [_ <-]].
    destruct Hr as [_ [Ham _]%tweak_swap_outputs_keeps]. by destruct (sr_outputs req). }
  { by destruct response. }
  unfold load_params, decode_secret in Hp. apply bind_Ok in Hp as (secret & Hs & (ks & Hks & Hp)%bind_Ok).
  apply bind_Ok in Hs as (bytes & Hhex & ([] & Hl & [= ->])%bind_Ok). apply ensure_Ok, bool_decide_eq_true_1 in Hl.
  exists completed', n'. split; [|done]. unfold recover_close, any. erewrite M_bind_step; [|unfold asks; cbn [fst]; by rewrite Hst].
  rewrite bool_decide_eq_true_2 by done. cbn [ensure]. rewrite lift_bind.
  erewrite M_bind_step; [|unfold on_host, modify; cbn [fst]; by rewrite Hf]. cbn [ok_or fst snd]. rewrite lift_bind.
  erewrite M_bind_step; [|unfold asks; cbn [fst]; by rewrite Hcd]. cbv zeta. rewrite Hhex. cbn [map_err]. rewrite lift_bind.
  rewrite bool_decide_eq_true_2 by done. cbn [ensure]. rewrite lift_bind, Hks. cbn [map_err]. rewrite lift_bind, Hp.
  cbn [map_err]. rewrite lift_bind. erewrite M_bind_step; [|unfold asks; cbn [fst]; rewrite bool_decide_eq_true_2, Hkey by done; done].
  erewrite M_bind_step; [|cbn [fst snd]; rewrite try_verify_Ok by done; done]. rewrite Hpr. cbn [map_err]. rewrite lift_bind, Hec.
  cbn [map_err]. rewrite lift_bind. erewrite M_bind_step; [|cbn [fst snd]; rewrite Hi; done].
  rewrite bool_decide_eq_false_2 by (rewrite Hsp; by intros []). rewrite Hrnd, lift_bind. by rewrite (M_bind_step _ _ _ _ _ Hrec).
Qed.
End receiver.

(** Two configurable hosts of the same key sign alike, whatever randomness they draw. *)
Lemma configurable_signs_alike {T : CashuTypes} {O : CashuOps} {S} {ST : SpilmanStorage S} usage_from_json
    (h0 h : ConfigurableHost S) :
  server_secret_hex h0 = server_secret_hex h →
  signs_alike (SpilmanHost0:=configurable_host usage_from_json) h0 h.
Proof.
  intros Heq pk m t s. cbn. rewrite Heq. unfold sign_with_tweaked_key_util.
  intros Hs. repeat (apply bind_Ok in Hs as (? & -> & Hs); cbn). by eexists.
Qed.
