(* ===== verification/RecoveryExamples.v ===== *)
(** * Refunds and recovery on concrete inputs

    An instance of the functions of [RefundOps], a mint that can be run, and the theorems of
    [RefundProofs.v] and [RecoveryProofs.v] at the channel of [Channel.Examples]: refunded
    after its expiry, moved to another keyset, closed by its receiver and recovered. *)

From S2P Require Import Prelude Cashu Toy Amounts Params SwapCompletion Deterministic Channel Mint Storage StorageSpec StorageMemory Host Bridge Close CloseProofs ClientStorage Funding FundingProofs Refund RefundProofs Recovery RecoveryProofs.

(** The hypotheses of [closed_at] as tests. *)
Section tests.
Context {T : CashuTypes} {O : CashuOps}.
Lemma signs_test (p : ChannelParameters) secret l :
  forallb (λ ai, is_ok (get_sender_blinded_secret_key_for_stage2_output p secret ai.1 ai.2)) l = true →
  Forall (λ '(a, i), is_ok (get_sender_blinded_secret_key_for_stage2_output p secret a i) = true) l.
Proof. rewrite forallb_forall. intros Hl. apply Forall_forall. intros [a i] Hin%list_elem_of_In. exact (Hl _ Hin). Qed.
Definition next_message (p : ChannelParameters) (c : CommitmentOutputs) (id : Id) (a : Z) :
    Result string (DeterministicSecretWithBlinding * BlindedMessage) :=
  o ← create_deterministic_output_with_blinding p "sender" a (next_index c a);
  m ← to_blinded_message o a id; Ok (o, m).
Definition issued_point (tweak : option Scalar) (m : BlindedMessage) : Result string BlindedMessage :=
  match tweak with None => Ok m | Some t => tweak_message t m end.
Lemma next_test (p : ChannelParameters) (c : CommitmentOutputs) (id : Id) tweak (outs : list BlindedMessage) l :
  forallb (λ a, match next_message p c id a with
                | Ok (_, m) => match issued_point tweak m with Ok m' => bool_decide (m' ∉ outs) | _ => false end
                | _ => false end) l = true →
  Forall (λ a, ∃ o m m', create_deterministic_output_with_blinding p "sender" a (next_index c a) = Ok o ∧
    to_blinded_message o a id = Ok m ∧ issued_for tweak m m' ∧ m' ∉ outs) l.
Proof.
  rewrite forallb_forall. intros Hl. apply Forall_forall. intros a Ha%list_elem_of_In%Hl. unfold next_message in Ha.
  destruct (create_deterministic_output_with_blinding _ _ _ _) as [o| |]; [|discriminate Ha..].
  cbn [mbind Result_bind] in Ha. destruct (to_blinded_message o a _) as [m| |] eqn:Hm; [|discriminate Ha..].
  cbn [mbind Result_bind] in Ha. destruct (issued_point tweak m) as [m'| |] eqn:Hm'; [|discriminate Ha..].
  apply bool_decide_eq_true_1 in Ha. exists o, m, m'. split_and!; [done..| |done].
  destruct tweak; cbn in *; congruence.
Qed.
Lemma shift_test (p : ChannelParameters) (t : Scalar) l :
  forallb (λ ai, match create_deterministic_output_with_blinding p "sender" ai.1 ai.2 with
                 | Ok o => let b := ds_blinding_factor o in
                     bool_decide (secret_from_slice (secret_bytes b) = Ok b) && is_ok (secret_add_tweak b t)
                 | _ => false end) l = true →
  Forall (λ '(a, i), ∀ o, create_deterministic_output_with_blinding p "sender" a i = Ok o →
    shiftable (Some t) (ds_blinding_factor o)) l.
Proof.
  rewrite forallb_forall. intros Hl. apply Forall_forall. intros [a i] Hin%list_elem_of_In%Hl o Ho. cbn [fst snd] in Hin.
  rewrite Ho in Hin. cbv zeta in Hin. apply andb_true_iff in Hin as [Hs%bool_decide_eq_true_1 Ht]. by split.
Qed.
End tests.

#[local] Existing Instance Toy.types.
#[local] Existing Instance Toy.ops.
#[local] Existing Instance Toy.json_laws.
#[local] Existing Instance Toy.encoding_laws.
#[local] Existing Instance Toy.construct_laws.
#[local] Existing Instance Toy.rerandomize_laws.
#[local] Existing Instance Toy.wire_laws.
#[local] Existing Instance Toy.secp_laws.
#[local] Existing Instance Toy.schnorr_laws.
#[local] Existing Instance Toy.dhke_laws.
#[local] Existing Instance Toy.derived_blinding_laws.
#[local] Existing Instances Toy.string_tree Toy.Z_tree Toy.bool_tree Toy.list_tree Toy.option_tree.
#[local] Existing Instances Toy.BlindedMessage_tree Toy.Proof_tree Toy.SwapRequest_tree Toy.RestoreResponse_tree.

(** ** The external code of refunds *)

Module ToyRefund.
Import Toy.

#[local] Instance pair_tree `{Tree A, Tree B} : Tree (A * B).
Proof.
  refine {| to_tree x := GenNode 8 [to_tree x.1; to_tree x.2];
            of_tree v := match v with
                         | GenNode 8 [a; b] => match of_tree a, of_tree b with
                                               | Some a, Some b => Some (a, b) | _, _ => None end
                         | _ => None
                         end |}.
  intros [a b]. cbn [fst snd]. by rewrite !of_to_tree.
Defined.
(** A record as a tuple. *)
Definition iso_tree {A B} `{Tree A} (f : B → A) (g : A → B) (Hfg : ∀ b, g (f b) = b) : Tree B.
Proof.
  refine {| to_tree b := to_tree (f b); of_tree v := g <$> of_tree v |}.
  intros b. rewrite of_to_tree. cbn. by rewrite Hfg.
Defined.
#[local] Instance KeysetInfo_tree : Tree KeysetInfo := iso_tree (A:=string * string * list (Z * Z) * list Z * Z * option Z)
  (λ ks, (keyset_id ks, ki_unit ks, active_keys ks, amounts_largest_first ks, input_fee_ppk ks, final_expiry ks))
  (λ '(i, u, k, a, f, e), mk_KeysetInfo (T:=types) i u k a f e) (λ ks, match ks with mk_KeysetInfo _ _ _ _ _ _ => eq_refl end).
#[local] Instance Output_tree : Tree PreparedSenderRefundOutput := iso_tree (A:=Z * Z * string * Z * BlindedMessage)
  (λ o, (ro_amount o, ro_index o, ro_secret o, ro_blinding_factor o, ro_blinded_message o))
  (λ '(a, i, s, r, m), mk_PreparedSenderRefundOutput (T:=types) a i s r m)
  (λ o, match o with mk_PreparedSenderRefundOutput _ _ _ _ _ => eq_refl end).
#[local] Instance Refund_tree : Tree PreparedSenderRefund :=
  iso_tree (A:=(string * string * string * KeysetInfo * KeysetInfo)
               * (Z * list Z * Z * list PreparedSenderRefundOutput * SwapRequest))
  (λ r, ((rf_channel_id r, rf_mint r, rf_unit r, rf_output_keyset r, rf_derivation_keyset r),
         (rf_derivation_version r, rf_derivation_context r, rf_output_amount_raw r, rf_outputs r, rf_swap_request r)))
  (λ '((c, m, u, k, d), (v, x, a, o, q)), mk_PreparedSenderRefund (T:=types) c m u k d v x a o q)
  (λ r, match r with mk_PreparedSenderRefund _ _ _ _ _ _ _ _ _ _ => eq_refl end).

(** [value[key] = v]. *)
Fixpoint set_entry (k : string) (x : Value) (l : list (string * Value)) : list (string * Value) :=
  match l with
  | [] => [(k, x)]
  | (k', y) :: l => if String.eqb k' k then (k, x) :: l else (k', y) :: set_entry k x l
  end.
Definition set_key (v : Value) (k : string) (x : Value) : Value :=
  match as_object v with Some l => obj (set_entry k x l) | None => v end.

(** The text that the SIG_ALL digest of [Toy] covers. *)
Definition input_text (p : Proof) : string := proof_secret p +:+ pretty (proof_c p : Z).
Definition output_text (m : BlindedMessage) : string := pretty (bm_amount m) +:+ pretty (bm_blinded_secret m : Z).
Definition concat_text (l : list string) : string := foldr (λ a b, a +:+ b) "" l.
Definition sig_all_text (r : SwapRequest) : string :=
  concat_text (input_text <$> sr_inputs r) +:+ concat_text (output_text <$> sr_outputs r).

#[global] Instance refund_ops : RefundOps (T:=types) := {|
  keyset_to_vec ks := Ok (bytes_of_string (print_data ks));
  id_to_value i := Ok (to_tree (A:=string) i);
  refund_to_value r := Ok (to_tree r);
  refund_to_json r := Ok (print_data r);
  refund_from_json s := parse_data s;
  restore_response_to_json r := Ok (print_data r);
  json_set := set_key;
  sig_all_msg_to_sign := sig_all_text;
  pubkey_verify pk m s := verify_schnorr s (hash m) pk;
  proof_y p := Ok (point (bytes_of_string (proof_secret p)));
|}.

Lemma concat_text_bytes {A} (f : A → string) (g : A → bytes) l :
  (∀ x, bytes_of_string (f x) = g x) → bytes_of_string (concat_text (f <$> l)) = l ≫= g.
Proof.
  intros Hf. induction l as [|x l IH]; [done|]. change (concat_text (f <$> x :: l)) with (f x +:+ concat_text (f <$> l)).
  by rewrite bytes_of_string_app, IH, Hf.
Qed.
Lemma sig_all_bytes r :
  bytes_of_string (sig_all_text r) = (sr_inputs r ≫= input_bytes) ++ (sr_outputs r ≫= output_bytes).
Proof.
  unfold sig_all_text. rewrite bytes_of_string_app.
  rewrite (concat_text_bytes input_text input_bytes), (concat_text_bytes output_text output_bytes); [done|..];
    intros x; apply bytes_of_string_app.
Qed.
Lemma refund_laws : RefundLaws.
Proof.
  split.
  - intros r. by eexists.
  - intros r r' v Hr Hr'. apply Ok_inj in Hr, Hr'. rewrite <-Hr in Hr'. clear Hr.
    apply (f_equal (of_tree (A:=PreparedSenderRefund))) in Hr'. rewrite !of_to_tree in Hr'. congruence.
  - intros r. eexists. split; [reflexivity|]. exact (parse_print_data r).
  - intros r. eexists. split; [reflexivity|]. exact (parse_print_data r).
  - intros id. by eexists.
  - intros r v id iv [= <-] [= <-]. exists (message_obj <$> sr_outputs r). split; [done|].
    change (ok_or "invalid request" (request_of_value (obj [("inputs", to_tree (A:=list Proof) (sr_inputs r));
      ("outputs", GenNode 2 ((λ o, set_key o "id" (to_tree (A:=string) id)) <$> (message_obj <$> sr_outputs r)));
      ("rerandomized", to_tree (A:=bool) (sr_rerandomized r))])) = Ok (with_output_ids (T:=types) id r)).
    assert ((λ o, set_key o "id" (to_tree (A:=string) id)) <$> (message_obj <$> sr_outputs r)
      = message_obj <$> (bm_with_id (T:=types) id <$> sr_outputs r)) as ->
      by (rewrite <-!list_fmap_compose; by apply list_fmap_ext).
    exact (f_equal (ok_or "invalid request") (request_obj_inv (with_output_ids (T:=types) id r))).
  - intros r _. cbn [sig_all_message_hash ops sha256 sig_all_msg_to_sign refund_ops]. by rewrite sig_all_bytes.
  - intros r id. cbn [sig_all_msg_to_sign refund_ops]. unfold sig_all_text. cbn [with_output_ids sr_inputs sr_outputs].
    by rewrite <-list_fmap_compose.
  - done.
Qed.
End ToyRefund.
#[local] Existing Instance ToyRefund.refund_laws.
Import Channel.Examples SwapCompletion.Examples(mint_key) Deterministic.Examples(get_ok, no_outputs).

(** ** Refunds *)

Definition ec : EstablishedChannel := channel sender.
Definition context0 : bytes := replicate 32 7.
(** A second keyset of the same unit, with the same denominations under other keys. *)
Definition keys' : Keys := [(1, 31); (2, 32); (4, 34); (8, 38); (16, 46)].
Definition keyset' : KeysetInfo := KeysetInfo_new (id_v1_from_keys keys') "sat" keys' 100 None.

Definition refund (now : Z) : Result AnyError PreparedSenderRefund :=
  prepare_sender_refund_after_expiry [7] ec (alice_secret sender) now keyset context0.
Example refund_too_early : refund 2000 = Err (RefundError (NotExpired 2000 2000)).
Proof. vm_compute. reflexivity. Qed.
Example refund_in_time : is_ok (refund 2001) = true.
Proof. vm_compute. reflexivity. Qed.

Lemma ec_typed : typed_channel ec.
Proof.
  refine (bool_decide_unpack (Forall (λ p, 0 <= proof_amount p < 2 ^ 64) (funding_proofs ec)
    ∧ (0 <= input_fee_ppk (keyset_info (ec_params ec)) < 2 ^ 64)) _). vm_compute. exact I.
Qed.
Lemma keyset_typed : typed_keyset keyset.
Proof. split; [repeat constructor|]; refine (bool_decide_unpack (Forall (λ a, 0 <= a < 2 ^ 64) _) _); vm_compute; exact I. Qed.
Lemma refund_keyset_bool u ks :
  bool_decide (ki_unit ks = u) && bool_decide (computed_keyset_id ks = keyset_id ks)
  && bool_decide (canonical_amounts ks = amounts_largest_first ks) && bool_decide (0 ∉ amounts_largest_first ks) = true →
  refund_keyset u ks.
Proof. rewrite !andb_true_iff, !bool_decide_eq_true. by intros [[[? ?] ?] ?]. Qed.
Lemma keyset_refundable : refund_keyset (cp_unit params) keyset.
Proof. apply refund_keyset_bool. vm_compute. reflexivity. Qed.
Lemma ec_refundable : refundable ec (alice_secret sender) keyset context0.
Proof.
  assert (is_ok (amounts ← from_target (funding_value ec - refund_fee ec) (maximum_amount_for_one_output (ec_params ec)) keyset;
            prepare_loose_refund_outputs ec (alice_secret sender) (ola_amounts amounts) keyset context0) = true) as Hout
    by (vm_compute; reflexivity).
  constructor.
  - reflexivity.
  - exact keyset_refundable.
  - refine (bool_decide_unpack (1 ∈ amounts_largest_first keyset) _). vm_compute. exact I.
  - discriminate.
  - discriminate.
  - split; [discriminate|reflexivity].
  - vm_compute. reflexivity.
  - intros amounts Ha. rewrite Ha in Hout. exact Hout.
  - vm_compute. reflexivity.
Qed.
Lemma refund_exactly_after_expiry_witness :
  ∃ prepared, refund 2001 = Ok prepared ∧ refund_verify prepared ec (alice_secret sender) = Ok tt ∧
    sumZ (bm_amount <$> sr_outputs (rf_swap_request prepared)) = funding_value ec - refund_fee ec.
Proof.
  pose proof (@refund_exactly_after_expiry Toy.types Toy.ops ToyRefund.refund_ops ToyRefund.refund_laws Toy.secp_laws Toy.schnorr_laws Toy.wire_laws
    [7] ec (alice_secret sender) 2001 keyset context0 ec_typed keyset_typed ec_refundable ltac:(split; [discriminate|reflexivity])) as H.
  pose proof refund_in_time as Hok. unfold refund in *.
  destruct (prepare_sender_refund_after_expiry [7] ec (alice_secret sender) 2001 keyset context0) as [prepared| |];
    [|discriminate Hok..].
  destruct H as (_ & Hv & _ & Hs). exists prepared. exact (conj eq_refl (conj Hv Hs)).
Defined.

(** The mint signs the refund; its answer is lost, and a restore lists the outputs in another
    order. *)
Definition sign_message (m : BlindedMessage) : BlindSignature := mint_sign (mint_key (bm_amount m)) m.
Definition messages (r : PreparedSenderRefund) : list BlindedMessage := ro_blinded_message <$> rf_outputs r.
Definition reversed (r : PreparedSenderRefund) : RestoreResponse :=
  mk_RestoreResponse (reverse (messages r)) (reverse (sign_message <$> messages r)).
Lemma zip_image {A B} (f : A → B) l : zip l (f <$> l) = (λ x, (x, f x)) <$> l.
Proof. induction l as [|x l IH]; [done|]. cbn. by rewrite IH. Qed.
Lemma reverse_restores (f : BlindedMessage → BlindSignature) (l : list BlindedMessage) :
  restores (mk_RestoreResponse (reverse l) (reverse (f <$> l))) l (f <$> l).
Proof.
  split; cbn [rr_outputs rr_signatures]; [by rewrite !length_reverse, length_fmap|].
  rewrite <-fmap_reverse, !zip_image. by rewrite reverse_Permutation.
Qed.
Definition completed (r : PreparedSenderRefund) : Result AnyError (list Proof) :=
  complete_prepared_sender_refund ec r (alice_secret sender) (sign_message <$> messages r).
Lemma refund_completion_exact_witness :
  ∃ prepared proofs, refund 2001 = Ok prepared ∧ completed prepared = Ok proofs ∧
    sumZ (proof_amount <$> proofs) = 25 - refund_fee ec ∧
    complete_prepared_sender_refund_restore ec prepared (alice_secret sender) (reversed prepared) = Ok (Some proofs).
Proof.
  assert (match refund 2001 with
          | Ok r => is_ok (completed r) && bool_decide (rf_derivation_keyset r = keyset) && bool_decide (NoDup (messages r))
          | _ => false end = true) as Hok by (vm_compute; reflexivity).
  destruct (refund 2001) as [prepared| |]; [|discriminate Hok..]. rewrite !andb_true_iff in Hok.
  destruct Hok as [[Hok Hks] Hnd]. apply bool_decide_eq_true_1 in Hks, Hnd.
  destruct (completed prepared) as [proofs| |] eqn:Hc; [|discriminate Hok..]. unfold completed in Hc.
  destruct (@refund_completion_exact Toy.types Toy.ops ToyRefund.refund_ops ToyRefund.refund_laws Toy.wire_laws Toy.construct_laws
    ec prepared (alice_secret sender) _ proofs ec_typed ltac:(rewrite Hks; exact keyset_typed) Hc) as (_ & Hs & _ & _ & Hr).
  exists prepared, proofs. split_and!; [reflexivity|exact Hc|exact Hs|]. exact (Hr (reversed prepared) Hnd (reverse_restores sign_message (messages prepared))).
Defined.

(** The mint retires the keyset of the refund: it moves to the second one. *)
Lemma refund_successor_iff_witness :
  ∃ prepared successor, refund 2001 = Ok prepared ∧
    with_output_keyset prepared ec (alice_secret sender) keyset' = Ok successor ∧
    refund_verify successor ec (alice_secret sender) = Ok tt.
Proof.
  assert (match refund 2001 with
          | Ok r => is_ok (with_output_keyset r ec (alice_secret sender) keyset') && is_ok (refund_verify r ec (alice_secret sender))
                    && bool_decide (keyset_id (rf_output_keyset r) ≠ keyset_id keyset')
          | _ => false end = true) as Hok by (vm_compute; reflexivity).
  destruct (refund 2001) as [prepared| |]; [|discriminate Hok..]. rewrite !andb_true_iff in Hok.
  destruct Hok as [[Hok Hv] Hne]. apply bool_decide_eq_true_1 in Hne.
  destruct (with_output_keyset prepared ec (alice_secret sender) keyset') as [successor| |] eqn:Hs; [|discriminate Hok..].
  destruct (refund_verify prepared ec (alice_secret sender)) as [[]| |] eqn:Hv'; [|discriminate Hv..].
  destruct (@refund_successor_iff Toy.types Toy.ops ToyRefund.refund_ops ToyRefund.refund_laws Toy.wire_laws
    prepared ec (alice_secret sender) keyset' successor ec_typed Hv' Hne) as [_ Himp].
  exists prepared, successor. split_and!; [reflexivity|exact Hs|]. exact (proj1 (Himp Hs)).
Defined.

(** ** A mint *)

(** A mint that has signed the outputs [known] of [keyset] and holds the funding for spent, by
    a swap with the randomness [drawn] if it was a rerandomized one. A restore finds an output
    under any keyset id. *)
Record World := mk_World { known : list BlindedMessage; drawn : option RerandomizationR }.
Definition to_keyset : BlindedMessage → BlindedMessage := bm_with_id (keyset_id keyset).
Definition restored (n : World) (outputs : list BlindedMessage) : RestoreResponse :=
  let found := filter (λ m, to_keyset m ∈ known n) outputs in
  mk_RestoreResponse found ((λ m, mint_sign (mint_key (bm_amount m)) (to_keyset m)) <$> found).
#[local] Instance toy_mint : MintConnection World := {|
  process_swap r n := (Ok (mk_SwapResponse (sign_message <$> sr_outputs r) None), mk_World (known n ++ sr_outputs r) (drawn n));
  post_restore outputs n := (Ok (restored n outputs), n);
  check_state ys n := (Ok ((λ y, mk_ProofState y StSpent None (drawn n)) <$> ys), n);
|}.
Lemma world_unchanged (n n' : World) : rtc restore_request n n' → n' = n.
Proof. induction 1 as [|n n1 n2 [outs ->] _ IH]; [done|]. exact IH. Qed.
Lemma inspect_unchanged e (n n' : World) r : inspect_funding e n = (r, n') → n' = n.
Proof. intros [[? _]|(ys & a & _ & Hc & _)]%inspect_funding_spec; [done|]. by injection Hc. Qed.
Lemma restored_one n m :
  restored n [m] = if bool_decide (to_keyset m ∈ known n)
    then mk_RestoreResponse [m] [mint_sign (mint_key (bm_amount m)) (to_keyset m)] else mk_RestoreResponse [] [].
Proof. unfold restored. rewrite filter_cons. case_bool_decide; [by rewrite decide_True|by rewrite decide_False]. Qed.
Lemma restored_known n outs :
  Forall (λ m, bm_keyset_id m = keyset_id keyset ∧ m ∈ known n) outs →
  restored n outs = mk_RestoreResponse outs (sign_message <$> outs).
Proof.
  intros Hall. unfold restored.
  assert (filter (λ m, to_keyset m ∈ known n) outs = outs ∧
          (λ m, mint_sign (mint_key (bm_amount m)) (to_keyset m)) <$> outs = sign_message <$> outs) as [-> ->]; [|done].
  induction Hall as [|m outs [Hid Hm] _ [IH1 IH2]]; [done|].
  assert (to_keyset m = m) as He by (unfold to_keyset; rewrite <-Hid; by destruct m).
  cbn [fmap list_fmap]. rewrite filter_cons, He, decide_True, IH1 by done. split; [done|]. by f_equal.
Qed.

(** ** The sender's recovery *)

(** The refund was submitted and its answer lost. *)
Definition refunded (r : PreparedSenderRefund) : World := mk_World (messages r) None.
(** The randomness of the signatures over the recovered proofs. *)
Definition proof_aux (amount index : Z) : bytes := [amount; index].
Lemma recovery_is_state_first_witness :
  ∃ prepared funding proofs n, refund 2001 = Ok prepared ∧
    recover_funds proof_aux sender [prepared] [keyset] (refunded prepared)
      = (Ok (Recovered funding (mk_RecoveredSenderFunds (SourceRefund 0) proofs)), n) ∧
    sumZ (proof_amount <$> proofs) = 25 - refund_fee ec.
Proof.
  assert (match refund 2001 with
          | Ok r => match (recover_funds proof_aux sender [r] [keyset] (refunded r)).1 with
                    | Ok (Recovered _ (mk_RecoveredSenderFunds (SourceRefund 0) _)) => bool_decide (rf_derivation_keyset r = keyset)
                    | _ => false end
          | _ => false end = true) as Hok by (vm_compute; reflexivity).
  destruct (refund 2001) as [r| |]; [|discriminate Hok..].
  destruct (recover_funds proof_aux sender [r] [keyset] (refunded r)) as [res n] eqn:Hr. cbn [fst] in Hok.
  destruct res as [[| | |f [[[|]|] ps]|]| |]; try discriminate Hok. apply bool_decide_eq_true_1 in Hok.
  destruct (@recovery_is_state_first Toy.types Toy.ops ToyRefund.refund_ops World toy_mint ToyRefund.refund_laws Toy.wire_laws Toy.construct_laws
    Toy.rerandomize_laws proof_aux sender [r] [keyset] (refunded r) _ n ec_typed
    ltac:(constructor; [rewrite Hok; exact keyset_typed|constructor]) Hr) as [_ Hp].
  destruct (Hp f _ eq_refl) as [_ Hs]. exists r, f, ps, n. exact (conj eq_refl (conj Hr Hs)).
Defined.

(** The receiver closed the channel at 10. *)
Definition close_request : SwapRequest :=
  get_ok (SwapRequest_new [] []) (create_swap_request commit10 proofs (Some (keyset_id keyset))).
Definition world (req : SwapRequest) : World := mk_World (sr_outputs req) None.
Lemma world_restores outs rnd n m :
  rtc restore_request (mk_World outs rnd) n →
  (post_restore [m] n).1 = Ok (if bool_decide (bm_with_id (keyset_id keyset) m ∈ outs)
    then mk_RestoreResponse [m] [mint_sign (mint_key (bm_amount m)) (bm_with_id (keyset_id keyset) m)]
    else mk_RestoreResponse [] []).
Proof. intros ->%world_unchanged. cbn [post_restore toy_mint fst]. by rewrite restored_one. Qed.
Lemma keyset_signed_by_mint a (K : PublicKey) : amount_key (active_keys keyset) a = Some K → K = public_key (mint_key a).
Proof. unfold amount_key. cbn. repeat (case_match; [intros [= <-]; unfold mint_key; lia|]). done. Qed.
Lemma channel_closed :
  closed_at sender [keyset] keyset mint_key 10 commit10 close_request None None (sr_outputs close_request) (world close_request).
Proof.
  constructor.
  - exact example_params_sound.
  - discriminate.
  - vm_compute. reflexivity.
  - vm_compute. reflexivity.
  - exact I.
  - vm_compute. reflexivity.
  - vm_compute. reflexivity.
  - exact keyset_signed_by_mint.
  - refine (bool_decide_unpack (Forall _ _) _). vm_compute. exact I.
  - vm_compute. reflexivity.
  - apply (signs_test params). vm_compute. reflexivity.
  - apply Forall_forall. intros [a i] _ o _. exact I.
  - apply (next_test params). vm_compute. reflexivity.
  - exact (world_restores (sr_outputs close_request) None).
Qed.
(** The sender had prepared a refund, which the close came before. *)
Definition knows_none (n : World) (outs : list BlindedMessage) : bool :=
  match restored n outs with mk_RestoreResponse [] [] => true | _ => false end.
Lemma refund_unissued r :
  is_ok (refund_verify r ec (alice_secret sender)) && knows_none (world close_request) (messages r) = true →
  unissued_refunds sender [r] (world close_request).
Proof.
  unfold knows_none. intros [Hv Hr]%andb_true_iff. constructor; [|constructor].
  destruct (refund_verify r ec (alice_secret sender)) as [[]| |] eqn:He; [|discriminate Hv..].
  split; [exact He|]. intros n ->%world_unchanged. change (Ok (E:=string) (restored (world close_request) (messages r)) = Ok (mk_RestoreResponse [] [])).
  destruct (restored (world close_request) (messages r)) as [[|] [|]]; [reflexivity|discriminate Hr..].
Qed.

(** The same channel in the rerandomized mode, closed by a swap for which the mint drew 77. *)
Definition mint_draw : RerandomizationR := 77.
Definition mint_shift : Scalar := 77.
Definition params_rr : ChannelParameters := with_commitment_mode params Rerandomized.
Definition proofs_rr : list Proof := Eval vm_compute in funding_proof <$>
  get_ok [] (outputs ← OutputsForOneContext_new "funding" 25 params_rr; get_secrets_with_blinding outputs).
Definition sender_rr : SpilmanChannelSender :=
  mk_SpilmanChannelSender (5 : SecretKey) (mk_EstablishedChannel params_rr proofs_rr).
Definition commit_rr : CommitmentOutputs :=
  get_ok (mk_CommitmentOutputs (no_outputs "receiver") (no_outputs "sender")) (for_balance 10 params_rr).
Definition request_rr : SwapRequest :=
  get_ok (SwapRequest_new [] []) (create_swap_request commit_rr proofs_rr (Some (keyset_id keyset))).
Definition issued_rr : list BlindedMessage := get_ok [] (swap_restore_request request_rr (Some mint_draw)).
Definition world_rr : World := mk_World issued_rr (Some mint_draw).
Lemma channel_rr_closed :
  closed_at sender_rr [keyset] keyset mint_key 10 commit_rr request_rr (Some mint_draw) (Some mint_shift) issued_rr world_rr.
Proof.
  constructor.
  - exact example_params_sound.
  - discriminate.
  - vm_compute. reflexivity.
  - vm_compute. reflexivity.
  - reflexivity.
  - vm_compute. reflexivity.
  - vm_compute. reflexivity.
  - exact keyset_signed_by_mint.
  - refine (bool_decide_unpack (Forall _ _) _). vm_compute. exact I.
  - vm_compute. reflexivity.
  - apply (signs_test params_rr). vm_compute. reflexivity.
  - apply (shift_test params_rr). vm_compute. reflexivity.
  - apply (next_test params_rr). vm_compute. reflexivity.
  - exact (world_restores issued_rr (Some mint_draw)).
Qed.

Definition spent_with (s : SpilmanChannelSender) (n : World) (rnd : option RerandomizationR) : bool :=
  match inspect_funding (channel s) n with
  | (Ok f, _) => bool_decide (fi_state f = FsSpent)
      && match close_randomness f (commitment_mode (ec_params (channel s))) with Ok r => bool_decide (r = rnd) | _ => false end
  | _ => false end.
Lemma spent_with_spec s n rnd :
  spent_with s n rnd = true → ∃ f, inspect_funding (channel s) n = (Ok f, n) ∧ fi_state f = FsSpent ∧
    close_randomness f (commitment_mode (ec_params (channel s))) = Ok rnd.
Proof.
  unfold spent_with. destruct (inspect_funding (channel s) n) as [[f| |] n0] eqn:Hi; [|done..].
  pose proof (inspect_unchanged _ _ _ _ Hi) as ->. intros [Hsp%bool_decide_eq_true_1 Hr]%andb_true_iff. exists f.
  destruct (close_randomness _ _) as [r| |]; [|done..]. apply bool_decide_eq_true_1 in Hr as ->. done.
Qed.
Lemma sender_recovers_share_witness :
  (∃ r f ps n, refund 2001 = Ok r ∧ recover_funds proof_aux sender [r] [keyset] (world close_request)
      = (Ok (Recovered f (mk_RecoveredSenderFunds SourceReceiverClose ps)), n) ∧
    sumZ (proof_amount <$> ps) = oc_amount (sender_outputs commit10)) ∧
  (∃ f ps n, recover_funds proof_aux sender_rr [] [keyset] world_rr
      = (Ok (Recovered f (mk_RecoveredSenderFunds SourceReceiverClose ps)), n) ∧
    sumZ (proof_amount <$> ps) = oc_amount (sender_outputs commit_rr)).
Proof.
  split.
  - assert (match refund 2001 with
            | Ok r => is_ok (refund_verify r ec (alice_secret sender)) && knows_none (world close_request) (messages r)
            | _ => false end = true) as Hrf by (vm_compute; reflexivity).
    destruct (refund 2001) as [r| |]; [|discriminate Hrf..].
    assert (oc_amount (sender_outputs commit10) ≠ 0) as H0 by (vm_compute; discriminate).
    destruct (spent_with_spec sender (world close_request) None) as (f & Hi & Hsp & Hr); [vm_compute; reflexivity|].
    destruct (@sender_recovers_share Toy.types Toy.ops ToyRefund.refund_ops World toy_mint Toy.encoding_laws Toy.construct_laws
      Toy.rerandomize_laws Toy.dhke_laws Toy.derived_blinding_laws proof_aux sender [r] [keyset] keyset mint_key 10 commit10 close_request
      None None _ (world close_request) (world close_request) f eq_refl Hi Hsp Hr channel_closed (refund_unissued r Hrf))
      as (ps & n' & Hrec & _ & Hs).
    destruct ps as [|p ps]; [exfalso; apply H0; rewrite <-Hs; reflexivity|]. exists r, f, (p :: ps), n'.
    exact (conj eq_refl (conj Hrec Hs)).
  - assert (oc_amount (sender_outputs commit_rr) ≠ 0) as H0 by (vm_compute; discriminate).
    destruct (spent_with_spec sender_rr world_rr (Some mint_draw)) as (f & Hi & Hsp & Hr); [vm_compute; reflexivity|].
    destruct (@sender_recovers_share Toy.types Toy.ops ToyRefund.refund_ops World toy_mint Toy.encoding_laws Toy.construct_laws
      Toy.rerandomize_laws Toy.dhke_laws Toy.derived_blinding_laws proof_aux sender_rr [] [keyset] keyset mint_key 10 commit_rr request_rr
      (Some mint_draw) (Some mint_shift) _ world_rr world_rr f eq_refl Hi Hsp Hr channel_rr_closed (Forall_nil_2 _))
      as (ps & n' & Hrec & _ & Hs).
    destruct ps as [|p ps]; [exfalso; apply H0; rewrite <-Hs; reflexivity|]. exists f, (p :: ps), n'. exact (conj Hrec Hs).
Defined.

(** ** The receiver's recovery *)

Import Bridge.Examples(usage_of, cid, toy_host) CloseProofs.Examples(marked, transition10, answer).
#[local] Existing Instance Bridge.Examples.toy_host.

(** The receiver marked the channel as closing and submitted the close; the mint signed it.
    [redrawn] is the receiver's host with other signing randomness. *)
Definition redrawn (h : ConfigurableHost MemoryStorage) : ConfigurableHost MemoryStorage :=
  mk_ConfigurableHost (config h) (server_pubkey h) (server_secret_hex h) (storage h) (system_time h) (λ _ _, [3]).
Lemma lost_close_is_recovered_witness :
  ∃ t text completed completed' f h n, transition10 = Ok t ∧
    answer (json_print (pc_swap_request (pt_prepared_close t))) = Ok text ∧
    complete_prepared_close (redrawn h) text (pt_prepared_close t) = Ok completed ∧
    recover_close cid [pt_prepared_close t]
      (marked, world (get_ok (SwapRequest_new [] []) (swap_request_from_value (pc_swap_request (pt_prepared_close t)))))
      = (Ok (Recovered f completed'), (h, n)) ∧
    same_close completed completed'.
Proof.
  assert (get_channel_state marked cid = Ok (Some Closing)) as Hst by (vm_compute; reflexivity).
  assert (match transition10 with
          | Ok t => let prep := pt_prepared_close t in
              match host_get_funding marked cid, answer (json_print (pc_swap_request prep)), swap_request_from_value (pc_swap_request prep) with
              | (Some st, h), Ok text, Ok req =>
                  match host_get_closing_data h cid, load_params (params_json st) (channel_secret_hex st) (keyset_info_json st),
                        proofs_from_json (funding_proofs_json st), swap_response_from_json text with
                  | Some cd, Ok q, Ok ps, Ok resp =>
                      match EstablishedChannel_new q ps with
                      | Ok e => match inspect_funding e (world req) with
                                | (Ok f, _) => bool_decide (fi_state f = FsSpent)
                                    && match close_randomness f (commitment_mode q) with Ok None => true | _ => false end
                                | _ => false end
                      | _ => false end
                      && bool_decide (get_channel_id q = cid) && receiver_key_is_acceptable h (receiver_pubkey q)
                      && is_ok (verify_prepared_close prep st (mk_PaymentProof (cd_balance cd) (cd_signature cd)) (receiver_pubkey q) h).1
                      && is_ok (complete_prepared_close (redrawn h) text prep)
                      && match swap_restore_request req None with Ok outs => bool_decide (outs = sr_outputs req) | _ => false end
                      && bool_decide (NoDup (sr_outputs req))
                      && bool_decide (resp_signatures resp = sign_message <$> sr_outputs req)
                      && match resp_rerandomization_r resp with None => true | _ => false end
                      && bool_decide (Forall (λ m, bm_keyset_id m = keyset_id keyset ∧ m ∈ sr_outputs req) (sr_outputs req))
                  | _, _, _, _ => false end
              | _, _, _ => false end
          | _ => false end = true) as Hok by (vm_compute; reflexivity).
  destruct transition10 as [t| |]; [|discriminate Hok..]. cbv zeta in Hok. set (prep := pt_prepared_close t) in *.
  destruct (host_get_funding marked cid) as [[st|] h] eqn:Hf; [|discriminate Hok].
  destruct (answer (json_print (pc_swap_request prep))) as [text| |] eqn:Ha; [|discriminate Hok..].
  destruct (swap_request_from_value (pc_swap_request prep)) as [req| |] eqn:Hreq; [|discriminate Hok..].
  destruct (host_get_closing_data h cid) as [cd|] eqn:Hcd; [|discriminate Hok].
  destruct (load_params _ _ _) as [q| |] eqn:Hq; [|discriminate Hok..].
  destruct (proofs_from_json _) as [ps| |] eqn:Hps; [|discriminate Hok..].
  destruct (swap_response_from_json text) as [[sigs rnd]| |] eqn:Htext; [|discriminate Hok..].
  rewrite !andb_true_iff in Hok. destruct Hok as [[[[[[[[[Hf0 Hid] Hkey] Hver] Hc] Hro] Hnd] Hsig] Hrnd] Hall].
  destruct (EstablishedChannel_new q ps) as [e| |] eqn:Hec; [|discriminate Hf0..].
  destruct (inspect_funding e (world req)) as [[f| |] n1] eqn:Hi; [|discriminate Hf0..].
  pose proof (inspect_unchanged _ _ _ _ Hi) as ->.
  apply andb_true_iff in Hf0 as [Hsp Hcr]. apply bool_decide_eq_true_1 in Hsp, Hid, Hnd, Hsig, Hall.
  destruct rnd; [discriminate Hrnd|]. cbn [resp_signatures] in Hsig. subst sigs.
  destruct (close_randomness f (commitment_mode q)) as [[?|]| |] eqn:Hcl; [discriminate Hcr| |discriminate Hcr..].
  destruct (verify_prepared_close prep st _ _ h) as [[[]| |] h'] eqn:Hv; [|discriminate Hver..].
  destruct (complete_prepared_close (redrawn h) text prep) as [completed| |] eqn:Hcompl; [|discriminate Hc..].
  destruct (swap_restore_request req None) as [outs| |] eqn:Houts; [|discriminate Hro..]. apply bool_decide_eq_true_1 in Hro as ->.
  destruct (@lost_close_is_recovered Toy.types Toy.ops ToyRefund.refund_ops ToyRefund.refund_laws Toy.wire_laws Toy.rerandomize_laws
    _ _ World Bridge.Examples.toy_host toy_mint cid [] prep [] marked (redrawn h) h (world req) (world req) st cd q ps e f req (sr_outputs req)
    (mk_SwapResponse (sign_message <$> sr_outputs req) None) text completed Hst Hf Hcd Hq Hid Hkey) as (completed' & n & Hrec & _ & Hsame).
  - constructor; [|constructor]. rewrite Hv. reflexivity.
  - exact Hps.
  - exact Hec.
  - exact Hi.
  - exact Hsp.
  - exact Hcl.
  - exact Hreq.
  - exact Houts.
  - exact Hnd.
  - apply length_fmap.
  - intros n ->%world_unchanged. exists (mk_RestoreResponse (sr_outputs req) (sign_message <$> sr_outputs req)).
    split; [|split; [symmetry; apply length_fmap|reflexivity]]. exact (f_equal Ok (restored_known (world req) (sr_outputs req) Hall)).
  - intros a Hin. apply elem_of_nil in Hin as [].
  - exact Htext.
  - apply configurable_signs_alike. reflexivity.
  - exact Hcompl.
  - exists t, text, completed, completed', f, h, n. fold prep. rewrite Hreq. cbn [get_ok].
    split_and!; [reflexivity|exact Ha|exact Hcompl|exact Hrec|exact Hsame].
Defined.
