(* ===== verification/Networking.v ===== *)
(** * Networking ([configurable_networking.rs], [initialize_keysets] of [configurable_host.rs])

    What the library does with HTTP: it reads bounded bodies, turns complete responses into
    evidence, and fetches and caches the keysets of a mint. The HTTP client itself is a class
    over the state [N] of the network. *)

From S2P Require Import Prelude Cashu Toy Amounts Params Channel Mint Storage StorageSpec Host ClientStorage Funding Client.

(** ** HTTP *)

Inductive Method := GET | POST.
(** A request with its body and its deadline in milliseconds, if it has one. *)
Record HttpRequest := mk_HttpRequest {
  hq_method : Method;
  hq_url : string;
  hq_body : string;
  hq_timeout : option Z;
}.
(** A response: its status, the announced length, and the chunks that arrive until the body
    ends or the connection breaks. *)
Record HttpResponse := mk_HttpResponse {
  hp_status : Z;
  hp_content_length : option Z;
  hp_chunks : list (Result string bytes);
}.
(** [reqwest::RequestBuilder::send]. *)
Class HttpClient (N : Type) := {
  http_send : HttpRequest → M N string HttpResponse;
}.

(** [String::from_utf8]: a string is its UTF-8 bytes, which must be well formed (no overlong
    form, no surrogate, nothing above U+10FFFF). *)
Definition byte_in (lo hi b : Z) : bool := (lo <=? b) && (b <=? hi).
Fixpoint utf8_valid (b : bytes) : bool :=
  match b with
  | [] => true
  | b0 :: b =>
      if byte_in 0 127 b0 then utf8_valid b
      else match b with
      | [] => false
      | b1 :: b =>
          if byte_in 194 223 b0 then byte_in 128 191 b1 && utf8_valid b
          else match b with
          | [] => false
          | b2 :: b =>
              if byte_in 224 239 b0 then
                byte_in (if b0 =? 224 then 160 else 128) (if b0 =? 237 then 159 else 191) b1
                && byte_in 128 191 b2 && utf8_valid b
              else match b with
              | [] => false
              | b3 :: b =>
                  byte_in 240 244 b0
                  && byte_in (if b0 =? 240 then 144 else 128) (if b0 =? 244 then 143 else 191) b1
                  && byte_in 128 191 b2 && byte_in 128 191 b3 && utf8_valid b
              end
          end
      end
  end.
Fixpoint string_of_bytes (b : bytes) : string :=
  match b with [] => "" | x :: b => String (Ascii.ascii_of_N (Z.to_N x)) (string_of_bytes b) end.
Definition from_utf8 (b : bytes) : option string := if utf8_valid b then Some (string_of_bytes b) else None.

Section body.
Context {N : Type} {HC : HttpClient N}.

Definition MAX_RESPONSE_BYTES : Z := 4 * 1024 * 1024.
Definition SETTLEMENT_TIMEOUT : Z := 30 * 1000.
Definition byte_limit : string := "mint response byte limit exceeded".

Fixpoint read_chunks (body : bytes) (chunks : list (Result string bytes)) : Result string bytes :=
  match chunks with
  | [] => Ok body
  | chunk :: chunks =>
      chunk ← chunk;
      if MAX_RESPONSE_BYTES - Z.of_nat (length body) <? Z.of_nat (length chunk) then Err byte_limit
      else read_chunks (body ++ chunk) chunks
  end.
Definition read_body (response : HttpResponse) : Result string string :=
  if match hp_content_length response with Some size => MAX_RESPONSE_BYTES <? size | None => false end
  then Err byte_limit
  else
    body ← read_chunks [] (hp_chunks response);
    ok_or "mint response is not valid UTF-8" (from_utf8 body).

(** [Response::error_for_status], with the text of its caller. *)
Definition error_for_status (what : string) (response : HttpResponse) : Result string HttpResponse :=
  if (400 <=? hp_status response) && (hp_status response <? 600)
  then Err (what +:+ ": Some(" +:+ pretty (hp_status response) +:+ ")") else Ok response.

Context (nut00_from_json : string → option (Z * string)).

(** A request, the whole body, and the outcome it is evidence of. *)
Definition mint_request (failed : string) (request : HttpRequest) : M N MintRequestError string :=
  resp ← mmap_err (λ e, Transport (failed +:+ ": " +:+ e)) (http_send request);
  body ← lift (map_err Transport (read_body resp));
  lift (into_result nut00_from_json (mk_MintResponse (hp_status resp) body)).

(** *** The client's networking *)

Record ReqwestClientNetworking := mk_ReqwestClientNetworking { request_timeout : Z }.
(** [build] and [runtime] are the outcomes of building the client and of looking for a
    runtime. *)
Definition ReqwestClientNetworking_new (build runtime : Result string unit) (timeout : Z) :
    Result string ReqwestClientNetworking :=
  if timeout =? 0 then Err "reqwest client request timeout must be non-zero"
  else
    _ ← map_err (λ e, "build reqwest client: " +:+ e) build;
    _ ← map_err (λ e, "get current tokio runtime: " +:+ e) runtime;
    Ok (mk_ReqwestClientNetworking timeout).

Context (net : ReqwestClientNetworking).
Definition blocking_get (url : string) : M N MintRequestError string :=
  mint_request ("GET " +:+ url +:+ " failed") (mk_HttpRequest GET url "" (Some (request_timeout net))).
Definition blocking_post (url body : string) : M N MintRequestError string :=
  mint_request ("POST " +:+ url +:+ " failed") (mk_HttpRequest POST url body (Some (request_timeout net))).

Definition reqwest_client_networking : SpilmanClientNetworking N := {|
  call_mint_swap mint_url body := blocking_post (mint_url +:+ "/v1/swap") body;
  call_mint_restore mint_url body := blocking_post (mint_url +:+ "/v1/restore") body;
  call_mint_keysets mint_url := blocking_get (mint_url +:+ "/v1/keysets");
  call_mint_keys mint_url keyset_id := blocking_get (mint_url +:+ "/v1/keys/" +:+ keyset_id);
|}.
End body.

(** ** Keysets of a mint *)

Record MintKeysetWithKeys {T : CashuTypes} := mk_MintKeysetWithKeys {
  mk_id : Id;
  mk_unit : CurrencyUnit;
  mk_active : bool;
  mk_input_fee_ppk : Z;
  mk_final_expiry : option Z;
  mk_keys : Value;
}.
Arguments mk_MintKeysetWithKeys {T}.
Record MintKeysetDiscovery {T : CashuTypes} := mk_MintKeysetDiscovery {
  md_keysets : list MintKeysetWithKeys;
  md_report : KeysetDiscovery;
}.
Arguments mk_MintKeysetDiscovery {T}.

Section keysets.
Context {T : CashuTypes} {O : CashuOps} {N : Type} {HC : HttpClient N}.
Context (keyset_meta_from_value : Value → Result string (Id * CurrencyUnit * bool)).

(** A [GET] whose answer is JSON, with the texts of its three failures. *)
Definition get_value (fetch status parse url : string) : M N string Value :=
  response ← mmap_err (λ e, fetch +:+ ": " +:+ e) (http_send (mk_HttpRequest GET url "" (Some 15000)));
  response ← lift (error_for_status status response);
  body ← lift (read_body response);
  lift (map_err (λ e, parse +:+ ": " +:+ e) (json_parse body)).

(** The metadata of one entry of the listing. *)
Definition listed_expiry (keyset : Value) : Result string (option Z) :=
  match json_get keyset "final_expiry" with
  | None => Ok None
  | Some value =>
      if json_is_null value then Ok None
      else Some <$> ok_or "Invalid keyset final_expiry" (json_as_u64 value)
  end.
Definition fetch_one (mint_url : string) (keysets_resp keyset : Value) : M N string MintKeysetWithKeys :=
  id_str ← lift (ok_or "Keyset missing id" (idx_str keyset "id"));
  id ← lift (map_err (λ e, "Invalid keyset id: " +:+ e) (id_from_str id_str));
  unit_str ← lift (ok_or "Keyset missing unit" (idx_str keyset "unit"));
  unit ← lift (map_err (λ e, "Invalid unit: " +:+ e) (unit_from_str unit_str));
  let active := default false (idx_bool keyset "active") in
  let input_fee_ppk := default 0 (idx_u64 keyset "input_fee_ppk") in
  final_expiry ← lift (listed_expiry keyset);
  keys_resp ← get_value ("Failed to fetch keys for " +:+ id_to_string id) "keyset keys HTTP failure"
    ("Failed to parse keys response for " +:+ id_to_string id)
    (mint_url +:+ "/v1/keys/" +:+ id_to_string id);
  info ← lift (build_keyset_info_from_responses keyset_meta_from_value (json_print keysets_resp)
    (json_print keys_resp) (id_to_string id));
  info ← lift (json_parse info);
  lift (Ok (mk_MintKeysetWithKeys id unit active input_fee_ppk final_expiry
              (default json_null (json_get info "keys")))).
Fixpoint fetch_loop (mint_url : string) (keysets_resp : Value) (keysets : list Value) :
    M N string (list MintKeysetWithKeys) :=
  match keysets with
  | [] => lift (Ok [])
  | keyset :: keysets =>
      one ← fetch_one mint_url keysets_resp keyset;
      rest ← fetch_loop mint_url keysets_resp keysets;
      lift (Ok (one :: rest))
  end.
(** The warning about unsupported versions is a log line. *)
Definition fetch_all_keysets_from_mint (mint_url : string) : M N string MintKeysetDiscovery :=
  keysets_resp ← get_value "Failed to fetch keysets" "keyset metadata HTTP failure"
    "Failed to parse keysets response" (mint_url +:+ "/v1/keysets");
  report ← lift (discovery_from_json keyset_meta_from_value (json_print keysets_resp));
  result ← fetch_loop mint_url keysets_resp (kd_keysets report);
  lift (Ok (mk_MintKeysetDiscovery result report)).

Definition build_keyset_info_json (id : Id) (unit : CurrencyUnit) (keys : Value) (input_fee_ppk : Z)
    (final_expiry : option Z) : string :=
  json_print (json_obj [("keysetId", json_str (id_to_string id)); ("unit", json_str (unit_to_string unit));
    ("keys", keys); ("inputFeePpk", json_num input_fee_ppk);
    ("final_expiry", match final_expiry with Some e => json_num e | None => json_null end)]).

(** *** The receiver's cache *)

(** Calls on one side of the state. *)
Definition net_side {H E A} (m : M N E A) : M (H * N) E A :=
  λ x, let '(r, n) := m x.2 in (r, (x.1, n)).
Definition host_side {H E A} (m : M H E A) : M (H * N) E A :=
  λ x, let '(r, h) := m x.1 in (r, (h, x.2)).

Context {S : Type} {ST : SpilmanStorage S}.
Abbreviation Host := (ConfigurableHost S).

(** [ConfigurableHost::set_keyset]. *)
Definition host_set_keyset (h : Host) (mint : string) (id : Id) (entry : KeysetCacheEntry) :
    Result string unit * Host :=
  let '(r, s) := set_keyset (storage h) mint id entry in (r, set_storage h s).

Fixpoint cache_loop (mint_url : string) (keysets : list MintKeysetWithKeys) : M Host string unit :=
  match keysets with
  | [] => lift (Ok tt)
  | ks :: keysets =>
      let info_json := build_keyset_info_json (mk_id ks) (mk_unit ks) (mk_keys ks) (mk_input_fee_ppk ks)
                         (mk_final_expiry ks) in
      _ ← (λ h, host_set_keyset h mint_url (mk_id ks) (mk_KeysetCacheEntry info_json (mk_active ks) (mk_unit ks)));
      cache_loop mint_url keysets
  end.
(** Everything is fetched before anything is cached. *)
Definition fetch_and_cache_keysets (mint_url : string) : M (Host * N) string unit :=
  keysets ← net_side (fetch_all_keysets_from_mint mint_url);
  host_side (cache_loop mint_url (md_keysets keysets)).

(** The loop over the mints of the configuration; a failed mint is logged. *)
Fixpoint initialize_loop (mint_urls : list string) (errors : list string) : M (Host * N) string (list string) :=
  match mint_urls with
  | [] => lift (Ok errors)
  | mint_url :: mint_urls =>
      match_call (fetch_and_cache_keysets mint_url)
        (λ _, initialize_loop mint_urls errors)
        (λ e, initialize_loop mint_urls (errors ++ [mint_url +:+ ": " +:+ e]))
  end.
Definition initialize_keysets : M (Host * N) string unit := λ x,
  let mint_urls := (map_to_list (mints (config x.1))).*1 in
  (errors ← initialize_loop mint_urls [];
   if bool_decide (length errors = length mint_urls) && bool_decide (mint_urls ≠ []) then
     lift (Err ("Failed to fetch keysets from all mints: " +:+ String.concat "; " errors))
   else lift (Ok tt)) x.

(** *** The receiver's networking ([ReqwestNetworking]) *)

Context (nut00_from_json : string → option (Z * string)).
Definition reqwest_call_mint_swap (mint_url swap_request_json : string) :
    M (Host * N) MintRequestError string :=
  net_side (mint_request nut00_from_json "Swap request failed"
    (mk_HttpRequest POST (mint_url +:+ "/v1/swap") swap_request_json (Some SETTLEMENT_TIMEOUT))).
Definition reqwest_refresh (mint : string) : M (Host * N) string unit := fetch_and_cache_keysets mint.
End keysets.
