(* ===== verification/NetworkingProofs.v ===== *)
(** * Theorems about networking ([Networking.v])

    A body is read completely or not at all; only a complete rejection is evidence for a
    retry; and a refresh touches nothing but the keyset cache, into which it writes keysets
    whose ids commit to their keys. *)

From S2P Require Import Prelude Cashu Toy Amounts Params Deterministic Channel Mint Storage StorageSpec StorageMemory Host Bridge Close CloseProofs ClientStorage Funding FundingProofs Client Networking.

(** ** Bodies *)

Section body.
Context {N : Type} {HN : HttpClient N}.
Context (nut00_from_json : string → option (Z * string)).

(** The text is the whole body of the response: every chunk arrived, the announced and the
    received lengths are within the limit, and the bytes are UTF-8. *)
Definition whole_body (response : HttpResponse) (text : string) : Prop :=
  (∀ size, hp_content_length response = Some size → size <= MAX_RESPONSE_BYTES) ∧
  ∃ chunks, hp_chunks response = Ok <$> chunks ∧
    Z.of_nat (length (mjoin chunks)) <= MAX_RESPONSE_BYTES ∧
    utf8_valid (mjoin chunks) = true ∧ bytes_of_string text = mjoin chunks.

Lemma utf8_bytes b : utf8_valid b = true → Forall (λ x, 0 <= x < 256) b.
Proof.
  revert b. fix IH 1. intros [|b0 b] H; [constructor|]. cbn [utf8_valid] in H. unfold byte_in in H.
  destruct ((0 <=? b0) && (b0 <=? 127)) eqn:H0; [constructor; [lia|by apply IH]|].
  destruct b as [|b1 b]; [done|]. destruct ((194 <=? b0) && (b0 <=? 223)) eqn:H1.
  { apply andb_true_iff in H as [H Hb]. constructor; [lia|]. constructor; [lia|by apply IH]. }
  destruct b as [|b2 b]; [done|]. destruct ((224 <=? b0) && (b0 <=? 239)) eqn:H2.
  { apply andb_true_iff in H as [H Hb]. constructor; [lia|]. constructor; [repeat case_match; lia|].
    constructor; [lia|by apply IH]. }
  destruct b as [|b3 b]; [done|]. apply andb_true_iff in H as [H Hb].
  constructor; [lia|]. constructor; [repeat case_match; lia|]. constructor; [lia|]. constructor; [lia|by apply IH].
Qed.
Lemma bytes_of_string_of_bytes b : Forall (λ x, 0 <= x < 256) b → bytes_of_string (string_of_bytes b) = b.
Proof.
  induction 1 as [|x b Hx _ IH]; [done|]. cbn [string_of_bytes bytes_of_string].
  rewrite Ascii.N_ascii_embedding, Z2N.id, IH by lia. done.
Qed.
Lemma from_utf8_iff b text : from_utf8 b = Some text ↔ utf8_valid b = true ∧ bytes_of_string text = b.
Proof.
  unfold from_utf8. destruct (utf8_valid b) eqn:Hb; [|by split; [|intros [? _]]].
  pose proof (bytes_of_string_of_bytes b (utf8_bytes b Hb)) as Hs. split.
  - by intros [= <-].
  - intros [_ Ht]. f_equal. apply (inj bytes_of_string). congruence.
Qed.

Lemma read_chunks_Ok body chunks b :
  Z.of_nat (length body) <= MAX_RESPONSE_BYTES →
  read_chunks body chunks = Ok b ↔
  ∃ l, chunks = Ok <$> l ∧ b = body ++ mjoin l ∧ Z.of_nat (length b) <= MAX_RESPONSE_BYTES.
Proof.
  revert body. induction chunks as [|[chunk|e|] chunks IH]; intros body Hb; cbn [read_chunks mbind Result_bind].
  - split.
    + intros [= <-]. exists []. by rewrite app_nil_r.
    + intros ([|? ?] & Hl & -> & _); [|done]. by rewrite app_nil_r.
  - destruct (Z.ltb_spec (MAX_RESPONSE_BYTES - Z.of_nat (length body)) (Z.of_nat (length chunk))).
    + split; [done|]. intros ([|x l] & Hl & -> & Hle); [done|]. injection Hl as -> ->.
      rewrite length_app in Hle. cbn [mjoin list_join] in Hle. rewrite length_app in Hle. lia.
    + rewrite IH by (rewrite length_app; lia). split.
      * intros (l & -> & -> & Hle). exists (chunk :: l). split_and!; [done| |done]. cbn. by rewrite (assoc_L (++)).
      * intros ([|x l] & Hl & -> & Hle); [done|]. injection Hl as -> ->. exists l.
        cbn [mjoin list_join] in *. by rewrite <-(assoc_L (++)).
  - split; [done|]. by intros ([|? ?] & Hl & _).
  - split; [done|]. by intros ([|? ?] & Hl & _).
Qed.
Lemma read_body_iff response text : read_body response = Ok text ↔ whole_body response text.
Proof.
  unfold read_body, whole_body. destruct (hp_content_length response) as [size|] eqn:Hs.
  - destruct (Z.ltb_spec MAX_RESPONSE_BYTES size) as [Hlt|Hle].
    { split; [done|]. intros [Hle _]. specialize (Hle size eq_refl). lia. }
    rewrite bind_Ok. setoid_rewrite read_chunks_Ok; [|done]. setoid_rewrite ok_or_Ok. setoid_rewrite from_utf8_iff. cbn [app]. split.
    + intros (b & (l & Hl & -> & Hb) & Hu). split; [by intros ? [= <-]|]. eauto.
    + intros [_ (l & Hl & Hb & Hu)]. eauto 10.
  - rewrite bind_Ok. setoid_rewrite read_chunks_Ok; [|done]. setoid_rewrite ok_or_Ok. setoid_rewrite from_utf8_iff. cbn [app]. split.
    + intros (b & (l & Hl & -> & Hb) & Hu). split; [done|]. eauto.
    + intros [_ (l & Hl & Hb & Hu)]. eauto 10.
Qed.

(** C20: the networking never invents evidence. A mint request succeeds exactly when the
    whole body of a response with a 2xx status has arrived, within 4 MiB; and it permits a
    retry with another keyset exactly when the whole body of a response with status 400 is a
    NUT-00 error that names the keyset. A broken, oversized or malformed answer is neither,
    whatever it contains. *)
Theorem http_evidence_exact failed request n :
  (∀ body, (mint_request nut00_from_json failed request n).1 = Ok body ↔
     ∃ response, (http_send request n).1 = Ok response ∧ whole_body response body ∧
       200 <= hp_status response < 300) ∧
  ((∃ e, (mint_request nut00_from_json failed request n).1 = Err e ∧ permits_keyset_retry e = true) ↔
     ∃ response text code detail, (http_send request n).1 = Ok response ∧ whole_body response text ∧
       hp_status response = 400 ∧ nut00_from_json text = Some (code, detail) ∧ (code = 12001 ∨ code = 12002)).
Proof.
  unfold mint_request, mbind, M_bind, mmap_err, lift.
  destruct (http_send request n) as [[response|e|] n1]; cbn [fst map_err]; cycle 1.
  { split; [split; [done|by intros (? & [=] & _)]|]. split; [by intros (? & [= <-] & ?)|by intros (? & ? & ? & ? & [=] & _)]. }
  { split; [split; [done|by intros (? & [=] & _)]|]. split; [by intros (? & [=] & ?)|by intros (? & ? & ? & ? & [=] & _)]. }
  assert (∀ text, read_body response = Ok text ↔ whole_body response text) as Hread by (intros; apply read_body_iff).
  destruct (read_body response) as [text|e|] eqn:Hr; cbn [map_err fst]; cycle 1.
  { split; [split; [done|by intros (? & [= <-] & Hw%Hread & _)]|].
    split; [by intros (? & [= <-] & ?)|by intros (? & ? & ? & ? & [= <-] & Hw%Hread & _)]. }
  { split; [split; [done|by intros (? & [= <-] & Hw%Hread & _)]|].
    split; [by intros (? & [=] & ?)|by intros (? & ? & ? & ? & [= <-] & Hw%Hread & _)]. }
  assert (whole_body response text) as Hw by by apply Hread.
  assert (∀ t, whole_body response t → t = text) as Huniq by (by intros t [= ->]%Hread).
  unfold into_result. cbn [mr_status mr_body].
  destruct ((200 <=? hp_status response) && (hp_status response <? 300)) eqn:H2; cbn [fst].
  - rewrite andb_true_iff, Z.leb_le, Z.ltb_lt in H2. split.
    + intros body. split; [intros [= <-]; eauto|]. by intros (? & [= <-] & ->%Huniq & _).
    + split; [by intros (? & [=] & _)|]. intros (? & ? & ? & ? & [= <-] & _ & Hs & _). lia.
  - rewrite andb_false_iff, Z.leb_gt, Z.ltb_ge in H2.
    destruct (hp_status response =? 400) eqn:H4; [|split].
    + apply Z.eqb_eq in H4. split.
      * intros body. split; [by repeat case_match|]. intros (? & [= <-] & _ & Hs). lia.
      * split.
        -- intros (e & He & Hp). destruct (nut00_from_json text) as [[code detail]|] eqn:Hn; injection He as <-; [|done].
           exists response, text, code, detail. split_and!; try done.
           unfold permits_keyset_retry, rejection_permits_keyset_retry in Hp. cbn in Hp. lia.
        -- intros (? & t & code & detail & [= <-] & ->%Huniq & _ & Hn & Hc). rewrite Hn. eexists. split; [done|].
           unfold permits_keyset_retry, rejection_permits_keyset_retry. cbn. rewrite H4. destruct Hc as [-> | ->]; done.
    + intros body. split; [done|]. intros (? & [= <-] & _ & Hs). lia.
    + split; [by intros (? & [= <-] & ?)|]. intros (? & ? & ? & ? & [= <-] & _ & Hs & _). apply Z.eqb_neq in H4. lia.
Qed.
End body.

(** ** Keysets *)

Section keysets.
Context {T : CashuTypes} {O : CashuOps} {HJ : JsonLaws} {HE : EncodingLaws} {N : Type} {HN : HttpClient N}.
Context (keyset_meta_from_value : Value → Result string (Id * CurrencyUnit * bool)).

(** The JSON that [build_keyset_info_from_responses] prints, for an entry of the listing. *)
Definition info_value (id_str unit : string) (keys entry : Value) : Value :=
  json_obj ([("keysetId", json_str id_str); ("unit", json_str unit); ("keys", keys);
             ("inputFeePpk", json_num (default 0 (idx_u64 entry "input_fee_ppk")))]
            ++ match json_get entry "final_expiry" with Some e => [("finalExpiry", e)] | None => [] end).
Lemma build_keyset_info_Ok keysets keys_json id_str js :
  build_keyset_info_from_responses keyset_meta_from_value keysets keys_json id_str = Ok js →
  ∃ discovery requested entry unit keys ks,
    discovery_from_json keyset_meta_from_value keysets = Ok discovery ∧
    supported_keyset_id id_str = Ok (Some requested) ∧
    List.find (λ k, bool_decide (entry_id k = Some requested)) (kd_keysets discovery) = Some entry ∧
    idx_str entry "unit" = Some unit ∧ js = json_print (info_value id_str unit keys entry) ∧
    (∀ e, json_get entry "final_expiry" = Some e → json_is_null e = true ∨ is_Some (json_as_u64 e)) ∧
    parse_keyset_info_from_json js = Ok ks ∧ keyset_id ks = computed_keyset_id ks.
Proof.
  unfold build_keyset_info_from_responses. intros H.
  apply bind_Ok in H as (disc & Hd & (kr & _ & (sup & Hs & (req & Hr%ok_or_Ok & H)%bind_Ok)%bind_Ok)%bind_Ok). subst sup.
  apply bind_Ok in H as (entry & He%ok_or_Ok & (unit & Hu%ok_or_Ok & ([] & Hx & H)%bind_Ok)%bind_Ok).
  apply bind_Ok in H as (es & _ & (m & _ & (m' & _ & (u1 & _ & (u2 & _ & (u3 & _ & H)%bind_Ok)%bind_Ok)%bind_Ok)%bind_Ok)%bind_Ok).
  apply bind_Ok in H as (keys & _ & (ks & Hks & ([] & Hid%ensure_Ok%bool_decide_eq_true_1 & [= <-])%bind_Ok)%bind_Ok).
  exists disc, req, entry, unit, keys, ks. split_and!; try done.
  intros e Hfe. rewrite Hfe in Hx. apply ensure_Ok, orb_true_iff in Hx as [Hx|Hx%bool_decide_eq_true_1]; auto.
Qed.

(** A cached entry whose keyset has the id that its keys derive. *)
Definition authentic (id : Id) (info_json : string) (unit : CurrencyUnit) : Prop :=
  ∃ ks, parse_keyset_info_from_json info_json = Ok ks ∧ keyset_id ks = id ∧
    computed_keyset_id ks = id ∧ ki_unit ks = unit.
Definition info_of (ks : MintKeysetWithKeys) : string :=
  build_keyset_info_json (mk_id ks) (mk_unit ks) (mk_keys ks) (mk_input_fee_ppk ks) (mk_final_expiry ks).

Lemma info_value_nodup id_str unit keys entry :
  NoDup ([("keysetId", json_str id_str); ("unit", json_str unit); ("keys", keys);
      ("inputFeePpk", json_num (default 0 (idx_u64 entry "input_fee_ppk")))]
     ++ match json_get entry "final_expiry" with Some e => [("finalExpiry", e)] | None => [] end).*1.
Proof. destruct (json_get entry "final_expiry"); keys_nodup. Qed.

(** The cached JSON of a fetched keyset is read as the keyset that was verified. *)
Lemma cached_info_parses id unit_str unit keys entry expiry ks :
  unit_from_str unit_str = Ok unit → listed_expiry entry = Ok expiry →
  parse_keyset_info_from_json (json_print (info_value (id_to_string id) unit_str keys entry)) = Ok ks →
  parse_keyset_info_from_json (build_keyset_info_json id unit keys (default 0 (idx_u64 entry "input_fee_ppk")) expiry)
  = Ok ks ∧ keyset_id ks = id ∧ ki_unit ks = unit.
Proof.
  intros Hu Hx. unfold parse_keyset_info_from_json, build_keyset_info_json. rewrite !json_print_inv. cbn [map_err mbind Result_bind].
  set (fee := default 0 (idx_u64 entry "input_fee_ppk")).
  assert (is_u64 fee) as Hfee.
  { unfold fee, idx_u64. destruct (json_get entry "input_fee_ppk") as [v|]; cbn; [|done].
    destruct (json_as_u64 v) eqn:E; cbn; [by eapply json_as_u64_range|done]. }
  pose proof (info_value_nodup (id_to_string id) unit_str keys entry) as Hnd. unfold info_value.
  fold fee in Hnd |- *. set (l1 := _ ++ _) in Hnd |- *.
  set (l2 := [("keysetId", _); ("unit", _); ("keys", keys); _; _]).
  assert (NoDup l2.*1) as Hnd2 by keys_nodup.
  rewrite (idx_str_obj l1 "keysetId" (id_to_string id)) by done. rewrite (idx_str_obj l2 "keysetId" (id_to_string id)) by done.
  cbn [or_else ok_or mbind Result_bind]. rewrite id_inv. cbn [map_err mbind Result_bind].
  rewrite (idx_str_obj l1 "unit" unit_str) by done. rewrite (idx_str_obj l2 "unit" (unit_to_string unit)) by done.
  cbn [or_else ok_or mbind Result_bind]. rewrite Hu, unit_inv. cbn [map_err mbind Result_bind].
  rewrite (idx_u64_obj l1 "inputFeePpk" fee) by done. rewrite (idx_u64_obj l2 "inputFeePpk" fee) by done.
  cbn [or_else ok_or mbind Result_bind].
  assert (or_else (idx_u64 (json_obj l1) "finalExpiry") (idx_u64 (json_obj l1) "final_expiry") = expiry ∧
          or_else (idx_u64 (json_obj l2) "finalExpiry") (idx_u64 (json_obj l2) "final_expiry") = expiry) as [-> ->].
  { unfold listed_expiry in Hx. unfold idx_u64. rewrite !json_get_obj by done. unfold l1, l2. split.
    - destruct (json_get entry "final_expiry") as [v|]; cbn; [|by injection Hx].
      destruct (json_is_null v) eqn:Hnull.
      { rewrite json_is_null_u64 by done. by injection Hx. }
      apply fmap_Ok in Hx as (e & He%ok_or_Ok & ->). by rewrite He.
    - cbn. destruct expiry as [e|]; cbn; [|apply json_as_u64_null]. apply json_as_u64_num.
      destruct (json_get entry "final_expiry") as [v|]; [|done]. destruct (json_is_null v); [done|].
      apply fmap_Ok in Hx as (e' & He%ok_or_Ok & [= <-]). by eapply json_as_u64_range. }
  rewrite (json_get_obj l1), (json_get_obj l2) by done.
  assert (alist_get l1 "keys" = Some keys) as -> by done. assert (alist_get l2 "keys" = Some keys) as -> by done.
  cbn [mbind option_bind]. destruct (ok_or _ (json_as_object keys)) as [obj|e|]; cbn [mbind Result_bind]; [|done..].
  destruct (try_fold _ _ obj) as [km|e|]; cbn [mbind Result_bind]; [|done..]. intros [= <-]. done.
Qed.

Lemma supported_to_string id requested : supported_keyset_id (id_to_string id) = Ok (Some requested) → requested = id.
Proof.
  unfold supported_keyset_id. intros (b & _ & H)%bind_Ok. case_match; [done|].
  apply fmap_Ok in H as (i & Hi%map_err_Ok & [= ->]). rewrite id_inv in Hi. by injection Hi.
Qed.
Lemma parse_id_Ok s id : id_from_str s = Ok id → parse_id s = Some id.
Proof. unfold parse_id. by intros ->. Qed.

(** A fetched keyset comes from the entry with its id; if that entry is the first one of the
    listing with the id, what will be cached is authentic. *)
Lemma fetch_one_Ok url resp keyset n r n' :
  fetch_one keyset_meta_from_value url resp keyset n = (Ok r, n') →
  entry_id keyset = Some (mk_id r) ∧
  ∀ report, discovery_from_json keyset_meta_from_value (json_print resp) = Ok report →
    List.find (λ k, bool_decide (entry_id k = Some (mk_id r))) (kd_keysets report) = Some keyset →
    authentic (mk_id r) (info_of r) (mk_unit r).
Proof.
  unfold fetch_one. intros H.
  apply M_bind_Ok in H as (id_str & ? & [Hi ->]%lift_Ok & H). apply ok_or_Ok in Hi.
  apply M_bind_Ok in H as (id & ? & [Hid ->]%lift_Ok & H). apply map_err_Ok in Hid.
  apply M_bind_Ok in H as (unit_str & ? & [Hus ->]%lift_Ok & H). apply ok_or_Ok in Hus.
  apply M_bind_Ok in H as (unit & ? & [Hu ->]%lift_Ok & H). apply map_err_Ok in Hu. cbv zeta in H.
  apply M_bind_Ok in H as (expiry & ? & [Hx ->]%lift_Ok & H). apply M_bind_Ok in H as (keys_resp & n1 & _ & H).
  apply M_bind_Ok in H as (js & ? & [Hjs ->]%lift_Ok & H). apply M_bind_Ok in H as (info & ? & [Hinfo ->]%lift_Ok & H).
  apply lift_Ok in H as [[= <-] _]. cbn [mk_id mk_unit]. split.
  { unfold entry_id. rewrite Hi. cbn. by apply parse_id_Ok. }
  intros report Hrep Hfind.
  apply build_keyset_info_Ok in Hjs as (disc & req & entry & unit' & keys & ks & Hd & ->%supported_to_string & Hf & Hu' & -> & _ & Hp & Hc).
  rewrite Hrep in Hd. injection Hd as <-. rewrite Hfind in Hf. injection Hf as <-. rewrite Hus in Hu'. injection Hu' as <-.
  rewrite json_print_inv in Hinfo. injection Hinfo as <-. unfold authentic, info_of. cbn [mk_id mk_unit mk_keys mk_input_fee_ppk mk_final_expiry].
  assert (json_get (info_value (id_to_string id) unit_str keys keyset) "keys" = Some keys) as ->.
  { unfold info_value. rewrite json_get_obj by apply info_value_nodup. done. }
  change (default json_null (Some keys)) with keys. destruct (cached_info_parses id unit_str unit keys keyset expiry ks Hu Hx Hp) as (Hparse & Hki & Hkn).
  exists ks. split_and!; [done|done|congruence|done].
Qed.
Lemma fetch_loop_Ok url resp l n rs n' :
  fetch_loop keyset_meta_from_value url resp l n = (Ok rs, n') →
  Forall2 (λ keyset r, ∃ n n', fetch_one keyset_meta_from_value url resp keyset n = (Ok r, n')) l rs.
Proof.
  revert n rs. induction l as [|k l IH]; intros n rs; cbn [fetch_loop].
  { intros [[= <-] _]%lift_Ok. constructor. }
  intros (r & n1 & Hr & (rest & n2 & Hrest & [[= <-] ->]%lift_Ok)%M_bind_Ok)%M_bind_Ok.
  constructor; [by eauto|]. by eapply IH.
Qed.
(** The first entry with an id is the entry with that id, when ids are not repeated. *)
Lemma find_entry (l : list Value) (rs : list MintKeysetWithKeys) i keyset r :
  Forall2 (λ k r, entry_id k = Some (mk_id r)) l rs → NoDup (mk_id <$> rs) →
  l !! i = Some keyset → rs !! i = Some r →
  List.find (λ k, bool_decide (entry_id k = Some (mk_id r))) l = Some keyset.
Proof.
  intros Hl. revert i. induction Hl as [|k r0 l rs Hk Hl IH]; intros i Hnd Hi Hr; [done|].
  rewrite fmap_cons in Hnd. apply NoDup_cons in Hnd as [Hnot Hnd]. cbn [List.find]. rewrite Hk.
  destruct i as [|i]; cbn in Hi, Hr.
  { injection Hi as ->. injection Hr as ->. by rewrite bool_decide_eq_true_2. }
  rewrite bool_decide_eq_false_2; [by apply (IH i)|]. intros [= Heq]. apply Hnot. rewrite Heq.
  apply list_elem_of_fmap. exists r. split; [done|]. by eapply list_elem_of_lookup_2.
Qed.
Lemma fetch_all_authentic url n d n' :
  fetch_all_keysets_from_mint keyset_meta_from_value url n = (Ok d, n') → NoDup (mk_id <$> md_keysets d) →
  Forall (λ r, authentic (mk_id r) (info_of r) (mk_unit r)) (md_keysets d).
Proof.
  unfold fetch_all_keysets_from_mint. intros H Hnd.
  apply M_bind_Ok in H as (resp & n1 & _ & H). apply M_bind_Ok in H as (report & ? & [Hrep ->]%lift_Ok & H).
  apply M_bind_Ok in H as (rs & n2 & Hrs%fetch_loop_Ok & H). apply lift_Ok in H as [[= <-] ->]. cbn [md_keysets] in *.
  assert (Forall2 (λ k r, entry_id k = Some (mk_id r)) (kd_keysets report) rs) as Hids.
  { eapply Forall2_impl; [exact Hrs|]. by intros k r (? & ? & [? _]%fetch_one_Ok). }
  apply Forall_lookup. intros i r Hr. destruct (Forall2_lookup_r _ _ _ _ _ Hrs Hr) as (k & Hk & ? & ? & [_ Ha]%fetch_one_Ok).
  apply (Ha report Hrep). by eapply find_entry.
Qed.

(** ** The cache *)

Context {S : Type} {ST : SpilmanStorage S} {SS : StorageSpec S}.
Context (usage_from_json : string → option UsageMap).
Implicit Types h : ConfigurableHost S.
#[local] Instance this_host : SpilmanHost (ConfigurableHost S) string := configurable_host usage_from_json.
#[local] Instance this_spec : HostSpec (ConfigurableHost S) string := configurable_host_spec usage_from_json.

Lemma set_keyset_same h mint id e :
  host_wf h → ∃ h', host_set_keyset h mint id e = (Ok tt, h') ∧ same h h' ∧
    ∀ m i, get_keyset (storage h') m i = if bool_decide ((m, i) = (mint, id)) then Some e else get_keyset (storage h) m i.
Proof.
  intros Hwf. destruct (set_keyset_spec (storage h) mint id e Hwf) as (Hok & Hwf' & Hview & Hget).
  unfold host_set_keyset. destruct (set_keyset (storage h) mint id e) as [r s]. cbn in *. subst r.
  exists (set_storage h s). split; [done|]. split; [|done]. split_and!; [done|done|].
  intros d ctx. by apply ch_due_storage.
Qed.
Lemma cache_loop_spec url (l : list MintKeysetWithKeys) h :
  host_wf h → ∃ h', cache_loop url l h = (Ok tt, h') ∧ same h h' ∧
    ∀ m i e, get_keyset (storage h') m i = Some e →
      get_keyset (storage h) m i = Some e ∨
      m = url ∧ ∃ r, r ∈ l ∧ i = mk_id r ∧ e = mk_KeysetCacheEntry (info_of r) (mk_active r) (mk_unit r).
Proof.
  revert h. induction l as [|r l IH]; intros h Hwf; cbn [cache_loop].
  { exists h. split; [done|]. split; [by apply same_refl|]. auto. }
  destruct (set_keyset_same h url (mk_id r) (mk_KeysetCacheEntry (info_of r) (mk_active r) (mk_unit r)) Hwf)
    as (h1 & Hset & Hs1 & Hg1).
  destruct (IH h1) as (h2 & Hloop & Hs2 & Hg2); [apply Hs1|]. exists h2. split; [|split; [by eapply same_trans|]].
  - cbv zeta. unfold mbind, M_bind. fold (info_of r). by rewrite Hset.
  - intros m i e [He|(-> & r' & Hr' & -> & ->)]%Hg2; [|right; split; [done|]; exists r'; by split_and!; [right|..]].
    rewrite Hg1 in He. case_bool_decide as Hmi; [|by left]. injection Hmi as -> ->. injection He as <-.
    right. split; [done|]. exists r. split; [left|done].
Qed.
Lemma fetch_and_cache_spec url h n :
  host_wf h →
  let '(r, (h', n')) := fetch_and_cache_keysets keyset_meta_from_value url (h, n) in
  same h h' ∧ n' = (fetch_all_keysets_from_mint keyset_meta_from_value url n).2 ∧
  (r ≠ Ok tt → h' = h) ∧
  (r = Ok tt → ∃ d, (fetch_all_keysets_from_mint keyset_meta_from_value url n).1 = Ok d ∧
     ∀ m i e, get_keyset (storage h') m i = Some e → get_keyset (storage h) m i = Some e ∨
       m = url ∧ ∃ k, k ∈ md_keysets d ∧ i = mk_id k ∧ e = mk_KeysetCacheEntry (info_of k) (mk_active k) (mk_unit k)).
Proof.
  intros Hwf. unfold fetch_and_cache_keysets, mbind, M_bind, net_side, host_side. cbn [fst snd].
  destruct (fetch_all_keysets_from_mint _ url n) as [[d|e|] n1]; cbn [fst snd];
    [|by split_and!; [apply same_refl|..|intros [=]]..].
  destruct (cache_loop_spec url (md_keysets d) h Hwf) as (h' & -> & Hs & Hg).
  split_and!; [done..|]. eauto.
Qed.

(** C21: a refresh of the keysets cannot hurt. Whatever the mint answers, no channel and no
    amount due changes, and a refresh that fails changes nothing at all; every entry in the
    cache afterwards was there before or belongs to the refreshed mint, and, unless the mint
    lists an id twice, its keyset has the id that its keys (and, for the newer ids, its unit,
    fee and expiry) derive, under the unit it is cached for. *)
Theorem refresh_is_authentic url h n r h' n' :
  host_wf h → fetch_and_cache_keysets keyset_meta_from_value url (h, n) = (r, (h', n')) →
  same h h' ∧ (r ≠ Ok tt → h' = h) ∧
  ∀ m i e, get_keyset (storage h') m i = Some e →
    get_keyset (storage h) m i = Some e ∨
    m = url ∧
    ((∀ d, (fetch_all_keysets_from_mint keyset_meta_from_value url n).1 = Ok d → NoDup (mk_id <$> md_keysets d)) →
     authentic i (info_json e) (ks_unit e)).
Proof.
  intros Hwf Hf. pose proof (fetch_and_cache_spec url h n Hwf) as Hs. rewrite Hf in Hs. destruct Hs as (Hsame & _ & Hfail & Hok).
  split_and!; [done..|]. intros m i e He.
  assert (r = Ok tt ∨ r ≠ Ok tt) as [Hr|Hr] by (destruct r as [[]| |]; auto); [|left; by rewrite <-(Hfail Hr)].
  destruct (Hok Hr) as (d & Hd & Hg). destruct (Hg m i e He) as [?|(-> & k & Hk & -> & ->)]; [by left|].
  right. split; [done|]. intros Hnd. specialize (Hnd d Hd).
  destruct (fetch_all_keysets_from_mint _ url n) as [r1 n1] eqn:Hall. cbn in Hd. subst r1.
  pose proof (fetch_all_authentic _ _ _ _ Hall Hnd) as Ha. rewrite Forall_forall in Ha. exact (Ha k Hk).
Qed.

(** the receiver's networking meets what the close theorems assume of a mint client and a
    keyset refresher: for every relation that holds of calls that only read, submitting a swap
    and refreshing keysets over HTTP stay within it. *)
Theorem reqwest_networking_is_quiet nut00_from_json (R : ConfigurableHost S → ConfigurableHost S → Prop) {HR : HostOrder R} :
  (∀ url body, within (S:=ConfigurableHost S * N) R fst (reqwest_call_mint_swap nut00_from_json url body)) ∧
  (∀ url, within (S:=ConfigurableHost S * N) R fst (reqwest_refresh keyset_meta_from_value url)).
Proof.
  split.
  - intros url body [h n] Hwf. unfold reqwest_call_mint_swap, net_side. cbn [fst snd].
    destruct (mint_request _ _ _ n). apply ho_same; [done|]. by apply same_refl.
  - intros url [h n] Hwf. pose proof (fetch_and_cache_spec url h n Hwf) as Hs. unfold reqwest_refresh.
    destruct (fetch_and_cache_keysets _ url (h, n)) as [r [h' n']]. cbn [fst snd]. destruct Hs as [Hs _]. exact (ho_same h h' Hwf Hs).
Qed.

(** ** Startup *)

Lemma initialize_loop_count urls errors x es x' :
  initialize_loop keyset_meta_from_value urls errors x = (Ok es, x') →
  (length es <= length errors + length urls)%nat ∧
  ((length es < length errors + length urls)%nat →
   ∃ url y, url ∈ urls ∧ (fetch_and_cache_keysets keyset_meta_from_value url y).1 = Ok tt).
Proof.
  revert errors x. induction urls as [|url urls IH]; intros errors x; cbn [initialize_loop].
  { intros [[= <-] _]%lift_Ok. cbn. split; lia. }
  unfold match_call. destruct (fetch_and_cache_keysets _ url x) as [[[]|e|] x1] eqn:Hf; [..|done].
  - intros [Hle Hex]%IH. cbn. split; [lia|]. intros _. exists url, x. split; [left|by rewrite Hf].
  - intros [Hle Hex]%IH. rewrite length_app in *. cbn in *. split; [lia|].
    intros Hlt. destruct Hex as (u & y & Hu & Hy); [lia|]. exists u, y. split; [by right|done].
Qed.
(** Starting succeeds only if the keysets of some configured mint were cached, or none is
    configured. *)
Lemma initialize_keysets_Ok (x x' : ConfigurableHost S * N) :
  initialize_keysets keyset_meta_from_value x = (Ok tt, x') → mints (config x.1) ≠ ∅ →
  ∃ url y, is_Some (mints (config x.1) !! url) ∧
    (fetch_and_cache_keysets keyset_meta_from_value url y).1 = Ok tt.
Proof.
  unfold initialize_keysets. intros (es & x1 & [Hle Hex]%initialize_loop_count & H)%M_bind_Ok Hne.
  assert ((map_to_list (mints (config x.1))).*1 ≠ []) as Hnil.
  { intros Hn. apply fmap_nil_inv in Hn. by apply map_to_list_empty_iff in Hn. }
  rewrite (bool_decide_eq_true_2 (_ ≠ [])) in H by done. case_bool_decide as Hlen; [done|]. cbn in Hle, Hex.
  destruct Hex as (url & y & Hin & Hy); [lia|]. exists url, y. split; [|done].
  apply list_elem_of_fmap in Hin as ([u v] & -> & Hin%elem_of_map_to_list). by eexists.
Qed.
End keysets.
