(* ===== verification/Management.v ===== *)
(** * The management routes ([crates/cdk-spilman/src/axum.rs])

    The HTTP handlers through which senders register, inspect and close channels, over the
    host and the bridge of the receiver. A request arrives decoded (axum rejects a body that
    does not decode), a response is a status and a JSON value. *)

From S2P Require Import Prelude Cashu Toy Amounts Params SwapCompletion Deterministic Channel Mint Storage StorageSpec StorageMemory Host Bridge Close CloseProofs.

Record CloseRequest {T : CashuTypes} := mk_CloseRequest {
  cq_balance : Z;
  cq_signature : string;
  cq_params : option Value;
  cq_funding_proofs : option Value;
}.
Arguments mk_CloseRequest {T}.
Record RegisterRequest {T : CashuTypes} := mk_RegisterRequest {
  rq_channel_id : option string;
  rq_balance : option Z;
  rq_signature : option string;
  rq_params : option Value;
  rq_funding_proofs : option Value;
}.
Arguments mk_RegisterRequest {T}.
Record Response {T : CashuTypes} := mk_Response { rp_status : Z; rp_body : Value }.
Arguments mk_Response {T}.

Section handlers.
Context {T : CashuTypes} {O : CashuOps} {S : Type} {ST : SpilmanStorage S} {W : Type}.
Context (usage_from_json : string → option UsageMap).
Context (errors_to_json : list ChannelVerificationError → string).
Context (payment_from_json : string → Result string Payment).
(** the derived [Serialize] of [CloseError] *)
Context (close_error_to_value : CloseError → Value).
Context (call_mint_swap : string → string → M (ConfigurableHost S * W) MintRequestError string).
Context (refresh : string → M (ConfigurableHost S * W) string unit).
#[local] Instance the_host : SpilmanHost (ConfigurableHost S) string := configurable_host usage_from_json.
Implicit Types h : ConfigurableHost S.

(** [Json(..).into_response()]. *)
Definition json_ok (body : Value) : Response := mk_Response 200 body.
Definition bad_request_body (reason : string) : Response :=
  mk_Response 400 (json_obj [("error", json_str "Bad request"); ("reason", json_str reason)]).
Definition json_opt (v : option Z) : Value := match v with Some n => json_num n | None => json_null end.

Definition map_bridge_error (e : BridgeError) : Response :=
  let error_response := ClosePreparationError_from e in
  let status := cpe_status error_response in
  mk_Response (if bool_decide (status ∈ [402; 404; 409; 410; 500]) then status else 400)
    (json_obj [("success", json_bool false); ("error", json_str (cpe_error error_response));
               ("reason", json_str (cpe_reason error_response)); ("status", json_num status)]).
Definition parse_sender_proofs (raw : string) : Value :=
  match json_parse raw with Ok v => v | _ => json_arr [] end.
(** [StatusCode::from_u16(status).unwrap_or(..)]. *)
Definition status_or (status fallback : Z) : Z :=
  if (100 <=? status) && (status <? 1000) then status else fallback.

(** ** Parameters and status *)

Definition usage_value (u : UsageMap) : Value := json_obj ((λ e, (e.1, json_num e.2)) <$> map_to_list u).
Definition unit_pricing_value (cfg : UnitPricingConfig) : Value :=
  json_obj ([("min_capacity", json_num (min_capacity cfg)); ("variables", usage_value (variables cfg))]
            ++ match max_amount_per_output cfg with
               | Some max => [("max_amount_per_output", json_num max)] | None => [] end).
Definition keysets_value (m : gmap string (gmap string (list string))) : Value :=
  json_obj ((λ e, (e.1, json_obj ((λ f, (f.1, json_arr (json_str <$> f.2))) <$> map_to_list e.2))) <$> map_to_list m).
Definition get_configurable_params h : Response :=
  json_ok (json_obj
    [("receiver_pubkey", json_str (pubkey_to_hex (server_pubkey h)));
     ("pricing", json_obj ((λ e, (e.1, unit_pricing_value e.2)) <$> map_to_list (get_active_pricing h)));
     ("pricing_scale", json_num (pricing_scale h));
     ("mints_units_keysets", keysets_value (get_mints_units_keysets (storage h)));
     ("min_expiry_in_seconds", json_num (min_expiry_seconds (config h)))]).

(** The accessors of [ConfigurableHost]. *)
Definition get_funding_data (channel_id : string) h : option ChannelFunding * ConfigurableHost S :=
  let '(f, s) := get_funding (storage h) channel_id in (f, set_storage h s).
Definition host_get_closed_data h (channel_id : string) : option ClosedDataView :=
  get_closed_data (storage h) channel_id.
Definition is_closed h (channel_id : string) : bool := bool_decide (is_Some (host_get_closed_data h channel_id)).

Definition get_configurable_status_handler (channel_id : string) h : Response * ConfigurableHost S :=
  let '(funding, h) := get_funding_data channel_id h in
  match funding with
  | None => (mk_Response 404 (json_obj [("error", json_str "unknown channel")]), h)
  | Some funding =>
      let params := match json_parse (params_json funding) with Ok v => v | _ => json_null end in
      let capacity := default 0 (idx_u64 params "capacity") in
      let balance := from_option pp_balance 0 (get_balance (storage h) channel_id) in
      let usage := default ∅ (get_usage (storage h) channel_id) in
      let closed_data := host_get_closed_data h channel_id in
      let '(amount_due, h) := get_amount_due h channel_id None in
      (json_ok (json_obj
         [("channel_id", json_str channel_id); ("capacity", json_num capacity); ("balance", json_num balance);
          ("usage", usage_value usage); ("amount_due", json_num amount_due);
          ("closed", json_bool (bool_decide (is_Some closed_data)));
          ("closed_amount", json_opt (closed_amount <$> closed_data))]), h)
  end.

(** ** Registering a channel *)

(** Handlers that call the bridge: [Diverge] is a request that is never answered. *)
Definition Handler (X : Type) : Type := M X Empty_set Response.
Definition respond {X} (r : Response) : Handler X := lift (Ok r).

Definition post_channel_register (body : RegisterRequest) : Handler (ConfigurableHost S) :=
  match rq_channel_id body, rq_signature body, rq_params body, rq_funding_proofs body with
  | None, _, _, _ => respond (bad_request_body "missing channel_id")
  | _, None, _, _ => respond (bad_request_body "missing signature")
  | _, _, None, _ => respond (bad_request_body "missing params")
  | _, _, _, None => respond (bad_request_body "missing funding_proofs")
  | Some channel_id, Some signature, Some params, Some funding_proofs =>
      if negb (default 0 (rq_balance body) =? 0) then
        respond (mk_Response 400 (json_obj [("success", json_bool false); ("error", json_str "Bad request");
          ("reason", json_str "funding requires balance=0"); ("status", json_num 400)]))
      else
        let register_body := json_obj [("channel_id", json_str channel_id); ("balance", json_num 0);
          ("signature", json_str signature); ("params", params); ("funding_proofs", funding_proofs)] in
        match_call (fund_channel_via_json errors_to_json payment_from_json (json_print register_body))
          (λ result, respond (json_ok (json_obj [("success", json_bool true);
             ("channel_id", json_str (fc_channel_id result)); ("capacity", json_num (fc_capacity result));
             ("already_known", json_bool (already_known result))])))
          (λ e, respond (map_bridge_error e))
  end.

(** ** Closing a channel *)

Abbreviation X := (ConfigurableHost S * W)%type.

Definition close_body (channel_id : string) (body : CloseRequest) : Value :=
  json_obj ([("channel_id", json_str channel_id); ("balance", json_num (cq_balance body));
             ("signature", json_str (cq_signature body))]
            ++ match cq_params body with Some p => [("params", p)] | None => [] end
            ++ match cq_funding_proofs body with Some p => [("funding_proofs", p)] | None => [] end).
Definition closed_response (result : CloseSuccess) : Response :=
  json_ok (json_obj
    [("channel_id", json_str (cs_channel_id result)); ("total_value", json_num (cs_total_value result));
     ("receiver_sum", json_num (cs_receiver_sum result)); ("sender_sum", json_num (cs_sender_sum result));
     ("sender_proofs", parse_sender_proofs (cs_sender_proofs result));
     ("already_closed", json_bool (cs_already_closed result))]).
(** The state, or the response to a storage failure. *)
Definition with_state (channel_id : string) (k : option ChannelState → Handler X) : Handler X :=
  match_call (asks (λ x : X, get_channel_state x.1 channel_id)) k
    (λ error, respond (map_bridge_error (Internal error))).

Definition post_channel_close (channel_id : string) (body : CloseRequest) : Handler X :=
  with_state channel_id (λ state,
    if bool_decide (state = Some Closed) then
      respond (json_ok (json_obj [("success", json_bool true); ("already_closed", json_bool true);
                                  ("channel_id", json_str channel_id)]))
    else
      match_call (execute_cooperative_close errors_to_json payment_from_json call_mint_swap refresh
                    (json_print (close_body channel_id body)))
        (λ result, respond (closed_response result))
        (λ e, respond (mk_Response (status_or (status_code e) 400) (close_error_to_value e)))).
Definition post_unilateral_close (channel_id : string) : Handler X :=
  with_state channel_id (λ state,
    if bool_decide (state = Some Closed) then
      respond (json_ok (json_obj [("success", json_bool true); ("channel_id", json_str channel_id);
                                  ("already_closed", json_bool true)]))
    else
      match_call (execute_unilateral_close call_mint_swap refresh channel_id)
        (λ result, respond (json_ok (json_obj [("success", json_bool true); ("channel_id", json_str channel_id);
           ("earnedBeforeStage2Fees", json_num (cs_receiver_sum result)); ("already_closed", json_bool false)])))
        (λ e, respond (mk_Response (status_or (status_code e) 500) (close_error_to_value e)))).

(** A closed channel answers from its record. *)
Definition settled_response (channel_id : string) (d : ClosedDataView) : Response :=
  json_ok (json_obj
    [("success", json_bool true); ("channel_id", json_str channel_id);
     ("total_value", json_num (value_after_stage1 d)); ("receiver_sum", json_num (cv_receiver_sum d));
     ("sender_sum", json_num (cv_sender_sum d));
     ("sender_proofs", parse_sender_proofs (cv_sender_proofs_json d)); ("already_closed", json_bool true)]).
Definition conflicting_close_response (d : ClosedDataView) (balance : Z) : Response :=
  mk_Response 400 (json_obj [("error", json_str "channel already closed with a different amount");
    ("closed_amount", json_num (closed_amount d)); ("requested_amount", json_num balance)]).
Definition post_configurable_channel_close (channel_id : string) (body : CloseRequest) : Handler X := λ x,
  match host_get_closed_data x.1 channel_id with
  | Some closed_data =>
      respond (if cq_balance body =? closed_amount closed_data then settled_response channel_id closed_data
               else conflicting_close_response closed_data (cq_balance body)) x
  | None => post_channel_close channel_id body x
  end.
Definition post_configurable_unilateral_close (channel_id : string) : Handler X := λ x,
  match host_get_closed_data x.1 channel_id with
  | Some closed_data =>
      respond (json_ok (json_obj [("success", json_bool true); ("channel_id", json_str channel_id);
        ("earnedBeforeStage2Fees", json_num (cv_receiver_sum closed_data)); ("already_closed", json_bool true)])) x
  | None => post_unilateral_close channel_id x
  end.

(** ** The router *)

Inductive Route :=
| RouteParams
| RouteRegister (body : RegisterRequest)
| RouteStatus (channel_id : string)
| RouteClose (channel_id : string) (body : CloseRequest)
| RouteUnilateralClose (channel_id : string).
Definition on_host_handler (m : Handler (ConfigurableHost S)) : Handler X :=
  λ x, let '(r, h) := m x.1 in (r, (h, x.2)).
Definition configurable_management_router (route : Route) : Handler X :=
  match route with
  | RouteParams => λ x, respond (get_configurable_params x.1) x
  | RouteRegister body => on_host_handler (post_channel_register body)
  | RouteStatus channel_id =>
      on_host_handler (λ h, let '(r, h) := get_configurable_status_handler channel_id h in (Ok r, h))
  | RouteClose channel_id body => post_configurable_channel_close channel_id body
  | RouteUnilateralClose channel_id => post_configurable_unilateral_close channel_id
  end.
End handlers.
