(* ===== verification/ManagementProofs.v ===== *)
(** * Theorems about the management routes ([Management.v])

    The routes keep the receiver's invariant, so that the receiver stays covered whatever
    requests arrive; and a close is settled once, every later request being answered from its
    record. *)

From S2P Require Import Prelude Cashu Toy Amounts Params SwapCompletion Deterministic Channel Mint Storage StorageSpec StorageMemory Host Bridge Close CloseProofs Funding FundingProofs Management.

(** ** Closes keep the invariant *)

Section keeps.
Context {T : CashuTypes} {O : CashuOps} {H C W : Type} {SH : SpilmanHost H C} {HS : HostSpec H C}.
Implicit Types h : H.

Definition keeps h h' : Prop := host_wf h' ∧ (receiver_inv h → receiver_inv h').
#[export] Instance keeps_order : HostOrder keeps.
Proof.
  split.
  - intros h h' Hwf Hs. split; [apply Hs|]. intros Hi. by eapply receiver_inv_same.
  - intros h1 h2 h3 [_ H12] [Hwf H23]. split; [done|]. auto.
  - by intros h h' [? _].
Qed.

(** A step that changes only the state of one channel, and does not open it. *)
Lemma inv_state_step h h' c :
  receiver_inv h → host_wf h' → (∀ d ctx, due h' d ctx = due h d ctx) → (∀ d, d ≠ c → hview h' d = hview h d) →
  v_funding (hview h' c) = v_funding (hview h c) → v_payment (hview h' c) = v_payment (hview h c) →
  v_usage (hview h' c) = v_usage (hview h c) → (v_state (hview h' c) = Some Open → v_state (hview h c) = Some Open) →
  receiver_inv h'.
Proof.
  intros [_ Ha Hc Hf] Hwf Hd Hframe Hfu Hp Hu Hst.
  assert (∀ d, v_funding (hview h' d) = v_funding (hview h d) ∧ v_payment (hview h' d) = v_payment (hview h d) ∧
    v_usage (hview h' d) = v_usage (hview h d) ∧ (v_state (hview h' d) = Some Open → v_state (hview h d) = Some Open)) as Hall.
  { intros d. destruct (decide (d = c)) as [->|]; [done|]. by rewrite Hframe. }
  split; [done|..].
  - intros d f p. destruct (Hall d) as (-> & -> & _). apply Ha.
  - intros d Ho. destruct (Hall d) as (_ & -> & _ & Hs). rewrite Hd. auto.
  - intros d. destruct (Hall d) as (-> & _ & -> & _). apply Hf.
Qed.
Lemma mark_closing_keeps h c expiry p :
  is_Some (v_funding (hview h c)) → receiver_inv h → receiver_inv (mark_channel_closing h c expiry p).2.
Proof.
  intros Hf Hinv. destruct (hs_mark_closing h c expiry p (ri_wf _ Hinv) Hf) as (Hwf & Hframe & Hd & Hs).
  cbn [spec_step] in Hs. case_bool_decide.
  - destruct Hs as [_ Hv]. apply (inv_state_step h _ c); rewrite ?Hv; done.
  - destruct Hs as [_ Hv]. apply (inv_state_step h _ c); rewrite ?Hv; done.
Qed.
Lemma finalize_keeps resp prep h : host_wf h → keeps h (finalize_close resp prep h).2.
Proof.
  intros Hwf. unfold finalize_close, mbind at 1, M_bind at 1, asks at 1.
  destruct (complete_prepared_close h resp prep) as [cc|e|]; [|by split..].
  unfold mark_completed_close, mbind at 1, M_bind at 1, asks. rewrite hs_state by done. cbn [map_err].
  case_bool_decide as Hst; [by split|]. set (c := cc_channel_id cc) in *.
  assert (is_Some (v_funding (hview h c))) as Hf.
  { pose proof (vo_known _ (hs_view_ok h c Hwf)) as Hk. destruct (v_funding (hview h c)); [done|].
    assert (v_state (hview h c) = None) by (by apply Hk). congruence. }
  pose proof (hs_mark_closed h c (cc_expiry_timestamp cc) (cc_balance cc) (cc_receiver_proofs_json cc)
    (cc_sender_proofs_json cc) (cc_receiver_sum cc) (cc_sender_sum cc) Hwf Hf) as Hm.
  cbv zeta in Hm. unfold mbind, M_bind, mmap_err.
  destruct (mark_channel_closed h c _ _ _ _ _ _) as [rm hm]. cbn [fst snd] in *.
  destruct Hm as (Hwf' & Hframe & Hd & Hm). cbn [spec_step] in Hm.
  assert (keeps h hm) as Hk.
  { split; [done|]. intros Hinv.
    case_bool_decide; destruct Hm as [_ Hv]; apply (inv_state_step h _ c); rewrite ?Hv; done. }
  by destruct rm.
Qed.

Context (call_mint_swap : string → string → M (H * W) MintRequestError string).
Context (refresh : string → M (H * W) string unit).
Context (mint_within : ∀ url body, within keeps fst (call_mint_swap url body)).
Context (refresh_within : ∀ url, within keeps fst (refresh url)).

Lemma execute_close_keeps c : within keeps fst (execute_close_for_closing_channel call_mint_swap refresh c).
Proof.
  unfold execute_close_for_closing_channel. apply within_bind; [exact _|apply within_on_host; [exact _|solve_reads]|].
  intros state. case_bool_decide; [apply within_lift; exact _|].
  apply within_bind; [exact _|apply within_on_host; [exact _|solve_reads]|]. intros cd.
  apply within_bind; [exact _|exact (ensure_cached_within refresh keeps refresh_within c)|]. intros [].
  apply within_bind; [exact _|intros x Hx; exact (proj1 (submit_close_spec call_mint_swap refresh keeps mint_within refresh_within c cd x Hx))|].
  intros s x Hx.
  pose proof (finalize_keeps (krs_value s) (krs_attempt s) x.1 Hx) as Hf. unfold on_host.
  by destruct (finalize_close _ _ x.1).
Qed.
(** The two last steps of both closes, for a transition of a funded channel. *)
Lemma marked_close_keeps t x :
  receiver_inv x.1 → is_Some (v_funding (hview x.1 (pc_channel_id (pt_prepared_close t)))) →
  receiver_inv ((on_host (mark_prepared_close_closing t) ≫= λ _,
    execute_close_for_closing_channel call_mint_swap refresh (pc_channel_id (pt_prepared_close t))) x).2.1.
Proof.
  intros Hinv Hf. unfold on_host, mark_prepared_close_closing, mbind, M_bind.
  pose proof (mark_closing_keeps x.1 _ (pt_expiry_timestamp t) (pt_payment t) Hf Hinv) as Hm.
  destruct (mark_channel_closing x.1 _ _ _) as [[[]|e|] h1]; cbn [map_err fst snd] in *; [|done..].
  by apply (execute_close_keeps (pc_channel_id (pt_prepared_close t)) (h1, x.2) (ri_wf _ Hm)).
Qed.
Lemma unilateral_keeps c x :
  receiver_inv x.1 → receiver_inv (execute_unilateral_close call_mint_swap refresh c x).2.1.
Proof.
  intros Hinv. pose proof (ri_wf _ Hinv) as Hwf. unfold execute_unilateral_close, mbind at 1, M_bind at 1, on_host at 1, mmap_err.
  pose proof (prepare_unilateral_reads c x.1 Hwf) as Hrd.
  destruct (prepare_unilateral_close_transition c x.1) as [[t|e|] h1] eqn:Ht; cbn [map_err fst snd] in *;
    [|by eapply receiver_inv_same..].
  destruct (prepare_unilateral_Ok x.1 c t Hwf (f_equal fst Ht)) as (f & p & Hf & _ & _ & Hc).
  rewrite <-Hc. apply marked_close_keeps; [by eapply receiver_inv_same|]. cbn [fst].
  destruct Hrd as (_ & Hv & _). rewrite Hc, Hv, Hf. by eexists.
Qed.

Context (errors_to_json : list ChannelVerificationError → string).
Context (payment_from_json : string → Result string Payment).
Lemma first_use_keeps {HJ : JsonLaws} json p h :
  receiver_inv h → payment_from_json json = Ok p → is_i63 (pay_balance p) →
  receiver_inv (record_cooperative_close_first_use_funding errors_to_json payment_from_json json h).2.
Proof.
  intros Hinv Hp Hb. pose proof (ri_wf _ Hinv) as Hwf.
  unfold record_cooperative_close_first_use_funding, mbind at 1, M_bind at 1, lift at 1. rewrite Hp. cbn [map_err].
  destruct (pay_channel_id p =? "")%string; [done|]. cbn [orb].
  destruct (String.eqb_spec (pay_signature p) "") as [|Hs]; [done|].
  unfold mbind at 1, M_bind at 1, asks at 1. rewrite hs_state by done. cbn [map_err].
  destruct (v_state (hview h (pay_channel_id p))) as [st|] eqn:Hst; [done|].
  destruct (pay_params p) as [pv|]; [|done]. destruct (pay_funding_proofs p) as [prs|]; [|done].
  assert (v_funding (hview h (pay_channel_id p)) = None) as Hf by (by apply (vo_known _ (hs_view_ok h _ Hwf))).
  unfold mbind at 1, M_bind at 1, asks at 1.
  destruct (validate_new_channel_funding _ h _ pv prs _ _) as [v|e|] eqn:Hv; cbn [map_err]; [|done..].
  destruct (record_new_inv errors_to_json h _ pv prs _ _ v Hinv Hf Hb Hs Hv) as [Hi _]. unfold mmap_err.
  by destruct (record_validated_new_channel v h).
Qed.
Lemma cooperative_keeps {HJ : JsonLaws} json p x :
  receiver_inv x.1 → payment_fields payment_from_json → payment_from_json json = Ok p → is_i63 (pay_balance p) →
  receiver_inv (execute_cooperative_close errors_to_json payment_from_json call_mint_swap refresh json x).2.1.
Proof.
  intros Hinv Hlaw Hp Hb. pose proof (first_use_keeps json p x.1 Hinv Hp Hb) as H0.
  unfold execute_cooperative_close, mbind at 1, M_bind at 1, on_host at 1.
  destruct (record_cooperative_close_first_use_funding _ _ json x.1) as [[[]|e|] h0]; cbn [snd fst] in *; [|done..].
  pose proof (ri_wf _ H0) as Hwf. unfold mbind at 1, M_bind at 1, on_host at 1, mmap_err. cbn [fst snd].
  pose proof (prepare_cooperative_reads payment_from_json json h0 Hwf) as Hrd.
  destruct (prepare_cooperative_close_transition _ json h0) as [[t|e|] h1] eqn:Ht; cbn [map_err fst snd] in *;
    [|by eapply receiver_inv_same..].
  destruct (prepare_cooperative_Ok payment_from_json h0 json t Hwf Hlaw (f_equal fst Ht)) as (p' & f & _ & Hc & _ & Hf & _).
  apply marked_close_keeps; [by eapply receiver_inv_same|]. cbn [fst].
  destruct Hrd as (_ & Hv & _). rewrite Hc, Hv, Hf. by eexists.
Qed.
End keeps.

(** ** The routes *)

Section routes.
Context {T : CashuTypes} {O : CashuOps} {HJ : JsonLaws} {S : Type} {ST : SpilmanStorage S} {SS : StorageSpec S} {W : Type}.
Context (usage_from_json : string → option UsageMap).
Context (errors_to_json : list ChannelVerificationError → string).
Context (payment_from_json : string → Result string Payment).
Context (close_error_to_value : CloseError → Value).
Context (call_mint_swap : string → string → M (ConfigurableHost S * W) MintRequestError string).
Context (refresh : string → M (ConfigurableHost S * W) string unit).
#[local] Instance this_host : SpilmanHost (ConfigurableHost S) string := configurable_host usage_from_json.
#[local] Instance this_spec : HostSpec (ConfigurableHost S) string := configurable_host_spec usage_from_json.
Implicit Types h : ConfigurableHost S.
Implicit Types x : ConfigurableHost S * W.
Context (payment_law : payment_fields payment_from_json).

Lemma match_call_snd {X E F A} (m : M X E A) (f : A → Response) (g : E → Response) (s : X) :
  (match_call (F:=F) m (λ a, lift (Ok (f a))) (λ e, lift (Ok (g e))) s).2 = (m s).2.
Proof. unfold match_call. by destruct (m s) as [[]]. Qed.

Lemma status_reads c h : host_wf h → same h (get_configurable_status_handler usage_from_json c h).2.
Proof.
  intros Hwf. unfold get_configurable_status_handler, get_funding_data.
  pose proof (hs_get_funding h c Hwf) as (_ & Hwf1 & Hv1 & Hd1). cbn [host_get_funding this_host configurable_host] in *.
  destruct (get_funding (storage h) c) as [f s]. cbn [snd] in *. set (h1 := set_storage h s) in *.
  assert (same h h1) as Hs1 by done. destruct f as [f|]; [|done].
  pose proof (hs_amount_due h1 c None Hwf1) as (Hwf2 & Hv2 & Hd2).
  change (get_amount_due (SpilmanHost:=the_host usage_from_json) h1 c None)
    with (get_amount_due (SpilmanHost:=this_host) h1 c None).
  destruct (get_amount_due h1 c None) as [a h2]. cbn [snd] in *. eapply same_trans; [done|]. done.
Qed.

(** The payment that a close request decodes to. *)
Lemma close_payment c body p :
  payment_from_json (json_print (close_body c body)) = Ok p → is_i63 (cq_balance body) →
  pay_channel_id p = c ∧ pay_balance p = cq_balance body ∧ pay_signature p = cq_signature body.
Proof.
  intros Hp Hb. unfold close_body in Hp. set (l := _ ++ _) in Hp.
  assert (NoDup l.*1) as Hnd by (unfold l; destruct (cq_params body), (cq_funding_proofs body); keys_nodup).
  destruct (payment_law _ p (json_obj l) c Hp) as (Hc & Hbal & Hs).
  - apply json_print_inv.
  - by apply idx_str_obj.
  - rewrite (idx_u64_obj l "balance" (cq_balance body)) in Hbal; [|done|unfold is_u64, is_i63 in *; lia|done].
    rewrite (idx_str_obj l "signature" (cq_signature body)) in Hs by done. by split_and!; congruence.
Qed.
Lemma register_payment c sig params proofs p :
  payment_from_json (json_print (json_obj [("channel_id", json_str c); ("balance", json_num 0);
    ("signature", json_str sig); ("params", params); ("funding_proofs", proofs)])) = Ok p → pay_balance p = 0.
Proof.
  intros Hp. set (l := [_; _; _; _; _]) in Hp. assert (NoDup l.*1) as Hnd by keys_nodup.
  destruct (payment_law _ p (json_obj l) c Hp) as (_ & Hb & _); [apply json_print_inv|by apply idx_str_obj|].
  rewrite (idx_u64_obj l "balance" 0) in Hb by done. congruence.
Qed.

Lemma register_keeps body h :
  receiver_inv h → receiver_inv (post_channel_register usage_from_json errors_to_json payment_from_json body h).2.
Proof.
  intros Hinv. unfold post_channel_register.
  destruct (rq_channel_id body) as [c|]; [|done]. destruct (rq_signature body) as [sig|]; [|done].
  destruct (rq_params body) as [params|]; [|done]. destruct (rq_funding_proofs body) as [proofs|]; [|done].
  destruct (negb _); [done|]. unfold respond. rewrite match_call_snd. unfold fund_channel_via_json, mbind, M_bind, lift.
  destruct (payment_from_json _) as [p|e|] eqn:Hp; cbn [map_err]; [|done..].
  apply (fund_channel_spec errors_to_json h); [done|]. rewrite (register_payment _ _ _ _ _ Hp). unfold is_i63. lia.
Qed.

Lemma with_state_eq c (k : option ChannelState → Handler (ConfigurableHost S * W)) x :
  host_wf x.1 → with_state usage_from_json c k x = k (v_state (hview x.1 c)) x.
Proof.
  intros Hwf. unfold with_state, match_call, asks.
  change (get_channel_state (SpilmanHost:=the_host usage_from_json) x.1 c) with (get_channel_state x.1 c).
  by rewrite hs_state by done.
Qed.

(** ** A close is settled once *)

Abbreviation close_route := (post_configurable_channel_close usage_from_json errors_to_json payment_from_json
  close_error_to_value call_mint_swap refresh).
Abbreviation unilateral_route := (post_configurable_unilateral_close usage_from_json close_error_to_value
  call_mint_swap refresh).

(** The answers to close requests for a channel with the record [d]. *)
Definition answered_from_record c (d : ClosedDataView) x : Prop :=
  (∀ body, close_route c body x
     = (Ok (if cq_balance body =? closed_amount d then settled_response c d
            else conflicting_close_response d (cq_balance body)), x)) ∧
  unilateral_route c x
  = (Ok (json_ok (json_obj [("success", json_bool true); ("channel_id", json_str c);
        ("earnedBeforeStage2Fees", json_num (cv_receiver_sum d)); ("already_closed", json_bool true)])), x).
Lemma closed_answers c d x : v_closed (hview x.1 c) = Some d → answered_from_record c d x.
Proof.
  intros Hd. change (host_get_closed_data x.1 c = Some d) in Hd. split.
  - intros body. unfold post_configurable_channel_close. by rewrite Hd.
  - unfold post_configurable_unilateral_close. by rewrite Hd.
Qed.

(** C15: a close is settled once. A request to close a channel that is not closed is answered
    with an error, or it asked for exactly the amount due and the channel is closed with the
    settlement that the answer reports; from then on, whatever happens to other channels,
    every further request to close it is answered from that record, with the same sums and
    the same proofs for the sender, or as a conflict if it names another amount, and changes
    nothing. *)
Theorem close_settles_once c body x r x' :
  receiver_inv x.1 → is_i63 (cq_balance body) →
  (∀ url body, within grows fst (call_mint_swap url body)) → (∀ url, within grows fst (refresh url)) →
  v_closed (hview x.1 c) = None → close_route c body x = (Ok r, x') →
  (∃ e, r = mk_Response (status_or (status_code e) 400) (close_error_to_value e)) ∨
  ∃ s d, r = closed_response s ∧
    cq_balance body = match v_funding (hview x.1 c) with Some _ => due x.1 c None | None => 0 end ∧
    closed_amount d = cq_balance body ∧ cs_channel_id s = c ∧ cs_receiver_sum s = cv_receiver_sum d ∧
    cs_sender_sum s = cv_sender_sum d ∧ cs_total_value s = value_after_stage1 d ∧
    cs_sender_proofs s = cv_sender_proofs_json d ∧
    ∀ y, grows x'.1 y.1 → answered_from_record c d y.
Proof.
  intros Hinv Hb Hm Hr Hopen. unfold post_configurable_channel_close.
  change (host_get_closed_data x.1 c = None) in Hopen. rewrite Hopen. change (v_closed (hview x.1 c) = None) in Hopen.
  unfold post_channel_close. rewrite with_state_eq by apply Hinv. rewrite bool_decide_eq_false_2; cycle 1.
  { intros Hc. apply (vo_closed _ (hs_view_ok x.1 c (ri_wf _ Hinv))) in Hc as [d Hd]. congruence. }
  unfold match_call. set (json := json_print (close_body c body)).
  destruct (execute_cooperative_close _ _ _ _ json x) as [[s|e|] x1] eqn:Hex; [..|done]; intros [= <- <-]; [right|by left; exists e].
  assert (∃ p, payment_from_json json = Ok p) as [p Hp].
  { revert Hex. unfold execute_cooperative_close, record_cooperative_close_first_use_funding, mbind, M_bind, on_host, lift.
    destruct (payment_from_json json) as [p|e|]; [by eauto|done..]. }
  destruct (close_payment c body p Hp Hb) as (Hc & Hbal & _).
  destruct (cooperative_close_Ok call_mint_swap refresh payment_from_json errors_to_json json p x s x1 Hinv payment_law Hp
    ltac:(by rewrite Hbal) Hm Hr Hex) as (Hdue & f & q & d & _ & Hcl & _). rewrite Hc, Hbal in *.
  destruct (cl_summary _ _ _ _ _ _ Hcl) as (Hs1 & Hs2 & Hs3 & Hs4 & Hs5). exists s, d.
  split_and!; try done; [exact (cl_balance _ _ _ _ _ _ Hcl)|].
  intros y (_ & _ & Hg). apply closed_answers. exact (ev_closed _ _ (Hg c) d (cl_record _ _ _ _ _ _ Hcl)).
Qed.

(** ** The invariant *)

Context (mint_within : ∀ url body, within keeps fst (call_mint_swap url body)).
Context (refresh_within : ∀ url, within keeps fst (refresh url)).

Lemma close_keeps c body x :
  receiver_inv x.1 → is_i63 (cq_balance body) →
  receiver_inv (post_configurable_channel_close usage_from_json errors_to_json payment_from_json close_error_to_value
    call_mint_swap refresh c body x).2.1.
Proof.
  intros Hinv Hb. unfold post_configurable_channel_close. destruct (host_get_closed_data x.1 c); [done|].
  unfold post_channel_close. rewrite with_state_eq by apply Hinv. case_bool_decide; [done|]. unfold respond. rewrite match_call_snd.
  destruct (payment_from_json (json_print (close_body c body))) as [p|e|] eqn:Hp.
  - eapply (cooperative_keeps call_mint_swap refresh mint_within refresh_within errors_to_json payment_from_json _ p x); try done.
    by destruct (close_payment c body p Hp Hb) as (_ & -> & _).
  - unfold execute_cooperative_close, record_cooperative_close_first_use_funding, mbind, M_bind, on_host, lift. by rewrite Hp.
  - unfold execute_cooperative_close, record_cooperative_close_first_use_funding, mbind, M_bind, on_host, lift. by rewrite Hp.
Qed.
Lemma unilateral_route_keeps c x :
  receiver_inv x.1 →
  receiver_inv (post_configurable_unilateral_close usage_from_json close_error_to_value call_mint_swap refresh c x).2.1.
Proof.
  intros Hinv. unfold post_configurable_unilateral_close. destruct (host_get_closed_data x.1 c); [done|].
  unfold post_unilateral_close. rewrite with_state_eq by apply Hinv. case_bool_decide; [done|]. unfold respond. rewrite match_call_snd.
  exact (unilateral_keeps call_mint_swap refresh mint_within refresh_within c x Hinv).
Qed.

(** Requests to the server: payments and validations of the application, and the management
    routes. *)
Inductive ServerRequest :=
| ToBridge (call : BridgeCall (C:=string))
| ToManagement (route : Route).
Definition router : Route → Handler (ConfigurableHost S * W) :=
  configurable_management_router usage_from_json errors_to_json payment_from_json close_error_to_value call_mint_swap refresh.
Definition serve_request x (r : ServerRequest) : ConfigurableHost S * W :=
  match r with
  | ToBridge call => (serve errors_to_json x.1 call, x.2)
  | ToManagement route => (router route x).2
  end.
Definition request_ok x (r : ServerRequest) : Prop :=
  match r with
  | ToBridge call => call_ok x.1 call
  | ToManagement (RouteClose _ body) => is_i63 (cq_balance body)
  | ToManagement _ => True
  end.
Fixpoint serve_requests x (l : list ServerRequest) : ConfigurableHost S * W :=
  match l with [] => x | r :: l => serve_requests (serve_request x r) l end.
Fixpoint requests_ok x (l : list ServerRequest) : Prop :=
  match l with [] => True | r :: l => request_ok x r ∧ requests_ok (serve_request x r) l end.

Lemma request_keeps x r : receiver_inv x.1 → request_ok x r → receiver_inv (serve_request x r).1.
Proof.
  intros Hinv Hok. destruct r as [call|[|body|c|c body|c]]; cbn [serve_request router configurable_management_router fst].
  - by apply serve_inv.
  - done.
  - unfold on_host_handler. pose proof (register_keeps body x.1 Hinv) as Hr.
    by destruct (post_channel_register _ _ _ body x.1).
  - unfold on_host_handler. pose proof (status_reads c x.1 (ri_wf _ Hinv)) as Hs.
    destruct (get_configurable_status_handler _ c x.1). by eapply receiver_inv_same.
  - by apply close_keeps.
  - by apply unilateral_route_keeps.
Qed.

(** C1: the receiver stays covered whatever requests its server gets. From a host without
    channels, after any sequence of payments, registrations, status queries, cooperative and
    unilateral closes, honest or not, with a mint and network that may answer anything, every
    open channel has a stored payment that its sender signed, within its capacity, that covers
    everything the channel has used. *)
Theorem server_keeps_receiver_covered x (l : list ServerRequest) :
  host_wf x.1 → (∀ c, hview x.1 c = no_channel) → requests_ok x l →
  let x' := serve_requests x l in
  ∀ c, v_state (hview x'.1 c) = Some Open →
  ∃ f p capacity,
    v_funding (hview x'.1 c) = Some f ∧ v_payment (hview x'.1 c) = Some p ∧
    authorized f (pp_balance p) (pp_signature p) ∧
    stored_capacity (params_json f) = Ok capacity ∧
    due x'.1 c None <= pp_balance p <= capacity.
Proof.
  intros Hwf Hv Hok x' c. apply receiver_inv_open. subst x'.
  assert (receiver_inv x.1) as Hi by (by apply receiver_inv_init). clear Hwf Hv.
  revert x Hok Hi. induction l as [|r l IH]; intros x Hok Hi; [done|].
  destruct Hok as [Hok Hl]. cbn [serve_requests]. apply IH; [done|]. by apply request_keeps.
Qed.
End routes.
