(* ===== verification/ServerExamples.v ===== *)
(** * The receiver's server on concrete inputs

    The host of [Bridge.Examples] behind its management routes, at a mint that is reached
    over HTTP: the theorems of [NetworkingProofs.v] and [ManagementProofs.v] at inputs where
    their hypotheses hold. *)

From S2P Require Import Prelude Cashu Toy Amounts Params SwapCompletion Deterministic Channel Mint Storage StorageSpec StorageMemory Host Bridge Close CloseProofs Funding FundingProofs Networking NetworkingProofs Management ManagementProofs.

#[local] Existing Instance Toy.types.
#[local] Existing Instance Toy.ops.
#[local] Existing Instance Toy.json_laws.
#[local] Existing Instance Toy.encoding_laws.
Import Bridge.Examples Channel.Examples CloseProofs.Examples.
#[local] Existing Instance toy_host.
#[local] Existing Instance toy_host_spec.

(** ** HTTP *)

(** A mint with one keyset, whose answers arrive in two chunks. *)
Definition listing_text : string :=
  json_print (json_obj [("keysets", json_arr [json_obj [("id", json_str (keyset_id keyset : string));
    ("unit", json_str "sat"); ("active", json_bool true); ("input_fee_ppk", json_num 100)]])]).
Definition keys_text : string :=
  json_print (json_obj [("keysets", json_arr [json_obj [("id", json_str (keyset_id keyset : string));
    ("unit", json_str "sat"); ("keys", keys_value)]])]).
Definition page (status : Z) (text : string) : HttpResponse :=
  let b := bytes_of_string text in mk_HttpResponse status None [Ok (take 10 b); Ok (drop 10 b)].
#[local] Instance toy_http : HttpClient unit := {|
  http_send q n :=
    (if bool_decide (hq_url q = "http://mint/v1/keysets") then Ok (page 200 listing_text)
     else if bool_decide (hq_url q = "http://mint/v1/keys/" +:+ (keyset_id keyset : string)) then Ok (page 200 keys_text)
     else if bool_decide (hq_url q = "http://mint/v1/swap") then Ok (page 400 "inactive")
     else Err "connection refused", n);
|}.
Definition nut00 (text : string) : option (Z * string) :=
  if bool_decide (text = "inactive") then Some (12002, text) else None.

(** A rejection that names the keyset, one that breaks off after the first chunk, and one
    whose text is not UTF-8. *)
Example rejection_permits_retry :
  match (mint_request nut00 "Swap request failed" (mk_HttpRequest POST "http://mint/v1/swap" "" None) tt).1 with
  | Err e => permits_keyset_retry e | _ => false end = true.
Proof. vm_compute. reflexivity. Qed.
Example broken_rejection :
  read_body (mk_HttpResponse 400 None [Ok (bytes_of_string "inactive"); Err "connection reset"])
  = Err "connection reset".
Proof. vm_compute. reflexivity. Qed.
Example malformed_rejection :
  read_body (mk_HttpResponse 400 None [Ok (bytes_of_string "inactive" ++ [195; 40])])
  = Err "mint response is not valid UTF-8".
Proof. vm_compute. reflexivity. Qed.
Example utf8_forms :
  utf8_valid [195; 188; 226; 130; 172; 240; 159; 166; 128] = true ∧
  utf8_valid [192; 128] = false ∧ utf8_valid [237; 160; 128] = false ∧ utf8_valid [244; 144; 128; 128] = false.
Proof. vm_compute. auto. Qed.

(** ** Keysets *)

(** The host before it has seen a keyset, and after a refresh. *)
Definition fresh : ConfigurableHost MemoryStorage :=
  mk_ConfigurableHost cfg (8 : PublicKey) (Toy.print_countable (8 : Z)) MemoryStorage_new 1000 (λ m t, bytes_of_string m).
Lemma fresh_wf : host_wf (HostSpec:=NetworkingProofs.this_spec usage_of) fresh.
Proof. assert (st_wf MemoryStorage_new) as Hwf by exact mem_new_wf. exact Hwf. Qed.
Abbreviation refreshed := (fetch_and_cache_keysets Mint.Examples.meta "http://mint" (fresh, tt)).
Example refreshed_ok : refreshed.1 = Ok tt.
Proof. vm_compute. reflexivity. Qed.
Example initialized : (initialize_keysets Mint.Examples.meta (fresh, tt)).1 = Ok tt.
Proof. vm_compute. reflexivity. Qed.
Lemma listed_once d :
  (fetch_all_keysets_from_mint Mint.Examples.meta "http://mint" tt).1 = Ok d → NoDup (mk_id <$> md_keysets d).
Proof.
  assert (match (fetch_all_keysets_from_mint Mint.Examples.meta "http://mint" tt).1 with
          | Ok d => bool_decide (NoDup (mk_id <$> md_keysets d)) | _ => false end = true) as Hb
    by (vm_compute; reflexivity).
  intros Hd. rewrite Hd in Hb. by apply bool_decide_eq_true_1 in Hb.
Qed.
Lemma fresh_cache : get_keyset (storage fresh) "http://mint" (keyset_id keyset) = None.
Proof. vm_compute. reflexivity. Qed.
Lemma refresh_is_authentic_witness :
  ∃ e, get_keyset (storage refreshed.2.1) "http://mint" (keyset_id keyset) = Some e ∧
    authentic (keyset_id keyset) (info_json e) (ks_unit e).
Proof.
  assert (match get_keyset (storage refreshed.2.1) "http://mint" (keyset_id keyset) with
          | Some _ => true | None => false end = true) as Hb by (vm_compute; reflexivity).
  destruct (get_keyset (storage refreshed.2.1) "http://mint" (keyset_id keyset)) as [e|] eqn:He; [|discriminate Hb].
  exists e. split; [reflexivity|]. clear Hb.
  destruct refreshed as [r [h' n']] eqn:Hr. cbn [fst snd] in He.
  destruct (refresh_is_authentic Mint.Examples.meta usage_of "http://mint" fresh tt r h' n' fresh_wf Hr)
    as (_ & _ & Ha).
  destruct (Ha _ _ _ He) as [Hold|[_ Hnew]]; [|exact (Hnew listed_once)].
  rewrite fresh_cache in Hold. discriminate Hold.
Defined.
Lemma reqwest_networking_is_quiet_witness :
  hview (reqwest_refresh Mint.Examples.meta "http://mint" (host "sat", tt)).2.1 cid = hview (host "sat") cid.
Proof.
  pose proof (reqwest_networking_is_quiet Mint.Examples.meta usage_of nut00 quiet) as [_ Hr].
  exact (proj2 (Hr "http://mint" (host "sat", tt) host_wf0) cid).
Defined.

(** ** Routes *)

Definition no_details (e : CloseError) : Value := json_null.
Definition close_request : CloseRequest := mk_CloseRequest 2 sig2 None None.
Abbreviation settled := (post_configurable_channel_close usage_of show_errors payment_of no_details honest_mint no_refresh
  cid close_request (paid.2, tt)).

Example settled_ok : match settled.1 with Ok r => rp_status r | _ => 0 end = 200.
Proof. vm_compute. reflexivity. Qed.
Lemma settled_inv : receiver_inv settled.2.1.
Proof.
  exact (close_keeps usage_of show_errors payment_of no_details honest_mint no_refresh payment_of_fields
    (λ _ _, unchanged_within _ _) (λ _, unchanged_within _ _) cid close_request (paid.2, tt) paid_inv
    ltac:(split; [discriminate|reflexivity])).
Qed.
Lemma close_settles_once_witness :
  ∃ d, closed_amount d = 2 ∧
    answered_from_record usage_of show_errors payment_of no_details honest_mint no_refresh cid d settled.2.
Proof.
  assert (match settled.1 with Ok r => bool_decide (rp_body r ≠ json_null) | _ => false end = true) as Hb
    by (vm_compute; reflexivity).
  assert (bool_decide (v_closed (hview paid.2 cid) = None) = true) as Hopen by (vm_compute; reflexivity).
  apply bool_decide_eq_true_1 in Hopen.
  destruct settled as [[r|e|] x'] eqn:Hr; [|discriminate Hb..].
  destruct (close_settles_once usage_of show_errors payment_of no_details honest_mint no_refresh payment_of_fields
    cid close_request (paid.2, tt) r x' paid_inv ltac:(split; [discriminate|reflexivity])
    (λ _ _, unchanged_within _ _) (λ _, unchanged_within _ _) Hopen Hr)
    as [(e & ->)|(s & d & _ & _ & Hd & _ & _ & _ & _ & _ & Ha)].
  - cbn [fst rp_body no_details] in Hb. discriminate Hb.
  - exists d. split; [exact Hd|]. apply Ha. pose proof (ri_wf _ settled_inv) as Hwf. rewrite Hr in Hwf.
    exact (ho_same x'.1 x'.1 Hwf (same_refl x'.1 Hwf)).
Defined.

(** The channel is funded and pays for a request; its status is read; a close at the wrong
    amount is refused and the channel stays open. *)
Definition requests : list ServerRequest :=
  [ToBridge (CallFund cid 0 sig0 (Some pv) (Some proofs)); ToBridge (CallPayment cid 10 sig10 None None "req");
   ToManagement (RouteStatus cid); ToManagement (RouteClose cid (mk_CloseRequest 10 sig10 None None))].
Abbreviation served := (serve_requests usage_of show_errors payment_of no_details honest_mint no_refresh (host "sat", tt) requests).
Lemma requests_are_ok :
  requests_ok usage_of show_errors payment_of no_details honest_mint no_refresh (host "sat", tt) requests.
Proof.
  split; [unfold request_ok, call_ok, is_i63; lia|].
  split; [|split; [exact I|split; [unfold request_ok, is_i63; cbn [cq_balance]; lia|exact I]]].
  split; [unfold is_i63; lia|]. exact funded_context_ok.
Qed.
Lemma server_keeps_receiver_covered_witness :
  ∃ f p capacity,
    v_funding (hview served.1 cid) = Some f ∧ v_payment (hview served.1 cid) = Some p ∧
    authorized f (pp_balance p) (pp_signature p) ∧
    stored_capacity (params_json f) = Ok capacity ∧
    due served.1 cid None <= pp_balance p <= capacity.
Proof.
  assert (bool_decide (v_state (hview served.1 cid) = Some Open) = true) as Ho by (vm_compute; reflexivity).
  apply bool_decide_eq_true_1 in Ho.
  exact (server_keeps_receiver_covered usage_of show_errors payment_of no_details honest_mint no_refresh payment_of_fields
    (λ _ _, unchanged_within _ _) (λ _, unchanged_within _ _) (host "sat", tt) requests host_wf0 host_empty
    requests_are_ok cid Ho).
Defined.
