(* ===== verification/Foreign.v ===== *)
(** * Receivers written in other languages

    ([crates/cdk-spilman-python], [crates/cdk-wasm] and [crates/cdk-spilman-go], the
    implementations of [SpilmanHost].)

    An application that is not written in Rust gives the bridge a host by callbacks: a Python
    object, a JavaScript object, a table of C functions. Each binding turns the callbacks into
    the methods of [SpilmanHost], and decides what a callback that fails means. The objects,
    the conversions of the language runtimes and the callbacks are classes over the state [G]
    of the application. As everywhere, a query of the trait does not change the state. *)

From Stdlib Require Import Floats.SpecFloat.
From S2P Require Import Prelude Cashu Toy Amounts Params Deterministic Channel Mint Storage StorageSpec Host Close ClientStorage Networking.

(** ** Python ([PySpilmanHost]) *)

(** PyO3: conversions of arguments and results, [PyErr]. *)
Class PyRuntime := {
  PyObj : Type;
  PyErr : Type;
  py_of_str : string → PyObj;
  py_of_int : Z → PyObj;
  py_of_opt_str : option string → PyObj;
  py_is_none : PyObj → bool;
  extract_bool : PyObj → PyErr + bool;
  extract_u64 : PyObj → PyErr + Z;
  extract_str : PyObj → PyErr + string;
  extract_opt_str : PyObj → PyErr + option string;
  extract_strs : PyObj → PyErr + list string;
  extract_policy : PyObj → PyErr + (Z * Z * option Z);
  cast_tuple : PyObj → option (list PyObj);
  py_getattr : PyObj → string → PyErr + PyObj;
  py_getitem : PyObj → string → PyErr + PyObj;
  pyerr_to_string : PyErr → string;
  (** [str(err.value)] *)
  pyerr_value_str : PyErr → PyErr + string;
}.
(** [call_method1] on the object of the application. *)
Class PyObject (G : Type) `{!PyRuntime} := {
  py_query : G → string → list PyObj → PyErr + PyObj;
  py_call : G → string → list PyObj → (PyErr + PyObj) * G;
  py_has_attr : G → string → bool;
}.

Definition sum_ok {E A} (r : E + A) : option A := match r with inr a => Some a | inl _ => None end.
Definition sum_or {E A} (d : A) (r : E + A) : A := match r with inr a => a | inl _ => d end.
Definition sum_bind {E A B} (r : E + A) (f : A → E + B) : E + B :=
  match r with inr a => f a | inl e => inl e end.
Definition sum_result {E A} (show : E → string) (r : E + A) : Result string A :=
  match r with inr a => Ok a | inl e => Err (show e) end.

Section python.
Context {T : CashuTypes} {O : CashuOps} `{PY : PyRuntime} {G : Type} {PG : PyObject G}.
Implicit Types g : G.

Definition py_get_active_keyset_ids g (mint : string) (unit : CurrencyUnit) : list Id :=
  match py_query g "get_active_keyset_ids" [py_of_str mint; py_of_str (unit_to_string unit)] with
  | inr result =>
      match extract_strs result with
      | inr l => omap parse_id l
      | inl _ => []
      end
  | inl _ => []
  end.
Definition py_has_keysets_for_unit g (mint : string) (unit : CurrencyUnit) : bool :=
  negb (bool_decide (py_get_active_keyset_ids g mint unit = [])).
Definition py_get_keyset_info g (mint : string) (keyset_id : Id) : option string :=
  match py_query g "get_keyset_info" [py_of_str mint; py_of_str (id_to_string keyset_id)] with
  | inr result => if py_is_none result then None else sum_ok (extract_str result)
  | inl _ => None
  end.
Definition py_receiver_key_is_acceptable g (receiver_pubkey : PublicKey) : bool :=
  match py_query g "receiver_key_is_acceptable" [py_of_str (pubkey_to_hex receiver_pubkey)] with
  | inr result => sum_or false (extract_bool result)
  | inl _ => false
  end.
Definition py_mint_and_keyset_is_acceptable g (mint : string) (keyset_id : Id) : bool :=
  match py_query g "mint_and_keyset_is_acceptable" [py_of_str mint; py_of_str (id_to_string keyset_id)] with
  | inr result => sum_or false (extract_bool result)
  | inl _ => false
  end.
Definition py_funding_tuple (result : PyObj) : option ChannelFunding :=
  if py_is_none result then None
  else
    tuple ← cast_tuple result;
    match tuple with
    | [p; pr; s; k] =>
        params_json ← sum_ok (extract_str p);
        funding_proofs_json ← sum_ok (extract_str pr);
        channel_secret_hex ← sum_ok (extract_str s);
        keyset_info_json ← sum_ok (extract_str k);
        Some (mk_ChannelFunding params_json funding_proofs_json channel_secret_hex keyset_info_json)
    | _ => None
    end.
Definition py_get_funding g (channel_id : string) : option ChannelFunding * G :=
  let '(r, g') := py_call g "get_funding_and_params" [py_of_str channel_id] in
  (sum_ok r ≫= py_funding_tuple, g').
Definition py_save_funding g (channel_id : string) (f : ChannelFunding) (initial_payment : PaymentProof) : G :=
  (py_call g "save_funding"
     [py_of_str channel_id; py_of_str (params_json f); py_of_str (funding_proofs_json f);
      py_of_str (channel_secret_hex f); py_of_str (keyset_info_json f);
      py_of_int (pp_balance initial_payment); py_of_str (pp_signature initial_payment)]).2.
Definition py_get_amount_due g (channel_id : string) (context_json : option string) : Z * G :=
  let '(r, g') := py_call g "get_amount_due" [py_of_str channel_id; py_of_opt_str context_json] in
  (sum_or 0 (sum_bind r extract_u64), g').
Definition py_record_payment g (channel_id : string) (payment : PaymentProof) (context_json : string) : G :=
  (py_call g "record_payment"
     [py_of_str channel_id; py_of_int (pp_balance payment); py_of_str (pp_signature payment);
      py_of_str context_json]).2.
Definition py_get_channel_state g (channel_id : string) : Result string (option ChannelState) :=
  match py_query g "get_channel_state" [py_of_str channel_id] with
  | inl _ => Err "get_channel_state callback failed"
  | inr result =>
      match extract_opt_str result with
      | inl _ => Err "invalid get_channel_state return type"
      | inr state => from_host_value state
      end
  end.
(** A command that raises has failed. *)
Definition py_command g (method : string) (args : list PyObj) : Result string unit * G :=
  let '(r, g') := py_call g method args in
  (match r with inr _ => Ok tt | inl e => Err (pyerr_to_string e) end, g').
Definition py_mark_channel_closing g (channel_id : string) (expiry_timestamp : Z) (payment : PaymentProof) :
    Result string unit * G :=
  py_command g "mark_channel_closing"
    [py_of_str channel_id; py_of_int expiry_timestamp; py_of_int (pp_balance payment); py_of_str (pp_signature payment)].
(** An attribute, or else an item. *)
Definition py_field (o : PyObj) (name : string) : PyErr + PyObj :=
  match py_getattr o name with inr v => inr v | inl _ => py_getitem o name end.
Definition py_closing_dict (result : PyObj) : option ClosingData :=
  if py_is_none result then None
  else
    expiry_timestamp ← sum_ok (sum_bind (py_field result "expiry_timestamp") extract_u64);
    balance ← sum_ok (sum_bind (py_field result "balance") extract_u64);
    signature ← sum_ok (sum_bind (py_field result "signature") extract_str);
    Some (mk_ClosingData expiry_timestamp balance signature).
Definition py_get_closing_data g (channel_id : string) : option ClosingData :=
  sum_ok (py_query g "get_closing_data" [py_of_str channel_id]) ≫= py_closing_dict.
Definition py_get_channel_policy g (unit : string) : option ChannelPolicy :=
  result ← sum_ok (py_query g "get_channel_policy" [py_of_str unit]);
  if py_is_none result then None
  else
    '(min_expiry, min_capacity, max_amount) ← sum_ok (extract_policy result);
    Some (mk_ChannelPolicy min_expiry min_capacity max_amount).
Definition py_now_seconds g : Z :=
  sum_or 0 (sum_bind (py_query g "now_seconds" []) extract_u64).
Definition py_payment_tuple (result : PyObj) : option PaymentProof :=
  if py_is_none result then None
  else
    tuple ← cast_tuple result;
    match tuple with
    | [b; s] =>
        balance ← sum_ok (extract_u64 b);
        signature ← sum_ok (extract_str s);
        Some (mk_PaymentProof balance signature)
    | _ => None
    end.
Definition py_get_balance_and_signature_for_unilateral_exit g (channel_id : string) : option PaymentProof :=
  sum_ok (py_query g "get_balance_and_signature_for_unilateral_exit" [py_of_str channel_id]) ≫= py_payment_tuple.
Definition py_mark_channel_closed g (channel_id : string) (expiry_timestamp balance : Z)
    (receiver_proofs_json sender_proofs_json : string) (receiver_sum sender_sum : Z) : Result string unit * G :=
  py_command g "mark_channel_closed"
    [py_of_str channel_id; py_of_int expiry_timestamp; py_of_int balance; py_of_str receiver_proofs_json;
     py_of_str sender_proofs_json; py_of_int receiver_sum; py_of_int sender_sum].
(** A query whose answer is a text. *)
Definition py_text g (method : string) (args : list PyObj) : Result string string :=
  sum_result pyerr_to_string (sum_bind (py_query g method args) extract_str).
Definition py_compute_channel_secret g (receiver_pubkey_hex sender_pubkey_hex : string) : Result string string :=
  py_text g "compute_channel_secret" [py_of_str receiver_pubkey_hex; py_of_str sender_pubkey_hex].
Definition py_sign_with_tweaked_key g (signer_pubkey_hex message_hex tweak_scalar_hex : string) :
    Result string string :=
  py_text g "sign_with_tweaked_key" [py_of_str signer_pubkey_hex; py_of_str message_hex; py_of_str tweak_scalar_hex].

#[export] Instance python_host : SpilmanHost G string := {|
  receiver_key_is_acceptable := py_receiver_key_is_acceptable;
  mint_and_keyset_is_acceptable := py_mint_and_keyset_is_acceptable;
  host_get_funding := py_get_funding;
  host_save_funding := py_save_funding;
  get_amount_due := py_get_amount_due;
  record_payment := py_record_payment;
  get_channel_state := py_get_channel_state;
  mark_channel_closing := py_mark_channel_closing;
  host_get_closing_data := py_get_closing_data;
  get_channel_policy := py_get_channel_policy;
  now_seconds := py_now_seconds;
  get_balance_and_signature_for_unilateral_exit := py_get_balance_and_signature_for_unilateral_exit;
  host_get_active_keyset_ids := py_get_active_keyset_ids;
  has_keysets_for_unit := py_has_keysets_for_unit;
  get_keyset_info := py_get_keyset_info;
  mark_channel_closed := py_mark_channel_closed;
  host_compute_channel_secret := py_compute_channel_secret;
  sign_with_tweaked_key := py_sign_with_tweaked_key;
|}.

(** The same object reaches the mint. *)
Context (response_from_json : string → option MintResponse).
Context (nut00_from_json : string → option (Z * string)).
Definition python_error_message (e : PyErr) : string := sum_or (pyerr_to_string e) (pyerr_value_str e).
Definition py_call_mint_swap (mint_url swap_request_json : string) : M (G * unit) MintRequestError string := λ x,
  let '(r, g) := py_call x.1 "call_mint_swap" [py_of_str mint_url; py_of_str swap_request_json] in
  (from_callback response_from_json nut00_from_json
     match r with
     | inr result => sum_result pyerr_to_string (extract_str result)
     | inl e => Err (python_error_message e)
     end, (g, x.2)).
Definition py_refresh (mint : string) : M (G * unit) string unit := λ x,
  if negb (py_has_attr x.1 "refresh_all_keysets") then (Err "refresh_all_keysets not implemented", x)
  else let '(r, g) := py_command x.1 "refresh_all_keysets" [py_of_str mint] in (r, (g, x.2)).
End python.

(** ** JavaScript ([WasmSpilmanHostProxy]) *)

(** [JsValue] and the reflection of [js_sys]. *)
Class JsRuntime := {
  JsValue : Type;
  js_of_str : string → JsValue;
  JS_NULL : JsValue;
  is_null : JsValue → bool;
  is_undefined : JsValue → bool;
  as_string : JsValue → option string;
  (** the value of a [Number]; a [BigInt] has none *)
  as_f64 : JsValue → option spec_float;
  array_from : JsValue → list JsValue;
  object_try_from : JsValue → option JsValue;
  reflect_get : JsValue → string → option JsValue;
  (** [{:?}] *)
  js_debug : JsValue → string;
}.
(** The imported methods; one that is declared with [catch] returns what was thrown. The
    promises of the last two are awaited. *)
Class JsObject (G : Type) `{!JsRuntime} := {
  js_get_funding_and_params : G → string → JsValue * G;
  js_receiver_key_is_acceptable : G → string → bool;
  js_mint_and_keyset_is_acceptable : G → string → string → bool;
  js_save_funding : G → string → string → string → string → string → Z → string → G;
  js_get_amount_due : G → string → JsValue → Z * G;
  js_record_payment : G → string → Z → string → string → G;
  js_get_channel_state : G → string → JsValue + JsValue;
  js_mark_channel_closing : G → string → Z → Z → string → (JsValue + unit) * G;
  js_get_closing_data : G → string → JsValue;
  js_get_channel_policy : G → string → JsValue;
  js_now_seconds : G → Z;
  js_get_balance_and_signature_for_unilateral_exit : G → string → JsValue;
  js_get_active_keyset_ids : G → string → string → JsValue;
  js_get_keyset_info : G → string → string → JsValue;
  js_mark_channel_closed : G → string → Z → Z → string → string → Z → Z → (JsValue + unit) * G;
  js_compute_channel_secret_host : G → string → string → JsValue + string;
  js_sign_with_tweaked_key_host : G → string → string → string → JsValue + string;
  js_call_mint_swap : G → string → string → (JsValue + JsValue) * G;
  js_refresh_all_keysets : G → string → (JsValue + JsValue) * G;
}.

(** The Rust cast [x as u64] of a 64-bit float: towards zero, and saturating. *)
Definition f64_as_u64 (x : spec_float) : Z :=
  match x with
  | S754_zero _ | S754_nan | S754_infinity true => 0
  | S754_infinity false => u64_max
  | S754_finite true _ _ => 0
  | S754_finite false m e =>
      Z.min u64_max (if 0 <=? e then Z.pos m * 2 ^ e else Z.pos m / 2 ^ (- e))
  end.

Section wasm.
Context {T : CashuTypes} {O : CashuOps} `{JS : JsRuntime} {G : Type} {JG : JsObject G}.
Implicit Types g : G.

Definition js_error_to_string (e : JsValue) : string := default (js_debug e) (as_string e).
Definition js_absent (v : JsValue) : bool := is_null v || is_undefined v.
Definition js_funding_array (val : JsValue) : option ChannelFunding :=
  if js_absent val then None
  else
    match array_from val with
    | [p; pr; s; k] =>
        params_json ← as_string p;
        funding_proofs_json ← as_string pr;
        channel_secret_hex ← as_string s;
        keyset_info_json ← as_string k;
        Some (mk_ChannelFunding params_json funding_proofs_json channel_secret_hex keyset_info_json)
    | _ => None
    end.
Definition wasm_get_funding g (channel_id : string) : option ChannelFunding * G :=
  let '(val, g') := js_get_funding_and_params g channel_id in (js_funding_array val, g').
Definition wasm_save_funding g (channel_id : string) (f : ChannelFunding) (initial_payment : PaymentProof) : G :=
  js_save_funding g channel_id (params_json f) (funding_proofs_json f) (channel_secret_hex f) (keyset_info_json f)
    (pp_balance initial_payment) (pp_signature initial_payment).
Definition wasm_get_amount_due g (channel_id : string) (context_json : option string) : Z * G :=
  js_get_amount_due g channel_id match context_json with Some s => js_of_str s | None => JS_NULL end.
Definition wasm_get_channel_state g (channel_id : string) : Result string (option ChannelState) :=
  match js_get_channel_state g channel_id with
  | inl _ => Err "getChannelState callback failed"
  | inr value =>
      if is_null value then Ok None
      else
        state ← ok_or "invalid getChannelState return type" (as_string value);
        from_host_value (Some state)
  end.
Definition js_command (m : (JsValue + unit) * G) : Result string unit * G :=
  let '(r, g') := m in (sum_result js_error_to_string r, g').
Definition wasm_mark_channel_closing g (channel_id : string) (expiry_timestamp : Z) (payment : PaymentProof) :
    Result string unit * G :=
  js_command (js_mark_channel_closing g channel_id expiry_timestamp (pp_balance payment) (pp_signature payment)).
(** [Reflect::get(..).ok()?.as_f64()? as u64]. *)
Definition js_u64 (obj : JsValue) (name : string) : option Z := f64_as_u64 <$> (reflect_get obj name ≫= as_f64).
Definition js_closing_object (val : JsValue) : option ClosingData :=
  if js_absent val then None
  else
    obj ← object_try_from val;
    expiry_timestamp ← js_u64 obj "expiry_timestamp";
    balance ← js_u64 obj "balance";
    signature ← reflect_get obj "signature" ≫= as_string;
    Some (mk_ClosingData expiry_timestamp balance signature).
Definition wasm_get_closing_data g (channel_id : string) : option ClosingData :=
  js_closing_object (js_get_closing_data g channel_id).
Definition js_policy_object (val : JsValue) : option ChannelPolicy :=
  if js_absent val then None
  else
    obj ← object_try_from val;
    min_expiry_in_seconds ← js_u64 obj "min_expiry_in_seconds";
    min_capacity ← js_u64 obj "min_capacity";
    Some (mk_ChannelPolicy min_expiry_in_seconds min_capacity (js_u64 obj "max_amount_per_output")).
Definition wasm_get_channel_policy g (unit : string) : option ChannelPolicy :=
  js_policy_object (js_get_channel_policy g unit).
Definition js_payment_array (val : JsValue) : option PaymentProof :=
  if js_absent val then None
  else
    match array_from val with
    | [b; s] =>
        balance ← as_f64 b;
        signature ← as_string s;
        Some (mk_PaymentProof (f64_as_u64 balance) signature)
    | _ => None
    end.
Definition wasm_get_balance_and_signature_for_unilateral_exit g (channel_id : string) : option PaymentProof :=
  js_payment_array (js_get_balance_and_signature_for_unilateral_exit g channel_id).
Definition wasm_get_active_keyset_ids g (mint : string) (unit : CurrencyUnit) : list Id :=
  omap (λ v, as_string v ≫= parse_id) (array_from (js_get_active_keyset_ids g mint (unit_to_string unit))).
Definition wasm_has_keysets_for_unit g (mint : string) (unit : CurrencyUnit) : bool :=
  negb (bool_decide (wasm_get_active_keyset_ids g mint unit = [])).
Definition wasm_mark_channel_closed g (channel_id : string) (expiry_timestamp balance : Z)
    (receiver_proofs_json sender_proofs_json : string) (receiver_sum sender_sum : Z) : Result string unit * G :=
  js_command (js_mark_channel_closed g channel_id expiry_timestamp balance receiver_proofs_json sender_proofs_json
                receiver_sum sender_sum).

#[export] Instance wasm_host : SpilmanHost G string := {|
  receiver_key_is_acceptable g k := js_receiver_key_is_acceptable g (pubkey_to_hex k);
  mint_and_keyset_is_acceptable g mint id := js_mint_and_keyset_is_acceptable g mint (id_to_string id);
  host_get_funding := wasm_get_funding;
  host_save_funding := wasm_save_funding;
  get_amount_due := wasm_get_amount_due;
  record_payment g c p ctx := js_record_payment g c (pp_balance p) (pp_signature p) ctx;
  get_channel_state := wasm_get_channel_state;
  mark_channel_closing := wasm_mark_channel_closing;
  host_get_closing_data := wasm_get_closing_data;
  get_channel_policy := wasm_get_channel_policy;
  now_seconds := js_now_seconds;
  get_balance_and_signature_for_unilateral_exit := wasm_get_balance_and_signature_for_unilateral_exit;
  host_get_active_keyset_ids := wasm_get_active_keyset_ids;
  has_keysets_for_unit := wasm_has_keysets_for_unit;
  get_keyset_info g mint id := as_string (js_get_keyset_info g mint (id_to_string id));
  mark_channel_closed := wasm_mark_channel_closed;
  host_compute_channel_secret g r s := sum_result js_error_to_string (js_compute_channel_secret_host g r s);
  sign_with_tweaked_key g k m t := sum_result js_error_to_string (js_sign_with_tweaked_key_host g k m t);
|}.

Context (response_from_json : string → option MintResponse).
Context (nut00_from_json : string → option (Z * string)).
Definition wasm_call_mint_swap (mint_url swap_request_json : string) : M (G * unit) MintRequestError string := λ x,
  let '(r, g) := js_call_mint_swap x.1 mint_url swap_request_json in
  (from_callback response_from_json nut00_from_json
     (v ← sum_result js_error_to_string r; ok_or "Result not a string" (as_string v)), (g, x.2)).
Definition wasm_refresh (mint : string) : M (G * unit) string unit := λ x,
  let '(r, g) := js_refresh_all_keysets x.1 mint in
  (match r with inr _ => Ok tt | inl e => Err (js_error_to_string e) end, (g, x.2)).
End wasm.

(** ** Go ([CGoSpilmanHost]) *)

(** A pointer to a C string, or null; the bytes contain no zero. *)
Abbreviation CPtr := (option bytes).
(** The table of callbacks; a [c_int] is a truth value, out parameters are results. *)
Class GoCallbacks (G : Type) := {
  cb_receiver_key_is_acceptable : G → string → Z;
  cb_mint_and_keyset_is_acceptable : G → string → string → Z;
  cb_get_funding_and_params : G → string → (Z * (CPtr * CPtr * CPtr * CPtr)) * G;
  cb_save_funding : G → string → string → string → string → string → Z → string → G;
  cb_get_amount_due : G → string → option string → Z * G;
  cb_record_payment : G → string → Z → string → string → G;
  cb_get_channel_state : G → string → CPtr;
  cb_mark_channel_closing : G → string → Z → Z → string → Z * G;
  cb_get_closing_data : G → string → Z * (Z * Z * CPtr);
  cb_get_channel_policy : G → string → Z * (Z * Z * Z);
  cb_now_seconds : G → Z;
  cb_get_balance_and_signature_for_unilateral_exit : G → string → Z * (Z * CPtr);
  cb_get_active_keyset_ids : G → string → string → CPtr;
  cb_get_keyset_info : G → string → string → CPtr;
  cb_call_mint_swap : G → string → string → (Z * CPtr) * G;
  cb_refresh_all_keysets : G → string → Z * G;
  cb_compute_channel_secret : G → string → string → Z * CPtr;
  cb_sign_with_tweaked_key : G → string → string → string → Z * CPtr;
  cb_mark_channel_closed : G → string → Z → Z → string → string → Z → Z → Z * G;
}.

(** A panic in a function that C calls ends the process, and so the call: [Diverge]. *)
Fixpoint has_nul (s : string) : bool :=
  match s with EmptyString => false | String c s => Ascii.eqb c Ascii.zero || has_nul s end.
(** [CString::new(s).unwrap()]. *)
Definition c_string {E} (s : string) : Result E string := if has_nul s then Diverge else Ok s.
(** [CString::from_raw(p).into_string().unwrap()]: a null pointer has no defined meaning. *)
Definition from_raw {E} (p : CPtr) : Result E string :=
  match p ≫= from_utf8 with Some s => Ok s | None => Diverge end.

Section go.
Context {T : CashuTypes} {O : CashuOps} {G : Type} {GC : GoCallbacks G}.
(** [serde_json::from_str] at [Result<Option<String>, String>] and at [Vec<Id>]. *)
Context (state_from_json : string → option (string + option string)).
Context (ids_from_json : string → option (list Id)).
Implicit Types g : G.

Definition go_receiver_key_is_acceptable {E} g (receiver_pubkey : PublicKey) : Result E bool :=
  hex ← c_string (pubkey_to_hex receiver_pubkey);
  Ok (negb (cb_receiver_key_is_acceptable g hex =? 0)).
Definition go_mint_and_keyset_is_acceptable {E} g (mint : string) (keyset_id : Id) : Result E bool :=
  mint_c ← c_string mint;
  kid_c ← c_string (id_to_string keyset_id);
  Ok (negb (cb_mint_and_keyset_is_acceptable g mint_c kid_c =? 0)).
Definition go_get_funding {E} (channel_id : string) : M G E (option ChannelFunding) := λ g,
  match c_string channel_id with
  | Ok id_c =>
      let '((ok, (p_ptr, pr_ptr, s_ptr, k_ptr)), g') := cb_get_funding_and_params g id_c in
      (if ok =? 0 then Ok None
       else
         params_json ← from_raw p_ptr;
         funding_proofs_json ← from_raw pr_ptr;
         channel_secret_hex ← from_raw s_ptr;
         keyset_info_json ← from_raw k_ptr;
         Ok (Some (mk_ChannelFunding params_json funding_proofs_json channel_secret_hex keyset_info_json)), g')
  | Err e => (Err e, g)
  | Diverge => (Diverge, g)
  end.
Definition go_save_funding {E} (channel_id : string) (funding : ChannelFunding) (initial_payment : PaymentProof) :
    M G E unit :=
  id_c ← lift (c_string channel_id);
  p_c ← lift (c_string (params_json funding));
  pr_c ← lift (c_string (funding_proofs_json funding));
  s_c ← lift (c_string (channel_secret_hex funding));
  k_c ← lift (c_string (keyset_info_json funding));
  sig_c ← lift (c_string (pp_signature initial_payment));
  modify (λ g, (tt, cb_save_funding g id_c p_c pr_c s_c k_c (pp_balance initial_payment) sig_c)).
Definition go_get_amount_due {E} (channel_id : string) (context_json : option string) : M G E Z :=
  id_c ← lift (c_string channel_id);
  ctx ← lift match context_json with Some s => Some <$> c_string s | None => Ok None end;
  modify (λ g, cb_get_amount_due g id_c ctx).
Definition go_record_payment {E} (channel_id : string) (payment : PaymentProof) (context_json : string) :
    M G E unit :=
  id_c ← lift (c_string channel_id);
  sig_c ← lift (c_string (pp_signature payment));
  ctx_c ← lift (c_string context_json);
  modify (λ g, (tt, cb_record_payment g id_c (pp_balance payment) sig_c ctx_c)).
(** Here the string is checked. *)
Definition go_get_channel_state g (channel_id : string) : Result string (option ChannelState) :=
  if has_nul channel_id then Err "invalid channel ID"
  else
    match cb_get_channel_state g channel_id with
    | None => Err "get_channel_state callback returned null"
    | Some b =>
        json ← ok_or "invalid get_channel_state UTF-8" (from_utf8 b);
        result ← ok_or "invalid get_channel_state result" (state_from_json json);
        match result with
        | inl _ => Err "get_channel_state callback failed"
        | inr state => from_host_value state
        end
    end.
(** A [c_int] of a command. *)
Definition go_status (failed : string) (ok : Z) : Result string unit := if ok =? 0 then Err failed else Ok tt.
Definition go_mark_channel_closing (channel_id : string) (expiry_timestamp : Z) (payment : PaymentProof) :
    M G string unit :=
  id_c ← lift (c_string channel_id);
  sig_c ← lift (c_string (pp_signature payment));
  ok ← modify (λ g, cb_mark_channel_closing g id_c expiry_timestamp (pp_balance payment) sig_c);
  lift (go_status "mark_channel_closing failed" ok).
Definition go_get_closing_data {E} g (channel_id : string) : Result E (option ClosingData) :=
  id_c ← c_string channel_id;
  let '(ok, (expiry_timestamp, balance, sig_ptr)) := cb_get_closing_data g id_c in
  if ok =? 0 then Ok None
  else
    signature ← from_raw sig_ptr;
    Ok (Some (mk_ClosingData expiry_timestamp balance signature)).
(** The maximum is an [i64], negative for none; a unit that is no C string has no policy. *)
Definition go_get_channel_policy g (unit : string) : option ChannelPolicy :=
  if has_nul unit then None
  else
    let '(found, (min_expiry, min_capacity, max_amount)) := cb_get_channel_policy g unit in
    if found =? 0 then None
    else Some (mk_ChannelPolicy min_expiry min_capacity (if 0 <=? max_amount then Some max_amount else None)).
Definition go_get_balance_and_signature_for_unilateral_exit {E} g (channel_id : string) :
    Result E (option PaymentProof) :=
  id_c ← c_string channel_id;
  let '(ok, (balance, sig_ptr)) := cb_get_balance_and_signature_for_unilateral_exit g id_c in
  if ok =? 0 then Ok None
  else
    signature ← from_raw sig_ptr;
    Ok (Some (mk_PaymentProof balance signature)).
Definition go_get_active_keyset_ids {E} g (mint : string) (unit : CurrencyUnit) : Result E (list Id) :=
  mint_c ← c_string mint;
  unit_c ← c_string (unit_to_string unit);
  match cb_get_active_keyset_ids g mint_c unit_c with
  | None => Ok []
  | Some _ as ptr =>
      json ← from_raw ptr;
      Ok (default [] (ids_from_json json))
  end.
Definition go_has_keysets_for_unit {E} g (mint : string) (unit : CurrencyUnit) : Result E bool :=
  ids ← go_get_active_keyset_ids g mint unit;
  Ok (negb (bool_decide (ids = []))).
Definition go_get_keyset_info {E} g (mint : string) (keyset_id : Id) : Result E (option string) :=
  mint_c ← c_string mint;
  kid_c ← c_string (id_to_string keyset_id);
  match cb_get_keyset_info g mint_c kid_c with
  | None => Ok None
  | Some _ as ptr => Some <$> from_raw ptr
  end.
Definition go_mark_channel_closed (channel_id : string) (expiry_timestamp balance : Z)
    (receiver_proofs_json sender_proofs_json : string) (receiver_sum sender_sum : Z) : M G string unit :=
  id_c ← lift (c_string channel_id);
  rp_c ← lift (c_string receiver_proofs_json);
  sp_c ← lift (c_string sender_proofs_json);
  ok ← modify (λ g, cb_mark_channel_closed g id_c expiry_timestamp balance rp_c sp_c receiver_sum sender_sum);
  lift (go_status "mark_channel_closed failed" ok).
(** A callback with an answer or an error message. *)
Definition go_text (r : Z * CPtr) : Result string string :=
  result ← from_raw r.2;
  if r.1 =? 0 then Err result else Ok result.
Definition go_compute_channel_secret g (receiver_pubkey_hex sender_pubkey_hex : string) : Result string string :=
  cp_c ← c_string receiver_pubkey_hex;
  ap_c ← c_string sender_pubkey_hex;
  go_text (cb_compute_channel_secret g cp_c ap_c).
Definition go_sign_with_tweaked_key g (signer_pubkey_hex message_hex tweak_scalar_hex : string) :
    Result string string :=
  sp_c ← c_string signer_pubkey_hex;
  msg_c ← c_string message_hex;
  tw_c ← c_string tweak_scalar_hex;
  go_text (cb_sign_with_tweaked_key g sp_c msg_c tw_c).

Context (response_from_json : string → option MintResponse).
Context (nut00_from_json : string → option (Z * string)).
Definition go_call_mint_swap (mint_url swap_request_json : string) : M G MintRequestError string :=
  mint_c ← lift (c_string mint_url);
  req_c ← lift (c_string swap_request_json);
  r ← modify (λ g, cb_call_mint_swap g mint_c req_c);
  lift (from_callback response_from_json nut00_from_json (go_text r)).
Definition go_refresh (mint : string) : M G string unit :=
  mint_c ← lift (c_string mint);
  ok ← modify (λ g, cb_refresh_all_keysets g mint_c);
  lift (go_status "refresh_all_keysets failed" ok).
End go.
