(* ===== verification/ForeignProofs.v ===== *)
(** * Theorems about receivers written in other languages ([Foreign.v])

    The theorems about the bridge hold for every host that meets [HostSpec]. A Python or
    JavaScript application whose callbacks implement such a host gets them through the
    bindings: the proxies simulate it. What the bindings make of failing callbacks is stated
    next to it. *)

From Stdlib Require Import Floats.SpecFloat.
From S2P Require Import Prelude Cashu Toy Amounts Params SwapCompletion Deterministic Channel Mint Storage StorageSpec Host Bridge Close ClientStorage Networking NetworkingProofs Foreign.

(** ** Simulation of a host *)

Section simulation.
Context {T : CashuTypes} {G A C : Type} {SG : SpilmanHost G C} {SA : SpilmanHost A C}.

(** The outcome of a command, up to the text of the error. *)
Definition same_outcome (r r' : Result string unit) : Prop :=
  match r' with Ok _ => r = Ok tt | _ => ∃ e, r = Err e end.
(** [G] behaves as the host [abs g], as long as [ok] holds, in everything that concerns
    channels; prices and policy may be asked of [G] itself. *)
Class HostSim (abs : G → A) (ok : G → Prop) : Prop := {
  sim_state g c s : ok g → get_channel_state (abs g) c = Ok s → get_channel_state g c = Ok s;
  sim_payment g c : ok g →
    get_balance_and_signature_for_unilateral_exit g c = get_balance_and_signature_for_unilateral_exit (abs g) c;
  sim_closing g c : ok g → host_get_closing_data g c = host_get_closing_data (abs g) c;
  sim_funding g c : ok g →
    (host_get_funding g c).1 = (host_get_funding (abs g) c).1 ∧
    ok (host_get_funding g c).2 ∧ abs (host_get_funding g c).2 = (host_get_funding (abs g) c).2;
  sim_due g c ctx : ok g →
    (get_amount_due g c ctx).1 = (get_amount_due (abs g) c ctx).1 ∧
    ok (get_amount_due g c ctx).2 ∧ abs (get_amount_due g c ctx).2 = (get_amount_due (abs g) c ctx).2;
  sim_save g c f p : ok g → is_i63 (pp_balance p) →
    ok (host_save_funding g c f p) ∧ abs (host_save_funding g c f p) = host_save_funding (abs g) c f p;
  sim_record g c p ctx : ok g → is_i63 (pp_balance p) →
    ok (record_payment g c p ctx) ∧ abs (record_payment g c p ctx) = record_payment (abs g) c p ctx;
  sim_mark_closing g c expiry p : ok g →
    same_outcome (mark_channel_closing g c expiry p).1 (mark_channel_closing (abs g) c expiry p).1 ∧
    ok (mark_channel_closing g c expiry p).2 ∧
    abs (mark_channel_closing g c expiry p).2 = (mark_channel_closing (abs g) c expiry p).2;
  sim_mark_closed g c expiry b rp sp rs ss : ok g →
    same_outcome (mark_channel_closed g c expiry b rp sp rs ss).1 (mark_channel_closed (abs g) c expiry b rp sp rs ss).1 ∧
    ok (mark_channel_closed g c expiry b rp sp rs ss).2 ∧
    abs (mark_channel_closed g c expiry b rp sp rs ss).2 = (mark_channel_closed (abs g) c expiry b rp sp rs ss).2;
}.

Context (abs : G → A) (ok : G → Prop) {HA : HostSpec A C} {HSIM : HostSim abs ok}.
Lemma sim_due_eq g c ctx : ok g → due g c ctx = due (abs g) c ctx.
Proof. intros Hg. apply (sim_due g c ctx Hg). Qed.

(** What simulates a good host is one. *)
#[program] Definition sim_spec : HostSpec G C := {|
  host_wf g := ok g ∧ host_wf (abs g);
  hview g := hview (abs g);
  context_ok g := context_ok (abs g);
|}.
Next Obligation. intros g g' c ctx. apply context_usage. Qed.
Next Obligation. intros g c [_ Hwf]. by apply hs_view_ok. Qed.
Next Obligation. intros g c [Hg Hwf]. apply sim_state; [done|]. by apply hs_state. Qed.
Next Obligation. intros g c [Hg Hwf]. rewrite sim_payment by done. by apply hs_payment. Qed.
Next Obligation.
  intros g c [Hg Hwf]. destruct (sim_funding g c Hg) as (-> & Hg' & Ha). rewrite Ha.
  destruct (hs_get_funding (abs g) c Hwf) as (Hf & Hwf' & Hv & Hd). split_and!; try done.
  intros d ctx. by rewrite !sim_due_eq, Ha.
Qed.
Next Obligation.
  intros g c ctx [Hg Hwf]. destruct (sim_due g c ctx Hg) as (_ & Hg' & Ha). rewrite Ha.
  destruct (hs_amount_due (abs g) c ctx Hwf) as (Hwf' & Hv & Hd). split_and!; try done.
  intros d ctx'. by rewrite !sim_due_eq, Ha.
Qed.
Next Obligation.
  intros g c f p [Hg Hwf] Hf Hb Hs. destruct (sim_save g c f p Hg Hb) as (Hg' & Ha). cbv zeta. rewrite Ha.
  destruct (hs_save_funding (abs g) c f p Hwf Hf Hb Hs) as (Hwf' & Hv & Hfr & Hd & H0). split_and!; try done.
  - intros d ctx Hne. rewrite !sim_due_eq, Ha by done. by apply Hd.
  - intros Hu. rewrite sim_due_eq, Ha by done. by apply H0.
Qed.
Next Obligation.
  intros g c p ctx [Hg Hwf] Hst Hb Hs Hctx. destruct (sim_record g c p ctx Hg Hb) as (Hg' & Ha). cbv zeta. rewrite Ha.
  destruct (hs_record_payment (abs g) c p ctx Hwf Hst Hb Hs Hctx) as (Hwf' & Hf & Ho & Hp & Hfr & Hd & Hc).
  split_and!; try done.
  - intros d ctx' Hne. rewrite !sim_due_eq, Ha by done. by apply Hd.
  - by rewrite !sim_due_eq, Ha.
Qed.
Next Obligation. intros g c [Hg Hwf]. rewrite sim_closing by done. by apply hs_closing. Qed.
Next Obligation.
  intros g c expiry p [Hg Hwf] Hf. destruct (sim_mark_closing g c expiry p Hg) as (Ho & Hg' & Ha). cbv zeta. rewrite Ha.
  destruct (hs_mark_closing (abs g) c expiry p Hwf Hf) as (Hwf' & Hfr & Hd & Hs). split_and!; try done.
  - intros d ctx. by rewrite !sim_due_eq, Ha.
  - destruct (spec_step _ _).
    + destruct Hs as [Hr Hv]. by rewrite Hr in Ho.
    + destruct Hs as [[e Hr] Hv]. by rewrite Hr in Ho.
Qed.
Next Obligation.
  intros g c expiry b rp sp rs ss [Hg Hwf] Hf.
  destruct (sim_mark_closed g c expiry b rp sp rs ss Hg) as (Ho & Hg' & Ha). cbv zeta. rewrite Ha.
  destruct (hs_mark_closed (abs g) c expiry b rp sp rs ss Hwf Hf) as (Hwf' & Hfr & Hd & Hs). split_and!; try done.
  - intros d ctx. by rewrite !sim_due_eq, Ha.
  - destruct (spec_step _ _).
    + destruct Hs as [Hr Hv]. by rewrite Hr in Ho.
    + destruct Hs as [[e Hr] Hv]. by rewrite Hr in Ho.
Qed.
End simulation.

(** A receiver that simulates a good host is as safe as that host. *)
Section covered.
Context {T : CashuTypes} {O : CashuOps} {HJ : JsonLaws} {G A C : Type} {SG : SpilmanHost G C} {SA : SpilmanHost A C}.
Context {HA : HostSpec A C} (errors_to_json : list ChannelVerificationError → string).
Lemma sim_receiver_covered (abs : G → A) (ok : G → Prop) {HSIM : HostSim abs ok} g (l : list (BridgeCall (C:=C))) :
  ok g → host_wf (abs g) → (∀ c, hview (abs g) c = no_channel) →
  calls_ok (HS:=sim_spec abs ok) errors_to_json g l →
  let a' := abs (serve_all errors_to_json g l) in
  ∀ c, v_state (hview a' c) = Some Open →
  ∃ f p capacity,
    v_funding (hview a' c) = Some f ∧ v_payment (hview a' c) = Some p ∧
    authorized f (pp_balance p) (pp_signature p) ∧
    stored_capacity (params_json f) = Ok capacity ∧
    due a' c None <= pp_balance p <= capacity.
Proof.
  intros Hg Hwf Hv Hok a' c Hst. pose (HG := sim_spec abs ok).
  assert (receiver_inv (HS:=HG) (serve_all errors_to_json g l)) as Hi.
  { refine (serve_all_inv (HS:=HG) errors_to_json g l _ Hok). apply (receiver_inv_init (HS:=HG)); [by split|exact Hv]. }
  destruct (receiver_inv_open (HS:=HG) _ c Hi Hst) as (f & p & cap & Hf & Hp & Ha & Hcap & Hdue).
  exists f, p, cap. split_and!; try done; [|apply Hdue].
  unfold a'. rewrite <-(sim_due_eq abs ok) by apply (ri_wf _ Hi). apply Hdue.
Qed.

(** What a payment for an open channel does, for any host. *)
Lemma process_payment_open {H : Type} {SH : SpilmanHost H C} (h h1 h2 : H) c b sig ps prs ctx f capacity amount_due :
  c ≠ "" → sig ≠ "" → get_channel_state h c = Ok (Some Open) → host_get_funding h c = (Some f, h1) →
  stored_capacity (params_json f) = Ok capacity → b <= capacity → authorized f b sig →
  get_amount_due h1 c (Some ctx) = (amount_due, h2) → amount_due <= b →
  process_payment errors_to_json c b sig ps prs ctx h
  = (Ok (mk_PaymentSuccess c b amount_due capacity), record_payment h2 c (mk_PaymentProof b sig) ctx).
Proof.
  intros Hc Hs Hst Hf Hcap Hle Ha Hdue Hcov.
  unfold process_payment, validate_and_record, validate_payment, validate_payment_request, register_if_unknown.
  destruct (String.eqb_spec c "") as [|_]; [done|]. destruct (String.eqb_spec sig "") as [|_]; [done|].
  unfold ask_state, ask_funding, ask_amount_due, modify, mbind, M_bind, lift. rewrite Hst. cbn. rewrite Hst. cbn.
  rewrite Hf. cbn. rewrite Hcap. cbn. rewrite (proj2 (Z.leb_le _ _) Hle). cbn.
  rewrite (proj2 (verify_signature_iff f c b sig) Ha). cbn. rewrite Hdue. cbn.
  by rewrite (proj2 (Z.leb_le _ _) Hcov).
Qed.
End covered.

(** ** Python *)

Section python.
Context {T : CashuTypes} {O : CashuOps} `{PY : PyRuntime} {G A : Type} {PG : PyObject G} {SA : SpilmanHost A string}.
Implicit Types g : G.

(** The texts of the states. *)
Definition state_name (s : ChannelState) : string :=
  match s with Open => "open" | Closing => "closing" | Closed => "closed" end.
Lemma from_state_name s : from_host_value (state_name <$> s) = Ok s.
Proof. by destruct s as [[]|]. Qed.

(** The Python values that the documentation of [PySpilmanHost] asks for. *)
Definition says_funding (r : option ChannelFunding) (o : PyObj) : Prop :=
  match r with
  | None => py_is_none o = true
  | Some f => py_is_none o = false ∧ ∃ p pr s k, cast_tuple o = Some [p; pr; s; k] ∧
      extract_str p = inr (params_json f) ∧ extract_str pr = inr (funding_proofs_json f) ∧
      extract_str s = inr (channel_secret_hex f) ∧ extract_str k = inr (keyset_info_json f)
  end.
Definition says_payment (r : option PaymentProof) (o : PyObj) : Prop :=
  match r with
  | None => py_is_none o = true
  | Some p => py_is_none o = false ∧ ∃ b s, cast_tuple o = Some [b; s] ∧
      extract_u64 b = inr (pp_balance p) ∧ extract_str s = inr (pp_signature p)
  end.
(** A value that an object has as an attribute, or, as a dictionary does, only as an item. *)
Definition says_field (o : PyObj) (name : string) (v : PyObj) : Prop :=
  py_getattr o name = inr v ∨ ((∃ e, py_getattr o name = inl e) ∧ py_getitem o name = inr v).
Lemma says_field_read o name v : says_field o name v → py_field o name = inr v.
Proof. unfold py_field. by intros [->|[[e ->] ->]]. Qed.
Definition says_closing (r : option ClosingData) (o : PyObj) : Prop :=
  match r with
  | None => py_is_none o = true
  | Some d => py_is_none o = false ∧
      ∃ t b s, says_field o "expiry_timestamp" t ∧ says_field o "balance" b ∧
        says_field o "signature" s ∧ extract_u64 t = inr (cd_expiry_timestamp d) ∧
        extract_u64 b = inr (cd_balance d) ∧ extract_str s = inr (cd_signature d)
  end.
Definition raises_iff_error (r : PyErr + PyObj) (r' : Result string unit) : Prop :=
  match r' with Ok _ => ∃ o, r = inr o | _ => ∃ e, r = inl e end.

(** The Python object implements the methods over the host [abs g]. *)
Class PyImplements (abs : G → A) (ok : G → Prop) : Prop := {
  pi_state g c s : ok g → get_channel_state (abs g) c = Ok s →
    ∃ o, py_query g "get_channel_state" [py_of_str c] = inr o ∧ extract_opt_str o = inr (state_name <$> s);
  pi_payment g c : ok g →
    ∃ o, py_query g "get_balance_and_signature_for_unilateral_exit" [py_of_str c] = inr o ∧
      says_payment (get_balance_and_signature_for_unilateral_exit (abs g) c) o;
  pi_closing g c : ok g →
    ∃ o, py_query g "get_closing_data" [py_of_str c] = inr o ∧ says_closing (host_get_closing_data (abs g) c) o;
  pi_funding g c : ok g →
    ∃ o g', py_call g "get_funding_and_params" [py_of_str c] = (inr o, g') ∧
      says_funding (host_get_funding (abs g) c).1 o ∧ ok g' ∧ abs g' = (host_get_funding (abs g) c).2;
  pi_due g c ctx : ok g →
    ∃ o g', py_call g "get_amount_due" [py_of_str c; py_of_opt_str ctx] = (inr o, g') ∧
      extract_u64 o = inr (get_amount_due (abs g) c ctx).1 ∧ ok g' ∧ abs g' = (get_amount_due (abs g) c ctx).2;
  pi_save g c f p : ok g → is_i63 (pp_balance p) →
    ∃ o g', py_call g "save_funding" [py_of_str c; py_of_str (params_json f); py_of_str (funding_proofs_json f);
        py_of_str (channel_secret_hex f); py_of_str (keyset_info_json f); py_of_int (pp_balance p);
        py_of_str (pp_signature p)] = (inr o, g') ∧ ok g' ∧ abs g' = host_save_funding (abs g) c f p;
  pi_record g c p ctx : ok g → is_i63 (pp_balance p) →
    ∃ o g', py_call g "record_payment" [py_of_str c; py_of_int (pp_balance p); py_of_str (pp_signature p);
        py_of_str ctx] = (inr o, g') ∧ ok g' ∧ abs g' = record_payment (abs g) c p ctx;
  pi_mark_closing g c expiry p : ok g →
    ∃ r g', py_call g "mark_channel_closing" [py_of_str c; py_of_int expiry; py_of_int (pp_balance p);
        py_of_str (pp_signature p)] = (r, g') ∧
      raises_iff_error r (mark_channel_closing (abs g) c expiry p).1 ∧
      ok g' ∧ abs g' = (mark_channel_closing (abs g) c expiry p).2;
  pi_mark_closed g c expiry b rp sp rs ss : ok g →
    ∃ r g', py_call g "mark_channel_closed" [py_of_str c; py_of_int expiry; py_of_int b; py_of_str rp; py_of_str sp;
        py_of_int rs; py_of_int ss] = (r, g') ∧
      raises_iff_error r (mark_channel_closed (abs g) c expiry b rp sp rs ss).1 ∧
      ok g' ∧ abs g' = (mark_channel_closed (abs g) c expiry b rp sp rs ss).2;
}.

Lemma raises_same r r' g' : raises_iff_error r r' →
  same_outcome (match r with inr _ => Ok tt | inl e => Err (pyerr_to_string e) end, g' : G).1 r'.
Proof. unfold raises_iff_error, same_outcome. destruct r'; [intros [o ->]|intros [x ->]..]; cbn; eauto. Qed.

#[export] Instance python_simulates (abs : G → A) (ok : G → Prop) `{!PyImplements abs ok} : HostSim abs ok.
Proof.
  split.
  - intros g c s Hg Hs. destruct (pi_state g c s Hg Hs) as (o & Hq & Ho).
    cbn [get_channel_state python_host]. unfold py_get_channel_state. rewrite Hq, Ho. apply from_state_name.
  - intros g c Hg. destruct (pi_payment g c Hg) as (o & Hq & Ho).
    cbn [get_balance_and_signature_for_unilateral_exit python_host].
    unfold py_get_balance_and_signature_for_unilateral_exit. rewrite Hq. cbn. unfold py_payment_tuple.
    destruct (get_balance_and_signature_for_unilateral_exit (abs g) c) as [[b s]|]; cbn in Ho; [|by rewrite Ho].
    destruct Ho as (-> & x & y & -> & Hx & Hy). cbn. rewrite Hx. cbn. by rewrite Hy.
  - intros g c Hg. destruct (pi_closing g c Hg) as (o & Hq & Ho).
    cbn [host_get_closing_data python_host]. unfold py_get_closing_data. rewrite Hq. cbn. unfold py_closing_dict.
    destruct (host_get_closing_data (abs g) c) as [[t b s]|]; cbn in Ho; [|by rewrite Ho].
    destruct Ho as (-> & x & y & z & Hx%says_field_read & Hy%says_field_read & Hz%says_field_read & Ht & Hb & Hs).
    rewrite Hx, Hy, Hz. cbn. rewrite Ht. cbn. rewrite Hb. cbn. by rewrite Hs.
  - intros g c Hg. destruct (pi_funding g c Hg) as (o & g' & Hq & Ho & Hg' & Ha).
    cbn [host_get_funding python_host]. unfold py_get_funding. rewrite Hq. cbn. split; [|done]. unfold py_funding_tuple.
    destruct (host_get_funding (abs g) c).1 as [[p pr s k]|]; cbn in Ho; [|by rewrite Ho].
    destruct Ho as (-> & a1 & a2 & a3 & a4 & -> & H1 & H2 & H3 & H4). cbn. rewrite H1. cbn. rewrite H2. cbn.
    rewrite H3. cbn. by rewrite H4.
  - intros g c ctx Hg. destruct (pi_due g c ctx Hg) as (o & g' & Hq & Ho & Hg' & Ha).
    cbn [get_amount_due python_host]. unfold py_get_amount_due. rewrite Hq. cbn. rewrite Ho. done.
  - intros g c f p Hg Hb. destruct (pi_save g c f p Hg Hb) as (o & g' & Hq & Hg' & Ha).
    cbn [host_save_funding python_host]. unfold py_save_funding. by rewrite Hq.
  - intros g c p ctx Hg Hb. destruct (pi_record g c p ctx Hg Hb) as (o & g' & Hq & Hg' & Ha).
    cbn [record_payment python_host]. unfold py_record_payment. by rewrite Hq.
  - intros g c expiry p Hg. destruct (pi_mark_closing g c expiry p Hg) as (r & g' & Hq & Ho & Hg' & Ha).
    cbn [mark_channel_closing python_host]. unfold py_mark_channel_closing, py_command. rewrite Hq.
    split; [by apply raises_same|done].
  - intros g c expiry b rp sp rs ss Hg.
    destruct (pi_mark_closed g c expiry b rp sp rs ss Hg) as (r & g' & Hq & Ho & Hg' & Ha).
    cbn [mark_channel_closed python_host]. unfold py_mark_channel_closed, py_command. rewrite Hq.
    split; [by apply raises_same|done].
Qed.

Context (errors_to_json : list ChannelVerificationError → string).

(** C17: a Python receiver is as safe as the host it implements. For a Python object whose
    methods implement a host that keeps its books as the receiver theorems ask, whatever
    sequence of funding, validation and payment requests reaches the bridge through the
    Python binding, every open channel of that host ends with a payment that its sender
    signed, within the capacity, that covers everything the channel has used. *)
Theorem python_receiver_covered {HA : HostSpec A string} {HJ : JsonLaws} (abs : G → A) (ok : G → Prop)
    `{!PyImplements abs ok} g (l : list (BridgeCall (C:=string))) :
  ok g → host_wf (abs g) → (∀ c, hview (abs g) c = no_channel) →
  calls_ok (HS:=sim_spec abs ok) errors_to_json g l →
  let a' := abs (serve_all errors_to_json g l) in
  ∀ c, v_state (hview a' c) = Some Open →
  ∃ f p capacity,
    v_funding (hview a' c) = Some f ∧ v_payment (hview a' c) = Some p ∧
    authorized f (pp_balance p) (pp_signature p) ∧
    stored_capacity (params_json f) = Ok capacity ∧
    due a' c None <= pp_balance p <= capacity.
Proof. apply sim_receiver_covered. Qed.

(** C22: the Python binding gives services away when the price cannot be computed. If the
    method [get_amount_due] raises, or returns what is no unsigned 64-bit integer, a payment
    for an open channel is priced at nothing: it succeeds for any balance that the sender has
    ever signed within the capacity, a balance of zero included, and it is reported as
    accepted whatever [record_payment] does, also if that raises. *)
Theorem python_failed_price_is_free g g1 g2 c b sig ps prs ctx f capacity r e :
  c ≠ "" → sig ≠ "" → py_get_channel_state g c = Ok (Some Open) → py_get_funding g c = (Some f, g1) →
  stored_capacity (params_json f) = Ok capacity → 0 <= b <= capacity → authorized f b sig →
  py_call g1 "get_amount_due" [py_of_str c; py_of_opt_str (Some ctx)] = (r, g2) → sum_bind r extract_u64 = inl e →
  process_payment errors_to_json c b sig ps prs ctx g
  = (Ok (mk_PaymentSuccess c b 0 capacity),
     (py_call g2 "record_payment" [py_of_str c; py_of_int b; py_of_str sig; py_of_str ctx]).2).
Proof.
  intros Hc Hs Hst Hf Hcap Hb Ha Hcall He.
  assert (get_amount_due g1 c (Some ctx) = (0, g2)) as Hdue.
  { cbn [get_amount_due python_host]. unfold py_get_amount_due. by rewrite Hcall, He. }
  exact (process_payment_open errors_to_json g g1 g2 c b sig ps prs ctx f capacity 0 Hc Hs Hst Hf Hcap
    (proj2 Hb) Ha Hdue (proj1 Hb)).
Qed.
End python.

(** ** JavaScript *)

(** Numbers below 2^53 have a float that is read back exactly. *)
Lemma f64_of_small n : 0 < n < 2 ^ 53 → f64_as_u64 (S754_finite false (Z.to_pos n) 0) = n.
Proof. intros Hn. cbn [f64_as_u64]. change (0 <=? 0) with true. cbv iota. rewrite Z2Pos.id by lia. unfold u64_max. lia. Qed.

Section wasm.
Context {T : CashuTypes} {O : CashuOps} `{JS : JsRuntime} {G A : Type} {JG : JsObject G} {SA : SpilmanHost A string}.
Implicit Types g : G.

Definition js_number (v : JsValue) (n : Z) : Prop := ∃ x, as_f64 v = Some x ∧ f64_as_u64 x = n.
Definition js_says_funding (r : option ChannelFunding) (v : JsValue) : Prop :=
  match r with
  | None => js_absent v = true
  | Some f => js_absent v = false ∧ ∃ p pr s k, array_from v = [p; pr; s; k] ∧
      as_string p = Some (params_json f) ∧ as_string pr = Some (funding_proofs_json f) ∧
      as_string s = Some (channel_secret_hex f) ∧ as_string k = Some (keyset_info_json f)
  end.
Definition js_says_payment (r : option PaymentProof) (v : JsValue) : Prop :=
  match r with
  | None => js_absent v = true
  | Some p => js_absent v = false ∧ ∃ b s, array_from v = [b; s] ∧ js_number b (pp_balance p) ∧
      as_string s = Some (pp_signature p)
  end.
Definition js_says_closing (r : option ClosingData) (v : JsValue) : Prop :=
  match r with
  | None => js_absent v = true
  | Some d => js_absent v = false ∧ ∃ o t b s, object_try_from v = Some o ∧
      reflect_get o "expiry_timestamp" = Some t ∧ reflect_get o "balance" = Some b ∧ reflect_get o "signature" = Some s ∧
      js_number t (cd_expiry_timestamp d) ∧ js_number b (cd_balance d) ∧ as_string s = Some (cd_signature d)
  end.
Definition throws_iff_error (r : JsValue + unit) (r' : Result string unit) : Prop :=
  match r' with Ok _ => r = inr tt | _ => ∃ e, r = inl e end.

(** The JavaScript object implements the methods over the host [abs g]. *)
Class JsImplements (abs : G → A) (ok : G → Prop) : Prop := {
  ji_state g c s : ok g → get_channel_state (abs g) c = Ok s →
    ∃ v, js_get_channel_state g c = inr v ∧
      match s with None => is_null v = true | Some s => is_null v = false ∧ as_string v = Some (state_name s) end;
  ji_payment g c : ok g →
    js_says_payment (get_balance_and_signature_for_unilateral_exit (abs g) c)
      (js_get_balance_and_signature_for_unilateral_exit g c);
  ji_closing g c : ok g → js_says_closing (host_get_closing_data (abs g) c) (js_get_closing_data g c);
  ji_funding g c : ok g →
    js_says_funding (host_get_funding (abs g) c).1 (js_get_funding_and_params g c).1 ∧
    ok (js_get_funding_and_params g c).2 ∧ abs (js_get_funding_and_params g c).2 = (host_get_funding (abs g) c).2;
  ji_due g c ctx : ok g →
    let v := match ctx with Some s => js_of_str s | None => JS_NULL end in
    (js_get_amount_due g c v).1 = (get_amount_due (abs g) c ctx).1 ∧
    ok (js_get_amount_due g c v).2 ∧ abs (js_get_amount_due g c v).2 = (get_amount_due (abs g) c ctx).2;
  ji_save g c f p : ok g → is_i63 (pp_balance p) →
    let g' := js_save_funding g c (params_json f) (funding_proofs_json f) (channel_secret_hex f) (keyset_info_json f)
                (pp_balance p) (pp_signature p) in
    ok g' ∧ abs g' = host_save_funding (abs g) c f p;
  ji_record g c p ctx : ok g → is_i63 (pp_balance p) →
    let g' := js_record_payment g c (pp_balance p) (pp_signature p) ctx in
    ok g' ∧ abs g' = record_payment (abs g) c p ctx;
  ji_mark_closing g c expiry p : ok g →
    let r := js_mark_channel_closing g c expiry (pp_balance p) (pp_signature p) in
    throws_iff_error r.1 (mark_channel_closing (abs g) c expiry p).1 ∧
    ok r.2 ∧ abs r.2 = (mark_channel_closing (abs g) c expiry p).2;
  ji_mark_closed g c expiry b rp sp rs ss : ok g →
    let r := js_mark_channel_closed g c expiry b rp sp rs ss in
    throws_iff_error r.1 (mark_channel_closed (abs g) c expiry b rp sp rs ss).1 ∧
    ok r.2 ∧ abs r.2 = (mark_channel_closed (abs g) c expiry b rp sp rs ss).2;
}.

Lemma js_command_same (m : (JsValue + unit) * G) r' :
  throws_iff_error m.1 r' → same_outcome (js_command m).1 r' ∧ (js_command m).2 = m.2.
Proof. destruct m as [r g]. cbn. destruct r'; [intros ->|intros [x ->]..]; cbn; eauto. Qed.
Lemma js_u64_number o name v n : reflect_get o name = Some v → js_number v n → js_u64 o name = Some n.
Proof. intros Hv (x & Hx & <-). unfold js_u64. rewrite Hv. cbn. by rewrite Hx. Qed.

#[export] Instance wasm_simulates (abs : G → A) (ok : G → Prop) `{!JsImplements abs ok} : HostSim abs ok.
Proof.
  split.
  - intros g c s Hg Hs. destruct (ji_state g c s Hg Hs) as (v & Hv & Ho).
    cbn [get_channel_state wasm_host]. unfold wasm_get_channel_state. rewrite Hv.
    destruct s as [s|]; [|by rewrite Ho]. destruct Ho as [-> ->]. by destruct s.
  - intros g c Hg. pose proof (ji_payment g c Hg) as Ho.
    cbn [get_balance_and_signature_for_unilateral_exit wasm_host].
    unfold wasm_get_balance_and_signature_for_unilateral_exit, js_payment_array.
    destruct (get_balance_and_signature_for_unilateral_exit (abs g) c) as [[b s]|]; cbn in Ho; [|by rewrite Ho].
    destruct Ho as (-> & x & y & -> & (z & Hz & <-) & Hy). rewrite Hz. cbn. by rewrite Hy.
  - intros g c Hg. pose proof (ji_closing g c Hg) as Ho.
    cbn [host_get_closing_data wasm_host]. unfold wasm_get_closing_data, js_closing_object.
    destruct (host_get_closing_data (abs g) c) as [[t b s]|]; cbn in Ho; [|by rewrite Ho].
    destruct Ho as (-> & o & x & y & z & -> & Hx & Hy & Hz & Ht & Hb & Hs). cbn.
    rewrite (js_u64_number _ _ _ _ Hx Ht), (js_u64_number _ _ _ _ Hy Hb). cbn. rewrite Hz. cbn. by rewrite Hs.
  - intros g c Hg. destruct (ji_funding g c Hg) as (Ho & Hg' & Ha).
    cbn [host_get_funding wasm_host]. unfold wasm_get_funding.
    destruct (js_get_funding_and_params g c) as [v g']. cbn in *. split; [|done]. unfold js_funding_array.
    destruct (host_get_funding (abs g) c).1 as [[p pr s k]|]; cbn in Ho; [|by rewrite Ho].
    destruct Ho as (-> & a1 & a2 & a3 & a4 & -> & H1 & H2 & H3 & H4). rewrite H1. cbn. rewrite H2. cbn.
    rewrite H3. cbn. by rewrite H4.
  - intros g c ctx Hg. exact (ji_due g c ctx Hg).
  - intros g c f p Hg Hb. exact (ji_save g c f p Hg Hb).
  - intros g c p ctx Hg Hb. exact (ji_record g c p ctx Hg Hb).
  - intros g c expiry p Hg. destruct (ji_mark_closing g c expiry p Hg) as (Ho & Hg' & Ha).
    cbn [mark_channel_closing wasm_host]. unfold wasm_mark_channel_closing.
    destruct (js_command_same _ _ Ho) as [? ->]. done.
  - intros g c expiry b rp sp rs ss Hg. destruct (ji_mark_closed g c expiry b rp sp rs ss Hg) as (Ho & Hg' & Ha).
    cbn [mark_channel_closed wasm_host]. unfold wasm_mark_channel_closed.
    destruct (js_command_same _ _ Ho) as [? ->]. done.
Qed.
End wasm.

(** ** Go *)

Section go.
Context {T : CashuTypes} {O : CashuOps} {G A : Type} {GC : GoCallbacks G} {SA : SpilmanHost A string}.
Context (state_from_json : string → option (string + option string)).
Implicit Types g : G.

(** A C string with the text. *)
Definition c_text (p : CPtr) (s : string) : Prop := ∃ b, p = Some b ∧ from_utf8 b = Some s.
Lemma from_raw_text {E} p s : c_text p s → from_raw (E:=E) p = Ok s.
Proof. intros (b & -> & Hs). unfold from_raw. cbn. by rewrite Hs. Qed.
Lemma c_string_Ok {E} s : has_nul s = false → c_string (E:=E) s = Ok s.
Proof. unfold c_string. by intros ->. Qed.

(** The callbacks implement the methods over the host [abs g]. *)
Definition c_succeeds (x : Z) (r : Result string unit) : Prop := match r with Ok _ => x ≠ 0 | _ => x = 0 end.
(** What a callback gives back when the state cannot be read: no pointer, no text, no result,
    an error, or the name of no state. *)
Inductive says_no_state : CPtr → Prop :=
| no_pointer : says_no_state None
| no_text b : from_utf8 b = None → says_no_state (Some b)
| no_result p json : c_text p json → state_from_json json = None → says_no_state p
| an_error p json e : c_text p json → state_from_json json = Some (inl e) → says_no_state p
| no_name p json name : c_text p json → state_from_json json = Some (inr (Some name)) →
    name ∉ ["open"; "closing"; "closed"] → says_no_state p.
Class GoImplements (abs : G → A) (ok : G → Prop) : Prop := {
  gi_state g c s : ok g → has_nul c = false → get_channel_state (abs g) c = Ok s →
    ∃ json, c_text (cb_get_channel_state g c) json ∧ state_from_json json = Some (inr (state_name <$> s));
  gi_state_failed g c : ok g → has_nul c = false → is_ok (get_channel_state (abs g) c) = false →
    says_no_state (cb_get_channel_state g c);
  gi_payment g c : ok g → has_nul c = false →
    let '(found, (balance, sig)) := cb_get_balance_and_signature_for_unilateral_exit g c in
    match get_balance_and_signature_for_unilateral_exit (abs g) c with
    | None => found = 0
    | Some p => found ≠ 0 ∧ balance = pp_balance p ∧ c_text sig (pp_signature p)
    end;
  gi_closing g c : ok g → has_nul c = false →
    let '(found, (expiry, balance, sig)) := cb_get_closing_data g c in
    match host_get_closing_data (abs g) c with
    | None => found = 0
    | Some d => found ≠ 0 ∧ expiry = cd_expiry_timestamp d ∧ balance = cd_balance d ∧ c_text sig (cd_signature d)
    end;
  gi_funding g c : ok g → has_nul c = false →
    let '((found, (p, pr, s, k)), g') := cb_get_funding_and_params g c in
    ok g' ∧ abs g' = (host_get_funding (abs g) c).2 ∧
    match (host_get_funding (abs g) c).1 with
    | None => found = 0
    | Some f => found ≠ 0 ∧ c_text p (params_json f) ∧ c_text pr (funding_proofs_json f) ∧
        c_text s (channel_secret_hex f) ∧ c_text k (keyset_info_json f)
    end;
  gi_due g c ctx : ok g → has_nul c = false →
    (cb_get_amount_due g c ctx).1 = (get_amount_due (abs g) c ctx).1 ∧
    ok (cb_get_amount_due g c ctx).2 ∧ abs (cb_get_amount_due g c ctx).2 = (get_amount_due (abs g) c ctx).2;
  gi_save g c f p : ok g → has_nul c = false →
    let g' := cb_save_funding g c (params_json f) (funding_proofs_json f) (channel_secret_hex f) (keyset_info_json f)
                (pp_balance p) (pp_signature p) in
    ok g' ∧ abs g' = host_save_funding (abs g) c f p;
  gi_record g c p ctx : ok g → has_nul c = false →
    let g' := cb_record_payment g c (pp_balance p) (pp_signature p) ctx in
    ok g' ∧ abs g' = record_payment (abs g) c p ctx;
  gi_mark_closing g c expiry p : ok g → has_nul c = false →
    let r := cb_mark_channel_closing g c expiry (pp_balance p) (pp_signature p) in
    c_succeeds r.1 (mark_channel_closing (abs g) c expiry p).1 ∧
    ok r.2 ∧ abs r.2 = (mark_channel_closing (abs g) c expiry p).2;
  gi_mark_closed g c expiry b rp sp rs ss : ok g → has_nul c = false →
    let r := cb_mark_channel_closed g c expiry b rp sp rs ss in
    c_succeeds r.1 (mark_channel_closed (abs g) c expiry b rp sp rs ss).1 ∧
    ok r.2 ∧ abs r.2 = (mark_channel_closed (abs g) c expiry b rp sp rs ss).2;
}.
(** The outcome of a command of the host, with the text that the binding gives every failure. *)
Definition outcome_or (failed : string) (r : Result string unit) : Result string unit :=
  match r with Ok _ => Ok tt | _ => Err failed end.
Lemma go_status_outcome failed x r : c_succeeds x r → go_status failed x = outcome_or failed r.
Proof.
  unfold c_succeeds, go_status, outcome_or. destruct r; intros Hx; [by rewrite (proj2 (Z.eqb_neq _ _) Hx)|by rewrite Hx..].
Qed.

Context (abs : G → A) (ok : G → Prop) `{!GoImplements abs ok}.
Lemma go_state_agrees g c s :
  ok g → has_nul c = false → get_channel_state (abs g) c = Ok s → go_get_channel_state state_from_json g c = Ok s.
Proof.
  intros Hg Hc Hs. destruct (gi_state g c s Hg Hc Hs) as (json & (b & Hb & Hj) & Hn).
  unfold go_get_channel_state. rewrite Hc, Hb. cbn. rewrite Hj. cbn. rewrite Hn. apply from_state_name.
Qed.
Lemma go_state_fails g c :
  says_no_state (cb_get_channel_state g c) → ∃ e, go_get_channel_state state_from_json g c = Err e.
Proof.
  unfold go_get_channel_state. destruct (has_nul c); [by eexists|].
  destruct 1 as [|b Hb|p json (b & -> & Hb) Hj|p json e (b & -> & Hb) Hj|p json name (b & -> & Hb) Hj Hn];
    [by eexists|rewrite Hb; cbn; try rewrite Hj; try (by eexists)..].
  cbn. unfold from_host_value. destruct (String.eqb_spec name "open") as [->|]; [by destruct Hn; left|].
  destruct (String.eqb_spec name "closing") as [->|]; [by destruct Hn; right; left|].
  destruct (String.eqb_spec name "closed") as [->|]; [by destruct Hn; right; right; left|]. by eexists.
Qed.
Lemma go_payment_agrees {E} g c :
  ok g → has_nul c = false →
  go_get_balance_and_signature_for_unilateral_exit (E:=E) g c
  = Ok (get_balance_and_signature_for_unilateral_exit (abs g) c).
Proof.
  intros Hg Hc. pose proof (gi_payment g c Hg Hc) as Hp.
  unfold go_get_balance_and_signature_for_unilateral_exit. rewrite c_string_Ok by done. cbn.
  destruct (cb_get_balance_and_signature_for_unilateral_exit g c) as [found [b sig]].
  destruct (get_balance_and_signature_for_unilateral_exit (abs g) c) as [[b' s']|]; [|by rewrite Hp].
  destruct Hp as (Hn & -> & Hs). rewrite (proj2 (Z.eqb_neq _ _) Hn). by rewrite (from_raw_text _ _ Hs).
Qed.
Lemma go_closing_agrees {E} g c :
  ok g → has_nul c = false → go_get_closing_data (E:=E) g c = Ok (host_get_closing_data (abs g) c).
Proof.
  intros Hg Hc. pose proof (gi_closing g c Hg Hc) as Hp. unfold go_get_closing_data. rewrite c_string_Ok by done. cbn.
  destruct (cb_get_closing_data g c) as [found [[t b] sig]].
  destruct (host_get_closing_data (abs g) c) as [[t' b' s']|]; [|by rewrite Hp].
  destruct Hp as (Hn & -> & -> & Hs). rewrite (proj2 (Z.eqb_neq _ _) Hn). by rewrite (from_raw_text _ _ Hs).
Qed.
Lemma go_funding_agrees {E} g c :
  ok g → has_nul c = false →
  ∃ g', go_get_funding (E:=E) c g = (Ok (host_get_funding (abs g) c).1, g') ∧
    ok g' ∧ abs g' = (host_get_funding (abs g) c).2.
Proof.
  intros Hg Hc. pose proof (gi_funding g c Hg Hc) as Hf. unfold go_get_funding. rewrite c_string_Ok by done.
  destruct (cb_get_funding_and_params g c) as [[found [[[p pr] s] k]] g']. destruct Hf as (Hg' & Ha & Hf).
  exists g'. split; [|done]. f_equal.
  destruct (host_get_funding (abs g) c).1 as [[p' pr' s' k']|]; [|by rewrite Hf].
  destruct Hf as (Hn & H1 & H2 & H3 & H4). rewrite (proj2 (Z.eqb_neq _ _) Hn).
  rewrite (from_raw_text _ _ H1). cbn. rewrite (from_raw_text _ _ H2). cbn. rewrite (from_raw_text _ _ H3). cbn.
  by rewrite (from_raw_text _ _ H4).
Qed.
Lemma go_due_agrees {E} g c ctx :
  ok g → has_nul c = false → match ctx with Some s => has_nul s = false | None => True end →
  ∃ g', go_get_amount_due (E:=E) c ctx g = (Ok (get_amount_due (abs g) c ctx).1, g') ∧
    ok g' ∧ abs g' = (get_amount_due (abs g) c ctx).2.
Proof.
  intros Hg Hc Hctx. destruct (gi_due g c ctx Hg Hc) as (Hd & Hg' & Ha).
  unfold go_get_amount_due, mbind, M_bind, lift, modify. rewrite c_string_Ok by done.
  assert (match ctx with Some s => Some <$> c_string (E:=E) s | None => Ok None end = Ok ctx) as ->.
  { destruct ctx as [s|]; [|done]. by rewrite c_string_Ok. }
  destruct (cb_get_amount_due g c ctx) as [d g']. exists g'. cbn in *. by rewrite Hd.
Qed.

(** A funding whose texts are C strings. *)
Definition c_funding (f : ChannelFunding) : Prop :=
  has_nul (params_json f) = false ∧ has_nul (funding_proofs_json f) = false ∧
  has_nul (channel_secret_hex f) = false ∧ has_nul (keyset_info_json f) = false.

(** C23: a Go receiver answers as the host it implements, as long as no text has a zero byte.
    For callbacks that implement a host, every method of the binding that concerns a channel
    returns what that host answers and leaves the state that host is left in. A channel state
    that the host cannot read is an error of the binding, never an unknown channel, and a
    command fails exactly when the host's does (with the binding's own text). *)
Theorem go_host_agrees g c :
  ok g → has_nul c = false →
  match get_channel_state (abs g) c with
  | Ok s => go_get_channel_state state_from_json g c = Ok s
  | _ => ∃ e, go_get_channel_state state_from_json g c = Err e
  end ∧
  go_get_balance_and_signature_for_unilateral_exit (E:=string) g c
    = Ok (get_balance_and_signature_for_unilateral_exit (abs g) c) ∧
  go_get_closing_data (E:=string) g c = Ok (host_get_closing_data (abs g) c) ∧
  (∃ g', go_get_funding (E:=string) c g = (Ok (host_get_funding (abs g) c).1, g') ∧
     ok g' ∧ abs g' = (host_get_funding (abs g) c).2) ∧
  (∀ ctx, match ctx with Some s => has_nul s = false | None => True end →
     ∃ g', go_get_amount_due (E:=string) c ctx g = (Ok (get_amount_due (abs g) c ctx).1, g') ∧
     ok g' ∧ abs g' = (get_amount_due (abs g) c ctx).2) ∧
  (∀ f p, c_funding f → has_nul (pp_signature p) = false →
     ∃ g', go_save_funding (E:=string) c f p g = (Ok tt, g') ∧ ok g' ∧ abs g' = host_save_funding (abs g) c f p) ∧
  (∀ p ctx, has_nul (pp_signature p) = false → has_nul ctx = false →
     ∃ g', go_record_payment (E:=string) c p ctx g = (Ok tt, g') ∧ ok g' ∧ abs g' = record_payment (abs g) c p ctx) ∧
  (∀ expiry p, has_nul (pp_signature p) = false →
     ∃ g', go_mark_channel_closing c expiry p g
             = (outcome_or "mark_channel_closing failed" (mark_channel_closing (abs g) c expiry p).1, g') ∧
     ok g' ∧ abs g' = (mark_channel_closing (abs g) c expiry p).2) ∧
  (∀ expiry b rp sp rs ss, has_nul rp = false → has_nul sp = false →
     ∃ g', go_mark_channel_closed c expiry b rp sp rs ss g
             = (outcome_or "mark_channel_closed failed" (mark_channel_closed (abs g) c expiry b rp sp rs ss).1, g') ∧
     ok g' ∧ abs g' = (mark_channel_closed (abs g) c expiry b rp sp rs ss).2).
Proof.
  intros Hg Hc. split_and!.
  - pose proof (gi_state_failed g c Hg Hc) as Hf.
    destruct (get_channel_state (abs g) c) as [s|e|] eqn:Hs; [by apply go_state_agrees|by apply go_state_fails, Hf..].
  - by apply go_payment_agrees.
  - by apply go_closing_agrees.
  - by apply go_funding_agrees.
  - intros ctx. by apply go_due_agrees.
  - intros f p (H1 & H2 & H3 & H4) Hs. destruct (gi_save g c f p Hg Hc) as (Hg' & Ha).
    unfold go_save_funding, mbind, M_bind, lift, modify. rewrite !c_string_Ok by done. by eexists.
  - intros p ctx Hs Hctx. destruct (gi_record g c p ctx Hg Hc) as (Hg' & Ha).
    unfold go_record_payment, mbind, M_bind, lift, modify. rewrite !c_string_Ok by done. by eexists.
  - intros expiry p Hs. destruct (gi_mark_closing g c expiry p Hg Hc) as (Ho & Hg' & Ha).
    unfold go_mark_channel_closing, mbind, M_bind, lift, modify. rewrite !c_string_Ok by done.
    destruct (cb_mark_channel_closing g c expiry _ _) as [x g']. cbn in *. exists g'. split; [|done].
    by rewrite (go_status_outcome _ _ _ Ho).
  - intros expiry b rp sp rs ss H1 H2. destruct (gi_mark_closed g c expiry b rp sp rs ss Hg Hc) as (Ho & Hg' & Ha).
    unfold go_mark_channel_closed, mbind, M_bind, lift, modify. rewrite !c_string_Ok by done.
    destruct (cb_mark_channel_closed g c expiry b rp sp rs ss) as [x g']. cbn in *. exists g'. split; [|done].
    by rewrite (go_status_outcome _ _ _ Ho).
Qed.
End go.

(** The mint that a sender names is handed to C unchecked: a zero byte in it aborts the
    process, for any callbacks. *)
Lemma go_mint_with_nul_aborts {T : CashuTypes} {O : CashuOps} {G E : Type} {GC : GoCallbacks G} (g : G) mint id :
  has_nul mint = true → go_mint_and_keyset_is_acceptable (E:=E) g mint id = Diverge.
Proof. intros Hn. unfold go_mint_and_keyset_is_acceptable, c_string. by rewrite Hn. Qed.
