(* ===== verification/ForeignClients.v ===== *)
(** * Senders written in other languages

    ([crates/cdk-spilman-python], [crates/cdk-wasm] and [crates/cdk-spilman-go], the
    implementations of [SpilmanClientHost] and [SpilmanClientNetworking].)

    The counterpart of [Foreign.v] for senders. Openings, failures and payment states cross
    the boundary as JSON; the derived serializers are a class. None of the three bindings
    implements the keyset cache of the trait, whose defaults find nothing and refuse to
    store. *)

From S2P Require Import Prelude Cashu Toy Amounts Params Deterministic Channel Mint Storage StorageSpec Host Close ClientStorage Funding ClientHost Client Networking Foreign.

(** The derived [Serialize] and [Deserialize] of what crosses the boundary. *)
Class ClientSerde := {
  opening_to_json : ClientChannelOpeningFromSwap → string;
  opening_from_json : string → Result string ClientChannelOpeningFromSwap;
  failure_to_json : ClientOpeningFailure → string;
  funding_from_json : string → Result string ClientChannelFunding;
  payment_state_to_json : ClientPaymentState → string;
  payment_state_from_json : string → Result string ClientPaymentState;
}.

Definition result_ok {E A} (r : Result E A) : option A := match r with Ok a => Some a | _ => None end.
(** The texts of the states that all three bindings read. *)
Definition client_state_from_text (s : string) : option ClientChannelState :=
  if bool_decide (s ∈ ["closed"; "Closed"]) then Some ClientClosed
  else if bool_decide (s ∈ ["closing"; "Closing"]) then Some ClientClosing
  else if bool_decide (s = "opening_from_swap") then Some OpeningFromSwap
  else if bool_decide (s = "opening_failed") then Some OpeningFailed
  else if bool_decide (s ∈ ["open"; "Open"]) then Some ClientOpen
  else None.
(** The default methods of the trait. *)
Definition default_set_keyset {G : Type} (g : G) : Result string unit * G :=
  (Err "client host does not support keyset caching", g).

(** ** Python ([PySpilmanClientHost], [PySpilmanClientNetworking]) *)

Section python.
Context {T : CashuTypes} {O : CashuOps} {SD : ClientSerde} `{PY : PyRuntime} {G : Type} {PG : PyObject G}.
Implicit Types g : G.

Definition py_client_command g (method : string) (args : list PyObj) : Result string unit * G :=
  let '(r, g') := py_call g method args in
  (match r with inr _ => Ok tt | inl e => Err (python_error_message e) end, g').
Definition pyc_save_opening g (channel_id : string) (opening : ClientChannelOpeningFromSwap) :=
  py_client_command g "save_opening_from_swap_channel" [py_of_str channel_id; py_of_str (opening_to_json opening)].
Definition pyc_mark_channel_open g (channel_id funding_proofs_json : string) :=
  py_client_command g "mark_channel_open" [py_of_str channel_id; py_of_str funding_proofs_json].
Definition pyc_mark_channel_opening_failed g (channel_id : string) (failure : ClientOpeningFailure) :=
  py_client_command g "mark_channel_opening_failed" [py_of_str channel_id; py_of_str (failure_to_json failure)].
(** A lookup whose failures are all an absence. *)
Definition py_lookup {A} (from_json : string → Result string A) g (method channel_id : string) : option A :=
  result ← sum_ok (py_query g method [py_of_str channel_id]);
  if py_is_none result then None
  else
    json_str ← sum_ok (extract_str result);
    result_ok (from_json json_str).
Definition pyc_get_channel_funding g (channel_id : string) : option ClientChannelFunding :=
  py_lookup funding_from_json g "get_channel_funding" channel_id.
Definition pyc_get_channel_opening g (channel_id : string) : Result string (option ClientChannelOpeningFromSwap) :=
  result ← sum_result python_error_message (py_query g "get_channel_opening_from_swap" [py_of_str channel_id]);
  if py_is_none result then Ok None
  else
    json_str ← sum_result python_error_message (extract_str result);
    Some <$> map_err (λ e, "invalid opening JSON from Python host: " +:+ e) (opening_from_json json_str).
Definition pyc_get_payment_state g (channel_id : string) : option ClientPaymentState :=
  py_lookup payment_state_from_json g "get_payment_state" channel_id.
Definition pyc_record_payment g (channel_id : string) (state : ClientPaymentState) :=
  py_client_command g "record_payment" [py_of_str channel_id; py_of_str (payment_state_to_json state)].
Definition pyc_get_channel_state g (channel_id : string) : option ClientChannelState :=
  match py_query g "get_channel_state" [py_of_str channel_id] with
  | inr result => sum_ok (extract_str result) ≫= client_state_from_text
  | inl _ => None
  end.
Definition pyc_mark_channel_closing g (channel_id : string) :=
  py_client_command g "mark_channel_closing" [py_of_str channel_id].
Definition pyc_mark_channel_closed g (channel_id : string) :=
  py_client_command g "mark_channel_closed" [py_of_str channel_id].
Definition pyc_list_channel_ids g : list string :=
  sum_or [] (sum_bind (py_query g "list_channel_ids" []) extract_strs).
Definition pyc_delete_channel g (channel_id : string) := py_client_command g "delete_channel" [py_of_str channel_id].
Definition pyc_now_seconds g : Z := sum_or 0 (sum_bind (py_query g "now_seconds" []) extract_u64).
Definition pyc_sign_with_tweaked_key g (signer_pubkey_hex message_hex tweak_scalar_hex : string) : Result string string :=
  py_text g "sign_with_tweaked_key" [py_of_str signer_pubkey_hex; py_of_str message_hex; py_of_str tweak_scalar_hex].
Definition pyc_compute_channel_secret g (sender_pubkey_hex receiver_pubkey_hex : string) : Result string string :=
  py_text g "compute_channel_secret" [py_of_str sender_pubkey_hex; py_of_str receiver_pubkey_hex].

#[export] Instance python_client_host : SpilmanClientHost G := {|
  save_opening_from_swap_channel := pyc_save_opening;
  mark_channel_open := pyc_mark_channel_open;
  get_channel_opening_from_swap := pyc_get_channel_opening;
  mark_channel_opening_failed := pyc_mark_channel_opening_failed;
  get_channel_funding := pyc_get_channel_funding;
  ch_get_payment_state := pyc_get_payment_state;
  client_record_payment := pyc_record_payment;
  client_channel_state := pyc_get_channel_state;
  client_mark_closed := pyc_mark_channel_closed;
  client_mark_closing := pyc_mark_channel_closing;
  ch_list_channel_ids := pyc_list_channel_ids;
  delete_channel := pyc_delete_channel;
  ch_get_keyset _ _ _ := None;
  ch_set_keyset g _ _ _ := default_set_keyset g;
  ch_active_keyset_ids _ _ _ := [];
  ch_list_keysets_for_unit _ _ _ := [];
  client_now := pyc_now_seconds;
  client_compute_channel_secret := pyc_compute_channel_secret;
  client_sign_with_tweaked_key := pyc_sign_with_tweaked_key;
|}.

(** The networking has its own reference to the object; its state is its own here. *)
Context (response_from_json : string → option MintResponse).
Context (nut00_from_json : string → option (Z * string)).
Definition py_mint_call (method : string) (args : list PyObj) : M G MintRequestError string := λ g,
  let '(r, g') := py_call g method args in
  (from_callback response_from_json nut00_from_json
     match r with
     | inr result => sum_result pyerr_to_string (extract_str result)
     | inl e => Err (python_error_message e)
     end, g').
#[export] Instance python_client_networking : SpilmanClientNetworking G := {|
  call_mint_swap mint_url body := py_mint_call "call_mint_swap" [py_of_str mint_url; py_of_str body];
  call_mint_restore mint_url body := py_mint_call "call_mint_restore" [py_of_str mint_url; py_of_str body];
  call_mint_keysets mint_url := py_mint_call "call_mint_keysets" [py_of_str mint_url];
  call_mint_keys mint_url keyset_id := py_mint_call "call_mint_keys" [py_of_str mint_url; py_of_str keyset_id];
|}.
End python.

(** ** JavaScript ([WasmSpilmanClientHostProxy], [WasmSpilmanClientAsyncNetworkingProxy]) *)

Class JsClientObject (G : Type) `{!JsRuntime} := {
  jsc_save_opening : G → string → string → (JsValue + unit) * G;
  jsc_mark_channel_open : G → string → string → (JsValue + unit) * G;
  jsc_mark_channel_opening_failed : G → string → string → (JsValue + unit) * G;
  jsc_get_channel_funding : G → string → JsValue;
  jsc_get_channel_opening : G → string → JsValue + JsValue;
  jsc_get_payment_state : G → string → JsValue;
  jsc_record_payment : G → string → string → (JsValue + unit) * G;
  jsc_get_channel_state : G → string → string;
  jsc_mark_channel_closing : G → string → (JsValue + unit) * G;
  jsc_mark_channel_closed : G → string → (JsValue + unit) * G;
  jsc_list_channel_ids : G → JsValue;
  jsc_delete_channel : G → string → (JsValue + unit) * G;
  jsc_now_seconds : G → Z;
  jsc_sign_with_tweaked_key : G → string → string → string → JsValue + string;
  jsc_compute_channel_secret : G → string → string → JsValue + string;
  jsc_call_mint_swap : G → string → string → (JsValue + JsValue) * G;
  jsc_call_mint_restore : G → string → string → (JsValue + JsValue) * G;
  jsc_call_mint_keysets : G → string → (JsValue + JsValue) * G;
  jsc_call_mint_keys : G → string → string → (JsValue + JsValue) * G;
}.

Section wasm.
Context {T : CashuTypes} {O : CashuOps} {SD : ClientSerde} `{JS : JsRuntime} {G : Type} {JG : JsClientObject G}.
Implicit Types g : G.

Definition js_lookup {A} (from_json : string → Result string A) (val : JsValue) : option A :=
  if js_absent val then None
  else
    json_str ← as_string val;
    result_ok (from_json json_str).
Definition wasmc_get_channel_opening g (channel_id : string) : Result string (option ClientChannelOpeningFromSwap) :=
  val ← sum_result js_error_to_string (jsc_get_channel_opening g channel_id);
  if js_absent val then Ok None
  else
    json_str ← ok_or "getChannelOpeningFromSwap must return a string or null" (as_string val);
    Some <$> map_err (λ e, "invalid opening JSON from JavaScript host: " +:+ e) (opening_from_json json_str).

#[export] Instance wasm_client_host : SpilmanClientHost G := {|
  save_opening_from_swap_channel g c opening := js_command (jsc_save_opening g c (opening_to_json opening));
  mark_channel_open g c proofs := js_command (jsc_mark_channel_open g c proofs);
  get_channel_opening_from_swap := wasmc_get_channel_opening;
  mark_channel_opening_failed g c failure := js_command (jsc_mark_channel_opening_failed g c (failure_to_json failure));
  get_channel_funding g c := js_lookup funding_from_json (jsc_get_channel_funding g c);
  ch_get_payment_state g c := js_lookup payment_state_from_json (jsc_get_payment_state g c);
  client_record_payment g c state := js_command (jsc_record_payment g c (payment_state_to_json state));
  client_channel_state g c := client_state_from_text (jsc_get_channel_state g c);
  client_mark_closed g c := js_command (jsc_mark_channel_closed g c);
  client_mark_closing g c := js_command (jsc_mark_channel_closing g c);
  ch_list_channel_ids g := omap as_string (array_from (jsc_list_channel_ids g));
  delete_channel g c := js_command (jsc_delete_channel g c);
  ch_get_keyset _ _ _ := None;
  ch_set_keyset g _ _ _ := default_set_keyset g;
  ch_active_keyset_ids _ _ _ := [];
  ch_list_keysets_for_unit _ _ _ := [];
  client_now := jsc_now_seconds;
  client_compute_channel_secret g s r := sum_result js_error_to_string (jsc_compute_channel_secret g s r);
  client_sign_with_tweaked_key g k m t := sum_result js_error_to_string (jsc_sign_with_tweaked_key g k m t);
|}.

Context (response_from_json : string → option MintResponse).
Context (nut00_from_json : string → option (Z * string)).
(** An awaited promise. *)
Definition js_mint_call (m : G → (JsValue + JsValue) * G) : M G MintRequestError string := λ g,
  let '(r, g') := m g in
  (from_callback response_from_json nut00_from_json
     (v ← sum_result js_error_to_string r; ok_or "Result not a string" (as_string v)), g').
#[export] Instance wasm_client_networking : SpilmanClientNetworking G := {|
  call_mint_swap mint_url body := js_mint_call (λ g, jsc_call_mint_swap g mint_url body);
  call_mint_restore mint_url body := js_mint_call (λ g, jsc_call_mint_restore g mint_url body);
  call_mint_keysets mint_url := js_mint_call (λ g, jsc_call_mint_keysets g mint_url);
  call_mint_keys mint_url keyset_id := js_mint_call (λ g, jsc_call_mint_keys g mint_url keyset_id);
|}.
End wasm.
(** [WasmDummyNetworking]: what the synchronous bridge is given. *)
Definition wasm_dummy_networking {N : Type} : SpilmanClientNetworking N := {|
  call_mint_swap _ _ := lift (Err (Transport "Sync networking not supported in WASM; use openChannelFromTokenAsync"));
  call_mint_restore _ _ := lift (Err (Transport "Sync networking not supported in WASM; use async restore"));
  call_mint_keysets _ := lift (Err (Transport "Sync networking not supported in WASM; use async keyset fetch"));
  call_mint_keys _ _ := lift (Err (Transport "Sync networking not supported in WASM; use async keyset fetch"));
|}.

(** ** Go ([CGoSpilmanClientHost], [CGoSpilmanClientNetworking]) *)

Class GoClientCallbacks (G : Type) := {
  gcb_save_opening : G → string → string → (Z * CPtr) * G;
  gcb_mark_channel_open : G → string → string → (Z * CPtr) * G;
  gcb_mark_channel_opening_failed : G → string → string → (Z * CPtr) * G;
  gcb_get_channel_funding : G → string → CPtr;
  gcb_get_channel_opening : G → string → Z * CPtr;
  gcb_get_payment_state : G → string → CPtr;
  gcb_record_payment : G → string → string → (Z * CPtr) * G;
  gcb_get_channel_state : G → string → CPtr;
  gcb_mark_channel_closing : G → string → (Z * CPtr) * G;
  gcb_mark_channel_closed : G → string → (Z * CPtr) * G;
  gcb_list_channel_ids : G → CPtr;
  gcb_delete_channel : G → string → (Z * CPtr) * G;
  gcb_now_seconds : G → Z;
  gcb_sign_with_tweaked_key : G → string → string → string → Z * CPtr;
  gcb_compute_channel_secret : G → string → string → Z * CPtr;
  gcb_call_mint_swap : G → string → string → (Z * CPtr) * G;
  gcb_call_mint_restore : G → string → string → (Z * CPtr) * G;
  gcb_call_mint_keysets : G → string → (Z * CPtr) * G;
  gcb_call_mint_keys : G → string → string → (Z * CPtr) * G;
}.

Section go.
Context {T : CashuTypes} {O : CashuOps} {SD : ClientSerde} {G : Type} {GC : GoClientCallbacks G}.
(** [serde_json::from_str::<Vec<String>>]. *)
Context (strings_from_json : string → option (list string)).
Implicit Types g : G.

Definition callback_result (r : Z * CPtr) (default_ok : string) : Result string unit :=
  if negb (r.1 =? 0) then Ok tt
  else match r.2 with
       | None => Err default_ok
       | Some _ as ptr => message ← from_raw ptr; Err message
       end.
(** A command on a channel, with one more text or none. *)
Definition goc_command (channel_id : string) (text : option string) (name : string)
    (callback : G → string → string → (Z * CPtr) * G) : M G string unit :=
  id_c ← lift (c_string channel_id);
  text_c ← lift match text with Some s => c_string s | None => Ok "" end;
  r ← modify (λ g, callback g id_c text_c);
  lift (callback_result r (name +:+ " failed")).
Definition goc_save_opening (channel_id : string) (opening : ClientChannelOpeningFromSwap) : M G string unit :=
  goc_command channel_id (Some (opening_to_json opening)) "save_opening_from_swap_channel" gcb_save_opening.
Definition goc_mark_channel_open (channel_id funding_proofs_json : string) : M G string unit :=
  goc_command channel_id (Some funding_proofs_json) "mark_channel_open" gcb_mark_channel_open.
Definition goc_mark_channel_opening_failed (channel_id : string) (failure : ClientOpeningFailure) : M G string unit :=
  goc_command channel_id (Some (failure_to_json failure)) "mark_channel_opening_failed" gcb_mark_channel_opening_failed.
Definition goc_record_payment (channel_id : string) (state : ClientPaymentState) : M G string unit :=
  goc_command channel_id (Some (payment_state_to_json state)) "record_payment" gcb_record_payment.
Definition goc_mark_channel_closing (channel_id : string) : M G string unit :=
  goc_command channel_id None "mark_channel_closing" (λ g c _, gcb_mark_channel_closing g c).
Definition goc_mark_channel_closed (channel_id : string) : M G string unit :=
  goc_command channel_id None "mark_channel_closed" (λ g c _, gcb_mark_channel_closed g c).
Definition goc_delete_channel (channel_id : string) : M G string unit :=
  goc_command channel_id None "delete_channel" (λ g c _, gcb_delete_channel g c).
Definition go_lookup {E A} (from_json : string → Result string A) (channel_id : string) (callback : string → CPtr) :
    Result E (option A) :=
  id_c ← c_string channel_id;
  match callback id_c with
  | None => Ok None
  | Some _ as ptr => json_str ← from_raw ptr; Ok (result_ok (from_json json_str))
  end.
Definition goc_get_channel_funding {E} g (channel_id : string) : Result E (option ClientChannelFunding) :=
  go_lookup funding_from_json channel_id (gcb_get_channel_funding g).
Definition goc_get_payment_state {E} g (channel_id : string) : Result E (option ClientPaymentState) :=
  go_lookup payment_state_from_json channel_id (gcb_get_payment_state g).
Definition goc_get_channel_opening g (channel_id : string) : Result string (option ClientChannelOpeningFromSwap) :=
  id_c ← c_string channel_id;
  let '(ok, response_ptr) := gcb_get_channel_opening g id_c in
  if ok =? 0 then
    match response_ptr with
    | None => Err "get_channel_opening_from_swap failed"
    | Some _ as ptr => message ← from_raw ptr; Err message
    end
  else
    match response_ptr with
    | None => Ok None
    | Some b =>
        json_str ← ok_or "invalid UTF-8 opening response: C string contained non-utf8 bytes" (from_utf8 b);
        Some <$> map_err (λ e, "invalid opening JSON from Go host: " +:+ e) (opening_from_json json_str)
    end.
(** A state that is not UTF-8 reads as the empty text. *)
Definition goc_get_channel_state {E} g (channel_id : string) : Result E (option ClientChannelState) :=
  id_c ← c_string channel_id;
  match gcb_get_channel_state g id_c with
  | None => Ok None
  | Some b => Ok (client_state_from_text (default "" (from_utf8 b)))
  end.
Definition goc_list_channel_ids {E} g : Result E (list string) :=
  match gcb_list_channel_ids g with
  | None => Ok []
  | Some _ as ptr => json ← from_raw ptr; Ok (default [] (strings_from_json json))
  end.
Definition goc_sign_with_tweaked_key g (signer_pubkey_hex message_hex tweak_scalar_hex : string) : Result string string :=
  pubkey_c ← c_string signer_pubkey_hex;
  msg_c ← c_string message_hex;
  tweak_c ← c_string tweak_scalar_hex;
  go_text (gcb_sign_with_tweaked_key g pubkey_c msg_c tweak_c).
Definition goc_compute_channel_secret g (sender_pubkey_hex receiver_pubkey_hex : string) : Result string string :=
  alice_c ← c_string sender_pubkey_hex;
  charlie_c ← c_string receiver_pubkey_hex;
  go_text (gcb_compute_channel_secret g alice_c charlie_c).

Context (response_from_json : string → option MintResponse).
Context (nut00_from_json : string → option (Z * string)).
Definition go_mint_call (mint_url arg : string) (callback : G → string → string → (Z * CPtr) * G) :
    M G MintRequestError string :=
  mint_c ← lift (c_string mint_url);
  arg_c ← lift (c_string arg);
  r ← modify (λ g, callback g mint_c arg_c);
  lift (from_callback response_from_json nut00_from_json (go_text r)).
#[export] Instance go_client_networking : SpilmanClientNetworking G := {|
  call_mint_swap mint_url body := go_mint_call mint_url body gcb_call_mint_swap;
  call_mint_restore mint_url body := go_mint_call mint_url body gcb_call_mint_restore;
  call_mint_keysets mint_url := go_mint_call mint_url "" (λ g m _, gcb_call_mint_keysets g m);
  call_mint_keys mint_url keyset_id := go_mint_call mint_url keyset_id gcb_call_mint_keys;
|}.
End go.
