(* ===== verification/ForeignClientProofs.v ===== *)
(** * Theorems about senders written in other languages ([ForeignClients.v])

    A Python or JavaScript application whose callbacks implement a sender's host simulates
    it, so that the theorems of [ClientProofs.v] hold for it. *)

From S2P Require Import Prelude Cashu Toy Amounts Params SwapCompletion Deterministic Channel Mint Storage StorageSpec Host Close ClientStorage ClientStorageSpec Funding FundingProofs ClientHost Client ClientProofs Networking Foreign ForeignProofs ForeignClients.

(** ** Simulation of a sender's host *)

Section simulation.
Context {T : CashuTypes} {O : CashuOps} {W : OpeningOps} {G A : Type} {SG : SpilmanClientHost G} {SA : SpilmanClientHost A}.

(** Signatures may be refused with other words. *)
Class ClientHostSim (abs : G → A) (ok : G → Prop) : Prop := {
  csim_exec g c cmd : ok g →
    same_outcome (host_exec g c cmd).1 (host_exec (abs g) c cmd).1 ∧
    ok (host_exec g c cmd).2 ∧ abs (host_exec g c cmd).2 = (host_exec (abs g) c cmd).2;
  csim_opening g c o : ok g → get_channel_opening_from_swap (abs g) c = Ok o → get_channel_opening_from_swap g c = Ok o;
  csim_funding g c : ok g → get_channel_funding g c = get_channel_funding (abs g) c;
  csim_state g c : ok g → client_channel_state g c = client_channel_state (abs g) c;
  csim_payment g c : ok g → ch_get_payment_state g c = ch_get_payment_state (abs g) c;
  csim_sign g pk m t s : ok g →
    client_sign_with_tweaked_key g pk m t = Ok s ↔ client_sign_with_tweaked_key (abs g) pk m t = Ok s;
  csim_keyset g m i e : ok g → (ch_set_keyset g m i e).2 = g;
}.

Context (abs : G → A) (ok : G → Prop) {HA : ClientHostSpec A} {HSIM : ClientHostSim abs ok}.
#[program] Definition client_sim_spec : ClientHostSpec G := {|
  chost_wf g := ok g ∧ chost_wf (abs g);
  chost_channel g := chost_channel (abs g);
  chost_key g := chost_key (abs g);
|}.
Next Obligation.
  intros g c cmd [Hg Hwf] Hdom. destruct (csim_exec g c cmd Hg) as (Ho & Hg' & Ha). cbv zeta. rewrite Ha.
  destruct (chost_exec_spec (abs g) c cmd Hwf Hdom) as (Hwf' & Hk & Hst & Hd). split_and!; try done.
  destruct (client_step cmd _).
  - destruct Hst as [Hr Hv]. by rewrite Hr in Ho.
  - destruct Hst as [[e Hr] Hv]. by rewrite Hr in Ho.
Qed.
Next Obligation. intros g c [Hg Hwf]. apply csim_opening; [done|]. by apply chost_opening. Qed.
Next Obligation. intros g c [Hg Hwf]. rewrite csim_funding by done. by apply chost_funding. Qed.
Next Obligation. intros g c [Hg Hwf]. rewrite csim_state by done. by apply chost_state. Qed.
Next Obligation. intros g c [Hg Hwf]. rewrite csim_payment by done. by apply chost_payment. Qed.
Next Obligation. intros g m i e [Hg Hwf]. cbv zeta. by rewrite csim_keyset. Qed.
Next Obligation. intros g pk secret m t s [Hg Hwf] Hk Hs. apply csim_sign in Hs; [|done]. by eapply chost_sign. Qed.
Next Obligation.
  intros g pk m t [Hg Hwf] Hk. pose proof (chost_no_key (abs g) pk m t Hwf Hk) as Hno.
  destruct (client_sign_with_tweaked_key g pk m t) as [s|e|] eqn:Hs; [|done..].
  apply csim_sign in Hs; [|done]. by rewrite Hs in Hno.
Qed.
Next Obligation. intros g pk secret [Hg Hwf] Hk. by apply (chost_key_ok (abs g)). Qed.
End simulation.

(** The texts of the states. *)
Definition client_state_name (s : ClientChannelState) : string :=
  match s with
  | OpeningFromSwap => "opening_from_swap" | OpeningFailed => "opening_failed"
  | ClientOpen => "open" | ClientClosing => "closing" | ClientClosed => "closed"
  end.
Lemma client_state_of_name s : client_state_from_text (from_option client_state_name "" s) = s.
Proof. by destruct s as [[]|]. Qed.

(** ** Python *)

Section python.
Context {T : CashuTypes} {O : CashuOps} {W : OpeningOps} {SD : ClientSerde}.
Context `{PY : PyRuntime} {G A : Type} {PG : PyObject G} {SA : SpilmanClientHost A}.
Implicit Types g : G.

(** The method of a command, with its arguments. *)
Definition py_method (c : string) (cmd : ClientCommand) : string * list PyObj :=
  match cmd with
  | SaveOpening o => ("save_opening_from_swap_channel", [py_of_str c; py_of_str (opening_to_json o)])
  | SetOpen proofs => ("mark_channel_open", [py_of_str c; py_of_str proofs])
  | SetOpeningFailed fl => ("mark_channel_opening_failed", [py_of_str c; py_of_str (failure_to_json fl)])
  | SavePayment st => ("record_payment", [py_of_str c; py_of_str (payment_state_to_json st)])
  | SetClosed => ("mark_channel_closed", [py_of_str c])
  | SetClosing => ("mark_channel_closing", [py_of_str c])
  | Delete => ("delete_channel", [py_of_str c])
  end.
Lemma python_exec g c cmd : host_exec g c cmd = py_client_command g (py_method c cmd).1 (py_method c cmd).2.
Proof. by destruct cmd. Qed.
(** None, or a text that decodes to the value. *)
Definition says_json {X} (from_json : string → Result string X) (r : option X) (o : PyObj) : Prop :=
  match r with
  | None => py_is_none o = true
  | Some x => py_is_none o = false ∧ ∃ text, extract_str o = inr text ∧ from_json text = Ok x
  end.

Class PyClientImplements (abs : G → A) (ok : G → Prop) : Prop := {
  pc_exec g c cmd : ok g →
    ∃ r g', py_call g (py_method c cmd).1 (py_method c cmd).2 = (r, g') ∧
      raises_iff_error r (host_exec (abs g) c cmd).1 ∧ ok g' ∧ abs g' = (host_exec (abs g) c cmd).2;
  pc_opening g c r : ok g → get_channel_opening_from_swap (abs g) c = Ok r →
    ∃ o, py_query g "get_channel_opening_from_swap" [py_of_str c] = inr o ∧ says_json opening_from_json r o;
  pc_funding g c : ok g →
    ∃ o, py_query g "get_channel_funding" [py_of_str c] = inr o ∧
      says_json funding_from_json (get_channel_funding (abs g) c) o;
  pc_payment g c : ok g →
    ∃ o, py_query g "get_payment_state" [py_of_str c] = inr o ∧
      says_json payment_state_from_json (ch_get_payment_state (abs g) c) o;
  pc_state g c : ok g →
    ∃ o, py_query g "get_channel_state" [py_of_str c] = inr o ∧
      extract_str o = inr (from_option client_state_name "" (client_channel_state (abs g) c));
  pc_sign g pk m t : ok g →
    match client_sign_with_tweaked_key (abs g) pk m t with
    | Ok s => ∃ o, py_query g "sign_with_tweaked_key" [py_of_str pk; py_of_str m; py_of_str t] = inr o ∧ extract_str o = inr s
    | _ => ∃ e, py_query g "sign_with_tweaked_key" [py_of_str pk; py_of_str m; py_of_str t] = inl e
    end;
}.
Lemma py_lookup_eq {X} (from_json : string → Result string X) g method c r o :
  py_query g method [py_of_str c] = inr o → says_json from_json r o → py_lookup from_json g method c = r.
Proof.
  intros Hq Ho. unfold py_lookup. rewrite Hq. cbn. destruct r as [x|]; cbn in Ho; [|by rewrite Ho].
  destruct Ho as (-> & text & -> & Hj). cbn. by rewrite Hj.
Qed.
#[export] Instance python_client_simulates (abs : G → A) (ok : G → Prop) `{!PyClientImplements abs ok} : ClientHostSim abs ok.
Proof.
  split.
  - intros g c cmd Hg. destruct (pc_exec g c cmd Hg) as (r & g' & Hq & Hr & Hg' & Ha).
    rewrite python_exec. unfold py_client_command. rewrite Hq. split; [|done]. cbn.
    unfold raises_iff_error, same_outcome in *. destruct (host_exec (abs g) c cmd).1;
      [destruct Hr as [o ->]|destruct Hr as [x ->]..]; eauto.
  - intros g c r Hg Hr. destruct (pc_opening g c r Hg Hr) as (o & Hq & Ho).
    cbn [get_channel_opening_from_swap python_client_host]. unfold pyc_get_channel_opening. rewrite Hq. cbn.
    destruct r as [x|]; cbn in Ho; [|by rewrite Ho]. destruct Ho as (-> & text & -> & Hj). cbn. by rewrite Hj.
  - intros g c Hg. destruct (pc_funding g c Hg) as (o & Hq & Ho). by eapply py_lookup_eq.
  - intros g c Hg. destruct (pc_state g c Hg) as (o & Hq & Ho).
    cbn [client_channel_state python_client_host]. unfold pyc_get_channel_state. rewrite Hq, Ho. apply client_state_of_name.
  - intros g c Hg. destruct (pc_payment g c Hg) as (o & Hq & Ho). by eapply py_lookup_eq.
  - intros g pk m t s Hg. pose proof (pc_sign g pk m t Hg) as Hs.
    cbn [client_sign_with_tweaked_key python_client_host]. unfold pyc_sign_with_tweaked_key, py_text.
    destruct (client_sign_with_tweaked_key (abs g) pk m t) as [s'|e|].
    + destruct Hs as (o & -> & Ho). cbn. rewrite Ho. cbn. split; congruence.
    + destruct Hs as (x & ->). cbn. split; congruence.
    + destruct Hs as (x & ->). cbn. split; congruence.
  - done.
Qed.
End python.

(** A sender in Python never loses its inputs: the theorem about openings, for the host that
    the Python object implements. *)
Theorem python_opening_never_loses_inputs {T : CashuTypes} {O : CashuOps} {W : OpeningOps} {SD : ClientSerde}
    `{PY : PyRuntime} {G A N : Type} {PG : PyObject G} {SA : SpilmanClientHost A} {HA : ClientHostSpec A}
    {NW : SpilmanClientNetworking N} meta now rnd mode (abs : G → A) (ok : G → Prop) `{!PyClientImplements abs ok}
    (req : OpenRequest) (x : G * N) r y :
  ok x.1 → chost_wf (abs x.1) → open_channel meta now rnd mode req x = (r, y) →
  chost_wf (abs y.1) ∧
  (∀ c, live (chost_channel (abs x.1) c) = true → chost_channel (abs y.1) c = chost_channel (abs x.1) c) ∧
  (∀ e, r = Err e → input_may_be_spent e = false → harmless x.2 y.2) ∧
  ((harmless x.2 y.2 ∧ is_ok r = false) ∨
   ∃ prepared n answer n',
     well_prepared prepared ∧ live (chost_channel (abs x.1) (po_channel_id prepared)) = false ∧
     harmless x.2 n ∧
     call_mint_swap (po_mint_url prepared) (po_swap_request_json prepared) n = (answer, n') ∧
     harmless n' y.2 ∧ on_record (HH:=client_sim_spec abs ok) prepared answer y.1 r).
Proof.
  intros Hg Hwf Ho.
  pose proof (open_channel_settled (HH:=client_sim_spec abs ok) meta now rnd mode req x (conj Hg Hwf)) as (Hwf' & Hk & Hor).
  rewrite Ho in *. cbn [fst snd] in *. split_and!; [apply Hwf'|exact Hk| |exact Hor]. intros e -> He.
  destruct Hor as [[? _]|(pr & n & an & n' & _ & _ & _ & _ & _ & Hs & _)]; [done|]. by rewrite Hs in He.
Qed.

(** ** JavaScript *)

Section wasm.
Context {T : CashuTypes} {O : CashuOps} {W : OpeningOps} {SD : ClientSerde}.
Context `{JS : JsRuntime} {G A : Type} {JG : JsClientObject G} {SA : SpilmanClientHost A}.
Implicit Types g : G.

Definition js_method g (c : string) (cmd : ClientCommand) : (JsValue + unit) * G :=
  match cmd with
  | SaveOpening o => jsc_save_opening g c (opening_to_json o)
  | SetOpen proofs => jsc_mark_channel_open g c proofs
  | SetOpeningFailed fl => jsc_mark_channel_opening_failed g c (failure_to_json fl)
  | SavePayment st => jsc_record_payment g c (payment_state_to_json st)
  | SetClosed => jsc_mark_channel_closed g c
  | SetClosing => jsc_mark_channel_closing g c
  | Delete => jsc_delete_channel g c
  end.
Lemma wasm_exec g c cmd : host_exec g c cmd = js_command (js_method g c cmd).
Proof. by destruct cmd. Qed.
Definition js_says_json {X} (from_json : string → Result string X) (r : option X) (v : JsValue) : Prop :=
  match r with
  | None => js_absent v = true
  | Some x => js_absent v = false ∧ ∃ text, as_string v = Some text ∧ from_json text = Ok x
  end.
Class JsClientImplements (abs : G → A) (ok : G → Prop) : Prop := {
  jc_exec g c cmd : ok g →
    throws_iff_error (js_method g c cmd).1 (host_exec (abs g) c cmd).1 ∧
    ok (js_method g c cmd).2 ∧ abs (js_method g c cmd).2 = (host_exec (abs g) c cmd).2;
  jc_opening g c r : ok g → get_channel_opening_from_swap (abs g) c = Ok r →
    ∃ v, jsc_get_channel_opening g c = inr v ∧ js_says_json opening_from_json r v;
  jc_funding g c : ok g → js_says_json funding_from_json (get_channel_funding (abs g) c) (jsc_get_channel_funding g c);
  jc_payment g c : ok g → js_says_json payment_state_from_json (ch_get_payment_state (abs g) c) (jsc_get_payment_state g c);
  jc_state g c : ok g → jsc_get_channel_state g c = from_option client_state_name "" (client_channel_state (abs g) c);
  jc_sign g pk m t : ok g →
    match client_sign_with_tweaked_key (abs g) pk m t with
    | Ok s => jsc_sign_with_tweaked_key g pk m t = inr s
    | _ => ∃ e, jsc_sign_with_tweaked_key g pk m t = inl e
    end;
}.
Lemma js_lookup_eq {X} (from_json : string → Result string X) r v :
  js_says_json from_json r v → js_lookup from_json v = r.
Proof.
  intros Ho. unfold js_lookup. destruct r as [x|]; cbn in Ho; [|by rewrite Ho].
  destruct Ho as (-> & text & -> & Hj). cbn. by rewrite Hj.
Qed.
#[export] Instance wasm_client_simulates (abs : G → A) (ok : G → Prop) `{!JsClientImplements abs ok} : ClientHostSim abs ok.
Proof.
  split.
  - intros g c cmd Hg. destruct (jc_exec g c cmd Hg) as (Hr & Hg' & Ha). rewrite wasm_exec.
    destruct (js_command_same _ _ Hr) as [? ->]. done.
  - intros g c r Hg Hr. destruct (jc_opening g c r Hg Hr) as (v & Hq & Ho).
    cbn [get_channel_opening_from_swap wasm_client_host]. unfold wasmc_get_channel_opening. rewrite Hq. cbn.
    destruct r as [x|]; cbn in Ho; [|by rewrite Ho]. destruct Ho as (-> & text & -> & Hj). cbn. by rewrite Hj.
  - intros g c Hg. exact (js_lookup_eq _ _ _ (jc_funding g c Hg)).
  - intros g c Hg. cbn [client_channel_state wasm_client_host]. rewrite (jc_state g c Hg). apply client_state_of_name.
  - intros g c Hg. exact (js_lookup_eq _ _ _ (jc_payment g c Hg)).
  - intros g pk m t s Hg. pose proof (jc_sign g pk m t Hg) as Hs. cbn [client_sign_with_tweaked_key wasm_client_host].
    destruct (client_sign_with_tweaked_key (abs g) pk m t) as [s'|e|].
    + rewrite Hs. cbn. split; congruence.
    + destruct Hs as (x & ->). cbn. split; congruence.
    + destruct Hs as (x & ->). cbn. split; congruence.
  - done.
Qed.
End wasm.
