(* ===== verification/ForeignExamples.v ===== *)
(** * Receivers in other languages on concrete inputs

    A small model of Python values, and any host exported as a Python object: the theorems of
    [ForeignProofs.v] for the host of [Bridge.Examples] behind the Python binding, and for a
    fixed answer behind the Go binding. *)

From S2P Require Import Prelude Cashu Toy Amounts Params SwapCompletion Deterministic Channel Mint Storage StorageSpec StorageMemory Host Bridge Close ClientStorage Networking NetworkingProofs Foreign ForeignProofs.

(** ** Python values *)

Inductive PyVal :=
| PyNone
| PyBool (b : bool)
| PyInt (n : Z)
| PyStr (s : string)
| PyTup (l : list PyVal)
| PyDict (l : list (string * PyVal)).
#[local] Instance py_runtime : PyRuntime := {|
  PyObj := PyVal;
  PyErr := string;
  py_of_str := PyStr;
  py_of_int := PyInt;
  py_of_opt_str o := match o with Some s => PyStr s | None => PyNone end;
  py_is_none v := match v with PyNone => true | _ => false end;
  extract_bool v := match v with PyBool b => inr b | _ => inl "TypeError" end;
  extract_u64 v := match v with PyInt n => inr n | _ => inl "TypeError" end;
  extract_str v := match v with PyStr s => inr s | _ => inl "TypeError" end;
  extract_opt_str v := match v with PyStr s => inr (Some s) | PyNone => inr None | _ => inl "TypeError" end;
  extract_strs v := inl "TypeError";
  extract_policy v :=
    match v with
    | PyTup [PyInt e; PyInt c; PyInt m] => inr (e, c, Some m)
    | PyTup [PyInt e; PyInt c; PyNone] => inr (e, c, None)
    | _ => inl "TypeError"
    end;
  cast_tuple v := match v with PyTup l => Some l | _ => None end;
  py_getattr v name := if String.eqb name "__class__" then inr (PyStr "class") else inl "AttributeError";
  py_getitem v name :=
    match v with
    | PyDict l => match List.find (λ e, String.eqb e.1 name) l with Some e => inr e.2 | None => inl "KeyError" end
    | _ => inl "TypeError"
    end;
  pyerr_to_string e := e;
  pyerr_value_str e := inr e;
|}.

(** A host as a Python object; [broken] says that it has lost its prices. *)
Section export.
Context {T : CashuTypes} {O : CashuOps} {A : Type} {SA : SpilmanHost A string} (broken : bool).
Definition py_opt {X} (f : X → PyVal) (o : option X) : PyVal := match o with Some x => f x | None => PyNone end.
Definition py_unit (r : Result string unit) : string + PyVal := match r with Ok _ => inr PyNone | _ => inl "error" end.
Definition py_text_result (r : Result string string) : string + PyVal :=
  match r with Ok s => inr (PyStr s) | Err e => inl e | Diverge => inl "" end.
Definition funding_val (f : ChannelFunding) : PyVal :=
  PyTup [PyStr (params_json f); PyStr (funding_proofs_json f); PyStr (channel_secret_hex f); PyStr (keyset_info_json f)].
Definition export_query (a : A) (method : string) (args : list PyVal) : string + PyVal :=
  match args with
  | [PyStr x] =>
      if String.eqb method "get_channel_state" then
        match get_channel_state a x with Ok s => inr (py_opt (λ s, PyStr (state_name s)) s) | _ => inl "error" end
      else if String.eqb method "get_balance_and_signature_for_unilateral_exit" then
        inr (py_opt (λ p, PyTup [PyInt (pp_balance p); PyStr (pp_signature p)])
               (get_balance_and_signature_for_unilateral_exit a x))
      else if String.eqb method "get_closing_data" then
        inr (py_opt (λ d, PyDict [("expiry_timestamp", PyInt (cd_expiry_timestamp d)); ("balance", PyInt (cd_balance d));
                                  ("signature", PyStr (cd_signature d))]) (host_get_closing_data a x))
      else if String.eqb method "receiver_key_is_acceptable" then
        match pubkey_from_str x with Ok k => inr (PyBool (receiver_key_is_acceptable a k)) | _ => inl "ValueError" end
      else if String.eqb method "get_channel_policy" then
        inr (py_opt (λ p, PyTup [PyInt (min_expiry_in_seconds p); PyInt (pol_min_capacity p);
                                 py_opt PyInt (pol_max_amount_per_output p)]) (get_channel_policy a x))
      else inl "AttributeError"
  | [PyStr x; PyStr y] =>
      if String.eqb method "compute_channel_secret" then py_text_result (host_compute_channel_secret a x y)
      else
        match id_from_str y with
        | Ok id =>
            if String.eqb method "mint_and_keyset_is_acceptable" then inr (PyBool (mint_and_keyset_is_acceptable a x id))
            else if String.eqb method "get_keyset_info" then inr (py_opt PyStr (get_keyset_info a x id))
            else inl "AttributeError"
        | _ => inl "ValueError"
        end
  | [] => if String.eqb method "now_seconds" then inr (PyInt (now_seconds a)) else inl "AttributeError"
  | _ => inl "AttributeError"
  end.
Definition export_call (a : A) (method : string) (args : list PyVal) : (string + PyVal) * A :=
  if String.eqb method "get_funding_and_params" then
    match args with
    | [PyStr c] => let '(r, a') := host_get_funding a c in (inr (py_opt funding_val r), a')
    | _ => (inl "TypeError", a)
    end
  else if String.eqb method "get_amount_due" then
    match args with
    | [PyStr c; ctx] =>
        if broken then (inl "price list not loaded", a)
        else
          let '(n, a') := get_amount_due a c (match ctx with PyStr s => Some s | _ => None end) in (inr (PyInt n), a')
    | _ => (inl "TypeError", a)
    end
  else if String.eqb method "save_funding" then
    match args with
    | [PyStr c; PyStr p; PyStr pr; PyStr s; PyStr k; PyInt b; PyStr sig] =>
        (inr PyNone, host_save_funding a c (mk_ChannelFunding p pr s k) (mk_PaymentProof b sig))
    | _ => (inl "TypeError", a)
    end
  else if String.eqb method "record_payment" then
    match args with
    | [PyStr c; PyInt b; PyStr sig; PyStr ctx] => (inr PyNone, record_payment a c (mk_PaymentProof b sig) ctx)
    | _ => (inl "TypeError", a)
    end
  else if String.eqb method "mark_channel_closing" then
    match args with
    | [PyStr c; PyInt t; PyInt b; PyStr sig] =>
        let '(r, a') := mark_channel_closing a c t (mk_PaymentProof b sig) in (py_unit r, a')
    | _ => (inl "TypeError", a)
    end
  else if String.eqb method "mark_channel_closed" then
    match args with
    | [PyStr c; PyInt t; PyInt b; PyStr rp; PyStr sp; PyInt rs; PyInt ss] =>
        let '(r, a') := mark_channel_closed a c t b rp sp rs ss in (py_unit r, a')
    | _ => (inl "TypeError", a)
    end
  else (inl "AttributeError", a).
Definition exported : PyObject A := {|
  py_query := export_query; py_call := export_call; py_has_attr _ _ := false;
|}.
End export.

Lemma export_implements {T : CashuTypes} {O : CashuOps} {A : Type} {SA : SpilmanHost A string} :
  PyImplements (PG:=exported (A:=A) false) (λ a : A, a) (λ _, True).
Proof.
  split.
  - intros g c s _ Hs. cbn. rewrite Hs. eexists. split; [reflexivity|]. by destruct s.
  - intros g c _. eexists. split; [reflexivity|].
    destruct (get_balance_and_signature_for_unilateral_exit g c) as [p|]; [|done]. cbn. eauto 10.
  - intros g c _. eexists. split; [reflexivity|]. destruct (host_get_closing_data g c) as [d|]; [|done]. cbn.
    split; [done|]. eexists _, _, _. split_and!; try (right; split; [eexists|]); reflexivity.
  - intros g c _. cbn. destruct (host_get_funding g c) as [r a']. eexists _, _. split; [reflexivity|]. split; [|done].
    destruct r as [f|]; [|done]. cbn. split; [done|]. eexists _, _, _, _. split_and!; reflexivity.
  - intros g c ctx _. destruct ctx as [s|]; cbn.
    + destruct (get_amount_due g c (Some s)). eexists _, _. split; [reflexivity|]. done.
    + destruct (get_amount_due g c None). eexists _, _. split; [reflexivity|]. done.
  - intros g c [p pr s k] [b sig] _ _. eexists _, _. split; [reflexivity|]. done.
  - intros g c [b sig] ctx _ _. eexists _, _. split; [reflexivity|]. done.
  - intros g c expiry [b sig] _. cbn. destruct (mark_channel_closing g c expiry _) as [r a'].
    eexists _, _. split; [reflexivity|]. split; [|done]. destruct r; cbn; eauto.
  - intros g c expiry b rp sp rs ss _. cbn. destruct (mark_channel_closed g c expiry b rp sp rs ss) as [r a'].
    eexists _, _. split; [reflexivity|]. split; [|done]. destruct r; cbn; eauto.
Qed.

(** ** The host of [Bridge.Examples] behind the Python binding *)

#[local] Existing Instance Toy.types.
#[local] Existing Instance Toy.ops.
#[local] Existing Instance Toy.json_laws.
Import Bridge.Examples Channel.Examples.
#[local] Existing Instance toy_host.
#[local] Existing Instance toy_host_spec.
Abbreviation Receiver := (ConfigurableHost MemoryStorage).
Abbreviation py_object := (exported (A:=Receiver) false).
Abbreviation py_broken := (exported (A:=Receiver) true).
Definition same_receiver (a : Receiver) : Receiver := a.
Definition always (a : Receiver) : Prop := True.
Lemma receiver_implements : PyImplements (PG:=py_object) same_receiver always.
Proof. exact export_implements. Qed.
Abbreviation py_served := (serve_all (SH:=python_host (PG:=py_object)) show_errors (host "sat") calls).
Lemma python_receiver_covered_witness :
  ∃ f p capacity,
    v_funding (hview (same_receiver py_served) cid) = Some f ∧ v_payment (hview (same_receiver py_served) cid) = Some p ∧
    authorized f (pp_balance p) (pp_signature p) ∧
    stored_capacity (params_json f) = Ok capacity ∧
    due (same_receiver py_served) cid None <= pp_balance p <= capacity.
Proof.
  assert (bool_decide (v_state (hview (same_receiver py_served) cid) = Some Open) = true) as Ho by (vm_compute; reflexivity).
  apply bool_decide_eq_true_1 in Ho.
  refine (python_receiver_covered (PG:=py_object) show_errors same_receiver always
    (PyImplements0:=receiver_implements) (host "sat") calls I host_wf0 host_empty _ cid Ho).
  split; [unfold call_ok, is_i63; lia|]. split; [|exact I].
  split; [unfold is_i63; lia|]. apply usage_ok.
  refine (bool_decide_eq_true_1 _ _). vm_compute. reflexivity.
Defined.

(** The price list is lost: the channel that was funded and has paid nothing is served. *)
Lemma python_failed_price_is_free_witness :
  (process_payment (SpilmanHost0:=python_host (PG:=py_broken)) show_errors cid 0 sig0 None None "req" funded).1
  = Ok (mk_PaymentSuccess cid 0 0 20).
Proof.
  assert (match py_get_funding (PG:=py_broken) funded cid with
          | (Some f, _) => bool_decide (f = stored) | _ => false end = true) as Hf by (vm_compute; reflexivity).
  destruct (py_get_funding (PG:=py_broken) funded cid) as [[f|] g1] eqn:Hget; [|discriminate Hf].
  apply bool_decide_eq_true_1 in Hf. subst f.
  rewrite (python_failed_price_is_free (PG:=py_broken) show_errors funded g1 g1 cid 0 sig0 None None "req" stored 20
    (inl "price list not loaded") "price list not loaded"); [reflexivity|..].
  - discriminate.
  - discriminate.
  - vm_compute. reflexivity.
  - exact Hget.
  - vm_compute. reflexivity.
  - lia.
  - apply (verify_signature_iff stored cid 0 sig0). vm_compute. reflexivity.
  - reflexivity.
  - reflexivity.
Defined.
(** The host itself asks for 2. *)
Example same_payment_refused :
  (process_payment show_errors cid 0 sig0 None None "req" funded).1 = Err (InsufficientBalance 0 2).
Proof. exact unpaid_request. Qed.

(** ** A fixed answer behind the Go binding *)

Section static.
Context {T : CashuTypes} {O : CashuOps}.
Definition static_funding : ChannelFunding := mk_ChannelFunding "{}" "[]" "00ff" "{}".
Definition static_payment : PaymentProof := mk_PaymentProof 5 "sig".
Definition static_closing : ClosingData := mk_ClosingData 2000 5 "sig".
Definition static_host : SpilmanHost unit string := {|
  receiver_key_is_acceptable _ _ := true;
  mint_and_keyset_is_acceptable _ _ _ := true;
  host_get_funding h _ := (Some static_funding, h);
  host_save_funding h _ _ _ := h;
  get_amount_due h _ _ := (3, h);
  record_payment h _ _ _ := h;
  get_channel_state _ c := if String.eqb c "lost" then Err "row is damaged" else Ok (Some Open);
  mark_channel_closing h _ _ _ := (Ok tt, h);
  host_get_closing_data _ _ := Some static_closing;
  get_channel_policy _ _ := None;
  now_seconds _ := 1000;
  get_balance_and_signature_for_unilateral_exit _ _ := Some static_payment;
  host_get_active_keyset_ids _ _ _ := [];
  has_keysets_for_unit _ _ _ := false;
  get_keyset_info _ _ _ := None;
  mark_channel_closed h _ _ _ _ _ _ _ := (Err "not closing", h);
  host_compute_channel_secret _ _ _ := Err "no key";
  sign_with_tweaked_key _ _ _ _ := Err "no key";
|}.
Definition cptr (s : string) : CPtr := Some (bytes_of_string s).
Definition static_callbacks : GoCallbacks unit := {|
  cb_receiver_key_is_acceptable _ _ := 1;
  cb_mint_and_keyset_is_acceptable _ _ _ := 1;
  cb_get_funding_and_params g _ := ((1, (cptr "{}", cptr "[]", cptr "00ff", cptr "{}")), g);
  cb_save_funding g _ _ _ _ _ _ _ := g;
  cb_get_amount_due g _ _ := (3, g);
  cb_record_payment g _ _ _ _ := g;
  cb_get_channel_state _ c := if String.eqb c "lost" then cptr "Err" else cptr "open";
  cb_mark_channel_closing g _ _ _ _ := (1, g);
  cb_get_closing_data _ _ := (1, (2000, 5, cptr "sig"));
  cb_get_channel_policy _ _ := (0, (0, 0, -1));
  cb_now_seconds _ := 1000;
  cb_get_balance_and_signature_for_unilateral_exit _ _ := (1, (5, cptr "sig"));
  cb_get_active_keyset_ids _ _ _ := None;
  cb_get_keyset_info _ _ _ := None;
  cb_call_mint_swap g _ _ := ((0, cptr "no mint"), g);
  cb_refresh_all_keysets g _ := (0, g);
  cb_compute_channel_secret _ _ _ := (0, cptr "no key");
  cb_sign_with_tweaked_key _ _ _ _ := (0, cptr "no key");
  cb_mark_channel_closed g _ _ _ _ _ _ _ := (0, g);
|}.
(** The callback writes the state without quotes around it. *)
Definition read_state (json : string) : option (string + option string) :=
  Some (if String.eqb json "Err" then inl "get_channel_state callback failed" else inr (Some json)).
Lemma static_implements :
  GoImplements (GC:=static_callbacks) (SA:=static_host) read_state (λ u : unit, u) (λ _, True).
Proof.
  assert (∀ s, utf8_valid (bytes_of_string s) = true → c_text (cptr s) s) as Htext.
  { intros s Hs. eexists. split; [reflexivity|]. by apply from_utf8_iff. }
  split; cbn.
  - intros g c s _ _. destruct (String.eqb c "lost"); [done|]. intros [= <-]. exists "open". split; [by apply Htext|done].
  - intros g c _ _. destruct (String.eqb c "lost"); [|done]. intros _. by eapply an_error; [apply Htext|].
  - intros g c _ _. split_and!; [done..|by apply Htext].
  - intros g c _ _. split_and!; [done..|by apply Htext].
  - intros g c _ _. split_and!; try done; by apply Htext.
  - done.
  - done.
  - done.
  - done.
  - done.
Qed.
End static.
Lemma go_host_agrees_witness :
  go_get_channel_state (GC:=static_callbacks) read_state tt cid = Ok (Some Open) ∧
  (∃ e, go_get_channel_state (GC:=static_callbacks) read_state tt "lost" = Err e) ∧
  ∃ g', go_get_amount_due (GC:=static_callbacks) (E:=string) cid (Some "req") tt = (Ok 3, g').
Proof.
  destruct (go_host_agrees (GC:=static_callbacks) (SA:=static_host) read_state (λ u : unit, u) (λ _, True)
    (GoImplements0:=static_implements) tt cid I ltac:(vm_compute; reflexivity)) as (Hs & _ & _ & _ & Hd & _).
  destruct (go_host_agrees (GC:=static_callbacks) (SA:=static_host) read_state (λ u : unit, u) (λ _, True)
    (GoImplements0:=static_implements) tt "lost" I ltac:(vm_compute; reflexivity)) as (Hl & _).
  split; [exact Hs|]. split; [exact Hl|]. destruct (Hd (Some "req") eq_refl) as (g' & Hg' & _). exists g'. exact Hg'.
Defined.
(** A channel id, and a mint, with a zero byte. *)
Definition nul : string := String Ascii.zero "".
Example go_state_checked :
  go_get_channel_state (GC:=static_callbacks) read_state tt ("chan" +:+ nul) = Err "invalid channel ID".
Proof. vm_compute. reflexivity. Qed.
Example go_mint_aborts :
  go_mint_and_keyset_is_acceptable (GC:=static_callbacks) (E:=string) tt ("http://mint" +:+ nul) (keyset_id keyset) = Diverge.
Proof. vm_compute. reflexivity. Qed.
