(* ===== verification/Minting.v ===== *)
(** * Tokens and minting for demos ([bindings.rs])

    The texts of tokens, and the flow that mints plain proofs over a caller's HTTP function:
    a quote, polled until it is paid, and the proofs. The flow makes a bounded number of
    requests, and asks for proofs only after the mint has reported the quote as paid. *)

From S2P Require Import Prelude Cashu Toy Amounts Params SwapCompletion Deterministic Channel Storage StorageSpec Host Funding Bindings.

(** [MintUrl::from_str], [TokenV3::new] and [Token::new] of the cashu crate, printed, and
    [CurrencyUnit::custom]. *)
Class TokenOps {T : CashuTypes} := {
  MintUrl : Type;
  mint_url_from_str : string → Result string MintUrl;
  token_v3_new : MintUrl → list Proof → CurrencyUnit → Result string string;
  token_v4_new : MintUrl → list Proof → CurrencyUnit → string;
  unit_sat : CurrencyUnit;
  unit_custom : string → CurrencyUnit;
}.

Section tokens.
Context {T : CashuTypes} {O : CashuOps} {TO : TokenOps}.
Definition build_cashu_a_token (mint_url proofs_json : string) : Result string string :=
  proofs ← map_err (λ e, "Failed to parse proofs: " +:+ e) (proofs_from_json proofs_json);
  mint_url ← map_err (λ e, "Invalid mint URL: " +:+ e) (mint_url_from_str mint_url);
  map_err (λ e, "Failed to create TokenV3: " +:+ e) (token_v3_new mint_url proofs unit_sat).
Definition build_cashu_b_token (mint_url unit proofs_json : string) : Result string string :=
  proofs ← map_err (λ e, "Failed to parse proofs: " +:+ e) (proofs_from_json proofs_json);
  mint_url ← map_err (λ e, "Invalid mint URL: " +:+ e) (mint_url_from_str mint_url);
  let currency_unit := match unit_from_str unit with Ok u => u | _ => unit_custom unit end in
  Ok (token_v4_new mint_url proofs currency_unit).
End tokens.

Section minting.
Context {T : CashuTypes} {O : CashuOps} {W : OpeningOps} {N : Type}.
(** [call_http(method, url, body)]. *)
Context (call_http : string → string → string → M N string string).

(** [for i in 0..attempts]; the sleep between two attempts is left out. *)
Fixpoint poll_quote (attempts : nat) (poll_url : string) : M N string unit :=
  match attempts with
  | 0%nat => lift (Ok tt)
  | Datatypes.S rest =>
      poll_resp ← call_http "GET" poll_url "";
      poll ← lift (map_err (λ e, "Failed to parse poll response: " +:+ e) (json_parse poll_resp));
      if bool_decide (idx_str poll "state" = Some "PAID") then lift (Ok tt)
      else match rest with
           | 0%nat => lift (Err "Timeout waiting for mint quote to be paid")
           | Datatypes.S _ => poll_quote rest poll_url
           end
  end.
Lemma poll_quote_step n poll_url :
  poll_quote (Datatypes.S n) poll_url
  = (poll_resp ← call_http "GET" poll_url "";
     poll ← lift (map_err (λ e, "Failed to parse poll response: " +:+ e) (json_parse poll_resp));
     if bool_decide (idx_str poll "state" = Some "PAID") then lift (Ok tt)
     else match n with
          | 0%nat => lift (Err "Timeout waiting for mint quote to be paid")
          | Datatypes.S _ => poll_quote n poll_url
          end).
Proof. done. Qed.
Definition mint_proofs_from_mint (rnd : Z) (mint_url : string) (amount_sat : Z) (keyset_info_json : string) :
    M N string string :=
  result_json ← lift (create_plain_blinded_messages rnd amount_sat keyset_info_json);
  result ← lift (map_err (λ e, "Failed to parse blinded messages result: " +:+ e) (json_parse result_json));
  let blinded_messages := default json_null (json_get result "blinded_messages") in
  let secrets_with_blinding := json_print (default json_null (json_get result "secrets_with_blinding")) in
  quote_resp ← call_http "POST" (mint_url +:+ "/v1/mint/quote/bolt11")
    (json_print (json_obj [("amount", json_num amount_sat); ("unit", json_str "sat")]));
  quote ← lift (map_err (λ e, "Failed to parse mint quote response: " +:+ e) (json_parse quote_resp));
  quote_id ← lift (ok_or "Missing 'quote' in mint quote response" (idx_str quote "quote"));
  _ ← poll_quote 60 (mint_url +:+ "/v1/mint/quote/bolt11/" +:+ quote_id);
  mint_resp ← call_http "POST" (mint_url +:+ "/v1/mint/bolt11")
    (json_print (json_obj [("quote", json_str quote_id); ("outputs", blinded_messages)]));
  mint_result ← lift (map_err (λ e, "Failed to parse mint response: " +:+ e) (json_parse mint_resp));
  signatures ← lift (ok_or "Missing 'signatures' in mint response" (json_get mint_result "signatures" ≫= json_as_array));
  lift (construct_proofs (json_print (json_arr signatures)) secrets_with_blinding keyset_info_json).
End minting.

(** ** The requests *)

Section log.
Context {T : CashuTypes} {O : CashuOps} {W : OpeningOps} {N : Type}.
Context (call_http : string → string → string → M N string string).

(** Requests are recorded with their answers. *)
Definition Entry : Type := (string * string * string) * Result string string.
Definition recorded (method url body : string) : M (N * list Entry) string string := λ x,
  let '(r, n) := call_http method url body x.1 in (r, (n, x.2 ++ [((method, url, body), r)])).
Definition says_paid (answer : Result string string) : Prop :=
  ∃ text v, answer = Ok text ∧ json_parse text = Ok v ∧ idx_str v "state" = Some "PAID".

Lemma poll_quote_log attempts url x :
  let '(r, y) := poll_quote recorded (S attempts) url x in
  ∃ polls, y.2 = x.2 ++ polls ∧ (length polls <= S attempts)%nat ∧ Forall (λ e, e.1 = ("GET", url, "")) polls ∧
    (r = Ok tt → ∃ e, last polls = Some e ∧ says_paid e.2).
Proof.
  revert x. induction attempts as [|attempts IH]; intros x; rewrite poll_quote_step.
  all: unfold mbind, M_bind, recorded at 1, lift.
  all: destruct (call_http "GET" url "" x.1) as [[text|e|] n] eqn:Hc; cbn [snd].
  all: try (eexists [_]; split_and!; [done|cbn; lia|by repeat constructor|done]).
  all: destruct (json_parse text) as [v|e|] eqn:Hp; cbn [map_err].
  all: try (eexists [_]; split_and!; [done|cbn; lia|by repeat constructor|done]).
  all: case_bool_decide as Hpaid.
  all: try (eexists [_]; split_and!; [done|cbn; lia|by repeat constructor|]; intros _; eexists; split; [done|];
            eexists _, v; split_and!; done).
  - eexists [_]. split_and!; [done|cbn; lia|by repeat constructor|done].
  - specialize (IH (n, x.2 ++ [(("GET", url, ""), Ok text)])).
    destruct (poll_quote recorded (S attempts) url _) as [r y]. destruct IH as (polls & Hy & Hlen & Hall & Hlast).
    eexists (_ :: polls). split_and!; [rewrite Hy; cbn; by rewrite <-(assoc_L (++))|cbn; lia|by constructor|].
    intros Hr. destruct (Hlast Hr) as (e & He & Hs). exists e. split; [|done]. by rewrite last_cons, He.
Qed.

(** A run makes at most one request for a quote, sixty polls and one request for proofs, in
    this order, and asks for proofs only after a poll that said the quote is paid. *)
Theorem minting_is_bounded rnd mint_url amount keyset_info n :
  ∃ quote polls mint,
    (mint_proofs_from_mint recorded rnd mint_url amount keyset_info (n, [])).2.2 = quote ++ polls ++ mint ∧
    (length quote <= 1)%nat ∧ (length polls <= 60)%nat ∧ (length mint <= 1)%nat ∧
    Forall (λ e, e.1.1.1 = "GET") polls ∧
    (mint ≠ [] → ∃ e, last polls = Some e ∧ says_paid e.2).
Proof.
  unfold mint_proofs_from_mint. unfold mbind at 1, M_bind at 1, lift at 1.
  destruct (create_plain_blinded_messages _ _ _) as [js|e|]; [|by exists [], [], []; split_and!; [done|cbn; lia|cbn; lia|cbn; lia|constructor|done]..].
  unfold mbind at 1, M_bind at 1, lift at 1.
  destruct (map_err _ (json_parse js)) as [v|e|]; [|by exists [], [], []; split_and!; [done|cbn; lia|cbn; lia|cbn; lia|constructor|done]..].
  unfold mbind at 1, M_bind at 1, recorded at 1. cbn [fst snd].
  destruct (call_http "POST" _ _ n) as [[text|e|] n1]; cbn [snd app]; [|by eexists [_], [], []; split_and!; [done|cbn; lia|cbn; lia|cbn; lia|constructor|done]..].
  unfold mbind at 1, M_bind at 1, lift at 1.
  destruct (map_err _ (json_parse text)) as [q|e|]; [|by eexists [_], [], []; split_and!; [done|cbn; lia|cbn; lia|cbn; lia|constructor|done]..].
  unfold mbind at 1, M_bind at 1, lift at 1.
  destruct (ok_or _ (idx_str q "quote")) as [id|e|]; [|by eexists [_], [], []; split_and!; [done|cbn; lia|cbn; lia|cbn; lia|constructor|done]..].
  unfold mbind at 1, M_bind at 1.
  match goal with |- context [poll_quote recorded 60 ?u ?x] => pose proof (poll_quote_log 59 u x) as Hp end.
  destruct (poll_quote recorded 60 _ _) as [[[]|e|] [n2 log]]; destruct Hp as (polls & Hy & Hlen & Hall & Hpaid);
    cbn [snd] in Hy; subst log; cbn [snd].
  all: assert (Forall (λ e : Entry, e.1.1.1 = "GET") polls) as Hget by (eapply Forall_impl; [exact Hall|by intros ? ->]).
  2, 3: eexists [_], polls, []; split_and!; [by rewrite app_nil_r|cbn; lia|lia|cbn; lia|done|done].
  unfold mbind at 1, M_bind at 1, recorded at 1. cbn [fst snd].
  destruct (call_http "POST" _ _ n2) as [r n3].
  match goal with |- context [([?a] ++ polls) ++ [?b]] => exists [a], polls, [b] end.
  split_and!; [|cbn; lia|lia|cbn; lia|done|intros _; by apply Hpaid].
  destruct r as [t|e|]; cbn [snd]; [|by rewrite <-(assoc_L (++))..].
  rewrite (assoc_L (++)). unfold mbind, M_bind, lift.
  destruct (map_err _ (json_parse t)); [|done..]. by destruct (ok_or _ _).
Qed.
End log.
